(* ===== verification/_CoqProject ===== *)
-Q . S2P
Prelude.v
CMem.v
Chain.v
SegHeap.v
FirstFit.v
MyMalloc.v
MyMallocSpec.v
BlockWord.v
Timer.v
MyAlloc.v
WordHeap.v
LibHeapSpec.v
Disk.v
Inode.v
InodeSpec.v
Sfs.v
SfsInv.v
SfsWrite.v
SfsOps.v
SfsSpec.v
SfsModel.v
SfsPast.v
SfsLimit.v
SfsSystem.v
SfsMain.v
SfsRefine.v
SfsSafety.v
Queue.v
Sched.v
QueueSpec.v
PageSpec.v
SchedSpec.v
SchedStep.v
ScheduleSpec.v
MaintSpec.v
Fairness.v
Mutex.v
MutexSpec.v
PagingSpec.v
ThreadHeap.v
Growth.v
Evict.v
ThreadHeapSpec.v
HeapGrowth.v
ThreadAlloc.v
AlignSpec.v
PageReturn.v
FullMemory.v
SpillSpec.v
Frame.v
PagesKept.v
SystemInv.v
InitSpec.v
CreateSpec.v
MaintInv.v
JoinInv.v
SystemStep.v
SystemCalls.v
SystemSpec.v
