(* ===== verification/Prelude.v ===== *)
(** * OS2017: a verification library

    The repository holds three C programs of an operating systems course: the
    allocator [src/MallocStuff/mymalloc.c], the user-level thread library with
    its paged allocator [src/my_pthread/my_pthread.c], and the file system
    [src/assignment3/src/sfs.c] on the block device [block.c] of the same
    directory.  This library models them and proves what makes them correct,
    and where they are not, what they do instead.

    ** How C is modelled

    A C computation is a function from a state to a [result]: a value with the
    new state, a [Fault] (undefined behaviour: NULL, out of bounds, signed
    overflow) or the end of the process ([Exit]); [M] is the monad.  Integers
    are [Z], wrapped where C wraps them.  Memory is a function from addresses
    to bytes (file [CMem]) where the code computes addresses, and a finite map
    from addresses to records where it only follows pointers ([Chain]).  Loops
    take fuel; [OutOfFuel] is the fault of a loop that got too little, and
    every theorem shows that it is not reached: a walk over blocks gets a step
    for every word of the region, a walk over a linked list one for every cell
    of the map, the loop that wakes joined threads the square of that.

    ** The files

    Shared: [Prelude] (this file: results, the monad, machine integers,
    tactics), [CMem] (bytes, loads, stores, buffers), [Chain] (linked lists).

    First-fit allocation: [SegHeap] is the abstract heap, a list of segments
    with [seg_alloc] and [seg_free].  [FirstFit] proves the two list walks
    against it over the class [HeaderOps], which says what a header promises.
    - [MyMalloc], [MyMallocSpec]: [mymalloc.c], 16-byte headers in a 5000-byte
      array.  [mymalloc] and [myfree] refine the abstract heap, a disciplined
      client never faults and never sees its blocks overlap, a release undoes
      an allocation, a double release is reported.
    - [BlockWord]: the packed words of [my_pthread.c], block headers and
      page-table entries, with their bit fields; identifiers over 255 spill.
    - [MyAlloc]: the paged allocator: [myallocate], [mydeallocate], the page
      tables, the swap file, [sigHandler], [alignPages], [protectAllPages],
      [freePages].  An access to a protected page runs the handler ([touch]).
    - [WordHeap]: the two walks on packed headers, over any interval of memory
      that is open; [LibHeapSpec]: library requests refine the abstract heap.
    - [PageSpec], [PagingSpec]: page protection, and what a page fault does:
      the handler brings the right page, from memory or from the swap file, or
      ends the process.
    - [ThreadHeap]: the pages of the running thread, and what [alignPages],
      [moveToFreeSpace] and [initializePage] do to them and to the pages of the
      others.  [Growth]: the interface of a heap that grows by pages, and
      [gatherPages] against it; its instances are growth into free pages of
      memory (there) and into the swap file too ([Evict]).  [ThreadHeapSpec]:
      the search and the release in those pages; [HeapGrowth]: a request that
      makes the heap grow, for any instance.
    - [ThreadAlloc]: the requests of a thread refine the abstract heap, and runs
      in which the code breaks what it promises a thread
      ([displaced_heap_exposed], [thread_block_overruns],
      [displaced_free_fails]).  [AlignSpec]: what [alignPages] does to any state
      of the tables: which pages it opens, which it exchanges, which it leaves.
      [PageReturn]: a page moved out of the way
      comes back whole at the first access of its owner.  [FullMemory]: the same
      for a page sent to the swap file, and the first request that sends one
      there.  [SpillSpec]: a heap that grows when memory has too few free
      pages, and what happens at the end of memory.
    - [PagesKept]: no run of requests, releases, accesses and page faults of a
      thread loses a page or puts one in two places.

    Threads: [Timer] (the interval timer that [pause_timer] and
    [unpause_timer] stop and start), [Queue] (nodes, run queues, join list,
    thread records), [Sched] ([schedule] and its handlers, [maintenance],
    [initialize], [my_pthread_create], [my_pthread_yield], [my_pthread_exit],
    [my_pthread_join]), [Mutex].  A [swapcontext] ends a computation, with the
    two nodes as its result: what runs between two calls of the library is
    the program's.
    - [QueueSpec]: every queue operation is the list operation it implements,
      under the representation [rep].
    - [SchedSpec], [SchedStep], [ScheduleSpec]: the abstract scheduler [view]
      and its step [v_schedule]; [schedule] refines it for every status, loses
      no thread, sets the quantum and closes the pages of the thread that
      stops.
    - [Fairness]: bounded waiting in the first run queue.
    - [MaintSpec]: maintenance permutes the threads; who goes where.
    - [MutexSpec]: the accesses of lock and unlock as a step relation, mutual
      exclusion by rule induction, and the interleaving that breaks it; the
      list of mutexes under [my_pthread_mutex_init] and
      [my_pthread_mutex_destroy].

    The library as a whole:
    - [Frame]: the class [Keeps], by which the type class search shows what a
      call leaves alone.
    - [SystemInv]: the invariant [sys] of the scheduler and the library heap
      together, and the requests the scheduler makes of the heap.
    - [InitSpec]: [initialize] establishes it.  [CreateSpec]:
      [my_pthread_create] implements the abstract creation of a thread, how it
      fails, and what it does to the timer.  [MaintInv]: maintenance keeps it.
    - [JoinInv]: what holds, between two calls, of the threads that wait in
      [my_pthread_join] or returned from it, and when a thread is lost.
      [SystemStep]: every step of the scheduler keeps both and brings no lost
      thread back.  [SystemCalls]: so do the entry points.
    - [SystemSpec]: the states a program can bring the library to, by calls that
      are [allowed], preemptions, requests and releases of memory and writes to
      its own pages ([own_work]); by rule induction the invariant holds in all of
      them, and every allowed call returns ([library_safety]).  In the same
      system a thread that returned from [my_pthread_join] is lost at its next
      preemption, for ever ([joined_thread_lost]).
    - [allowed] asks for a record nobody uses and room for the node of a new
      thread (without room [createNode] dereferences NULL, [create_fails]); for
      somebody to take the processor when a thread waits, ends or is preempted
      (a preempted thread that stays runnable can take it again); for room for
      the counters in the call that runs [maintenance]; and for the cases
      [request_ok] and [release_ok] of requests and releases, outside of which
      the code can fault ([memory_end_overruns]) or write outside the pages of
      the thread ([thread_block_overruns]).  The mutex calls are in [MutexSpec]
      only.

    The file system: [Disk] ([block.c]), [Inode] (the structures on the disk),
    [Sfs] (the handlers FUSE calls).  [InodeSpec]: the maps and the inode
    table.  [SfsInv]: the invariant of a mounted disk.  [SfsWrite], [SfsOps]:
    the loops.  [SfsSpec]: create, write, read, unlink, lookup, listing and
    mounting, on the abstract contents of files.
    - [SfsModel]: the disk as a map [abs] from inode numbers to files: path,
      mode, links and bytes.  [SfsPast]: writes that start behind the end of
      the file.  [SfsLimit]: writes that reach the largest size.
    - [SfsSystem]: the table [sfs_oper], the requests FUSE makes of it, and the
      abstract step [fs_step] of each on the map of files.  [SfsRefine]: every
      handler refines its step on the disks [mounted] describes, for the
      requests [allowed] describes.  [SfsSafety]: so does every sequence of
      requests and remounts that starts with a new disk, and files survive a
      remount.
    - [SfsMain]: [main] with [log_open], on every command line.

    [allowed] leaves out what the code gets wrong: a write far behind the end of
    a file, a write to the last byte of a file of the largest size (which faults,
    [write_at_limit]), a create on a full disk (which loses an inode,
    [file_create_correct]), a removal that would free a block of another file
    ([file_unlink_correct]), a read past the last block of the file.

    ** Parameters

    The page size, the address [posix_memalign] returns, what uninitialised
    stack memory holds, the values of [clock] and [time], the size of
    [ucontext_t], the address of [myblock].  [pread], [pwrite], [setitimer],
    [mprotect] and [memcpy] are modelled by their documentation.

    ** Not modelled

    The printing functions of [log.c] and the messages of [printf] beyond which
    one is printed (pure output), [fuse.h] (vendored), the test drivers [test]
    and [main] of [my_pthread.c] and those of the test directories, [benchmark],
    [setUpSignal] and [deleteFile] (calls of the C library only), the time
    that passes between two calls, failures of the host file system other
    than a closed descriptor, and the contents of a saved context.

    ** Limits of the theorems

    The theorems about the requests of threads assume that the pages of the
    thread are in place, so that no fault happens in the middle of a request; a
    fault by itself is in [PagingSpec].  [SystemSpec] says of the heap of a thread
    only that a request or a release returns and leaves the library alone; what
    it does to the heap is in the files on threads.  Between two calls a program
    may change all of user space, the page tables and the swap file there.
    [setitimer] is taken to succeed: [pause_timer] leaves the interval it passes
    unset, and what it holds is the parameter [stack].  [disk_close] keeps the
    number of the descriptor, as the code does, and the host does not give the
    number to another file.  The page tables, the nodes and the records of the
    threads are lists and finite maps, not bytes of the memory the allocator
    hands out; the blocks they lie in are, and [sys] says that every node has
    one. *)

From Stdlib Require Export ZArith Lia.
From stdpp Require Export base numbers option list.
From stdpp Require Export gmap.

#[global] Open Scope Z_scope.

(** ** Outcomes of C code

    A C computation returns, runs into undefined behaviour, or ends the
    process.  [OutOfFuel] is the artefact of bounding a loop: every
    theorem about a loop shows that it is not reached. *)
Inductive fault :=
  | NullDeref
  | OutOfBounds
  | SignedOverflow
  | OutOfFuel.

Inductive result (A : Type) :=
  | Ok (a : A)
  | Fault (e : fault)
  | Exit (code : Z).
Arguments Ok {A} a.
Arguments Fault {A} e.
Arguments Exit {A} code.

#[export] Instance fault_eq_dec : EqDecision fault.
Proof. solve_decision. Defined.

#[export] Instance result_ret : MRet result := fun A a => Ok a.
#[export] Instance result_bind : MBind result := fun A B f r =>
  match r with
  | Ok a => f a
  | Fault e => Fault e
  | Exit c => Exit c
  end.

Definition is_ok {A} (r : result A) : bool :=
  match r with Ok _ => true | _ => false end.

(** Stateful code: a state is threaded through, and lost on a fault. *)
Definition M (S A : Type) : Type := S -> result (A * S).

#[export] Instance M_ret {S} : MRet (M S) := fun A a s => Ok (a, s).
#[export] Instance M_bind {S} : MBind (M S) := fun A B f m s =>
  match m s with
  | Ok (a, s') => f a s'
  | Fault e => Fault e
  | Exit c => Exit c
  end.

Definition get {S} : M S S := fun s => Ok (s, s).
Definition put {S} (s : S) : M S unit := fun _ => Ok (tt, s).
Definition gets {S A} (f : S -> A) : M S A := fun s => Ok (f s, s).
Definition modify {S} (f : S -> S) : M S unit := fun s => Ok (tt, f s).
Definition raise {S A} (e : fault) : M S A := fun _ => Fault e.
Definition exit_with {S A} (c : Z) : M S A := fun _ => Exit c.
Definition lift {S A} (r : result A) : M S A := fun s =>
  match r with
  | Ok a => Ok (a, s)
  | Fault e => Fault e
  | Exit c => Exit c
  end.
Definition when {S} (b : bool) (m : M S unit) : M S unit :=
  if b then m else mret tt.

(** The equations that run a computation whose first step is known. *)
Section monad_laws.
Context {S A B : Type}.

Lemma bind_ok_l (m : M S A) (f : A -> M S B) s a s' :
  m s = Ok (a, s') -> (m ≫= f) s = f a s'.
Proof. intros E. unfold mbind, M_bind. by rewrite E. Qed.

Lemma bind_fault_l (m : M S A) (f : A -> M S B) s e :
  m s = Fault e -> (m ≫= f) s = Fault e.
Proof. intros E. unfold mbind, M_bind. by rewrite E. Qed.

Lemma bind_ok_inv (m : M S A) (f : A -> M S B) s r :
  (m ≫= f) s = Ok r -> exists a s', m s = Ok (a, s') /\ f a s' = Ok r.
Proof.
  unfold mbind, M_bind. destruct (m s) as [[a s']|e|c]; try discriminate.
  eauto.
Qed.

Lemma bind_result_ok_inv (m : result A) (f : A -> result B) r :
  (m ≫= f) = Ok r -> exists a, m = Ok a /\ f a = Ok r.
Proof. destruct m; cbn; try discriminate. eauto. Qed.

(** [m] returns from [s], in a way that satisfies [Q]. *)
Definition returns (m : M S A) (s : S) (Q : A -> S -> Prop) : Prop :=
  exists a s', m s = Ok (a, s') /\ Q a s'.
End monad_laws.

Lemma returns_step {S A B} (m : M S A) (f : A -> M S B) s a s' Q :
  m s = Ok (a, s') -> returns (f a) s' Q -> returns (m ≫= f) s Q.
Proof. intros E (b & s2 & Ef & HQ). exists b, s2. by rewrite (bind_ok_l _ _ _ _ _ E). Qed.

(** ** Machine integers *)

(** [wrap w z] is the value of [z] stored in an unsigned [w]-bit integer. *)
Definition wrap (w z : Z) : Z := z mod 2 ^ w.

(** [swrap w z] is the value of [z] converted to a signed [w]-bit integer. *)
Definition swrap (w z : Z) : Z := (z + 2 ^ (w - 1)) mod 2 ^ w - 2 ^ (w - 1).

Definition fits_int (z : Z) : bool := (- 2 ^ 31 <=? z) && (z <? 2 ^ 31).

Lemma wrap_small w z : 0 <= z < 2 ^ w -> wrap w z = z.
Proof. intros. by apply Z.mod_small. Qed.

Lemma wrap_bounds w z : 0 <= w -> 0 <= wrap w z < 2 ^ w.
Proof. intros. apply Z.mod_pos_bound. by apply Z.pow_pos_nonneg. Qed.

Lemma swrap_small w z :
  0 < w -> - 2 ^ (w - 1) <= z < 2 ^ (w - 1) -> swrap w z = z.
Proof.
  intros Hw Hz. unfold swrap.
  assert (2 ^ w = 2 * 2 ^ (w - 1)) as E
    by (rewrite <- Z.pow_succ_r by lia; f_equal; lia).
  rewrite Z.mod_small; lia.
Qed.

(** ** Shared automation *)

Create HintDb cdb discriminated.
#[export] Hint Constants Opaque : cdb.

(** [bcase] destructs the test of the first [if] of the goal and turns it
    into a proposition. *)
Ltac bprop :=
  repeat match goal with
  | H : negb _ = true |- _ => apply negb_true_iff in H
  | H : negb _ = false |- _ => apply negb_false_iff in H
  | H : (_ && _) = true |- _ => apply andb_true_iff in H; destruct H
  | H : (_ || _) = false |- _ => apply orb_false_iff in H; destruct H
  | H : (_ <=? _) = true |- _ => apply Z.leb_le in H
  | H : (_ <=? _) = false |- _ => apply Z.leb_gt in H
  | H : (_ <? _) = true |- _ => apply Z.ltb_lt in H
  | H : (_ <? _) = false |- _ => apply Z.ltb_ge in H
  | H : (_ =? _) = true |- _ => apply Z.eqb_eq in H
  | H : (_ =? _) = false |- _ => apply Z.eqb_neq in H
  end.

Ltac bcase :=
  match goal with
  | |- context [if ?b then _ else _] => destruct b eqn:?; bprop
  end.

(** Tests that arithmetic decides. *)
Lemma Zleb_t a b : a <= b -> (a <=? b) = true.
Proof. apply Z.leb_le. Qed.
Lemma Zleb_f a b : b < a -> (a <=? b) = false.
Proof. apply Z.leb_gt. Qed.
Lemma Zltb_t a b : a < b -> (a <? b) = true.
Proof. apply Z.ltb_lt. Qed.
Lemma Zltb_f a b : b <= a -> (a <? b) = false.
Proof. apply Z.ltb_ge. Qed.
Lemma Zeqb_t a b : a = b -> (a =? b) = true.
Proof. apply Z.eqb_eq. Qed.
Lemma Zeqb_f a b : a <> b -> (a =? b) = false.
Proof. apply Z.eqb_neq. Qed.

(** [btests] rewrites every comparison of the goal that [lia] decides. *)
Ltac btest1 :=
  match goal with
  | |- context [?a <=? ?b] =>
      first [rewrite (Zleb_t a b) by lia | rewrite (Zleb_f a b) by lia]
  | |- context [?a <? ?b] =>
      first [rewrite (Zltb_t a b) by lia | rewrite (Zltb_f a b) by lia]
  | |- context [?a =? ?b] =>
      first [rewrite (Zeqb_t a b) by lia | rewrite (Zeqb_f a b) by lia]
  end.
Ltac btests := repeat (btest1; cbn [negb andb orb]).

(** [mstep by t] runs the first step of a monadic computation, whose result
    [t] proves. *)
Tactic Notation "mstep" "by" tactic3(t) := erewrite bind_ok_l by t; cbv beta iota.
