(* ===== verification/CMem.v ===== *)
(** * Byte-addressed memory

    The memory the allocators work on: a byte at every address, little-endian
    loads and stores of [n] bytes as an x86-64 compiler emits them for the
    fields of a C structure, and [memcpy].  A cell is read modulo 256, so a
    memory is any function from addresses to integers. *)

From S2P Require Import Prelude.

Definition mem : Type := Z -> Z.

Definition load8 (m : mem) (a : Z) : Z := m a mod 256.

Fixpoint load (n : nat) (m : mem) (a : Z) : Z :=
  match n with
  | O => 0
  | S n' => load8 m a + 256 * load n' m (a + 1)
  end.

Definition store (n : nat) (m : mem) (a v : Z) : mem := fun x =>
  if (a <=? x) && (x <? a + Z.of_nat n)
  then Z.shiftr v (8 * (x - a)) mod 256
  else m x.

Definition memcpy (m : mem) (dst src n : Z) : mem := fun x =>
  if (dst <=? x) && (x <? dst + n) then m (src + (x - dst)) else m x.

(** ** Agreement of memories on a set of addresses *)

Definition agree (P : Z -> Prop) (m m' : mem) : Prop :=
  forall x, P x -> m' x = m x.

#[export] Instance agree_refl P : Reflexive (agree P).
Proof. by intros m x. Qed.

#[export] Instance agree_trans P : Transitive (agree P).
Proof. intros m1 m2 m3 H1 H2 x Hx. rewrite H2, H1; done. Qed.

Lemma agree_weaken (P Q : Z -> Prop) m m' :
  agree P m m' -> (forall x, Q x -> P x) -> agree Q m m'.
Proof. intros H HQ x Hx. auto. Qed.

(** ** Loads and stores *)

Lemma load_ext n m m' a :
  (forall x, a <= x < a + Z.of_nat n -> m' x = m x) -> load n m' a = load n m a.
Proof.
  revert a. induction n as [|n IH]; intros a H; cbn [load]; [done|].
  unfold load8. rewrite H by lia. rewrite IH; [done|]. intros x Hx. apply H. lia.
Qed.

Lemma load_bounds n m a : 0 <= load n m a < 256 ^ Z.of_nat n.
Proof.
  revert a. induction n as [|n IH]; intros a; [cbn; lia|].
  cbn [load]. specialize (IH (a + 1)).
  assert (0 <= load8 m a < 256) by (apply Z.mod_pos_bound; lia).
  rewrite Nat2Z.inj_succ, Z.pow_succ_r by lia. nia.
Qed.

Lemma load_of_value n m a b v :
  a <= b ->
  (forall x, b <= x < b + Z.of_nat n -> m x = Z.shiftr v (8 * (x - a)) mod 256) ->
  load n m b = Z.shiftr v (8 * (b - a)) mod 256 ^ Z.of_nat n.
Proof.
  revert b. induction n as [|n IH]; intros b Hab H.
  { cbn [load]. by rewrite Z.mod_1_r. }
  cbn [load]. rewrite IH; [|lia|intros x Hx; apply H; lia].
  unfold load8. rewrite H by lia.
  rewrite Z.mod_mod by lia.
  replace (8 * (b + 1 - a)) with (8 * (b - a) + 8) by lia.
  rewrite <- Z.shiftr_shiftr by lia.
  rewrite (Z.shiftr_div_pow2 _ 8) by lia. change (2 ^ 8) with 256.
  rewrite Nat2Z.inj_succ, Z.pow_succ_r by lia.
  rewrite Z.rem_mul_r; [done|lia|]. apply Z.pow_pos_nonneg; lia.
Qed.

Lemma load_store_same n m a v : load n (store n m a v) a = v mod 256 ^ Z.of_nat n.
Proof.
  rewrite (load_of_value n _ a a v); [|lia|].
  - by rewrite Z.sub_diag, Z.shiftr_0_r.
  - intros x Hx. unfold store. by btests.
Qed.

Lemma store_other n m a v x :
  x < a \/ a + Z.of_nat n <= x -> store n m a v x = m x.
Proof.
  intros H. unfold store. destruct H.
  - rewrite (Zleb_f a x) by lia. done.
  - rewrite (Zltb_f x) by lia. by rewrite andb_false_r.
Qed.

Lemma load_store_other k n m a b v :
  b + Z.of_nat k <= a \/ a + Z.of_nat n <= b ->
  load k (store n m a v) b = load k m b.
Proof. intros H. apply load_ext. intros x Hx. apply store_other. lia. Qed.

Lemma memcpy_in m d s n x : d <= x < d + n -> memcpy m d s n x = m (s + (x - d)).
Proof. intros H. unfold memcpy. by btests. Qed.

Lemma memcpy_out m d s n x : x < d \/ d + n <= x -> memcpy m d s n x = m x.
Proof.
  intros H. unfold memcpy. destruct H.
  - rewrite (Zleb_f d x) by lia. done.
  - rewrite (Zltb_f x) by lia. by rewrite andb_false_r.
Qed.

Lemma store_agree (P : Z -> Prop) n m a v :
  (forall x, P x -> x < a \/ a + Z.of_nat n <= x) -> agree P m (store n m a v).
Proof. intros H x Hx. apply store_other. auto. Qed.

(** ** Buffers: [n] bytes copied out of and into memory *)

Definition slice (m : mem) (src : Z) : Z -> Z := fun k => m (src + k).

Definition blit (m : mem) (dst n : Z) (buf : Z -> Z) : mem := fun x =>
  if (dst <=? x) && (x <? dst + n) then buf (x - dst) else m x.

Lemma blit_in m d n b k : 0 <= k < n -> blit m d n b (d + k) = b k.
Proof. intros H. unfold blit. btests. f_equal. lia. Qed.

Lemma blit_out m d n b x : x < d \/ d + n <= x -> blit m d n b x = m x.
Proof.
  intros H. unfold blit. destruct H.
  - by rewrite (Zleb_f d x) by lia.
  - rewrite (Zltb_f x) by lia. by rewrite andb_false_r.
Qed.

Lemma blit0_in m n b k : 0 <= k < n -> blit m 0 n b k = b k.
Proof. exact (blit_in m 0 n b k). Qed.

Lemma load_blit_other k m d n b a :
  a + Z.of_nat k <= d \/ d + n <= a -> load k (blit m d n b) a = load k m a.
Proof. intros H. apply load_ext. intros x Hx. apply blit_out. lia. Qed.
