(* ===== verification/Chain.v ===== *)
(** * Linked lists in finite maps

    The cells of a C linked list are the values of a finite map, keyed by their
    addresses and linked by a field.  The queues, the join list, the list of
    threads and the list of mutexes are such chains. *)

From S2P Require Import Prelude.

Section chain.
Context {A : Type} (next : A -> Z).

(** The cells [l], from address [a] on, and a last link to [b]. *)
Fixpoint chain (m : gmap Z A) (a : Z) (l : list Z) (b : Z) : Prop :=
  match l with
  | [] => a = b
  | x :: l' => a = x /\ x <> 0 /\ exists n, m !! x = Some n /\ chain m (next n) l' b
  end.

Lemma chain_lookup m a l b y :
  chain m a l b -> y ∈ l -> y <> 0 /\ exists n, m !! y = Some n.
Proof.
  revert a. induction l as [|x l IH]; intros a Hl Hy; [by apply elem_of_nil in Hy|].
  destruct Hl as (-> & Hx & n & En & Hl). apply elem_of_cons in Hy as [->|Hy]; eauto.
Qed.

Lemma chain_app m a l1 l2 b :
  chain m a (l1 ++ l2) b <-> exists c, chain m a l1 c /\ chain m c l2 b.
Proof.
  revert a. induction l1 as [|x l IH]; intros a; cbn.
  - split; [eauto|]. by intros (c & -> & ?).
  - split.
    + intros (-> & ? & n & En & (c & ? & ?)%IH). exists c. split; [|done]. eauto 6.
    + intros (c & (-> & ? & n & En & Hl) & ?). split; [done|]. split; [done|].
      exists n. split; [done|]. apply IH. eauto.
Qed.

(** A chain only depends on the links of its own cells. *)
Lemma chain_frame m m' a l b :
  (forall y n, y ∈ l -> m !! y = Some n -> exists n', m' !! y = Some n' /\ next n' = next n) ->
  chain m a l b -> chain m' a l b.
Proof.
  revert a. induction l as [|x l IH]; intros a Hf Hl; [done|].
  destruct Hl as (-> & Hx & n & En & Hl).
  destruct (Hf x n ltac:(set_solver) En) as (n' & En' & Enx).
  split; [done|]. split; [done|]. exists n'. split; [done|]. rewrite Enx.
  apply IH; [|done]. intros y my Hy. apply Hf. set_solver.
Qed.

(** The last link of a chain changes. *)
Lemma chain_redirect m m' a l b r b' :
  chain m a l b -> last l = Some r -> NoDup l ->
  (forall nr, m !! r = Some nr -> exists nr', m' !! r = Some nr' /\ next nr' = b') ->
  (forall y n, y ∈ l -> y <> r -> m !! y = Some n ->
     exists n', m' !! y = Some n' /\ next n' = next n) ->
  chain m' a l b'.
Proof.
  intros Hl Hlast Hnd Hr Hf. revert a Hl.
  apply last_Some in Hlast as (l1 & ->). intros a (c & H1 & H2)%chain_app.
  destruct H2 as (-> & Hr0 & n & En & _). destruct (Hr n En) as (n' & En' & Enx).
  apply NoDup_app in Hnd as (_ & Hnd & _).
  apply chain_app. exists r. split.
  - eapply chain_frame; [|exact H1]. intros y my Hy Em. apply Hf; [set_solver| |done].
    intros ->. apply (Hnd r Hy). set_solver.
  - split; [done|]. split; [done|]. by exists n'.
Qed.

(** A chain is no longer than the map of its cells. *)
Lemma chain_size m a l b : chain m a l b -> NoDup l -> (length l <= size m)%nat.
Proof.
  intros Hl Hnd. rewrite <- size_dom, <- (size_list_to_set (C := gset Z)) by done.
  apply subseteq_size. intros y Hy%elem_of_list_to_set. apply elem_of_dom.
  by destruct (chain_lookup _ _ _ _ y Hl Hy).
Qed.

(** The address of a list that ends in NULL tells whether it is empty. *)
Lemma chain_null m a l : chain m a l 0 -> (a =? 0) = match l with [] => true | _ => false end.
Proof.
  destruct l as [|x l]; cbn; [intros ->; done|]. intros (-> & Hx & _). by apply Zeqb_f.
Qed.
End chain.

Arguments chain_lookup {A next} m a l b y.
Arguments chain_app {A next} m a l1 l2 b.
Arguments chain_frame {A next} m m' a l b.
Arguments chain_redirect {A next} m m' a l b r b'.
Arguments chain_size {A next} m a l b.
Arguments chain_null {A next} m a l.
