(* ===== verification/SegHeap.v ===== *)
(** * Segmented heaps

    What a first-fit allocator with in-band headers promises, free of the
    layout of its headers: the heap is a list of segments that tile it, a
    segment being [hdr] bytes of header followed by its payload.  Both
    allocators of the repository (16-byte headers in [MallocStuff/mymalloc.c],
    packed 4-byte headers in [my_pthread/my_pthread.c]) are shown to implement
    [seg_alloc] and [seg_free].

    The class [HeaderView] is the interface between the two levels: how the
    three facts of a header are read from memory, and the law that reading
    them looks at the header's own bytes only. *)

From S2P Require Import Prelude CMem.

Record seg := Seg { seg_size : Z; seg_isfree : bool }.

#[export] Instance seg_eq_dec : EqDecision seg.
Proof. solve_decision. Defined.

Section seg_heap.
Context (hdr : Z).

Definition span (s : seg) : Z := hdr + seg_size s.

Fixpoint total (l : list seg) : Z :=
  match l with
  | [] => 0
  | s :: l' => span s + total l'
  end.

(** ** Allocation: first fit, split when the rest holds a header *)
Fixpoint seg_alloc (n a : Z) (l : list seg) : option (Z * list seg) :=
  match l with
  | [] => None
  | s :: l' =>
      let skip := '(p, r) ← seg_alloc n (a + span s) l'; Some (p, s :: r) in
      if negb (seg_isfree s) || (seg_size s <? n) then skip
      else if seg_size s =? n then Some (a, Seg n false :: l')
      else if n + hdr <=? seg_size s
      then Some (a, Seg n false :: Seg (seg_size s - (n + hdr)) true :: l')
      else skip
  end.

(** ** Release: find the segment at [t], free it, merge with its neighbours *)
Definition absorb_next (s : seg) (l : list seg) : list seg :=
  match l with
  | n :: r =>
      if seg_isfree n then Seg (seg_size s + (seg_size n + hdr)) true :: r
      else Seg (seg_size s) true :: l
  | [] => [Seg (seg_size s) true]
  end.

Definition absorb_prev (p : option seg) (l : list seg) : list seg :=
  match p, l with
  | Some p, c :: r =>
      if seg_isfree p then Seg (seg_size p + (seg_size c + hdr)) true :: r
      else p :: l
  | Some p, [] => [p]
  | None, _ => l
  end.

Definition ocons (p : option seg) (l : list seg) : list seg :=
  match p with Some p => p :: l | None => l end.

(** [seg_release t a p l]: [l] starts at address [a] and [p] is the segment
    before it; the result is the list that replaces [ocons p l]. *)
Fixpoint seg_release (t a : Z) (p : option seg) (l : list seg) : option (list seg) :=
  match l with
  | [] => None
  | s :: l' =>
      if a =? t then Some (absorb_prev p (absorb_next s l'))
      else r ← seg_release t (a + span s) (Some s) l'; Some (ocons p r)
  end.

Definition seg_free (t a : Z) (l : list seg) : option (list seg) :=
  seg_release t a None l.

(** ** Well-formed segment lists *)

Definition sizes_ok (l : list seg) : Prop := Forall (fun s => 0 <= seg_size s) l.

(** No two neighbours are free: released memory was merged. *)
Fixpoint coalesced (l : list seg) : Prop :=
  match l with
  | s :: ((n :: _) as l') =>
      ~ (seg_isfree s = true /\ seg_isfree n = true) /\ coalesced l'
  | _ => True
  end.

(** [live a l q s]: the allocated segment [s] has its header at [q]. *)
Fixpoint live (a : Z) (l : list seg) (q : Z) (x : seg) : Prop :=
  match l with
  | [] => False
  | s :: l' =>
      (q = a /\ x = s /\ seg_isfree s = false) \/ live (a + span s) l' q x
  end.

(** Address [x] belongs to the payload of an allocated segment. *)
Definition taken_byte (a : Z) (l : list seg) (x : Z) : Prop :=
  exists q s, live a l q s /\ q + hdr <= x < q + span s.

(** The bytes an operation on the heap [l] at [a] must not change: those
    outside the heap and the payloads of allocated segments. *)
Definition protected (a : Z) (l : list seg) (x : Z) : Prop :=
  x < a \/ a + total l <= x \/ taken_byte a l x.

Context (Hhdr : 0 < hdr).

Lemma span_pos s : 0 <= seg_size s -> 0 < span s.
Proof. unfold span. lia. Qed.

Lemma total_nonneg l : sizes_ok l -> 0 <= total l.
Proof. induction 1; cbn [total]; [lia|]. unfold span. lia. Qed.

Lemma total_length l : sizes_ok l -> Z.of_nat (length l) <= total l.
Proof. induction 1; cbn [total length]; [lia|]. unfold span. lia. Qed.

Lemma total_app l1 l2 : total (l1 ++ l2) = total l1 + total l2.
Proof. induction l1; cbn; lia. Qed.

Lemma sizes_ok_cons s l : sizes_ok (s :: l) <-> 0 <= seg_size s /\ sizes_ok l.
Proof. unfold sizes_ok. by rewrite Forall_cons. Qed.

Lemma live_bounds a l q x :
  sizes_ok l -> live a l q x ->
  a <= q /\ q + span x <= a + total l /\ 0 <= seg_size x /\ seg_isfree x = false.
Proof.
  intros Hs. revert a. induction Hs as [|s l Hs0 Hs IH]; intros a; cbn; [done|].
  pose proof (total_nonneg l Hs). pose proof (span_pos s Hs0).
  intros [(-> & -> & ?)|(?&?&?&?)%IH]; repeat split; auto; lia.
Qed.

Lemma taken_byte_bounds a l x :
  sizes_ok l -> taken_byte a l x -> a + hdr <= x < a + total l.
Proof.
  intros Hs (q & s & (?&?&?&?)%live_bounds & Hx); [|done]. unfold span in *. lia.
Qed.

Lemma taken_byte_tail a s l x : taken_byte (a + span s) l x -> taken_byte a (s :: l) x.
Proof. intros (q & t & ? & ?). exists q, t. cbn. auto. Qed.

(** A byte protected in a heap is protected in the heap without its head
    segment. *)
Lemma protected_cons a s l x :
  0 <= seg_size s -> sizes_ok l ->
  protected a (s :: l) x -> protected (a + span s) l x.
Proof.
  intros H0 Hs. unfold protected. cbn [total]. pose proof (span_pos s H0).
  intros [?|[?|(q & t & [(-> & -> & ?)|?] & Hx)]]; [left; lia|right; left; lia| |].
  - left. lia.
  - right; right. by exists q, t.
Qed.

(** Two allocated segments do not overlap. *)
Lemma live_app a l1 l2 q x :
  live a (l1 ++ l2) q x <-> live a l1 q x \/ live (a + total l1) l2 q x.
Proof.
  revert a. induction l1 as [|s l1 IH]; intros a; cbn [app live total].
  - rewrite Z.add_0_r. tauto.
  - rewrite IH, Z.add_assoc. tauto.
Qed.

Lemma taken_byte_app a l1 l2 x :
  taken_byte a (l1 ++ l2) x -> taken_byte a l1 x \/ taken_byte (a + total l1) l2 x.
Proof. intros (q & s & [Hq|Hq]%live_app & Hx); [left|right]; by exists q, s. Qed.

Lemma live_disjoint a l q1 s1 q2 s2 :
  sizes_ok l -> live a l q1 s1 -> live a l q2 s2 ->
  (q1 = q2 /\ s1 = s2) \/ q1 + span s1 <= q2 \/ q2 + span s2 <= q1.
Proof.
  intros Hs. revert a. induction Hs as [|s l H0 Hs IH]; intros a; cbn; [done|].
  intros [(-> & -> & ?)|H1] [(-> & -> & ?)|H2]; [auto| | |by eapply IH];
    apply live_bounds in H1 || apply live_bounds in H2; auto; lia.
Qed.

(** *** Allocation keeps the tiling and the merging *)

(** The three ways [seg_alloc] succeeds. *)
Lemma seg_alloc_cases n a s l p l' :
  seg_alloc n a (s :: l) = Some (p, l') ->
  (exists r, seg_alloc n (a + span s) l = Some (p, r) /\ l' = s :: r)
  \/ (seg_isfree s = true /\ seg_size s = n /\ p = a /\ l' = Seg n false :: l)
  \/ (seg_isfree s = true /\ n + hdr <= seg_size s /\ p = a /\
      l' = Seg n false :: Seg (seg_size s - (n + hdr)) true :: l).
Proof.
  cbn [seg_alloc].
  destruct (seg_alloc n (a + span s) l) as [[q r]|] eqn:E; cbn;
    repeat bcase; intros [= <- <-]; naive_solver.
Qed.

Lemma seg_alloc_total n a l p l' :
  seg_alloc n a l = Some (p, l') -> total l' = total l.
Proof.
  revert a p l'. induction l as [|s l IH]; intros a p l'; [done|].
  intros [(r & E & ->)|[(_ & E & _ & ->)|(_ & E & _ & ->)]]%seg_alloc_cases;
    cbn [total]; [by rewrite (IH _ _ _ E)|unfold span; cbn; lia..].
Qed.

Lemma seg_alloc_sizes n a l p l' :
  0 <= n -> sizes_ok l -> seg_alloc n a l = Some (p, l') -> sizes_ok l'.
Proof.
  intros Hn Hs. revert a p l'.
  induction Hs as [|s l H0 Hs IH]; intros a p l'; [done|].
  intros [(r & E & ->)|[(_ & E & _ & ->)|(_ & E & _ & ->)]]%seg_alloc_cases;
    rewrite ?sizes_ok_cons; cbn; eauto with lia.
Qed.

(** The first segment of the result is free only if it was before. *)
Lemma seg_alloc_head n a s l p l' :
  seg_alloc n a (s :: l) = Some (p, l') ->
  exists s' r, l' = s' :: r /\ (seg_isfree s' = true -> seg_isfree s = true).
Proof.
  intros [(r & E & ->)|[(? & _ & _ & ->)|(? & _ & _ & ->)]]%seg_alloc_cases; eauto.
Qed.

Lemma coalesced_tail s l : coalesced (s :: l) -> coalesced l.
Proof. destruct l; [done|]. by intros [_ ?]. Qed.

(** The head can be replaced by one that is free less often. *)
Lemma coalesced_head s s' l :
  (seg_isfree s' = true -> seg_isfree s = true) ->
  coalesced (s :: l) -> coalesced (s' :: l).
Proof. destruct l; [done|]. cbn. naive_solver. Qed.

Lemma seg_alloc_coalesced n a l p l' :
  coalesced l -> seg_alloc n a l = Some (p, l') -> coalesced l'.
Proof.
  revert a p l'. induction l as [|s l IH]; intros a p l' Hc; [done|].
  pose proof (coalesced_tail _ _ Hc) as Ht.
  intros [(r & E & ->)|[(Hf & E & _ & ->)|(Hf & E & _ & ->)]]%seg_alloc_cases.
  - pose proof (IH _ _ _ Ht E) as Hr. destruct l as [|t l]; [done|].
    destruct (seg_alloc_head _ _ _ _ _ _ E) as (s' & r' & -> & Hs').
    destruct Hc as [Hc _]. split; [naive_solver|done].
  - by apply (coalesced_head s).
  - split; [cbn; naive_solver|]. by apply (coalesced_head s).
Qed.

(** The allocated segments after an allocation. *)
Lemma seg_alloc_live n a l p l' :
  seg_alloc n a l = Some (p, l') ->
  forall q x, live a l' q x <-> live a l q x \/ (q = p /\ x = Seg n false).
Proof.
  revert a p l'. induction l as [|s l IH]; intros a p l'; [done|].
  intros [(r & E & ->)|[(Hf & E & -> & ->)|(Hf & E & -> & ->)]]%seg_alloc_cases
    q x; cbn [live].
  - rewrite (IH _ _ _ E). tauto.
  - replace (span (Seg n false)) with (span s) by (unfold span; cbn; lia).
    rewrite Hf. cbn. intuition congruence.
  - replace (a + span (Seg n false) + _) with (a + span s)
      by (unfold span; cbn; lia).
    rewrite Hf. cbn. intuition congruence.
Qed.

(** The new segment lies in the heap. *)
Lemma seg_alloc_bounds n a l p l' :
  0 <= n -> sizes_ok l -> seg_alloc n a l = Some (p, l') ->
  a <= p /\ p + hdr + n <= a + total l.
Proof.
  intros Hn Hs E. pose proof (seg_alloc_sizes _ _ _ _ _ Hn Hs E) as Hs'.
  pose proof (seg_alloc_total _ _ _ _ _ E) as Ht.
  assert (live a l' p (Seg n false)) as Hp
    by (apply (seg_alloc_live _ _ _ _ _ E); auto).
  destruct (live_bounds _ _ _ _ Hs' Hp) as (?&Hb&_).
  unfold span in Hb; cbn in Hb. lia.
Qed.

(** It is carved from a free segment. *)
Lemma seg_alloc_fresh n a l p l' q x :
  0 <= n -> sizes_ok l -> seg_alloc n a l = Some (p, l') -> live a l q x -> q <> p.
Proof.
  intros Hn Hs. revert a p l'.
  induction Hs as [|s l H0 Hs IH]; intros a p l'; [done|].
  pose proof (span_pos s H0).
  pose proof (live_bounds (a + span s) l q x Hs) as Hb.
  intros [(r & E & ->)|[(Hf & E & -> & ->)|(Hf & E & -> & ->)]]%seg_alloc_cases
    [(-> & -> & Hq)|Hq]; try congruence; try (destruct (Hb Hq); lia).
  - destruct (seg_alloc_bounds _ _ _ _ _ Hn Hs E). lia.
  - eapply IH; eauto.
Qed.

Lemma seg_alloc_disjoint n a l p l' x :
  0 <= n -> sizes_ok l -> seg_alloc n a l = Some (p, l') ->
  taken_byte a l x -> ~ (p <= x < p + hdr + n).
Proof.
  intros Hn Hs E (q & t & Hq & Hx).
  pose proof (seg_alloc_live _ _ _ _ _ E) as Hl.
  destruct (live_disjoint a l' q t p (Seg n false)) as [[-> _]|Hd].
  - by eapply seg_alloc_sizes.
  - apply Hl; auto.
  - apply Hl; auto.
  - by destruct (seg_alloc_fresh _ _ _ _ _ _ _ Hn Hs E Hq).
  - unfold span in *; cbn in *; lia.
Qed.

(** A segment cannot serve [n] bytes: taken, too small, or too large to
    match exactly yet too small to split. *)
Definition unfit (n : Z) (s : seg) : Prop :=
  seg_isfree s = true -> seg_size s < n \/ n < seg_size s < n + hdr.

Lemma seg_alloc_none n a l : seg_alloc n a l = None <-> Forall (unfit n) l.
Proof.
  revert a. induction l as [|s l IH]; intros a; [split; [constructor|done]|].
  rewrite Forall_cons, <- (IH (a + span s)). cbn [seg_alloc]. unfold unfit.
  destruct (seg_isfree s), (seg_alloc n (a + span s) l) as [[q r]|]; cbn;
    try (split; [intros E; first [done|split; [discriminate|done]]|by intros [_ ?]]).
  all: destruct (Z.ltb_spec (seg_size s) n), (Z.eqb_spec (seg_size s) n),
         (Z.leb_spec (n + hdr) (seg_size s)); cbn; try lia.
  all: split; [intros ?; first [done|split; [lia|done]]|intros [Hu ?]; try done].
  all: exfalso; specialize (Hu eq_refl); lia.
Qed.

(** The search passes segments that do not fit. *)
Lemma seg_alloc_app n a l1 l2 :
  Forall (unfit n) l1 ->
  seg_alloc n a (l1 ++ l2) =
  '(p, r) ← seg_alloc n (a + total l1) l2; Some (p, l1 ++ r).
Proof.
  intros Hu. revert a. induction Hu as [|s l1 Hs Hu IH]; intros a; cbn [app total].
  - rewrite Z.add_0_r. by destruct (seg_alloc n a l2) as [[p r]|].
  - cbn [seg_alloc]. rewrite IH, Z.add_assoc.
    destruct (seg_alloc n (a + span s + total l1) l2) as [[p r]|]; cbn;
      unfold unfit in Hs; destruct (seg_isfree s); cbn; try done;
      specialize (Hs eq_refl); destruct (Z.ltb_spec (seg_size s) n); cbn; try done;
      by rewrite Zeqb_f, Zleb_f by lia.
Qed.

(** *** Release *)

Lemma seg_release_cases t a p s l r :
  seg_release t a p (s :: l) = Some r ->
  (a = t /\ r = absorb_prev p (absorb_next s l))
  \/ (a <> t /\ exists r', seg_release t (a + span s) (Some s) l = Some r' /\
      r = ocons p r').
Proof.
  cbn [seg_release].
  destruct (seg_release t (a + span s) (Some s) l) eqn:E; cbn;
    bcase; intros [= <-]; eauto 6.
Qed.

Lemma absorb_next_cons s l :
  exists c r, absorb_next s l = c :: r /\ seg_isfree c = true /\
    total (c :: r) = total (s :: l) /\
    (0 <= seg_size s -> sizes_ok l -> sizes_ok (c :: r)) /\
    (coalesced l -> coalesced (c :: r)) /\
    (forall a q x, live a (c :: r) q x <-> live (a + span s) l q x).
Proof.
  destruct l as [|n l]; cbn [absorb_next].
  { do 2 eexists. split; [reflexivity|]. split; [done|]. split; [done|].
    split; [intros; repeat constructor; done|]. split; [done|].
    intros a q x. cbn. naive_solver. }
  destruct (seg_isfree n) eqn:En; do 2 eexists;
    (split; [reflexivity|split; [reflexivity|]]).
  - split; [cbn; unfold span; cbn; lia|]. split; [|split].
    + rewrite !sizes_ok_cons. cbn. intuition lia.
    + intros Hc. apply (coalesced_head n); auto.
    + intros a q x. cbn [live]. rewrite En.
      replace (a + span s + span n) with (a + span (Seg (seg_size s + (seg_size n + hdr)) true))
        by (unfold span; cbn; lia). cbn. naive_solver.
  - split; [cbn; unfold span; cbn; lia|]. split; [|split].
    + rewrite !sizes_ok_cons. cbn. intuition lia.
    + intros Hc. split; [|done]. rewrite En. naive_solver.
    + intros a q x. cbn [live]. change (span (Seg (seg_size s) true)) with (span s).
      cbn. naive_solver.
Qed.

Definition start (a : Z) (p : option seg) : Z :=
  match p with Some p => a - span p | None => a end.

Lemma absorb_prev_spec a p c r :
  seg_isfree c = true ->
  total (absorb_prev p (c :: r)) = total (ocons p (c :: r)) /\
  (sizes_ok (ocons p (c :: r)) -> sizes_ok (absorb_prev p (c :: r))) /\
  (coalesced (c :: r) -> coalesced (absorb_prev p (c :: r))) /\
  (forall q x, live (start a p) (absorb_prev p (c :: r)) q x <->
               live (start a p) (ocons p (c :: r)) q x).
Proof.
  intros Hc. destruct p as [p|]; [|cbn; tauto]. cbn [absorb_prev ocons start].
  destruct (seg_isfree p) eqn:Ep.
  - split; [cbn; unfold span; cbn; lia|]. split; [|split].
    + rewrite !sizes_ok_cons. cbn. intuition lia.
    + intros Hcs. apply (coalesced_head c); auto.
    + intros q x. cbn [live]. rewrite Ep, Hc. cbn.
      replace (a - span p + span p + span c) with
        (a - span p + span (Seg (seg_size p + (seg_size c + hdr)) true))
        by (unfold span; cbn; lia). naive_solver.
  - split; [done|]. split; [done|]. split; [|done].
    intros Hcs. split; [|done]. rewrite Ep. naive_solver.
Qed.

(** The segment before the released one is free afterwards only if it was. *)
Lemma seg_release_head t a p l r :
  seg_release t a (Some p) l = Some r ->
  exists p' r', r = p' :: r' /\ (seg_isfree p' = true -> seg_isfree p = true).
Proof.
  destruct l as [|s l]; [done|].
  intros [(_ & ->)|(_ & r' & _ & ->)]%seg_release_cases; [|cbn; eauto].
  destruct (absorb_next_cons s l) as (c & r' & -> & _). cbn.
  destruct (seg_isfree p) eqn:Ep; eauto.
Qed.

Lemma seg_release_ge t a p l r :
  sizes_ok l -> seg_release t a p l = Some r -> a <= t.
Proof.
  intros Hs. revert a p r. induction Hs as [|s l H0 Hs IH]; intros a p r; [done|].
  pose proof (span_pos s H0).
  intros [(-> & _)|(_ & r' & E%IH & _)]%seg_release_cases; lia.
Qed.

Lemma seg_release_spec t a p l r :
  sizes_ok (ocons p l) -> seg_release t a p l = Some r ->
  total r = total (ocons p l) /\ sizes_ok r /\
  (coalesced (ocons p l) -> coalesced r) /\
  (forall q x, live (start a p) r q x <->
               live (start a p) (ocons p l) q x /\ q <> t).
Proof.
  revert a p r. induction l as [|s l IH]; intros a p r Hs; [done|].
  assert (0 <= seg_size s /\ sizes_ok l /\
          match p with Some p => 0 <= seg_size p | None => True end)
    as (H0 & Hl & Hp)
    by (destruct p; cbn in Hs; rewrite !sizes_ok_cons in Hs; tauto).
  assert (forall q x, live (a + span s) l q x -> a < q) as Hgt.
  { intros q x Hq. apply live_bounds in Hq; [|done].
    pose proof (span_pos s H0). lia. }
  intros [(<- & ->)|(Hne & r' & E & ->)]%seg_release_cases.
  - destruct (absorb_next_cons s l) as (c & r & -> & Hc & Ht & Hsz & Hco & Hlv).
    destruct (absorb_prev_spec a p c r Hc) as (Ht' & Hsz' & Hco' & Hlv').
    split; [rewrite Ht'; destruct p; cbn in *; lia|].
    split; [apply Hsz'; destruct p; cbn; rewrite ?sizes_ok_cons in *; naive_solver|].
    split.
    + intros Hcs. apply Hco', Hco. destruct p; cbn [ocons] in Hcs;
        repeat apply coalesced_tail in Hcs; done.
    + intros q x. rewrite Hlv'. destruct p as [p|]; cbn [ocons start live] in *;
        rewrite ?Z.sub_add, Hlv.
      * pose proof (span_pos p Hp). pose proof (Hgt q x).
        intuition (subst; try lia; auto).
      * pose proof (Hgt q x). intuition (subst; try lia; auto).
  - destruct (IH (a + span s) (Some s) r') as (Ht & Hsz & Hco & Hlv).
    { cbn. by rewrite sizes_ok_cons. }
    { done. }
    assert (start (a + span s) (Some s) = a) as Est by (cbn; lia).
    rewrite Est in Hlv. cbn [ocons] in Hlv, Hco, Ht.
    destruct p as [p|]; cbn [ocons start]; [|auto].
    cbn [ocons] in Hs. split; [cbn [total] in *; lia|].
    split; [by rewrite sizes_ok_cons|]. split.
    + destruct (seg_release_head _ _ _ _ _ E) as (s' & r'' & -> & Hfree).
      intros [Hps Hcs]. split; [naive_solver|auto].
    + intros q x. cbn [live]. rewrite Z.sub_add, Hlv.
      pose proof (seg_release_ge _ _ _ _ _ Hl E). pose proof (span_pos p Hp).
      pose proof (span_pos s H0). cbn [live]. intuition (subst; try lia; auto).
Qed.

(** What releasing the segment at [t] does to the heap. *)
Lemma seg_free_spec t a l r :
  sizes_ok l -> seg_free t a l = Some r ->
  total r = total l /\ sizes_ok r /\ (coalesced l -> coalesced r) /\
  (forall q x, live a r q x <-> live a l q x /\ q <> t).
Proof. intros Hs E. by apply (seg_release_spec t a None l r). Qed.

Lemma seg_release_live t a p l x :
  sizes_ok l -> live a l t x -> is_Some (seg_release t a p l).
Proof.
  intros Hs. revert a p. induction Hs as [|s l H0 Hs IH]; intros a p; [done|].
  cbn [live seg_release]. pose proof (span_pos s H0).
  intros [(-> & _)|H']; [rewrite Z.eqb_refl; eauto|].
  destruct (live_bounds _ _ _ _ Hs H') as [? _]. rewrite Zeqb_f by lia.
  destruct (IH _ (Some s) H') as [r ->]. cbn. eauto.
Qed.

(** *** Release undoes allocation *)

Lemma absorb_prev_busy pr s l :
  coalesced (ocons pr (s :: l)) -> seg_isfree s = true ->
  absorb_prev pr (s :: l) = ocons pr (s :: l).
Proof.
  destruct pr as [p|]; [|done]. intros [Hc _] Hs. cbn.
  destruct (seg_isfree p) eqn:Ep; [naive_solver|done].
Qed.

Lemma absorb_next_busy s l :
  coalesced (s :: l) -> seg_isfree s = true -> absorb_next s l = s :: l.
Proof.
  destruct s as [z b]. cbn. intros Hc ->. destruct l as [|n l]; [done|].
  destruct Hc as [Hc _]. cbn in *. destruct (seg_isfree n) eqn:En; naive_solver.
Qed.

Lemma seg_release_alloc n a l p l' pr :
  0 <= n -> sizes_ok l -> coalesced (ocons pr l) ->
  seg_alloc n a l = Some (p, l') -> seg_release p a pr l' = Some (ocons pr l).
Proof.
  intros Hn Hs. revert a p l' pr.
  induction Hs as [|s l H0 Hs IH]; intros a p l' pr Hc E; [done|].
  assert (coalesced (s :: l)) as Hc'
    by (destruct pr; [by apply coalesced_tail in Hc|done]).
  pose proof (span_pos s H0).
  apply seg_alloc_cases in E
    as [(r & E & ->)|[(Hf & <- & -> & ->)|(Hf & E & -> & ->)]]; cbn [seg_release].
  - destruct (seg_alloc_bounds _ _ _ _ _ Hn Hs E). rewrite Zeqb_f by lia.
    by rewrite (IH _ _ _ (Some s) Hc' E).
  - rewrite Z.eqb_refl. change (absorb_next (Seg (seg_size s) false) l) with (absorb_next s l).
    by rewrite absorb_next_busy, absorb_prev_busy.
  - rewrite Z.eqb_refl. cbn [absorb_next seg_isfree seg_size].
    replace (n + _) with (seg_size s) by lia.
    replace (Seg (seg_size s) true) with s by (destruct s; cbn in *; congruence).
    by rewrite absorb_prev_busy.
Qed.
End seg_heap.

(** ** Headers in memory *)

Class HeaderView (hdr : Z) := {
  hv_free : mem -> Z -> bool;
  hv_len : mem -> Z -> Z;
  hv_next : mem -> Z -> Z;
  hv_local : forall m m' a,
    agree (fun x => a <= x < a + hdr) m m' ->
    hv_free m' a = hv_free m a /\ hv_len m' a = hv_len m a /\
    hv_next m' a = hv_next m a
}.

Section chain.
Context {hdr : Z} `{HV : !HeaderView hdr} (Hhdr : 0 < hdr).

(** The header at [a] describes [s] and links to [nx]. *)
Definition header (m : mem) (a : Z) (s : seg) (nx : Z) : Prop :=
  hv_free m a = seg_isfree s /\ hv_len m a = seg_size s /\ hv_next m a = nx.

Definition link (a : Z) (s : seg) (l : list seg) : Z :=
  match l with [] => 0 | _ => a + span hdr s end.

(** The headers found by following the links from [a] describe [l]. *)
Fixpoint chain (m : mem) (a : Z) (l : list seg) : Prop :=
  match l with
  | [] => True
  | s :: l' => header m a s (link a s l') /\ chain m (a + span hdr s) l'
  end.

Lemma header_agree m m' a s nx :
  agree (fun x => a <= x < a + hdr) m m' -> header m a s nx -> header m' a s nx.
Proof.
  intros H (H1 & H2 & H3). unfold header. destruct (hv_local m m' a H) as (-> & -> & ->). by split.
Qed.

(** A chain only depends on the bytes that are not allocated payload. *)
Lemma chain_agree m m' a l :
  sizes_ok l ->
  agree (fun x => a <= x < a + total hdr l /\ ~ taken_byte hdr a l x) m m' ->
  chain m a l -> chain m' a l.
Proof.
  intros Hs. revert a. induction Hs as [|s l H0 Hs IH]; intros a Hag; [done|].
  intros [Hh Hc]. pose proof (total_nonneg hdr Hhdr l Hs).
  cbn [chain total] in *. unfold span in *. split.
  - eapply header_agree; [|done]. intros x Hx. apply Hag. split; [lia|].
    intros (q & t & Hq & Hx').
    destruct (live_bounds hdr Hhdr a (s :: l) q t) as (?&_);
      [by rewrite sizes_ok_cons|done|lia].
  - apply IH; [|done]. intros x [Hx Hn]. apply Hag. split; [lia|].
    intros (q & t & [(-> & -> & ?)|Hq] & Hx'); [unfold span in *; lia|].
    apply Hn. by exists q, t.
Qed.

Lemma chain_agree_range m m' a l :
  sizes_ok l -> agree (fun x => a <= x < a + total hdr l) m m' ->
  chain m a l -> chain m' a l.
Proof.
  intros Hs Hag. apply chain_agree; [done|]. eapply agree_weaken; [done|]. tauto.
Qed.

(** The bytes determine the segments. *)
Lemma chain_unique m a l1 l2 :
  sizes_ok l1 -> sizes_ok l2 -> total hdr l1 = total hdr l2 ->
  chain m a l1 -> chain m a l2 -> l1 = l2.
Proof.
  intros Hs. revert a l2. induction Hs as [|s l1 H0 Hs IH]; intros a l2 Hs2 Ht H1 H2.
  - destruct l2 as [|t l2]; [done|]. apply sizes_ok_cons in Hs2 as [Ht0 Hs2].
    pose proof (total_nonneg hdr Hhdr l2 Hs2). cbn [total] in Ht. unfold span in Ht. lia.
  - pose proof (total_nonneg hdr Hhdr l1 Hs).
    destruct l2 as [|t l2]; [cbn [total] in Ht; unfold span in Ht; lia|].
    apply sizes_ok_cons in Hs2 as [Ht0 Hs2].
    destruct H1 as [(F1 & L1 & _) H1], H2 as [(F2 & L2 & _) H2].
    assert (s = t) as -> by (destruct s, t; cbn in *; congruence).
    f_equal. apply (IH (a + span hdr t)); [done|cbn [total] in Ht; lia|done|done].
Qed.
Lemma chain_app_r m a l1 l2 : chain m a (l1 ++ l2) -> chain m (a + total hdr l1) l2.
Proof.
  revert a. induction l1 as [|s l1 IH]; intros a; cbn [app total chain].
  - by rewrite Z.add_0_r.
  - intros [_ H]. rewrite Z.add_assoc. by apply IH.
Qed.

(** The end of a chain replaced by another one. *)
Lemma chain_replace m m' a l0 s l2 :
  sizes_ok l0 -> l2 <> [] -> chain m a (l0 ++ [s]) ->
  agree (fun x => a <= x < a + total hdr l0) m m' ->
  chain m' (a + total hdr l0) l2 -> chain m' a (l0 ++ l2).
Proof.
  intros Hs Hne. revert a. induction Hs as [|t l0 H0 Hs IH]; intros a Hc Hag H2;
    cbn [app total chain] in *; [by rewrite Z.add_0_r in H2|].
  pose proof (total_nonneg hdr Hhdr l0 Hs). unfold span in *. destruct Hc as [Hh Hc]. split.
  - eapply header_agree; [|by destruct l0, l2]. intros x Hx. apply Hag. lia.
  - apply IH; [done| |by rewrite <- Z.add_assoc]. intros x Hx. apply Hag. lia.
Qed.
End chain.

Arguments link : clear implicits.
