(* ===== verification/FirstFit.v ===== *)
(** * First fit and release over any header layout

    The two list walks of a first-fit allocator with in-band headers, written
    once over the class [HeaderOps]: what marking, splitting and merging a
    header promise.  Both walks are shown to implement [seg_alloc] and
    [seg_free]; an allocator of the repository discharges the class for its
    own headers and shows that its loops are these. *)

From S2P Require Import Prelude CMem SegHeap.

(** Memory outside the header at [a]. *)
Definition outside (hdr a x : Z) : Prop := x < a \/ a + hdr <= x.

Section interface.
Context (hdr lo hi : Z) `{HV : !HeaderView hdr}.

(** The link of a segment is NULL or the address where it ends. *)
Definition links (a : Z) (s : seg) (nx : Z) : Prop := nx = 0 \/ nx = a + span hdr s.

(** The segment at [a] lies in the heap. *)
Definition seg_in (a : Z) (s : seg) : Prop :=
  lo <= a /\ a + span hdr s <= hi /\ 0 <= seg_size s.

Class HeaderOps := {
  ho_take : mem -> Z -> mem;
  ho_free : mem -> Z -> mem;
  ho_split : mem -> Z -> Z -> Z -> mem;
  ho_merge : mem -> Z -> Z -> mem;
  ho_take_law m a s nx :
    seg_in a s -> header m a s nx ->
    header (ho_take m a) a (Seg (seg_size s) false) nx /\
    agree (outside hdr a) m (ho_take m a);
  ho_free_law m a s nx :
    seg_in a s -> header m a s nx ->
    header (ho_free m a) a (Seg (seg_size s) true) nx /\
    agree (outside hdr a) m (ho_free m a);
  ho_split_law m a s nx n :
    seg_in a s -> header m a s nx -> links a s nx -> 0 <= n -> n + hdr <= seg_size s ->
    header (ho_split m a n (n + hdr)) a (Seg n false) (a + (n + hdr)) /\
    header (ho_split m a n (n + hdr)) (a + (n + hdr))
      (Seg (seg_size s - (n + hdr)) true) nx /\
    agree (fun x => x < a \/ a + span hdr s <= x) m (ho_split m a n (n + hdr));
  ho_merge_law m a s t nx :
    seg_in a s -> seg_in (a + span hdr s) t ->
    header m a s (a + span hdr s) -> header m (a + span hdr s) t nx ->
    links (a + span hdr s) t nx ->
    header (ho_merge m a (a + span hdr s)) a
      (Seg (seg_size s + (seg_size t + hdr)) (seg_isfree s)) nx /\
    agree (outside hdr a) m (ho_merge m a (a + span hdr s))
}.
End interface.

Arguments HeaderOps hdr lo hi {HV}.
Arguments ho_take {hdr} lo hi {HV _}.
Arguments ho_free {hdr} lo hi {HV _}.
Arguments ho_split {hdr} lo hi {HV _}.
Arguments ho_merge {hdr} lo hi {HV _}.

Section loops.
Context {hdr lo hi : Z} {HV : HeaderView hdr} {HO : HeaderOps hdr lo hi}.

(** Access to the header at [b]. *)
Definition hderef (b : Z) : result unit :=
  if b =? 0 then Fault NullDeref
  else if (lo <=? b) && (b + hdr <=? hi) then Ok tt
  else Fault OutOfBounds.

(** First fit for [n] bytes; [w] is the program's value of [n + hdr]. *)
Fixpoint first_fit (fuel : nat) (n w : Z) (m : mem) (cur : Z) : result (Z * mem) :=
  match fuel with
  | O => Fault OutOfFuel
  | S fuel =>
      _ ← hderef cur;
      let continue :=
        let nx := hv_next m cur in
        if negb (nx =? 0) then first_fit fuel n w m nx else Ok (0, m) in
      if negb (hv_free m cur) || (hv_len m cur <? n) then continue
      else if hv_len m cur =? n then Ok (cur + hdr, ho_take lo hi m cur)
      else if w <=? hv_len m cur then
        _ ← hderef (cur + w); Ok (cur + hdr, ho_split lo hi m cur n w)
      else continue
  end.

Definition merge_if_free (m : mem) (test b nb : Z) : result mem :=
  _ ← hderef test;
  if hv_free m test then Ok (ho_merge lo hi m b nb) else Ok m.

(** Release of the segment at [t]. *)
Fixpoint release (fuel : nat) (t : Z) (m : mem) (prev cur : Z) : result (bool * mem) :=
  match fuel with
  | O => Fault OutOfFuel
  | S fuel =>
      if cur =? t then
        _ ← hderef cur;
        let m := ho_free lo hi m cur in
        let nx := hv_next m cur in
        m ← (if negb (nx =? 0) then merge_if_free m nx cur nx else Ok m);
        m ← (if negb (prev =? 0) then merge_if_free m prev prev cur else Ok m);
        Ok (true, m)
      else
        _ ← hderef cur;
        let nx := hv_next m cur in
        if negb (nx =? 0) then release fuel t m cur nx else Ok (false, m)
  end.

(** A segment list that tiles the heap from [a] to its end. *)
Definition tiles (a : Z) (l : list seg) : Prop :=
  sizes_ok l /\ lo <= a /\ a + total hdr l = hi.

Context (Hhdr : 0 < hdr) (Hlo : 0 < lo).

Lemma tiles_cons a s l :
  tiles a (s :: l) ->
  seg_in hdr lo hi a s /\ tiles (a + span hdr s) l /\ a + hdr <= a + span hdr s <= hi.
Proof.
  intros ([H0 Hs]%sizes_ok_cons & Ha & Ht). cbn [total] in Ht.
  pose proof (total_nonneg hdr Hhdr l Hs). unfold tiles, seg_in, span in *.
  split; [lia|]. split; [split; [done|lia]|lia].
Qed.

Lemma hderef_ok b : lo <= b -> b + hdr <= hi -> hderef b = Ok tt.
Proof. intros. unfold hderef. by btests. Qed.

Lemma hderef_head a s l : tiles a (s :: l) -> hderef a = Ok tt.
Proof. intros ([??]&_&?)%tiles_cons. apply hderef_ok; lia. Qed.

Lemma link_eq0 a s l :
  tiles a (s :: l) ->
  (link hdr a s l =? 0) = (if l is [] then true else false).
Proof.
  intros ([??]&?&?)%tiles_cons. destruct l; cbn [link]; [done|]. by btests.
Qed.

Lemma link_links a s l : links hdr a s (link hdr a s l).
Proof. destruct l; [by left|by right]. Qed.

(** Reading the header of the segment at the head of a chain. *)
Lemma chain_head m a s l :
  chain m a (s :: l) ->
  hv_free m a = seg_isfree s /\ hv_len m a = seg_size s /\ hv_next m a = link hdr a s l.
Proof. by intros [? _]. Qed.

(** Protected bytes are not in the first header nor in a free first segment. *)
Lemma protected_head a s l x :
  sizes_ok (s :: l) -> protected hdr a (s :: l) x ->
  outside hdr a x /\ (seg_isfree s = true -> x < a \/ a + span hdr s <= x).
Proof.
  intros Hs. pose proof Hs as [H0 Hl]%sizes_ok_cons.
  pose proof (total_nonneg hdr Hhdr l Hl).
  unfold protected, outside. cbn [total]. pose proof (span_pos hdr Hhdr s H0).
  unfold span in *.
  intros [?|[?|(q & t & [(-> & -> & Hf)|Hq] & Hx)]]; [lia|lia| |].
  - split; [lia|congruence].
  - apply (live_bounds hdr Hhdr) in Hq; [|done]. unfold span in *. lia.
Qed.

(** A change of the first header leaves the rest of the chain alone. *)
Lemma chain_tail_agree m m' a s l :
  tiles a (s :: l) -> chain m (a + span hdr s) l ->
  agree (fun x => x < a \/ a + span hdr s <= x) m m' -> chain m' (a + span hdr s) l.
Proof.
  intros (_&(Hs&_)&_)%tiles_cons Hc Hag. eapply (chain_agree_range Hhdr); [done| |exact Hc].
  eapply agree_weaken; [exact Hag|]. intros x Hx. right. lia.
Qed.

Lemma outside_seg a s x :
  0 <= seg_size s -> (x < a \/ a + span hdr s <= x) -> outside hdr a x.
Proof. unfold outside, span. lia. Qed.

Lemma take_chain m a s l :
  tiles a (s :: l) -> chain m a (s :: l) ->
  chain (ho_take lo hi m a) a (Seg (seg_size s) false :: l) /\
  agree (protected hdr a (s :: l)) m (ho_take lo hi m a).
Proof.
  intros Ht [Hh Hc]. pose proof (tiles_cons _ _ _ Ht) as (Hin&_).
  destruct (ho_take_law hdr lo hi _ _ _ _ Hin Hh) as [Hh' Hag]. split.
  - split; [by destruct l|]. eapply (chain_tail_agree m _ a s); [done|done|].
    eapply agree_weaken; [done|]. intros x. apply outside_seg, Hin.
  - eapply agree_weaken; [done|]. intros x Hx.
    by apply (protected_head _ _ _ _ (proj1 Ht)).
Qed.

Lemma split_chain m a s l n :
  tiles a (s :: l) -> chain m a (s :: l) ->
  seg_isfree s = true -> 0 <= n -> n + hdr <= seg_size s ->
  let m' := ho_split lo hi m a n (n + hdr) in
  chain m' a (Seg n false :: Seg (seg_size s - (n + hdr)) true :: l) /\
  agree (protected hdr a (s :: l)) m m'.
Proof.
  intros Ht [Hh Hc] Hf Hn Hle m'. pose proof (tiles_cons _ _ _ Ht) as (Hin&_).
  destruct (ho_split_law hdr lo hi _ _ _ _ n Hin Hh (link_links _ _ _) Hn Hle)
    as (Hh1 & Hh2 & Hag). fold m' in Hh1, Hh2, Hag.
  assert (span hdr (Seg n false) = n + hdr) as E1 by (unfold span; cbn; lia).
  assert (n + hdr + span hdr (Seg (seg_size s - (n + hdr)) true) = span hdr s) as E2
    by (unfold span; cbn; lia).
  split.
  - cbn [chain link]. rewrite E1. split; [done|]. split.
    + destruct l; [done|]. cbn [link] in *.
      replace (a + (n + hdr) + span hdr (Seg (seg_size s - (n + hdr)) true))
        with (a + span hdr s) by lia. done.
    + replace (a + (n + hdr) + _) with (a + span hdr s) by lia.
      by eapply chain_tail_agree.
  - eapply agree_weaken; [done|]. intros x Hx.
    by apply (protected_head _ _ _ _ (proj1 Ht)).
Qed.

(** Rebuilding a chain around a changed tail. *)
Lemma chain_skip m m' a s l r :
  tiles a (s :: l) -> chain m a (s :: l) ->
  chain m' (a + span hdr s) r -> r <> [] -> l <> [] ->
  agree (protected hdr (a + span hdr s) l) m m' ->
  chain m' a (s :: r) /\ agree (protected hdr a (s :: l)) m m'.
Proof.
  intros Ht [Hh _] Hr Hr0 Hl0 Hag. pose proof (tiles_cons _ _ _ Ht) as ((?&?&?)&(?&_)&?).
  split.
  - split; [|done]. eapply header_agree.
    + eapply agree_weaken; [done|]. intros x Hx. left. lia.
    + by destruct l, r.
  - eapply agree_weaken; [done|]. intros x Hx.
    eapply protected_cons; [exact Hhdr|lia|done|done].
Qed.

Lemma first_fit_refines n w fuel l m a :
  0 <= n -> (n <= hi - lo -> w = n + hdr) ->
  tiles a l -> l <> [] -> chain m a l -> (length l <= fuel)%nat ->
  match seg_alloc hdr n a l with
  | Some (p, l') =>
      exists m', first_fit fuel n w m a = Ok (p + hdr, m') /\
        chain m' a l' /\ agree (protected hdr a l) m m'
  | None => first_fit fuel n w m a = Ok (0, m)
  end.
Proof.
  intros H0 Hw. revert l m a. induction fuel as [|fuel IH]; intros l m a Ht Hl Hc Hf;
    [by destruct l; cbn in Hf; [|lia]|].
  destruct l as [|s l]; [done|]. clear Hl. cbn [length] in Hf.
  pose proof (tiles_cons _ _ _ Ht) as ((?&?&?)&Ht'&?).
  destruct (chain_head _ _ _ _ Hc) as (Hhf & Hhs & Hhn).
  cbn [first_fit]. rewrite (hderef_head _ _ _ Ht). cbn [mbind result_bind].
  rewrite Hhf, Hhs, Hhn, (link_eq0 _ _ _ Ht).
  set (continue := if negb _ then _ else _).
  assert (match ('(p, r) ← seg_alloc hdr n (a + span hdr s) l; Some (p, s :: r)) with
          | Some (p, l') => exists m', continue = Ok (p + hdr, m') /\
              chain m' a l' /\ agree (protected hdr a (s :: l)) m m'
          | None => continue = Ok (0, m)
          end) as Hskip.
  { subst continue. destruct l as [|t l]; [done|]. cbn [link negb].
    assert (chain m (a + span hdr s) (t :: l)) as Hc' by apply Hc.
    specialize (IH (t :: l) m _ Ht' ltac:(done) Hc' ltac:(lia)).
    destruct (seg_alloc hdr n (a + span hdr s) (t :: l)) as [[p r]|] eqn:E; cbn; [|done].
    destruct IH as (m' & -> & Hc2 & Hag). exists m'. split; [done|].
    destruct (seg_alloc_head hdr _ _ _ _ _ _ E) as (s' & r' & -> & _).
    by eapply chain_skip. }
  clearbody continue. cbn [seg_alloc].
  destruct (negb (seg_isfree s) || (seg_size s <? n)) eqn:E1; [done|]. bprop.
  destruct (seg_size s =? n) eqn:E2; bprop.
  - eexists. split; [done|]. subst n. by apply take_chain.
  - rewrite Hw by (unfold span in *; lia).
    destruct (n + hdr <=? seg_size s) eqn:E3; [|done]. bprop.
    rewrite (hderef_ok (a + (n + hdr))) by (unfold span in *; lia).
    cbn [mbind result_bind]. eexists. split; [done|]. by apply split_chain.
Qed.

(** *** Release *)

Lemma free_chain m a s l :
  tiles a (s :: l) -> chain m a (s :: l) ->
  chain (ho_free lo hi m a) a (Seg (seg_size s) true :: l) /\
  agree (outside hdr a) m (ho_free lo hi m a).
Proof.
  intros Ht [Hh Hc]. pose proof (tiles_cons _ _ _ Ht) as (Hin&_).
  destruct (ho_free_law hdr lo hi _ _ _ _ Hin Hh) as [Hh' Hag]. split; [|done].
  split; [by destruct l|]. eapply (chain_tail_agree m _ a s); [done|done|].
  eapply agree_weaken; [done|]. intros x. apply outside_seg, Hin.
Qed.

Lemma merge_chain m a s t l :
  tiles a (s :: t :: l) -> chain m a (s :: t :: l) -> seg_isfree s = true ->
  chain (ho_merge lo hi m a (a + span hdr s)) a
    (Seg (seg_size s + (seg_size t + hdr)) true :: l) /\
  agree (outside hdr a) m (ho_merge lo hi m a (a + span hdr s)).
Proof.
  intros Ht [Hh [Hh' Hc]] Hfree.
  pose proof (tiles_cons _ _ _ Ht) as (Hin&Ht'&_).
  pose proof (tiles_cons _ _ _ Ht') as (Hin'&_&_).
  destruct (ho_merge_law hdr lo hi m a s t (link hdr (a + span hdr s) t l))
    as [Hm Hag]; [done|done|done|done|apply link_links|].
  rewrite Hfree in Hm. split; [|done].
  set (u := Seg (seg_size s + (seg_size t + hdr)) true) in *.
  assert (a + span hdr u = a + span hdr s + span hdr t) as Eu by (unfold span; cbn; lia).
  split.
  - destruct l; [done|]. cbn [link] in *. by rewrite Eu.
  - rewrite Eu. pose proof (tiles_cons _ _ _ Ht') as (_&(Hs&_)&_).
    eapply (chain_agree_range Hhdr); [done| |exact Hc].
    eapply agree_weaken; [exact Hag|]. destruct Hin as (?&?&?), Hin' as (?&?&?).
    unfold outside, span in *. intros x Hx. lia.
Qed.

(** The freed block after the merge with its successor. *)
Lemma free_stage_next m a s l :
  tiles a (s :: l) -> chain m a (s :: l) ->
  exists m',
    (let m1 := ho_free lo hi m a in
     let nx := hv_next m1 a in
     if negb (nx =? 0) then merge_if_free m1 nx a nx else Ok m1) = Ok m' /\
    chain m' a (absorb_next hdr s l) /\ agree (outside hdr a) m m'.
Proof.
  intros Ht Hc. destruct (free_chain _ _ _ _ Ht Hc) as [Hc1 Hag]. cbv zeta.
  destruct (chain_head _ _ _ _ Hc1) as (_ & _ & ->).
  change (link hdr a (Seg (seg_size s) true) l) with (link hdr a s l).
  rewrite (link_eq0 _ _ _ Ht). destruct l as [|n l]; cbn [negb absorb_next].
  { eexists. by split. }
  pose proof (tiles_cons _ _ _ Ht) as (_&Ht2&_).
  cbn [link]. unfold merge_if_free. rewrite (hderef_head _ _ _ Ht2).
  cbn [mbind result_bind].
  assert (tiles a (Seg (seg_size s) true :: n :: l)) as Ht1.
  { destruct Ht as (Hs & ? & Hto). split; [|done]. rewrite sizes_ok_cons in *. done. }
  assert (hv_free (ho_free lo hi m a) (a + span hdr s) = seg_isfree n) as -> by apply Hc1.
  destruct (seg_isfree n); [|by eexists].
  destruct (merge_chain _ _ _ _ _ Ht1 Hc1) as [Hc2 Hag2]; [done|].
  eexists. split; [done|]. split; [done|]. by etrans.
Qed.

Lemma tiles_prev a p l :
  tiles (start hdr a p) (ocons p l) -> tiles a l.
Proof.
  destruct p as [p|]; [|done]. cbn [start ocons]. intros (_&Ht&_)%tiles_cons.
  by rewrite Z.sub_add in Ht.
Qed.

Lemma chain_prev m a p l :
  chain m (start hdr a p) (ocons p l) -> chain m a l.
Proof.
  destruct p as [p|]; [|done]. cbn [start ocons]. intros [_ Hc].
  by rewrite Z.sub_add in Hc.
Qed.

Definition prev_addr (a : Z) (p : option seg) : Z :=
  match p with Some p => a - span hdr p | None => 0 end.

Lemma release_found fuel m a p s l :
  tiles (start hdr a p) (ocons p (s :: l)) ->
  chain m (start hdr a p) (ocons p (s :: l)) ->
  exists m',
    release (S fuel) a m (prev_addr a p) a = Ok (true, m') /\
    chain m' (start hdr a p) (absorb_prev hdr p (absorb_next hdr s l)) /\
    agree (fun x => outside hdr a x /\ outside hdr (start hdr a p) x) m m' /\
    hv_free m' a = true.
Proof.
  intros Ht Hc. pose proof (tiles_prev _ _ _ Ht) as Hta.
  pose proof (chain_prev _ _ _ _ Hc) as Hca.
  cbn [release]. rewrite Z.eqb_refl, (hderef_head _ _ _ Hta). cbn [mbind result_bind].
  destruct (free_stage_next _ _ _ _ Hta Hca) as (m1 & E1 & Hc1 & Hag1).
  cbv zeta in E1 |- *. rewrite E1. cbn [mbind result_bind].
  destruct (absorb_next_cons hdr Hhdr s l) as (c & r & E & Hcf & Htot & Hsz & _).
  rewrite E in *.
  assert (hv_free m1 a = true) as Hfa by (by rewrite (proj1 (chain_head _ _ _ _ Hc1))).
  destruct p as [p|]; cbn [start ocons absorb_prev prev_addr] in *.
  2: { eexists. split; [done|]. split; [done|]. split; [|done].
       eapply agree_weaken; [done|]. by intros x [? _]. }
  pose proof (tiles_cons _ _ _ Ht) as ((?&?&?) & _ & Hpb). rewrite Z.sub_add in Hpb.
  assert (tiles (a - span hdr p) (p :: c :: r)) as Ht1.
  { destruct Ht as ([Hps Hss%sizes_ok_cons]%sizes_ok_cons & ? & Hto).
    split; [rewrite sizes_ok_cons; naive_solver|]. split; [done|].
    cbn [total] in *. lia. }
  assert (chain m1 (a - span hdr p) (p :: c :: r)) as Hcp.
  { split; [|by rewrite Z.sub_add]. destruct Hc as [Hh _].
    eapply header_agree; [|exact Hh]. eapply agree_weaken; [done|].
    intros x Hx. left. lia. }
  rewrite Zeqb_f by lia. cbn [negb]. unfold merge_if_free.
  rewrite (hderef_head _ _ _ Ht1). cbn [mbind result_bind].
  rewrite (proj1 (chain_head _ _ _ _ Hcp)).
  destruct (seg_isfree p) eqn:Hpf.
  - destruct (merge_chain _ _ _ _ _ Ht1 Hcp Hpf) as [Hc2 Hag2].
    rewrite Z.sub_add in *. eexists. split; [done|]. split; [done|]. split.
    + intros x [Hx1 Hx2]. rewrite Hag2, Hag1; done.
    + rewrite <- Hfa. eapply hv_local. eapply agree_weaken; [done|].
      intros x Hx. right. lia.
  - eexists. split; [done|]. split; [done|]. split; [|done].
    eapply agree_weaken; [done|]. by intros x [? _].
Qed.

Lemma release_refines fuel l m a p t :
  tiles (start hdr a p) (ocons p l) -> chain m (start hdr a p) (ocons p l) ->
  l <> [] -> (length l <= fuel)%nat ->
  match seg_release hdr t a p l with
  | Some r =>
      exists m', release fuel t m (prev_addr a p) a = Ok (true, m') /\
        chain m' (start hdr a p) r /\
        agree (protected hdr (start hdr a p) (ocons p l)) m m' /\ hv_free m' t = true
  | None => release fuel t m (prev_addr a p) a = Ok (false, m)
  end.
Proof.
  revert l m a p. induction fuel as [|fuel IH]; intros l m a p Ht Hc Hl Hf;
    [by destruct l; cbn in Hf; [|lia]|].
  destruct l as [|s l]; [done|]. clear Hl. cbn [length] in Hf. cbn [seg_release].
  pose proof (tiles_prev _ _ _ Ht) as Hta. pose proof (chain_prev _ _ _ _ Hc) as Hca.
  destruct (Z.eqb_spec a t) as [->|Hne].
  - destruct (release_found fuel _ _ _ _ _ Ht Hc) as (m' & E & Hc' & Hag & Hfr).
    exists m'. split; [exact E|]. split; [done|]. split; [|done].
    eapply agree_weaken; [exact Hag|]. intros x Hx.
    assert (protected hdr t (s :: l) x) as Hxt.
    { destruct p as [p|]; [|done]. cbn [start ocons] in *.
      pose proof (tiles_cons _ _ _ Ht) as ((?&?&?)&_).
      apply (protected_cons hdr Hhdr) in Hx; [by rewrite Z.sub_add in Hx|lia|apply Hta]. }
    split; [by apply (protected_head _ _ _ _ (proj1 Hta))|].
    destruct p as [p|]; cbn [start ocons] in *;
      by apply (protected_head _ _ _ _ (proj1 Ht)).
  - cbn [release]. rewrite Zeqb_f by lia.
    pose proof (tiles_cons _ _ _ Hta) as ((?&?&?)&Ht'&?).
    rewrite (hderef_head _ _ _ Hta). cbn [mbind result_bind].
    destruct (chain_head _ _ _ _ Hca) as (_ & _ & ->). rewrite (link_eq0 _ _ _ Hta).
    destruct l as [|n l]; cbn [negb]; [done|]. cbn [link].
    specialize (IH (n :: l) m (a + span hdr s) (Some s)).
    cbn [start ocons prev_addr] in IH. rewrite !Z.add_simpl_r in IH.
    specialize (IH Hta Hca ltac:(done) ltac:(lia)).
    destruct (seg_release hdr t (a + span hdr s) (Some s) (n :: l)) as [r|] eqn:E; cbn; [|done].
    destruct IH as (m' & -> & Hc' & Hag & Hfr). exists m'. split; [done|].
    destruct p as [p|]; [|by repeat split]. cbn [start ocons] in *.
    destruct (seg_release_head hdr Hhdr _ _ _ _ _ E) as (s' & r' & -> & _).
    destruct (chain_skip m m' (a - span hdr p) p (s :: n :: l) (s' :: r'))
      as [? ?]; rewrite ?Z.sub_add; try done.
Qed.

(** An allocated segment's header, and that its address is valid. *)
Lemma live_header m l a q s :
  tiles a l -> chain m a l -> live hdr a l q s ->
  hv_free m q = false /\ hderef q = Ok tt /\ lo <= q /\ q + span hdr s <= hi /\
  0 <= seg_size s.
Proof.
  intros Ht Hc Hl. pose proof Ht as (Hs & Ha & Htot).
  destruct (live_bounds hdr Hhdr _ _ _ _ Hs Hl) as (?&?&?&Hf). unfold span in *.
  split; [|split; [apply hderef_ok; lia|lia]].
  clear Ht Htot H H0 Ha. revert a Hc Hl.
  induction l as [|t l IH]; intros a Hc Hl; [done|].
  apply sizes_ok_cons in Hs as [_ Hs]. destruct Hc as [Hh Hc].
  destruct Hl as [(-> & -> & Ht)|Hl]; [|by eapply IH].
  rewrite <- Ht. apply Hh.
Qed.
End loops.
