(* ===== verification/MyMallocSpec.v ===== *)
(** * Correctness of [MallocStuff/mymalloc.c] *)

From Stdlib Require Import String.
From S2P Require Import Prelude CMem SegHeap FirstFit MyMalloc.

(** ** The header view of a [Block] *)

(** Loads of the fields of [Block]s after stores to fields. *)
Ltac fields :=
  unfold b_isFree, b_size, b_next, set_isFree, set_size, set_next in *;
  repeat first
    [ rewrite load_store_same
    | rewrite load_store_other by (cbn; lia) ];
  change (256 ^ Z.of_nat 1) with (2 ^ 8) in *; change (256 ^ Z.of_nat 2) with (2 ^ 16) in *;
  change (256 ^ Z.of_nat 8) with (2 ^ 64) in *.

Lemma block_local m m' a :
  agree (fun x => a <= x < a + 16) m m' ->
  b_isFree m' a = b_isFree m a /\ b_size m' a = b_size m a /\ b_next m' a = b_next m a.
Proof.
  intros H. unfold b_isFree, b_size, b_next.
  rewrite !(load_ext _ m m'); [done|..]; intros x Hx; apply H; cbn in Hx; lia.
Qed.

#[export] Instance block_view : HeaderView 16 := {
  hv_free := b_isFree; hv_len := b_size; hv_next := b_next; hv_local := block_local
}.

Abbreviation htotal := (total 16).
Abbreviation halloc := (seg_alloc 16).
Abbreviation hfree := (seg_free 16).
Abbreviation hlive := (live 16).
Abbreviation hprotected := (protected 16).
Abbreviation btiles b := (tiles (hdr:=16) (lo:=b) (hi:=b + MAX_MEMORY)).
Abbreviation hchain := (chain (hdr:=16)).

Lemma hdr_pos : 0 < 16. Proof. lia. Qed.

Lemma b2z_ne0 b : negb (Z.b2z b mod 2 ^ 8 =? 0) = b.
Proof. by destruct b. Qed.

Section definitions.
Context (myblock : Z).

(** The heap of an initialised allocator is the segment list [l]. *)
Definition represents (st : heap_state) (l : list seg) : Prop :=
  firstMalloc st = false /\ rootBlock st = myblock /\ l <> [] /\
  btiles myblock myblock l /\ hchain (hmem st) myblock l.

(** Before the first request the heap is one free segment that is not
    written yet. *)
Definition root_segment : list seg := [Seg (MAX_MEMORY - 16) true].

Definition heap_view (st : heap_state) (l : list seg) : Prop :=
  represents st l \/ (firstMalloc st = true /\ l = root_segment).

(** Bytes the allocator must leave alone: other memory, and the payloads of
    allocated blocks. *)
Definition client_byte (l : list seg) (x : Z) : Prop :=
  x < myblock \/ myblock + MAX_MEMORY <= x \/ taken_byte 16 myblock l x.

(** ** Clients

    A client holds the blocks it was given and has not released, by pointer
    and requested size.  It may allocate, release a block it holds, pass any
    pointer that is not in the array to [myfree], and write any byte of a
    block it holds. *)
Record client := Client { heap : heap_state; owned : gmap Z Z }.

Inductive client_step : client -> client -> Prop :=
  | step_malloc st o size file line p st' :
      0 <= size < 2 ^ 64 ->
      mymalloc myblock size file line st = Ok (p, st') ->
      client_step (Client st o) (Client st' (if p =? 0 then o else <[p:=size]> o))
  | step_free st o p size file line st' :
      o !! p = Some size -> p < myblock + MAX_MEMORY ->
      myfree myblock p file line st = Ok (tt, st') ->
      client_step (Client st o) (Client st' (delete p o))
  | step_free_bad st o p file line st' :
      inMemorySpace myblock p = false ->
      myfree myblock p file line st = Ok (tt, st') ->
      client_step (Client st o) (Client st' o)
  | step_write st o p size x v :
      o !! p = Some size -> p <= x < p + size ->
      client_step (Client st o) (Client (with_mem st (store 1 (hmem st) x v)) o).

Definition client_start : client := Client program_start ∅.

(** The allocator and its client agree on the allocated blocks. *)
Definition client_inv (c : client) : Prop :=
  exists l, heap_view (heap c) l /\ coalesced l /\
    forall p size, owned c !! p = Some size <->
                   hlive myblock l (p - 16) (Seg size false).
End definitions.

Section proofs.
Context (myblock : Z) (Hbase : 0 < myblock) (Htop : myblock + MAX_MEMORY < 2 ^ 64).

(** ** The blocks implement the header interface *)

Definition split_block (m : mem) (current size sizeWithBlock : Z) : mem :=
  let newBlock := current + sizeWithBlock in
  let m := set_isFree m newBlock true in
  let m := set_size m newBlock (b_size m current - sizeWithBlock) in
  let m := set_next m newBlock (b_next m current) in
  let m := set_next m current newBlock in
  let m := set_size m current size in
  set_isFree m current false.

Lemma set_isFree_law m a s nx v :
  header (hdr:=16) m a s nx ->
  header (hdr:=16) (set_isFree m a v) a (Seg (seg_size s) v) nx /\
  agree (outside 16 a) m (set_isFree m a v).
Proof.
  intros (Hf & Hz & Hn). split.
  - split; [|split]; cbn [hv_free hv_len hv_next block_view] in *; fields;
      [apply b2z_ne0|done|done].
  - apply store_agree. unfold outside. cbn. lia.
Qed.

Lemma split_law m a s nx n :
  seg_in 16 myblock (myblock + MAX_MEMORY) a s -> header (hdr:=16) m a s nx ->
  links 16 a s nx -> 0 <= n -> n + 16 <= seg_size s ->
  header (hdr:=16) (split_block m a n (n + 16)) a (Seg n false) (a + (n + 16)) /\
  header (hdr:=16) (split_block m a n (n + 16)) (a + (n + 16))
    (Seg (seg_size s - (n + 16)) true) nx /\
  agree (fun x => x < a \/ a + span 16 s <= x) m (split_block m a n (n + 16)).
Proof.
  intros (Ha & Hb & _) (Hf & Hz & Hn) Hnx H0 Hle. unfold links, span, MAX_MEMORY in *.
  cbn [hv_free hv_len hv_next block_view] in *. unfold split_block.
  split; [|split]; [split; [|split]|split; [|split]|];
    cbn [hv_free hv_len hv_next block_view seg_size seg_isfree]; fields;
    try apply b2z_ne0.
  - rewrite Z.mod_small; lia.
  - rewrite Z.mod_small; lia.
  - rewrite Hz, Z.mod_small; lia.
  - rewrite Hn, Z.mod_small; lia.
  - intros x Hx. rewrite !store_other; [done|cbn; lia..].
Qed.

Lemma merge_law m a s t nx :
  seg_in 16 myblock (myblock + MAX_MEMORY) a s ->
  seg_in 16 myblock (myblock + MAX_MEMORY) (a + span 16 s) t ->
  header (hdr:=16) m a s (a + span 16 s) -> header (hdr:=16) m (a + span 16 s) t nx ->
  links 16 (a + span 16 s) t nx ->
  header (hdr:=16) (merge_right m a (a + span 16 s)) a
    (Seg (seg_size s + (seg_size t + 16)) (seg_isfree s)) nx /\
  agree (outside 16 a) m (merge_right m a (a + span 16 s)).
Proof.
  intros (Ha & Hb & ?) (Ha' & Hb' & ?) (Hf & Hz & _) (_ & Hz' & Hn') Hnx.
  unfold links, span, MAX_MEMORY, merge_right, BLOCK_SIZE in *.
  cbn [hv_free hv_len hv_next block_view] in *.
  split; [split; [|split]|]; cbn [hv_free hv_len hv_next block_view seg_size seg_isfree];
    fields; [done|rewrite Hz, Hz', Z.mod_small; lia|rewrite Hn', Z.mod_small; lia|].
  intros x Hx. unfold outside in Hx. rewrite !store_other; [done|cbn; lia..].
Qed.

#[local] Instance block_ops : HeaderOps 16 myblock (myblock + MAX_MEMORY) := {
  ho_take m b := set_isFree m b false;
  ho_free m b := set_isFree m b true;
  ho_split := split_block;
  ho_merge := merge_right;
  ho_take_law m a s nx _ := set_isFree_law m a s nx false;
  ho_free_law m a s nx _ := set_isFree_law m a s nx true;
  ho_split_law := split_law;
  ho_merge_law := merge_law
}.

(** The loops of the program are the generic ones. *)
Lemma find_fit_generic fuel size w m current :
  find_fit myblock fuel size w m current
  = first_fit (lo:=myblock) (hi:=myblock + MAX_MEMORY) fuel size w m current.
Proof.
  revert current. induction fuel as [|fuel IH]; intros current; [done|].
  cbn [find_fit first_fit]. change (hderef current) with (deref myblock current).
  destruct (deref myblock current); cbn [mbind result_bind]; [|done..].
  cbn [hv_free hv_len hv_next block_view]. by rewrite IH.
Qed.

Lemma release_generic fuel toFree m previous current :
  freeAndMerge_loop myblock fuel toFree m previous current
  = release (lo:=myblock) (hi:=myblock + MAX_MEMORY) fuel toFree m previous current.
Proof.
  revert previous current. induction fuel as [|fuel IH]; intros previous current; [done|].
  cbn [freeAndMerge_loop release]. change (hderef current) with (deref myblock current).
  destruct (current =? toFree); [done|].
  destruct (deref myblock current); cbn [mbind result_bind]; [|done..].
  cbn [hv_free hv_len hv_next block_view]. by rewrite IH.
Qed.

(** [sizeWithBlock] is an [unsigned short]; it does not wrap for a request
    that some block can serve. *)
Lemma sizeWithBlock_small size :
  0 <= size -> size <= myblock + MAX_MEMORY - myblock -> wrap 16 (size + 16) = size + 16.
Proof. intros. apply wrap_small. unfold MAX_MEMORY in *. lia. Qed.

(** ** The operations on the whole state *)

Lemma protected_client l m m' :
  btiles myblock myblock l -> agree (hprotected myblock l) m m' -> agree (client_byte myblock l) m m'.
Proof.
  intros (_ & _ & Ht) H. eapply agree_weaken; [exact H|].
  intros x Hx. unfold protected. unfold client_byte in Hx. rewrite Ht. exact Hx.
Qed.

Lemma root_tiles : btiles myblock myblock root_segment.
Proof.
  unfold root_segment, tiles. rewrite sizes_ok_cons. unfold span, MAX_MEMORY; cbn.
  split; [split; [lia|constructor]|]. unfold span; cbn. lia.
Qed.

Lemma initializeRoot_spec st :
  represents myblock (initializeRoot myblock st) root_segment /\
  agree (client_byte myblock root_segment) (hmem st) (hmem (initializeRoot myblock st)).
Proof.
  split.
  - split; [done|]. split; [done|]. split; [done|]. split; [exact root_tiles|].
    split; [|done]. unfold initializeRoot. cbn [hmem].
    split; [|split]; cbn [hv_free hv_len hv_next block_view]; fields;
      [apply b2z_ne0|by apply Z.mod_small|by apply Z.mod_small].
  - unfold initializeRoot. cbn [hmem]. unfold set_isFree, set_size, set_next.
    intros x Hx. assert (x < myblock \/ myblock + 16 <= x) as Hx'.
    { destruct Hx as [?|[?|Hx]]; [lia|unfold MAX_MEMORY in *; lia|].
      apply taken_byte_bounds in Hx; [lia|lia|apply root_tiles]. }
    rewrite !store_other; [done|cbn; lia..].
Qed.

Lemma list_fuel_enough l : btiles myblock myblock l -> (length l <= list_fuel)%nat.
Proof.
  intros (Hs & _ & Ht). pose proof (total_length 16 hdr_pos l Hs).
  unfold list_fuel. unfold MAX_MEMORY in *. lia.
Qed.

Lemma start_view st l :
  heap_view myblock st l ->
  represents myblock (if firstMalloc st then initializeRoot myblock st else st) l /\
  out (if firstMalloc st then initializeRoot myblock st else st) = out st /\
  agree (client_byte myblock l) (hmem st)
    (hmem (if firstMalloc st then initializeRoot myblock st else st)).
Proof.
  intros [Hr|[-> ->]]; [|split; [apply initializeRoot_spec|split; [done|apply initializeRoot_spec]]].
  pose proof Hr as (-> & _). done.
Qed.

Lemma mymalloc_spec st l size file line :
  heap_view myblock st l -> 0 <= size ->
  match halloc size myblock l with
  | Some (p, l') =>
      exists st', mymalloc myblock size file line st = Ok (p + 16, st') /\
        represents myblock st' l' /\ out st' = out st /\
        agree (client_byte myblock l) (hmem st) (hmem st')
  | None =>
      exists st', mymalloc myblock size file line st = Ok (0, st') /\
        represents myblock st' l /\ out st' = NotEnoughSpace line file :: out st /\
        agree (client_byte myblock l) (hmem st) (hmem st')
  end.
Proof.
  intros Hv Hsz. destruct (start_view _ _ Hv) as (Hr & Ho & Hag).
  unfold mymalloc. revert Hr Ho Hag.
  generalize (if firstMalloc st then initializeRoot myblock st else st).
  intros st1 (Hf & Hroot & Hne & Ht & Hc) Ho Hag. rewrite Hroot.
  rewrite find_fit_generic.
  pose proof (first_fit_refines hdr_pos Hbase size (wrap 16 (size + 16)) list_fuel l (hmem st1)
                myblock Hsz (sizeWithBlock_small size Hsz) Ht Hne Hc
                (list_fuel_enough _ Ht)) as H.
  unfold BLOCK_SIZE.
  destruct (halloc size myblock l) as [[p l']|] eqn:E.
  - destruct H as (m' & -> & Hc' & Hag'). cbn [mbind result_bind].
    destruct Ht as (Hs & Hb & Ht).
    pose proof (seg_alloc_bounds 16 hdr_pos _ _ _ _ _ Hsz Hs E).
    rewrite Zeqb_f by lia. eexists. split; [done|]. split; [|split; [done|]].
    + split; [done|]. split; [done|]. cbn [hmem with_mem]. split.
      { intros ->. by destruct l as [|s l]; [|apply seg_alloc_head in E as (?&?&?&?)]. }
      split; [|done]. split; [by eapply seg_alloc_sizes|].
      rewrite (seg_alloc_total _ _ _ _ _ _ E). done.
    + etrans; [exact Hag|]. by apply protected_client.
  - rewrite H. cbn [mbind result_bind]. rewrite Z.eqb_refl.
    eexists. split; [done|]. cbn. by rewrite Ho.
Qed.

Lemma inMemorySpace_ok p :
  inMemorySpace myblock p = true <-> myblock <= p < myblock + MAX_MEMORY.
Proof.
  unfold inMemorySpace. rewrite andb_true_iff, !Z.leb_le. unfold MAX_MEMORY. lia.
Qed.

Lemma block_header st l q s :
  represents myblock st l -> hlive myblock l q s ->
  b_isFree (hmem st) q = false /\ deref myblock q = Ok tt /\
  myblock <= q /\ q + 16 + seg_size s <= myblock + MAX_MEMORY /\ 0 <= seg_size s.
Proof.
  intros (_ & _ & _ & Ht & Hc) Hl.
  destruct (live_header hdr_pos Hbase _ _ _ _ _ Ht Hc Hl) as (?&?&?&?&?).
  unfold span in *. split_and!; try done; lia.
Qed.

(** A block of no bytes at the end of the array has its pointer outside. *)
Lemma myfree_spec st l q s file line :
  represents myblock st l -> hlive myblock l q s -> q + 16 < myblock + MAX_MEMORY ->
  exists st' l', myfree myblock (q + 16) file line st = Ok (tt, st') /\
    hfree q myblock l = Some l' /\ represents myblock st' l' /\ out st' = out st /\
    agree (client_byte myblock l) (hmem st) (hmem st') /\ b_isFree (hmem st') q = true.
Proof.
  intros Hr Hl Hend. destruct (block_header _ _ _ _ Hr Hl) as (Hfr & Hd & Hq & Hq2 & ?).
  destruct Hr as (Hf & Hroot & Hne & Ht & Hc). pose proof Ht as (Hs & _ & Htot).
  destruct (seg_release_live 16 hdr_pos q myblock None l s Hs Hl) as [l' E].
  unfold myfree. rewrite (proj2 (inMemorySpace_ok _)) by lia. cbn [negb].
  unfold BLOCK_SIZE. rewrite Z.add_simpl_r, Hd. cbn [mbind result_bind].
  rewrite Hfr. unfold freeAndMerge. rewrite Hroot.
  rewrite release_generic.
  pose proof (release_refines hdr_pos Hbase list_fuel l (hmem st) myblock None q Ht Hc Hne
                (list_fuel_enough _ Ht)) as H'. cbn [prev_addr] in H'.
  rewrite E in H'. destruct H' as (m' & -> & Hc' & Hag & Hfree'). cbn.
  exists (with_mem st m'), l'. split; [done|]. split; [done|].
  destruct (seg_free_spec 16 hdr_pos q myblock l l' Hs E) as (Htt & Hs' & _).
  split; [|split; [done|split; [by apply protected_client|done]]].
  split; [done|]. split; [done|]. split.
  { intros ->. cbn in *. unfold MAX_MEMORY in *. lia. }
  split; [|done]. split; [done|]. split; [lia|]. by rewrite Htt.
Qed.
(** ** Clients *)

Lemma client_byte_write l q s x m v :
  btiles myblock myblock l -> hlive myblock l q s -> q + 16 <= x < q + span 16 s ->
  hchain m myblock l -> hchain (store 1 m x v) myblock l.
Proof.
  intros (Hs & _ & _) Hl Hx Hc. eapply (chain_agree hdr_pos); [done| |done].
  apply store_agree. intros y [_ Hy]. cbn.
  destruct (decide (y = x)) as [->|]; [|lia]. destruct Hy. by exists q, s.
Qed.

Lemma unstarted_no_block q s : ~ hlive myblock root_segment q s.
Proof. cbn. naive_solver. Qed.

Lemma owned_live c p size :
  client_inv myblock c -> owned c !! p = Some size ->
  exists l, represents myblock (heap c) l /\ coalesced l /\
    hlive myblock l (p - 16) (Seg size false) /\
    (forall p size, owned c !! p = Some size <->
                    hlive myblock l (p - 16) (Seg size false)).
Proof.
  intros (l & [Hr|[_ ->]] & Hco & Ho) Hp; [exists l; by rewrite <- Ho|].
  apply Ho in Hp. by apply unstarted_no_block in Hp.
Qed.

Lemma client_inv_malloc st o size file line p st' :
  client_inv myblock (Client st o) -> 0 <= size ->
  mymalloc myblock size file line st = Ok (p, st') ->
  client_inv myblock (Client st' (if p =? 0 then o else <[p:=size]> o)).
Proof.
  intros (l & Hv & Hco & Ho) Hsz E. cbn in *.
  pose proof (mymalloc_spec st l size file line Hv Hsz) as H.
  assert (btiles myblock myblock l) as Htl
    by (destruct Hv as [(_&_&_&?&_)|[_ ->]]; [done|exact root_tiles]).
  destruct (halloc size myblock l) as [[q l']|] eqn:Ea;
    destruct H as (st2 & E2 & Hr & _); rewrite E2 in E; injection E as <- <-.
  - destruct (seg_alloc_bounds 16 hdr_pos _ _ _ _ _ Hsz (proj1 Htl) Ea).
    rewrite Zeqb_f by lia. exists l'. split; [by left|].
    split; [by eapply seg_alloc_coalesced|]. cbn. intros p' sz.
    rewrite (seg_alloc_live 16 _ _ _ _ _ Ea), <- Ho.
    destruct (decide (p' = q + 16)) as [->|Hne].
    + rewrite lookup_insert_eq, Z.add_simpl_r. split.
      * intros [= ->]. auto.
      * intros [Hl|[_ [= ->]]]; [|done]. apply Ho in Hl.
        rewrite Z.add_simpl_r in Hl.
        by destruct (seg_alloc_fresh 16 hdr_pos _ _ _ _ _ _ _ Hsz (proj1 Htl) Ea Hl).
    + rewrite lookup_insert_ne by done. split; [auto|].
      intros [?|[? _]]; [done|lia].
  - cbn. exists l. split; [by left|done].
Qed.

Lemma client_inv_free st o p size file line st' :
  client_inv myblock (Client st o) -> o !! p = Some size -> p < myblock + MAX_MEMORY ->
  myfree myblock p file line st = Ok (tt, st') ->
  client_inv myblock (Client st' (delete p o)).
Proof.
  intros Hi Hp Hend E. destruct (owned_live _ _ _ Hi Hp) as (l & Hr & Hco & Hl & Ho).
  cbn in *.
  destruct (myfree_spec st l (p - 16) _ file line Hr Hl) as (st2 & l' & E2 & Ef & Hr' & _);
    [lia|]. rewrite Z.sub_add, E in E2. injection E2 as <-.
  assert (sizes_ok l) as Hs by apply Hr.
  destruct (seg_free_spec 16 hdr_pos _ _ _ _ Hs Ef) as (_ & _ & Hco' & Hlv).
  exists l'. split; [by left|]. split; [auto|]. cbn. intros p' sz.
  rewrite Hlv, <- Ho. destruct (decide (p = p')) as [->|Hne].
  - rewrite lookup_delete_eq. naive_solver.
  - rewrite lookup_delete_ne by done. intuition lia.
Qed.

Lemma client_inv_step c c' :
  client_inv myblock c -> client_step myblock c c' -> client_inv myblock c'.
Proof.
  intros Hi Hst. destruct Hst as [st o size file line p st' Hsz E
    |st o p size file line st' Hp Hend E|st o p file line st' Hout E
    |st o p size x v Hp Hx].
  - eapply client_inv_malloc; [done|lia|done].
  - by eapply client_inv_free.
  - unfold myfree in E. rewrite Hout in E. cbn in E. injection E as <-.
    exact Hi.
  - destruct (owned_live _ _ _ Hi Hp) as (l & Hr & Hco & Hl & Ho).
    destruct Hr as (Hf & Hroot & Hne & Ht & Hc). exists l.
    split; [|done]. left. split; [done|]. split; [done|]. split; [done|].
    split; [done|]. eapply client_byte_write; [done|done| |done].
    unfold span. cbn. lia.
Qed.

Lemma client_inv_start : client_inv myblock client_start.
Proof.
  exists root_segment. split; [by right|]. split; [done|]. cbn.
  intros p size. rewrite lookup_empty. naive_solver.
Qed.

Lemma client_inv_reachable c : rtc (client_step myblock) client_start c -> client_inv myblock c.
Proof.
  intros H. remember client_start as c0 eqn:E.
  assert (client_inv myblock c0) as Hi by (subst; exact client_inv_start).
  clear E. induction H; eauto using client_inv_step.
Qed.
End proofs.

(** ** The properties of the allocator *)

Section theorems.
Context (myblock : Z) (Hbase : 0 < myblock) (Htop : myblock + MAX_MEMORY < 2 ^ 64).

(** C8: [mymalloc] implements first-fit allocation on the segment list that
    the headers describe.  It never faults, whatever the size requested; a
    served request returns the payload of the new segment, which lies in the
    array and meets no allocated payload; a refused request prints the
    message and leaves the segments as they are.  No byte outside the array
    and no byte of an allocated payload changes. *)
Theorem mymalloc_refines st l size file line :
  heap_view myblock st l -> 0 <= size ->
  exists ptr st' l',
    mymalloc myblock size file line st = Ok (ptr, st') /\
    represents myblock st' l' /\ agree (client_byte myblock l) (hmem st) (hmem st') /\
    match halloc size myblock l with
    | Some (p, r) =>
        ptr = p + 16 /\ l' = r /\ out st' = out st /\
        myblock <= p /\ ptr + size <= myblock + MAX_MEMORY /\
        (forall x, taken_byte 16 myblock l x -> ~ (ptr <= x < ptr + size))
    | None => ptr = 0 /\ l' = l /\ out st' = NotEnoughSpace line file :: out st
    end.
Proof.
  intros Hv Hsz. pose proof (mymalloc_spec myblock Hbase Htop st l size file line Hv Hsz) as H.
  assert (btiles myblock myblock l) as (Hs & _ & Htot)
    by (destruct Hv as [(_&_&_&?&_)|[_ ->]]; [done|exact (root_tiles myblock)]).
  destruct (halloc size myblock l) as [[p r]|] eqn:E; destruct H as (st' & -> & ? & ? & ?).
  - exists (p + 16), st', r. destruct (seg_alloc_bounds 16 hdr_pos _ _ _ _ _ Hsz Hs E).
    split_and!; try done; try lia. intros x Hx.
    pose proof (seg_alloc_disjoint 16 hdr_pos _ _ _ _ _ x Hsz Hs E Hx). lia.
  - exists 0, st', l. done.
Qed.

(** C16: releasing an allocated block implements the release of the segment
    list: the block becomes free, is merged with its free neighbours, every
    other allocated block keeps its place and its bytes, and the list stays
    tiled; when it was merged before it is merged after. *)
Theorem myfree_refines st l q s file line :
  represents myblock st l -> hlive myblock l q s -> q + 16 < myblock + MAX_MEMORY ->
  exists st' l',
    myfree myblock (q + 16) file line st = Ok (tt, st') /\
    hfree q myblock l = Some l' /\ represents myblock st' l' /\ out st' = out st /\
    (coalesced l -> coalesced l') /\
    (forall q' s', hlive myblock l' q' s' <-> hlive myblock l q' s' /\ q' <> q) /\
    agree (client_byte myblock l) (hmem st) (hmem st').
Proof.
  intros Hr Hl Hend. assert (sizes_ok l) as Hs by apply Hr.
  destruct (myfree_spec myblock Hbase Htop st l q s file line Hr Hl Hend)
    as (st' & l' & E & Ef & Hr' & Ho & Hag & _).
  destruct (seg_free_spec 16 hdr_pos _ _ _ _ Hs Ef) as (_ & _ & Hco & Hlv).
  exists st', l'. done.
Qed.

(** Releasing a block twice in a row is detected: the second call prints
    "already been freed" and changes no byte of memory, even when the first
    merged the block into its neighbours. *)
Theorem double_free_detected st l q s file line file2 line2 :
  represents myblock st l -> hlive myblock l q s -> q + 16 < myblock + MAX_MEMORY ->
  exists st', myfree myblock (q + 16) file line st = Ok (tt, st') /\
    myfree myblock (q + 16) file2 line2 st' = Ok (tt, print (AlreadyFreed line2 file2) st').
Proof.
  intros Hr Hl Hend. destruct (block_header myblock Hbase _ _ _ _ Hr Hl) as (_&Hd&?&_).
  destruct (myfree_spec myblock Hbase Htop st l q s file line Hr Hl Hend)
    as (st' & l' & E & _ & _ & _ & _ & Hfr).
  exists st'. split; [done|]. unfold myfree.
  rewrite (proj2 (inMemorySpace_ok myblock _)) by lia. cbn [negb].
  unfold BLOCK_SIZE. rewrite Z.add_simpl_r, Hd. cbn. by rewrite Hfr.
Qed.

(** Allocating and releasing gives the segment list back, when its free
    segments were merged. *)
Theorem malloc_free_roundtrip st l size file line :
  heap_view myblock st l -> coalesced l -> 0 < size -> halloc size myblock l <> None ->
  exists ptr st1 st2, mymalloc myblock size file line st = Ok (ptr, st1) /\
    myfree myblock ptr file line st1 = Ok (tt, st2) /\ represents myblock st2 l.
Proof.
  intros Hv Hco Hsz Hsome.
  pose proof (mymalloc_spec myblock Hbase Htop st l size file line Hv ltac:(lia)) as H.
  assert (btiles myblock myblock l) as (Hs & _ & Htot)
    by (destruct Hv as [(_&_&_&?&_)|[_ ->]]; [done|exact (root_tiles myblock)]).
  destruct (halloc size myblock l) as [[p r]|] eqn:E; [|done].
  destruct H as (st1 & E1 & Hr & _).
  assert (hlive myblock r p (Seg size false)) as Hl
    by (apply (seg_alloc_live 16 _ _ _ _ _ E); auto).
  destruct (seg_alloc_bounds 16 hdr_pos size myblock l p r ltac:(lia) Hs E).
  destruct (myfree_spec myblock Hbase Htop st1 r p _ file line Hr Hl)
    as (st2 & l2 & E2 & Ef & Hr2 & _); [lia|].
  unfold seg_free in Ef.
  rewrite (seg_release_alloc 16 hdr_pos size myblock l p r None) in Ef; try done; [|lia].
  injection Ef as <-. eauto 10.
Qed.

(** [mymalloc] returns NULL exactly when no free segment has the
    requested size or at least a header more. *)
Theorem mymalloc_null_iff st l size file line :
  heap_view myblock st l -> 0 <= size ->
  (exists st', mymalloc myblock size file line st = Ok (0, st')) <->
  Forall (unfit 16 size) l.
Proof.
  intros Hv Hsz. rewrite <- (seg_alloc_none 16 hdr_pos size myblock l).
  pose proof (mymalloc_spec myblock Hbase Htop st l size file line Hv Hsz) as H.
  assert (btiles myblock myblock l) as (Hs & _ & Htot)
    by (destruct Hv as [(_&_&_&?&_)|[_ ->]]; [done|exact (root_tiles myblock)]).
  destruct (halloc size myblock l) as [[p r]|] eqn:E; destruct H as (st' & E' & _).
  - destruct (seg_alloc_bounds 16 hdr_pos _ _ _ _ _ Hsz Hs E).
    split; [|done]. intros (st2 & E2). rewrite E' in E2. injection E2. lia.
  - split; eauto.
Qed.

(** C1: for a client that releases only what it holds and writes only in its
    blocks, every reachable state is safe: its blocks lie in the array and
    are pairwise separated by at least a header, no request and no release
    of a held block faults, and such a release prints no error. *)
Theorem client_safety c :
  rtc (client_step myblock) client_start c ->
  (forall p n, owned c !! p = Some n ->
     myblock + 16 <= p /\ 0 <= n /\ p + n <= myblock + MAX_MEMORY) /\
  (forall p n q m, owned c !! p = Some n -> owned c !! q = Some m -> p <> q ->
     p + n + 16 <= q \/ q + m + 16 <= p) /\
  (forall size file line, 0 <= size -> is_ok (mymalloc myblock size file line (heap c)) = true) /\
  (forall p n file line, owned c !! p = Some n -> p < myblock + MAX_MEMORY ->
     exists st', myfree myblock p file line (heap c) = Ok (tt, st') /\ out st' = out (heap c)).
Proof.
  intros Hreach. pose proof (client_inv_reachable myblock Hbase Htop c Hreach) as Hi.
  repeat match goal with |- _ /\ _ => split end.
  - intros p n Hp. destruct (owned_live myblock _ _ _ Hi Hp) as (l & Hr & _ & Hl & _).
    destruct (block_header myblock Hbase _ _ _ _ Hr Hl) as (_&_&?&?&?). cbn in *. lia.
  - intros p n q m Hp Hq Hne.
    destruct (owned_live myblock _ _ _ Hi Hp) as (l & Hr & _ & Hl & Ho).
    apply Ho in Hq. assert (sizes_ok l) as Hs by apply Hr.
    destruct (live_disjoint 16 hdr_pos _ _ _ _ _ _ Hs Hl Hq) as [[? _]|Hd]; [lia|].
    unfold span in Hd; cbn in Hd. lia.
  - intros size file line Hsz. destruct Hi as (l & Hv & _).
    pose proof (mymalloc_spec myblock Hbase Htop _ l size file line Hv Hsz) as H.
    by destruct (halloc size myblock l) as [[p r]|]; destruct H as (st' & -> & _).
  - intros p n file line Hp Hend.
    destruct (owned_live myblock _ _ _ Hi Hp) as (l & Hr & _ & Hl & _).
    destruct (myfree_spec myblock Hbase Htop _ _ _ _ file line Hr Hl)
      as (st' & l' & E & _ & _ & Ho & _); [lia|].
    rewrite Z.sub_add in E. eauto.
Qed.

(** [myfree] of any address past the first header of the array, before
    the first [mymalloc], dereferences NULL: the list has no root yet. *)
Theorem myfree_before_malloc ptr file line :
  myblock + 16 <= ptr < myblock + MAX_MEMORY ->
  myfree myblock ptr file line program_start = Fault NullDeref.
Proof.
  intros Hp. unfold myfree. rewrite (proj2 (inMemorySpace_ok myblock _)) by lia.
  cbn [negb]. unfold BLOCK_SIZE. unfold deref, BLOCK_SIZE; btests. cbn [mbind result_bind].
  unfold freeAndMerge, list_fuel, MAX_MEMORY in *. cbn [rootBlock program_start].
  change (Z.to_nat 5000) with (S (Z.to_nat 4999)). cbn [freeAndMerge_loop].
  rewrite Zeqb_f by lia. done.
Qed.

(** An empty block whose header ends the array cannot be released: its
    pointer is one past the array, so [myfree] reports that it was not
    created by malloc and the block stays allocated. *)
Theorem end_block_not_released st l q file line :
  represents myblock st l -> hlive myblock l q (Seg 0 false) ->
  q + 16 = myblock + MAX_MEMORY ->
  myfree myblock (q + 16) file line st =
  Ok (tt, print (NotCreatedUsingMalloc line file) st).
Proof.
  intros _ _ E. unfold myfree, inMemorySpace. rewrite E. unfold MAX_MEMORY. by btests.
Qed.
End theorems.

(** ** The theorems at a concrete heap

    The array at address 4096, as the first request finds it and after it. *)

Definition demo_view : heap_view 4096 program_start root_segment := or_intror (conj eq_refl eq_refl).

Definition after_first : list seg := [Seg 100 false; Seg 4868 true].

Lemma demo_malloc :
  exists st, mymalloc 4096 100 "a.c"%string 1 program_start = Ok (4112, st) /\
    represents 4096 st after_first /\ out st = [].
Proof.
  destruct (mymalloc_spec 4096 ltac:(lia) ltac:(done) _ _ 100 "a.c" 1 demo_view
              ltac:(lia)) as (st & E & Hr & Ho & _).
  exists st. done.
Qed.

Lemma mymalloc_refines_witness :
  exists ptr st' l', mymalloc 4096 100 "a.c"%string 1 program_start = Ok (ptr, st') /\
    represents 4096 st' l'.
Proof.
  destruct (mymalloc_refines 4096 ltac:(lia) ltac:(done) program_start root_segment 100
    "a.c" 1 demo_view ltac:(lia)) as (ptr & st' & l' & E & Hr & _). eauto.
Defined.

Lemma myfree_refines_witness :
  exists st st' l', myfree 4096 4112 "a.c"%string 2 st = Ok (tt, st') /\ represents 4096 st' l'.
Proof.
  destruct demo_malloc as (st & _ & Hr & _).
  destruct (myfree_refines 4096 ltac:(lia) ltac:(done) st after_first 4096 (Seg 100 false)
    "a.c" 2 Hr ltac:(left; done) ltac:(done)) as (st' & l' & E & _ & Hr' & _). eauto.
Defined.

Lemma double_free_detected_witness :
  exists st st', myfree 4096 4112 "a.c"%string 3 st = Ok (tt, print (AlreadyFreed 3 "a.c") st').
Proof.
  destruct demo_malloc as (st & _ & Hr & _).
  destruct (double_free_detected 4096 ltac:(lia) ltac:(done) st after_first 4096
    (Seg 100 false) "a.c" 2 "a.c" 3 Hr ltac:(left; done) ltac:(done)) as (st' & _ & E). eauto.
Defined.

Lemma malloc_free_roundtrip_witness :
  exists ptr st1 st2, mymalloc 4096 100 "a.c"%string 1 program_start = Ok (ptr, st1) /\
    myfree 4096 ptr "a.c"%string 1 st1 = Ok (tt, st2) /\ represents 4096 st2 root_segment.
Proof.
  apply (malloc_free_roundtrip 4096 ltac:(lia) ltac:(done) program_start root_segment 100
    "a.c" 1 demo_view); done.
Defined.

Lemma mymalloc_null_iff_witness :
  exists st', mymalloc 4096 4970 "a.c"%string 1 program_start = Ok (0, st').
Proof.
  apply (mymalloc_null_iff 4096 ltac:(lia) ltac:(done) program_start root_segment 4970
    "a.c" 1 demo_view); [done|].
  constructor; [|constructor]. intros _. right. done.
Defined.

Lemma client_safety_witness :
  exists c, owned c = {[4112 := 100]} /\
    is_ok (mymalloc 4096 7 "a.c"%string 2 (heap c)) = true.
Proof.
  destruct demo_malloc as (st & E & _).
  exists (Client st {[4112 := 100]}). split; [done|].
  refine (proj1 (proj2 (proj2 (client_safety 4096 _ _ _ _))) 7 _ 2 _); [lia|done| |lia].
  eapply rtc_l; [|apply rtc_refl].
  apply (step_malloc 4096 program_start ∅ 100 "a.c" 1 4112 st); [lia|exact E].
Defined.

Lemma myfree_before_malloc_witness :
  4096 + 16 <= 5000 < 4096 + MAX_MEMORY /\
  myfree 4096 5000 "a.c"%string 1 program_start = Fault NullDeref.
Proof.
  split; [done|]. apply (myfree_before_malloc 4096); done.
Defined.

Lemma end_block_not_released_witness :
  exists st, myfree 4096 9096 "a.c"%string 3 st
           = Ok (tt, print (NotCreatedUsingMalloc 3 "a.c") st).
Proof.
  destruct (mymalloc_spec 4096 ltac:(lia) ltac:(done) _ _ 4968 "a.c" 1 demo_view
              ltac:(lia)) as (st & _ & Hr & _).
  destruct (mymalloc_spec 4096 ltac:(lia) ltac:(done) _ _ 0 "a.c" 2 (or_introl Hr)
              ltac:(lia)) as (st2 & _ & Hr2 & _).
  exists st2.
  apply (end_block_not_released 4096 st2 [Seg 4968 false; Seg 0 false] 9080 "a.c" 3);
    [exact Hr2|right; left; done|done].
Defined.
