(* ===== verification/BlockWord.v ===== *)
(** * Packed words: the block headers and page-table entries of
    [my_pthread/my_pthread.c]

    A block header is an [unsigned int]: the size in bits 8 to 31, the flag
    "a block follows" in bits 4 to 7, the flag "free" in bits 0 to 3.  A
    page-table entry is an [unsigned int]: the page number within its thread
    in bits 16 to 31, the thread in bits 8 to 15, the flag "free" in bits 0
    to 7.  Shifts wrap at 32 bits, as they do on [unsigned int]. *)

From S2P Require Import Prelude.

(** ** Block headers *)

Definition setBlockSize (block size : Z) : Z :=
  let temp := Z.land block 0x000000FF in
  Z.lor (wrap 32 (Z.shiftl size 8)) temp.

Definition getBlockSize (block : Z) : Z := Z.land (Z.shiftr block 8) 0x00FFFFFF.

Definition setBlockIsNext (block isNext : Z) : Z :=
  let temp := Z.land block 0xFFFFFF0F in
  Z.lor (wrap 32 (Z.shiftl isNext 4)) temp.

Definition getBlockIsNext (block : Z) : Z := Z.land (Z.shiftr block 4) 0x0000000F.

Definition setBlockIsF (block isF : Z) : Z :=
  let temp := Z.land block 0xFFFFFFF0 in
  Z.lor temp isF.

Definition getBlockIsF (block : Z) : Z := Z.land block 0x0000000F.

(** ** Page-table entries *)

Definition setPagePgID (pg id : Z) : Z :=
  let temp := Z.land pg 0x0000FFFF in
  Z.lor (wrap 32 (Z.shiftl id 16)) temp.

Definition getPagePgID (pg : Z) : Z := Z.land (Z.shiftr pg 16) 0x0000FFFF.

Definition setPageThID (pg id : Z) : Z :=
  let temp := Z.land pg 0xFFFF00FF in
  Z.lor (wrap 32 (Z.shiftl id 8)) temp.

Definition getPageThID (pg : Z) : Z := Z.land (Z.shiftr pg 8) 0x000000FF.

Definition setPageIsF (pg free : Z) : Z :=
  let pg := Z.land pg 0xFFFFFF00 in
  Z.lor pg free.

Definition getPageIsF (pg : Z) : Z := Z.land pg 0x000000FF.

(** A word with the three fields of a header. *)
Definition block_word (size isNext isF : Z) : Z := size * 256 + isNext * 16 + isF.

(** An entry with the three fields of a page-table entry. *)
Definition page_word (pgid thid isF : Z) : Z := pgid * 65536 + thid * 256 + isF.

(** ** Masks *)

(** [field lo n w] is the field of [n] bits at bit [lo] of [w]. *)
Definition field (lo n w : Z) : Z := Z.land (Z.shiftr w lo) (Z.ones n).

(** [keep_around lo n w] clears that field, in a word of 32 bits. *)
Definition keep_around (lo n w : Z) : Z :=
  Z.land w (Z.lor (Z.ones lo) (Z.shiftl (Z.ones (32 - lo - n)) (lo + n))).

Definition set_field (lo n w v : Z) : Z :=
  Z.lor (Z.land (Z.shiftl v lo) (Z.ones 32)) (keep_around lo n w).

Lemma wrap_land w z : 0 <= w -> wrap w z = Z.land z (Z.ones w).
Proof. intros. symmetry. by apply Z.land_ones. Qed.

Create Rewrite HintDb zbits.
#[export] Hint Rewrite Z.land_spec Z.lor_spec Z.testbit_ones : zbits.
#[export] Hint Rewrite Z.shiftl_spec Z.shiftr_spec using lia : zbits.

(** Decides an equation between fields of words bit by bit. *)
Ltac zcmp :=
  match goal with
  | |- context [?a <=? ?b] => destruct (Z.leb_spec a b); try lia
  | |- context [?a <? ?b] => destruct (Z.ltb_spec a b); try lia
  end.

Ltac zneg :=
  match goal with
  | |- context [Z.testbit ?x ?n] => rewrite (Z.testbit_neg_r x n) by lia
  end.

Ltac zbits :=
  apply Z.bits_inj'; intros i Hi; autorewrite with zbits;
  repeat zcmp; repeat zneg; cbn [andb orb];
  rewrite ?andb_true_r, ?andb_false_r, ?orb_false_r, ?orb_true_r; try done;
  try (f_equal; lia).

Section field_laws.
Context (lo n : Z) (Hlo : 0 <= lo) (Hn : 0 <= n) (Hlen : lo + n <= 32).

Lemma field_bounds w : 0 <= field lo n w < 2 ^ n.
Proof. unfold field. rewrite Z.land_ones by lia. apply Z.mod_pos_bound. lia. Qed.

Lemma field_set_same w v : 0 <= v < 2 ^ n -> field lo n (set_field lo n w v) = v.
Proof.
  intros Hv. rewrite <- (Z.mod_small v (2 ^ n)), <- Z.land_ones by lia.
  unfold field, set_field, keep_around. generalize v as u. intros u. zbits.
Qed.

Lemma field_set_other lo' n' w v :
  0 <= v < 2 ^ n -> 0 <= lo' -> 0 <= n' -> lo' + n' <= 32 ->
  lo' + n' <= lo \/ lo + n <= lo' ->
  field lo' n' (set_field lo n w v) = field lo' n' w.
Proof.
  intros Hv ? ? ? Hd. rewrite <- (Z.mod_small v (2 ^ n)), <- Z.land_ones by lia.
  unfold field, set_field, keep_around. generalize v as u. intros u. zbits.
Qed.

Lemma set_field_bounds w v : 0 <= set_field lo n w v < 2 ^ 32.
Proof.
  assert (set_field lo n w v = wrap 32 (set_field lo n w v)) as ->.
  { rewrite wrap_land by lia. unfold set_field, keep_around. zbits. }
  apply wrap_bounds. lia.
Qed.
End field_laws.

(** ** The accessors are field operations *)

Lemma setBlockSize_field w s : setBlockSize w s = set_field 8 24 w s.
Proof. unfold setBlockSize. by rewrite wrap_land. Qed.

Lemma setBlockIsNext_field w v : setBlockIsNext w v = set_field 4 4 w v.
Proof. unfold setBlockIsNext. by rewrite wrap_land. Qed.

Lemma set_low_field n w v :
  0 <= n <= 32 -> 0 <= v < 2 ^ n ->
  Z.lor (keep_around 0 n w) v = set_field 0 n w v.
Proof.
  intros Hn Hv. unfold set_field. rewrite Z.lor_comm, Z.shiftl_0_r. f_equal.
  rewrite Z.land_ones, Z.mod_small; [done| |lia].
  pose proof (Z.pow_le_mono_r 2 n 32). lia.
Qed.

Lemma setBlockIsF_field w v : 0 <= v < 16 -> setBlockIsF w v = set_field 0 4 w v.
Proof. intros. by rewrite <- set_low_field. Qed.

Lemma setPagePgID_field w v : setPagePgID w v = set_field 16 16 w v.
Proof. unfold setPagePgID. by rewrite wrap_land. Qed.

Lemma setPageThID_field w v : setPageThID w v = set_field 8 8 w v.
Proof. unfold setPageThID. by rewrite wrap_land. Qed.

Lemma setPageIsF_field w v : 0 <= v < 256 -> setPageIsF w v = set_field 0 8 w v.
Proof. intros. by rewrite <- set_low_field. Qed.

Lemma getBlockSize_field w : getBlockSize w = field 8 24 w.
Proof. done. Qed.
Lemma getBlockIsNext_field w : getBlockIsNext w = field 4 4 w.
Proof. done. Qed.
Lemma getBlockIsF_field w : getBlockIsF w = field 0 4 w.
Proof. unfold field. by rewrite Z.shiftr_0_r. Qed.
Lemma getPagePgID_field w : getPagePgID w = field 16 16 w.
Proof. done. Qed.
Lemma getPageThID_field w : getPageThID w = field 8 8 w.
Proof. done. Qed.
Lemma getPageIsF_field w : getPageIsF w = field 0 8 w.
Proof. unfold field. by rewrite Z.shiftr_0_r. Qed.

(** Rewrites every accessor to its field, and the field of an updated word. *)
Ltac word_fields :=
  rewrite ?setBlockSize_field, ?setBlockIsNext_field, ?setPagePgID_field,
    ?setPageThID_field, ?getBlockSize_field, ?getBlockIsNext_field,
    ?getBlockIsF_field, ?getPagePgID_field, ?getPageThID_field, ?getPageIsF_field;
  repeat first [rewrite setBlockIsF_field by lia | rewrite setPageIsF_field by lia];
  repeat first [rewrite field_set_same by (cbn; lia) | rewrite field_set_other by (cbn; lia)].

(** The three fields of a header are independent: a setter given a value that
    fits changes its own field only. *)
Lemma setBlockSize_spec w s :
  0 <= s < 2 ^ 24 ->
  getBlockSize (setBlockSize w s) = s /\
  getBlockIsNext (setBlockSize w s) = getBlockIsNext w /\
  getBlockIsF (setBlockSize w s) = getBlockIsF w.
Proof. intros. by word_fields. Qed.

Lemma setBlockIsNext_spec w v :
  0 <= v < 16 ->
  getBlockSize (setBlockIsNext w v) = getBlockSize w /\
  getBlockIsNext (setBlockIsNext w v) = v /\
  getBlockIsF (setBlockIsNext w v) = getBlockIsF w.
Proof. intros. by word_fields. Qed.

Lemma setBlockIsF_spec w v :
  0 <= v < 16 ->
  getBlockSize (setBlockIsF w v) = getBlockSize w /\
  getBlockIsNext (setBlockIsF w v) = getBlockIsNext w /\
  getBlockIsF (setBlockIsF w v) = v.
Proof. intros. by word_fields. Qed.

Lemma setPagePgID_spec w v :
  0 <= v < 2 ^ 16 ->
  getPagePgID (setPagePgID w v) = v /\
  getPageThID (setPagePgID w v) = getPageThID w /\
  getPageIsF (setPagePgID w v) = getPageIsF w.
Proof. intros. by word_fields. Qed.

Lemma setPageThID_spec w v :
  0 <= v < 256 ->
  getPagePgID (setPageThID w v) = getPagePgID w /\
  getPageThID (setPageThID w v) = v /\
  getPageIsF (setPageThID w v) = getPageIsF w.
Proof. intros. by word_fields. Qed.

Lemma setPageIsF_spec w v :
  0 <= v < 256 ->
  getPagePgID (setPageIsF w v) = getPagePgID w /\
  getPageThID (setPageIsF w v) = getPageThID w /\
  getPageIsF (setPageIsF w v) = v.
Proof. intros. by word_fields. Qed.

(** Setters return 32-bit words. *)
Lemma setPage_bounds w v :
  0 <= w < 2 ^ 32 -> 0 <= v < 256 ->
  0 <= setPagePgID w v < 2 ^ 32 /\ 0 <= setPageThID w v < 2 ^ 32 /\
  0 <= setPageIsF w v < 2 ^ 32.
Proof.
  intros. rewrite setPagePgID_field, setPageThID_field, setPageIsF_field by lia.
  repeat split; apply set_field_bounds; lia.
Qed.

Lemma word_split a b w :
  0 <= a -> 0 <= b -> field 0 (a + b) w = field a b w * 2 ^ a + field 0 a w.
Proof.
  intros Ha Hb. unfold field. rewrite !Z.land_ones, !Z.shiftr_0_r, Z.shiftr_div_pow2 by lia.
  rewrite Z.pow_add_r by lia. rewrite Z.rem_mul_r; [lia|lia|].
  apply Z.pow_pos_nonneg; lia.
Qed.

Lemma block_word_fields w :
  0 <= w < 2 ^ 32 ->
  block_word (getBlockSize w) (getBlockIsNext w) (getBlockIsF w) = w.
Proof.
  intros Hw. unfold block_word.
  rewrite getBlockSize_field, getBlockIsNext_field, getBlockIsF_field.
  assert (w = field 0 32 w) as E
    by (unfold field; rewrite Z.shiftr_0_r, Z.land_ones, Z.mod_small; lia).
  rewrite E at 4. change 32 with (8 + 24). rewrite (word_split 8 24) by lia.
  change (field 0 8 w) with (field 0 (4 + 4) w). rewrite (word_split 4 4) by lia.
  change (2 ^ 8) with 256. change (2 ^ 4) with 16. lia.
Qed.

Lemma page_word_fields w :
  0 <= w < 2 ^ 32 ->
  page_word (getPagePgID w) (getPageThID w) (getPageIsF w) = w.
Proof.
  intros Hw. unfold page_word.
  rewrite getPagePgID_field, getPageThID_field, getPageIsF_field.
  assert (w = field 0 32 w) as E
    by (unfold field; rewrite Z.shiftr_0_r, Z.land_ones, Z.mod_small; lia).
  rewrite E at 4. change 32 with (16 + 16). rewrite (word_split 16 16) by lia.
  change (field 0 16 w) with (field 0 (8 + 8) w). rewrite (word_split 8 8) by lia.
  change (2 ^ 16) with 65536. change (2 ^ 8) with 256. lia.
Qed.

(** ** The properties of the words *)

(** A block header is a record of three independent fields.  Writing the
    size, the "next" and the "free" field of any word, in the order the
    allocator writes them, gives the word with exactly these fields, whatever
    the word held; reading returns what was written; and every 32-bit word is
    determined by its three fields. *)
Theorem block_header_codec w size isNext isF :
  0 <= size < 2 ^ 24 -> 0 <= isNext < 16 -> 0 <= isF < 16 ->
  let h := setBlockIsNext (setBlockSize (setBlockIsF w isF) size) isNext in
  h = block_word size isNext isF /\
  getBlockSize h = size /\ getBlockIsNext h = isNext /\ getBlockIsF h = isF /\
  (0 <= w < 2 ^ 32 ->
     block_word (getBlockSize w) (getBlockIsNext w) (getBlockIsF w) = w).
Proof.
  intros Hs Hn Hf h.
  destruct (setBlockIsF_spec w isF Hf) as (_ & _ & F1).
  destruct (setBlockSize_spec (setBlockIsF w isF) size Hs) as (S1 & _ & S3).
  destruct (setBlockIsNext_spec (setBlockSize (setBlockIsF w isF) size) isNext Hn)
    as (N1 & N2 & N3). fold h in N1, N2, N3.
  rewrite S1 in N1. rewrite S3, F1 in N3.
  split; [|auto using block_word_fields].
  rewrite <- N1, <- N2, <- N3 at 1. symmetry. apply block_word_fields.
  subst h. rewrite setBlockIsNext_field. apply set_field_bounds; lia.
Qed.

(** The same for page-table entries, with page number, thread and "free"
    flag, in the order of [initializePage]. *)
Theorem page_entry_codec w pgid thid isF :
  0 <= pgid < 2 ^ 16 -> 0 <= thid < 256 -> 0 <= isF < 256 ->
  let e := setPageIsF (setPageThID (setPagePgID w pgid) thid) isF in
  e = page_word pgid thid isF /\
  getPagePgID e = pgid /\ getPageThID e = thid /\ getPageIsF e = isF /\
  (0 <= w < 2 ^ 32 ->
     page_word (getPagePgID w) (getPageThID w) (getPageIsF w) = w).
Proof.
  intros Hp Ht Hf e.
  destruct (setPagePgID_spec w pgid Hp) as (P1 & _ & _).
  destruct (setPageThID_spec (setPagePgID w pgid) thid Ht) as (T1 & T2 & _).
  destruct (setPageIsF_spec (setPageThID (setPagePgID w pgid) thid) isF Hf)
    as (F1 & F2 & F3). fold e in F1, F2, F3.
  rewrite T1, P1 in F1. rewrite T2 in F2.
  split; [|auto using page_word_fields].
  rewrite <- F1, <- F2, <- F3 at 1. symmetry. apply page_word_fields.
  subst e. rewrite setPageIsF_field by lia. apply set_field_bounds; lia.
Qed.

Lemma setPageThID_big w id :
  getPageThID (setPageThID w id) = id mod 256 /\
  getPagePgID (setPageThID w id) = Z.lor (getPagePgID w) ((id / 256) mod 2 ^ 16).
Proof.
  change 256 with (2 ^ 8). rewrite <- Z.shiftr_div_pow2, <- !Z.land_ones by lia.
  rewrite setPageThID_field, getPageThID_field, getPagePgID_field.
  change (getPagePgID w) with (field 16 16 w).
  unfold field, set_field, keep_around. split; zbits.
  rewrite orb_comm. do 2 f_equal; lia.
Qed.

(** An entry has eight bits for its thread, and [setPageThID] does not
    clip the identifier: from thread 256 on the identifier is stored modulo
    256 and its upper bits are mixed into the page number.  Threads 1 and 257
    then own the same entries. *)
Theorem setPageThID_overflow w id :
  256 <= id < 2 ^ 24 -> getPagePgID w = 0 ->
  getPageThID (setPageThID w id) = id mod 256 /\
  getPagePgID (setPageThID w id) = id / 256 /\ 0 < id / 256.
Proof.
  intros Hid H0. destruct (setPageThID_big w id) as [-> ->]. rewrite H0, Z.lor_0_l.
  assert (0 < id / 256) by (apply Z.div_str_pos; lia).
  assert (id / 256 < 2 ^ 16) by (apply Z.div_lt_upper_bound; lia).
  by rewrite (Z.mod_small (id / 256)) by lia.
Qed.

Lemma block_header_codec_witness :
  getBlockSize (setBlockIsNext (setBlockSize (setBlockIsF 0xDEADBEEF 1) 819196) 0) = 819196.
Proof.
  apply (block_header_codec 0xDEADBEEF 819196 0 1); lia.
Defined.

Lemma page_entry_codec_witness :
  setPageIsF (setPageThID (setPagePgID 0xDEADBEEF 7) 3) 0 = page_word 7 3 0.
Proof.
  apply (page_entry_codec 0xDEADBEEF 7 3 0); lia.
Defined.

Lemma setPageThID_overflow_witness :
  getPageThID (setPageThID 1 257) = 1 /\ getPagePgID (setPageThID 1 257) = 1.
Proof.
  destruct (setPageThID_overflow 1 257 ltac:(lia) ltac:(reflexivity)) as (E1 & E2 & _).
  split; [exact E1|exact E2].
Defined.
