(* ===== verification/Timer.v ===== *)
(** * The preemption timer of [my_pthread/my_pthread.c]

    The library guards its shared data by stopping the [ITIMER_REAL] timer.
    [setitimer] is modelled by its documentation: it installs a new value and
    returns the old one.  The time that passes between two calls is not
    modelled. *)

From S2P Require Import Prelude.

Record itimerval := Itimerval {
  it_interval_sec : Z; it_interval_usec : Z;
  it_value_sec : Z; it_value_usec : Z
}.

(** The kernel's timer and the structure [scd->timer] points to. *)
Record timers := Timers { itimer : itimerval; scd_timer : itimerval }.

(** A timer whose [it_value] is zero does not run. *)
Definition armed (t : itimerval) : bool :=
  negb ((it_value_sec t =? 0) && (it_value_usec t =? 0)).

Definition set_usec (t : itimerval) (v : Z) : itimerval :=
  Itimerval (it_interval_sec t) (it_interval_usec t) (it_value_sec t) v.

Definition QUANTA_TIME : Z := 100.

(** A stopped timer. *)
Definition no_timer : itimerval := Itimerval 0 0 0 0.

Section timer.
(** What the stack holds where [pause_timer] declares [zero]: only
    [it_value.tv_usec] is assigned. *)
Context (stack : itimerval).

Definition pause_timer (t : timers) : timers :=
  let zero := set_usec stack 0 in
  Timers zero (itimer t).

Definition unpause_timer (t : timers) : timers := Timers (scd_timer t) (scd_timer t).

(** The end of [schedule]: the next thread gets a quantum that grows with its
    priority level. *)
Definition start_quantum (priority : Z) (t : timers) : timers :=
  let timer := set_usec (scd_timer t) (QUANTA_TIME * 1000 * (priority + 1)) in
  Timers timer timer.

(** [timerHandler] zeroes the saved value before scheduling. *)
Definition handler_reset (t : timers) : timers :=
  Timers (itimer t) (set_usec (scd_timer t) 0).

Lemma unpause_pause t : itimer (unpause_timer (pause_timer t)) = itimer t.
Proof. done. Qed.

Lemma nested_pause t :
  itimer (unpause_timer (unpause_timer (pause_timer (pause_timer t)))) = set_usec stack 0.
Proof. done. Qed.

Lemma quantum_valid p t :
  0 <= p < 5 -> 0 < it_value_usec (itimer (start_quantum p t)) < 1000000.
Proof. intros. cbn. unfold QUANTA_TIME. lia. Qed.
End timer.
