(* ===== verification/MyAlloc.v ===== *)
(** * The paged allocator of [my_pthread/my_pthread.c]

    One region of 8 MB: the first [LIBPAGES] pages are a heap for the library,
    the rest is the threads' user space.  Every thread sees its own heap at
    the start of user space: its pages are moved into place, from other pages
    or from the swap file, when it touches them.  An access to a protected
    page raises SIGSEGV and runs [sigHandler]; the accesses of the allocator
    itself go through [ld] and [st], which model that.

    The page size is the value of [sysconf]; what uninitialised stack memory
    holds is a parameter.  [thr] is what the allocator reads of the scheduler:
    [None] while [scd] is NULL, else the identifier and [pageNum] of the
    running thread. *)

From Stdlib Require Import String.
From S2P Require Import Prelude CMem BlockWord Timer.

Definition MAX_MEMORY : Z := 8388608.
Definition DISK_MEMORY : Z := 16777216.
Definition LIBPAGES : Z := 200.
Definition BLOCK_SIZE : Z := 4.

Inductive request := LIBRARYREQ | THREADREQ | DISKREQ.

Inductive alloc_msg :=
  | NotEnoughSpace
  | NotCreatedUsingMalloc
  | AlreadyFreed
  | OutOfDiskAndMemory
  | CouldNotAllocate
  | DiskAndMemoryFull
  | SegmentationFault
  | OutOfBoundsAccess
  | LibraryAccess
  | InvalidCaller.

Record astate := AState {
  amem : mem;
  memory : Z;
  firstMalloc : bool;
  rootBlock : Z;
  rootBlockD : Z;
  userSpace : Z;
  mainPageNum : Z;
  pages : list Z;
  diskPages : list Z;
  swp : mem;
  prot : Z -> bool;      (* the page of user space can be accessed *)
  thr : option (Z * Z);
  timerSet : bool;
  tim : timers;
  aout : list alloc_msg
}.

(** ** Updates of the state *)

Definition set_amem m s := AState m (memory s) (firstMalloc s) (rootBlock s)
  (rootBlockD s) (userSpace s) (mainPageNum s) (pages s) (diskPages s) (swp s)
  (prot s) (thr s) (timerSet s) (tim s) (aout s).
Definition set_root f r s := AState (amem s) (memory s) f r
  (rootBlockD s) (userSpace s) (mainPageNum s) (pages s) (diskPages s) (swp s)
  (prot s) (thr s) (timerSet s) (tim s) (aout s).
Definition set_region b u s := AState (amem s) b (firstMalloc s) (rootBlock s)
  (rootBlockD s) u (mainPageNum s) (pages s) (diskPages s) (swp s)
  (prot s) (thr s) (timerSet s) (tim s) (aout s).
Definition set_mainPageNum n s := AState (amem s) (memory s) (firstMalloc s) (rootBlock s)
  (rootBlockD s) (userSpace s) n (pages s) (diskPages s) (swp s)
  (prot s) (thr s) (timerSet s) (tim s) (aout s).
Definition set_pages p s := AState (amem s) (memory s) (firstMalloc s) (rootBlock s)
  (rootBlockD s) (userSpace s) (mainPageNum s) p (diskPages s) (swp s)
  (prot s) (thr s) (timerSet s) (tim s) (aout s).
Definition set_diskPages p s := AState (amem s) (memory s) (firstMalloc s) (rootBlock s)
  (rootBlockD s) (userSpace s) (mainPageNum s) (pages s) p (swp s)
  (prot s) (thr s) (timerSet s) (tim s) (aout s).
Definition set_swp f s := AState (amem s) (memory s) (firstMalloc s) (rootBlock s)
  (rootBlockD s) (userSpace s) (mainPageNum s) (pages s) (diskPages s) f
  (prot s) (thr s) (timerSet s) (tim s) (aout s).
Definition set_prot p s := AState (amem s) (memory s) (firstMalloc s) (rootBlock s)
  (rootBlockD s) (userSpace s) (mainPageNum s) (pages s) (diskPages s) (swp s)
  p (thr s) (timerSet s) (tim s) (aout s).
Definition set_thr t s := AState (amem s) (memory s) (firstMalloc s) (rootBlock s)
  (rootBlockD s) (userSpace s) (mainPageNum s) (pages s) (diskPages s) (swp s)
  (prot s) t (timerSet s) (tim s) (aout s).
Definition set_tim t s := AState (amem s) (memory s) (firstMalloc s) (rootBlock s)
  (rootBlockD s) (userSpace s) (mainPageNum s) (pages s) (diskPages s) (swp s)
  (prot s) (thr s) (timerSet s) t (aout s).
Definition say msg s := AState (amem s) (memory s) (firstMalloc s) (rootBlock s)
  (rootBlockD s) (userSpace s) (mainPageNum s) (pages s) (diskPages s) (swp s)
  (prot s) (thr s) (timerSet s) (tim s) (msg :: aout s).

(** ** Arrays indexed by [int] *)

Definition aget (l : list Z) (i : Z) : option Z :=
  if i <? 0 then None else l !! Z.to_nat i.
Definition aset (l : list Z) (i v : Z) : option (list Z) :=
  if (0 <=? i) && (i <? Z.of_nat (length l)) then Some (<[Z.to_nat i := v]> l) else None.

Definition opt {S A} (o : option A) : M S A :=
  match o with Some a => mret a | None => raise OutOfBounds end.

(** The first index at or after [i], below [i + length l], whose entry
    satisfies [P]: the search loops over a page table. *)
Fixpoint find_index (P : Z -> Z -> bool) (l : list Z) (i : Z) : option Z :=
  match l with
  | [] => None
  | e :: l' => if P i e then Some i else find_index P l' (i + 1)
  end.

Fixpoint count_if (P : Z -> bool) (l : list Z) : Z :=
  match l with
  | [] => 0
  | e :: l' => (if P e then 1 else 0) + count_if P l'
  end.

(** [for (i = lo; i < lo + n; i++) body] *)
Fixpoint for_loop {S} (n : nat) (i : Z) (body : Z -> M S unit) : M S unit :=
  match n with
  | O => mret tt
  | S n => _ ← body i; for_loop n (i + 1) body
  end.

Section paging.
Context (PAGESIZE : Z) (stack : itimerval).

Definition NPAGES : Z := MAX_MEMORY / PAGESIZE - LIBPAGES.
Definition NDISK : Z := DISK_MEMORY / PAGESIZE.

(** [pause_timer(scd->timer)] and [unpause_timer(scd->timer)] *)
Definition pause : M astate unit := fun s =>
  match thr s with
  | None => Fault NullDeref
  | Some _ => Ok (tt, set_tim (pause_timer stack (tim s)) s)
  end.
Definition unpause : M astate unit := fun s =>
  match thr s with
  | None => Fault NullDeref
  | Some _ => Ok (tt, set_tim (unpause_timer (tim s)) s)
  end.
Definition pause_if_set : M astate unit := b ← gets timerSet; when b pause.
Definition unpause_if_set : M astate unit := b ← gets timerSet; when b unpause.

Definition puts (msg : alloc_msg) : M astate unit := modify (say msg).

(** [mprotect] of one page of user space. *)
Definition mprotect (i : Z) (rw : bool) : M astate unit :=
  modify (fun s => set_prot (fun x => if x =? i then rw else prot s x) s).

Definition page_addr (s : astate) (i : Z) : Z := userSpace s + PAGESIZE * i.

(** The bytes of page [i] of user space, and their replacement. *)
Definition in_user (i : Z) : M astate unit :=
  if (0 <=? i) && (i <? NPAGES) then mret tt else raise OutOfBounds.
Definition read_page (i : Z) : M astate (Z -> Z) :=
  _ ← in_user i; gets (fun s => slice (amem s) (page_addr s i)).
Definition write_page (i : Z) (buf : Z -> Z) : M astate unit :=
  _ ← in_user i;
  modify (fun s => set_amem (blit (amem s) (page_addr s i) PAGESIZE buf) s).

Definition get_page (i : Z) : M astate Z := l ← gets pages; opt (aget l i).
Definition put_page (i v : Z) : M astate unit :=
  l ← gets pages; l ← opt (aset l i v); modify (set_pages l).
Definition get_disk (i : Z) : M astate Z := l ← gets diskPages; opt (aget l i).
Definition put_disk (i v : Z) : M astate unit :=
  l ← gets diskPages; l ← opt (aset l i v); modify (set_diskPages l).

(** The swap file, [DISK_MEMORY] bytes long, read and written by pages. *)
Definition read_swp (i : Z) : M astate (Z -> Z) :=
  gets (fun s => slice (swp s) (PAGESIZE * i)).
Definition write_swp (i : Z) (buf : Z -> Z) : M astate unit :=
  modify (fun s => set_swp (blit (swp s) (PAGESIZE * i) PAGESIZE buf) s).

(** ** Moving pages *)

Definition pageSwap (initial swapTo : Z) : M astate unit :=
  if initial =? swapTo then mret tt
  else
    _ ← mprotect swapTo true;
    _ ← mprotect initial true;
    temp ← read_page swapTo;
    b ← read_page initial;
    _ ← write_page swapTo b;
    _ ← write_page initial temp;
    tempPage ← get_page swapTo;
    p ← get_page initial;
    _ ← put_page swapTo p;
    _ ← put_page initial tempPage;
    _ ← mprotect swapTo false;
    mprotect initial false.

Definition swapToMemFromDisk (inMem fromDisk : Z) : M astate unit :=
  _ ← pause;
  fromFile ← read_swp fromDisk;
  _ ← mprotect inMem true;
  b ← read_page inMem;
  _ ← write_page inMem fromFile;
  _ ← write_swp fromDisk b;
  tempPage ← get_disk fromDisk;
  p ← get_page inMem;
  _ ← put_disk fromDisk p;
  _ ← put_page inMem tempPage;
  _ ← mprotect inMem false;
  unpause.

(** The thread the tables are searched for. *)
Definition current_thread : M astate Z :=
  t ← gets thr; mret (match t with None => 1 | Some (id, _) => id end).

Definition owned_by (thread pgid e : Z) : bool :=
  (getPageThID e =? thread) && (getPagePgID e =? pgid).

(** SIGSEGV at [addr]: bring the page of the running thread that belongs at
    that place, from memory or from the swap file. *)
Definition sigHandler (addr : Z) : M astate unit :=
  _ ← pause_if_set;
  s ← get;
  if (memory s + MAX_MEMORY <? addr) || (addr <? memory s) then
    _ ← puts OutOfBoundsAccess; exit_with 1
  else if (addr <? userSpace s) && (memory s <=? addr) then
    _ ← puts LibraryAccess; exit_with 1
  else
    let diff := addr - userSpace s in
    let index := Z.quot (swrap 32 diff) PAGESIZE in
    match thr s with
    | None => raise NullDeref
    | Some (id, _) =>
        match find_index (fun _ e => owned_by id index e) (pages s) 0 with
        | Some i =>
            _ ← (if i =? index then mret tt else pageSwap index i);
            _ ← mprotect index true;
            unpause_if_set
        | None =>
            match find_index (fun _ e => (getPageIsF e =? 0) && owned_by id index e)
                    (diskPages s) 0 with
            | Some i =>
                _ ← swapToMemFromDisk index i;
                _ ← mprotect index true;
                unpause_if_set
            | None => _ ← puts SegmentationFault; exit_with 1
            end
        end
    end.

(** ** Accesses of the program *)

(** An access to the byte at [a] of the region.  A protected page runs the
    handler; were it still protected the access would fault for ever. *)
Definition touch (a : Z) : M astate unit :=
  s ← get;
  if a =? 0 then raise NullDeref
  else if (memory s <=? a) && (a <? userSpace s) then mret tt
  else if (userSpace s <=? a) && (a <? memory s + MAX_MEMORY) then
    let i := (a - userSpace s) / PAGESIZE in
    if prot s i then mret tt
    else
      _ ← sigHandler a;
      ok ← gets (fun s => prot s i);
      if ok : bool then mret tt else raise OutOfFuel
  else raise OutOfBounds.

(** [*p] for an [unsigned int* p], read and assigned. *)
Definition ld (a : Z) : M astate Z :=
  _ ← touch a; _ ← touch (a + 3); gets (fun s => load 4 (amem s) a).
Definition st (a v : Z) : M astate unit :=
  _ ← touch a; _ ← touch (a + 3); modify (fun s => set_amem (store 4 (amem s) a v) s).

(** [*p = setX( *p, v)] *)
Definition upd (a : Z) (f : Z -> Z) : M astate unit := w ← ld a; st a (f w).

Definition getNextBlock (block : Z) : M astate Z :=
  w ← ld block;
  let isNext := getBlockIsNext w in
  if isNext =? 0 then mret 0
  else
    w ← ld block;
    let size := getBlockSize w in
    mret (block + size + BLOCK_SIZE).

(** ** The page tables *)

Definition is_free_entry (e : Z) : bool := getPageIsF e =? 1.

Definition alignPages : M astate unit :=
  thread ← current_thread;
  _ ← for_loop (Z.to_nat NPAGES) 0 (fun i =>
        e ← get_page i;
        if (getPageThID e =? thread) && (i =? getPagePgID e) then
          let realIndex := getPagePgID e in
          _ ← pageSwap i realIndex;
          mprotect realIndex true
        else mret tt);
  for_loop (Z.to_nat NDISK) 0 (fun i =>
    e ← get_disk i;
    if getPageIsF e =? 0 then
      if (getPageThID e =? thread) && (i =? getPagePgID e) then
        let realIndex := getPagePgID e in
        _ ← swapToMemFromDisk i realIndex;
        mprotect realIndex true
      else mret tt
    else mret tt).

(** The pages a request needs, 0 when there are not as many free ones. *)
Definition isEnoughPages (sizeRequest : Z) : M astate Z :=
  let pagesNeeded := swrap 32 (Z.quot sizeRequest PAGESIZE + 1) in
  s ← get;
  let freeCount := count_if is_free_entry (pages s) + count_if is_free_entry (diskPages s) in
  mret (if pagesNeeded <=? freeCount then pagesNeeded else 0).

(** [initializePage]: the entry of a page given to the running thread; the
    first page of a thread starts its heap. *)
Definition next_page_id : M astate Z := fun s =>
  match thr s with
  | None => Ok (mainPageNum s, set_mainPageNum (mainPageNum s + 1) s)
  | Some (id, n) => Ok (n, set_thr (Some (id, n + 1)) s)
  end.

Definition initializePage (index : Z) : M astate unit :=
  pg ← get_page index;
  n ← next_page_id;
  let pg := setPagePgID pg (wrap 32 n) in
  id ← current_thread;
  let pg := setPageThID pg (wrap 32 id) in
  let pg := setPageIsF pg 0 in
  _ ← (if getPagePgID pg =? 0 then
         _ ← mprotect 0 true;
         pageRoot ← gets userSpace;
         _ ← upd pageRoot (fun w => setBlockIsF w 1);
         _ ← upd pageRoot (fun w => setBlockSize w (wrap 32 (PAGESIZE - BLOCK_SIZE)));
         upd pageRoot (fun w => setBlockIsNext w 0)
       else mret tt);
  put_page index pg.

Definition inMemSpace (ptr : Z) : M astate bool :=
  gets (fun s => (memory s <=? ptr) && (ptr <? memory s + MAX_MEMORY)).

(** The first entry of the thread in the page table, 0 when there is none. *)
Definition findPage (id : Z) : M astate Z :=
  l ← gets pages;
  match find_index (fun _ e => getPageThID e =? id) l 0 with
  | Some i => get_page i
  | None => mret 0
  end.

Definition moveToFreeSpace (index : Z) : M astate bool :=
  l ← gets pages;
  match find_index (fun _ e => is_free_entry e) l 0 with
  | None => mret false
  | Some i =>
      if i =? index then mret true
      else
        _ ← mprotect index true;
        e ← get_page index;
        _ ← put_page i e;
        b ← read_page index;
        u ← gets userSpace;
        _ ← touch (u + PAGESIZE * i);
        _ ← write_page i b;
        e ← get_page index;
        _ ← put_page index (setPageIsF e 1);
        _ ← mprotect i false;
        mret true
  end.

Definition moveToDiskSpace (index : Z) : M astate bool :=
  _ ← pause;
  l ← gets diskPages;
  match find_index (fun _ e => is_free_entry e) l 0 with
  | None => _ ← unpause; mret false
  | Some i =>
      _ ← mprotect index true;
      e ← get_page index;
      _ ← put_disk i e;
      b ← read_page index;
      _ ← write_swp i b;
      e ← get_page index;
      _ ← put_page index (setPageIsF e 1);
      _ ← unpause;
      mret true
  end.

(** Room at page [index]: in memory, else in the swap file. *)
Definition makeRoom (index : Z) : M astate bool :=
  ok ← moveToFreeSpace index;
  if ok : bool then mret true else moveToDiskSpace index.

Definition next_page : M astate Z :=
  gets (fun s => match thr s with None => mainPageNum s | Some (_, n) => n end).

Fixpoint gatherPages (pagesNeeded : nat) (lastBlock : Z) : M astate unit :=
  match pagesNeeded with
  | O => mret tt
  | S pagesNeeded =>
      nextPage ← next_page;
      ok ← makeRoom nextPage;
      if negb ok then puts OutOfDiskAndMemory
      else
        _ ← initializePage nextPage;
        _ ← upd lastBlock (fun w => setBlockSize w (wrap 32 (getBlockSize w + PAGESIZE)));
        gatherPages pagesNeeded lastBlock
  end.

(** ** Blocks *)

Definition initializeRoot : M astate unit :=
  b ← gets memory;
  _ ← modify (set_root true b);
  _ ← upd b (fun w => setBlockIsF w 1);
  _ ← upd b (fun w => setBlockSize w (wrap 32 (LIBPAGES * PAGESIZE - BLOCK_SIZE)));
  _ ← upd b (fun w => setBlockIsNext w 0);
  modify (set_root false b).

(** The split of a block: [newBlock] takes the rest of [current]. *)
Definition split_at (current size sizeWithBlock : Z) : M astate unit :=
  let newBlock := current + sizeWithBlock in
  _ ← upd newBlock (fun w => setBlockIsF w 1);
  c ← ld current;
  _ ← upd newBlock (fun w => setBlockSize w (wrap 32 (getBlockSize c - sizeWithBlock)));
  c ← ld current;
  _ ← upd newBlock (fun w => setBlockIsNext w (getBlockIsNext c));
  _ ← upd current (fun w => setBlockSize w (wrap 32 size));
  _ ← upd current (fun w => setBlockIsNext w 1);
  upd current (fun w => setBlockIsF w 0).

(** The first-fit loop, the same text for each of the three callers.  The
    result is the block found, if any, and the last block looked at. *)
Fixpoint find_fit (fuel : nat) (size sizeWithBlock current : Z) : M astate (option Z * Z) :=
  match fuel with
  | O => raise OutOfFuel
  | S fuel =>
      let continue :=
        nx ← getNextBlock current;
        if negb (nx =? 0) then find_fit fuel size sizeWithBlock nx
        else mret (None, current) in
      w ← ld current;
      if (getBlockIsF w =? 0) || (getBlockSize w <? size) then continue
      else if getBlockIsF w =? 1 then
        if getBlockSize w =? size then
          _ ← upd current (fun w => setBlockIsF w 0);
          mret (Some current, current)
        else if sizeWithBlock <=? getBlockSize w then
          _ ← split_at current size sizeWithBlock;
          mret (Some current, current)
        else continue
      else continue
  end.

(** There are at most as many blocks as words in the region. *)
Definition walk_fuel : nat := Z.to_nat MAX_MEMORY.

(** [*b] absorbs [*nb] *)
Definition merge_at (b nb : Z) : M astate unit :=
  n ← ld nb;
  _ ← upd b (fun w => setBlockSize w
              (wrap 32 (getBlockSize w + getBlockSize n + BLOCK_SIZE)));
  n ← ld nb;
  upd b (fun w => setBlockIsNext w (getBlockIsNext n)).

Fixpoint freeAndMerge_loop (fuel : nat) (toFree previous current : Z) : M astate bool :=
  match fuel with
  | O => raise OutOfFuel
  | S fuel =>
      if current =? toFree then
        _ ← upd current (fun w => setBlockIsF w 1);
        next ← getNextBlock current;
        _ ← (if negb (next =? 0) then
               n ← ld next;
               if getBlockIsF n =? 1 then merge_at current next else mret tt
             else mret tt);
        _ ← (if negb (previous =? 0) then
               p ← ld previous;
               if getBlockIsF p =? 1 then merge_at previous current else mret tt
             else mret tt);
        mret true
      else
        nx ← getNextBlock current;
        if negb (nx =? 0) then freeAndMerge_loop fuel toFree current nx
        else mret false
  end.

(** The walk starts at the root of the library heap or, for a thread, at
    [(unsigned int* ) userSpace + index * PAGESIZE], where [index] is the first
    page of the thread: the sum is scaled by the size of an [unsigned int]. *)
Definition freeAndMerge (toFree page : Z) (caller : request) : M astate bool :=
  s ← get;
  let current :=
    match caller with
    | LIBRARYREQ => rootBlock s
    | THREADREQ =>
        match find_index (fun _ e => getPageThID e =? getPageThID page) (pages s) 0 with
        | Some index => userSpace s + 4 * (index * PAGESIZE)
        | None => 0
        end
    | DISKREQ => 0
    end in
  if current =? 0 then mret false
  else freeAndMerge_loop walk_fuel toFree 0 current.

(** ** The entry points *)

(** First fit from [root], for the library and for the branch [DISKREQ]. *)
Definition heap_allocate (size root : Z) : M astate Z :=
  let sizeWithBlock := wrap 32 (size + BLOCK_SIZE) in
  '(r, _) ← find_fit walk_fuel size sizeWithBlock root;
  match r with
  | Some b => _ ← unpause_if_set; mret (b + BLOCK_SIZE)
  | None => _ ← puts NotEnoughSpace; _ ← unpause_if_set; mret 0
  end.

(** [myallocate(size, LIBRARYREQ)] once the region exists. *)
Definition lib_allocate (size : Z) : M astate Z :=
  _ ← pause_if_set;
  root ← gets rootBlock;
  heap_allocate size root.

(** The block of the [if (firstMalloc)]: the region, the swap file, the
    handler, the root block and the two page tables.  [region] is the address
    [posix_memalign] returns. *)
Definition init_region (region : Z) : M astate unit :=
  _ ← modify (set_region region (region + LIBPAGES * PAGESIZE));
  _ ← modify (set_swp (fun _ => 0));
  _ ← initializeRoot;
  _ ← lib_allocate (wrap 64 (4 * NDISK));
  _ ← modify (set_diskPages (replicate (Z.to_nat NDISK) 1));
  _ ← lib_allocate (wrap 64 (4 * NPAGES));
  modify (set_pages (replicate (Z.to_nat NPAGES) 1)).

(** The blocks of a thread are exhausted: new pages extend the last block when
    it is free, else a new block starts in a new page. *)
Definition extend_last (size sizeWithBlock prev pagesNeeded : Z) : M astate Z :=
  _ ← gatherPages (Z.to_nat pagesNeeded) prev;
  _ ← split_at prev size sizeWithBlock;
  _ ← unpause_if_set;
  mret (prev + BLOCK_SIZE).

Definition extend_new (size sizeWithBlock prev pagesNeeded : Z) : M astate Z :=
  nextPage ← next_page;
  ok ← makeRoom nextPage;
  if negb ok then _ ← puts DiskAndMemoryFull; mret 0
  else
    _ ← initializePage nextPage;
    u ← gets userSpace;
    let bl := u + nextPage * PAGESIZE in
    _ ← upd bl (fun w => setBlockIsF w 1);
    _ ← upd bl (fun w => setBlockSize w (wrap 32 (PAGESIZE - BLOCK_SIZE)));
    _ ← upd bl (fun w => setBlockIsNext w 0);
    _ ← upd prev (fun w => setBlockIsNext w 1);
    _ ← gatherPages (Z.to_nat (pagesNeeded - 1)) bl;
    _ ← split_at bl size sizeWithBlock;
    _ ← unpause_if_set;
    mret (bl + BLOCK_SIZE).

Definition extend_heap (size sizeWithBlock prev : Z) : M astate Z :=
  s ← get;
  let bytesLeft := wrap 32 (swrap 32 (memory s + MAX_MEMORY - (prev + BLOCK_SIZE))) in
  if bytesLeft <? sizeWithBlock then
    _ ← puts NotEnoughSpace; _ ← unpause_if_set; mret 0
  else
    p ← ld prev;
    let extraBlock := if getBlockIsF p =? 0 then BLOCK_SIZE else 0 in
    p ← ld prev;
    pagesNeeded ← isEnoughPages
      (swrap 32 (wrap 32 (wrap 32 (extraBlock + sizeWithBlock) - getBlockSize p)));
    if 0 <? pagesNeeded then
      if 0 <? extraBlock then extend_new size sizeWithBlock prev pagesNeeded
      else extend_last size sizeWithBlock prev pagesNeeded
    else
      _ ← puts NotEnoughSpace; _ ← unpause_if_set; mret 0.

(** The first-fit loop of the branch [THREADREQ] and what follows it. *)
Definition thread_search (size : Z) : M astate Z :=
  let sizeWithBlock := wrap 32 (size + BLOCK_SIZE) in
  u ← gets userSpace;
  '(r, prev) ← find_fit walk_fuel size sizeWithBlock u;
  match r with
  | Some b => _ ← unpause_if_set; mret (b + BLOCK_SIZE)
  | None => extend_heap size sizeWithBlock prev
  end.

(** Page 0 belongs to the thread, or becomes its first page. *)
Definition first_page_room (thread : Z) : M astate bool :=
  pg ← get_page 0;
  if negb (getPageThID pg =? thread) then
    ok ← makeRoom 0;
    if negb ok then _ ← puts CouldNotAllocate; mret false
    else _ ← initializePage 0; mret true
  else mret true.

(** The branch [THREADREQ] while threads exist. *)
Definition thread_allocate (size : Z) : M astate Z :=
  thread ← current_thread;
  _ ← alignPages;
  room ← first_page_room thread;
  if negb room then mret 0 else thread_search size.

Definition myallocate (region size : Z) (caller : request) : M astate Z :=
  _ ← pause_if_set;
  first ← gets firstMalloc;
  _ ← when first (init_region region);
  match caller with
  | DISKREQ => root ← gets rootBlockD; heap_allocate size root
  | LIBRARYREQ => root ← gets rootBlock; heap_allocate size root
  | THREADREQ =>
      t ← gets thr;
      match t with
      | None => lib_allocate size
      | Some _ => thread_allocate size
      end
  end.

(** [mydeallocate(ptr, LIBRARYREQ)] *)
Definition lib_deallocate (ptr : Z) : M astate unit :=
  _ ← pause_if_set;
  ok ← inMemSpace ptr;
  if negb ok then _ ← puts NotCreatedUsingMalloc; unpause_if_set
  else
    let block := ptr - BLOCK_SIZE in
    w ← ld block;
    if getBlockIsF w =? 1 then _ ← puts AlreadyFreed; unpause_if_set
    else
      freed ← freeAndMerge block 0 LIBRARYREQ;
      _ ← when (negb freed) (puts NotCreatedUsingMalloc);
      unpause_if_set.

Definition mydeallocate (ptr : Z) (caller : request) : M astate unit :=
  match caller with
  | LIBRARYREQ => lib_deallocate ptr
  | THREADREQ =>
      _ ← pause_if_set;
      ok ← inMemSpace ptr;
      if negb ok then _ ← puts NotCreatedUsingMalloc; unpause_if_set
      else
        let block := ptr - BLOCK_SIZE in
        w ← ld block;
        if getBlockIsF w =? 1 then _ ← puts AlreadyFreed; unpause_if_set
        else
          id ← current_thread;
          page ← findPage id;
          if page =? 0 then _ ← unpause_if_set; lib_deallocate ptr
          else
            freed ← freeAndMerge block page THREADREQ;
            _ ← when (negb freed) (puts NotCreatedUsingMalloc);
            unpause_if_set
  | DISKREQ => _ ← pause_if_set; _ ← puts InvalidCaller; unpause_if_set
  end.

(** ** Pages of a thread that stops *)

Definition protectAllPages (threadID : Z) : M astate unit :=
  for_loop (Z.to_nat NPAGES) 0 (fun i =>
    e ← get_page i;
    if getPageThID e =? wrap 32 threadID then mprotect i false else mret tt).

Definition freePages : M astate unit :=
  t ← gets thr;
  match t with
  | None => raise NullDeref
  | Some (id, _) =>
      for_loop (Z.to_nat NPAGES) 0 (fun i =>
        e ← get_page i;
        if getPageThID e =? wrap 32 id then
          _ ← mprotect i true;
          e ← get_page i;
          put_page i (setPageIsF e 1)
        else mret tt)
  end.
End paging.
