(* ===== verification/WordHeap.v ===== *)
(** * Heaps with packed headers

    What the heap of the library pages and the heap of a thread's own pages
    share: the headers packed in one word implement the interface of
    [FirstFit], and where every byte can be accessed, the two walks of
    [my_pthread.c] are those of [FirstFit]. *)

From S2P Require Import Prelude CMem SegHeap FirstFit BlockWord Timer MyAlloc.

(** ** The header view of a packed word *)

Definition w_free (m : mem) (a : Z) : bool := getBlockIsF (load 4 m a) =? 1.
Definition w_len (m : mem) (a : Z) : Z := getBlockSize (load 4 m a).
Definition w_next (m : mem) (a : Z) : Z :=
  if getBlockIsNext (load 4 m a) =? 0 then 0
  else a + getBlockSize (load 4 m a) + BLOCK_SIZE.

(** [*a = f( *a)] *)
Definition put_word (m : mem) (a : Z) (f : Z -> Z) : mem := store 4 m a (f (load 4 m a)).

Definition w_split (m : mem) (current size sizeWithBlock : Z) : mem :=
  let newBlock := current + sizeWithBlock in
  let m := put_word m newBlock (fun w => setBlockIsF w 1) in
  let c := load 4 m current in
  let m := put_word m newBlock
             (fun w => setBlockSize w (wrap 32 (getBlockSize c - sizeWithBlock))) in
  let c := load 4 m current in
  let m := put_word m newBlock (fun w => setBlockIsNext w (getBlockIsNext c)) in
  let m := put_word m current (fun w => setBlockSize w (wrap 32 size)) in
  let m := put_word m current (fun w => setBlockIsNext w 1) in
  put_word m current (fun w => setBlockIsF w 0).

Definition w_merge (m : mem) (b nb : Z) : mem :=
  let n := load 4 m nb in
  let m := put_word m b (fun w => setBlockSize w
             (wrap 32 (getBlockSize w + getBlockSize n + BLOCK_SIZE))) in
  let n := load 4 m nb in
  put_word m b (fun w => setBlockIsNext w (getBlockIsNext n)).

Abbreviation wheader := (header (hdr:=4)).

Lemma hdr4_pos : 0 < 4. Proof. lia. Qed.

Lemma word_bounds m a : 0 <= load 4 m a < 2 ^ 32.
Proof. apply (load_bounds 4). Qed.

Lemma word_local m m' a :
  agree (fun x => a <= x < a + 4) m m' ->
  w_free m' a = w_free m a /\ w_len m' a = w_len m a /\ w_next m' a = w_next m a.
Proof.
  intros H. unfold w_free, w_len, w_next. rewrite (load_ext 4 m m'); [done|].
  intros x Hx. apply H. cbn in Hx. lia.
Qed.

#[export] Instance word_view : HeaderView 4 := {
  hv_free := w_free; hv_len := w_len; hv_next := w_next; hv_local := word_local
}.

Lemma load_put m a f : 0 <= f (load 4 m a) < 2 ^ 32 -> load 4 (put_word m a f) a = f (load 4 m a).
Proof. intros H. unfold put_word. rewrite load_store_same. by apply Z.mod_small. Qed.

Lemma load_put_other m a b f :
  b + 4 <= a \/ a + 4 <= b -> load 4 (put_word m a f) b = load 4 m b.
Proof. intros H. apply load_store_other. cbn. lia. Qed.

Lemma put_agree P m a f :
  (forall x, P x -> x < a \/ a + 4 <= x) -> agree P m (put_word m a f).
Proof. intros H. apply store_agree. cbn. exact H. Qed.

Lemma set_bounds w v :
  0 <= setBlockSize w v < 2 ^ 32 /\ 0 <= setBlockIsNext w v < 2 ^ 32.
Proof.
  rewrite setBlockSize_field, setBlockIsNext_field. split; apply set_field_bounds; lia.
Qed.

Lemma setBlockIsF_bounds w v : 0 <= v < 16 -> 0 <= setBlockIsF w v < 2 ^ 32.
Proof. intros. rewrite setBlockIsF_field by lia. apply set_field_bounds; lia. Qed.

Lemma get_bounds w :
  0 <= getBlockSize w < 2 ^ 24 /\ 0 <= getBlockIsNext w < 16.
Proof.
  rewrite getBlockSize_field, getBlockIsNext_field.
  split; [apply (field_bounds 8 24)|apply (field_bounds 4 4)]; lia.
Qed.

(** Loads of updated words. *)
Ltac words :=
  repeat first
    [ rewrite load_put_other by lia
    | rewrite load_put by (first [apply set_bounds | apply setBlockIsF_bounds; lia]) ].

(** The header described by the word [v]. *)
Definition word_header (v a : Z) (s : seg) (nx : Z) : Prop :=
  (getBlockIsF v =? 1) = seg_isfree s /\ getBlockSize v = seg_size s /\
  (if getBlockIsNext v =? 0 then 0 else a + getBlockSize v + BLOCK_SIZE) = nx.

Lemma header_word m a s nx : wheader m a s nx <-> word_header (load 4 m a) a s nx.
Proof. done. Qed.

Lemma setIsF_word v a s nx b :
  0 <= b < 16 -> word_header v a s nx ->
  word_header (setBlockIsF v b) a (Seg (seg_size s) (b =? 1)) nx.
Proof.
  intros Hb (Hf & Hz & Hn). destruct (setBlockIsF_spec v b Hb) as (E1 & E2 & E3).
  unfold word_header. by rewrite E1, E2, E3.
Qed.

Lemma setSize_word v a s nx n nx' :
  0 <= n < 2 ^ 24 -> word_header v a s nx ->
  nx' = (if getBlockIsNext v =? 0 then 0 else a + n + BLOCK_SIZE) ->
  word_header (setBlockSize v n) a (Seg n (seg_isfree s)) nx'.
Proof.
  intros Hn (Hf & Hz & Hnx) ->. destruct (setBlockSize_spec v n Hn) as (E1 & E2 & E3).
  unfold word_header. by rewrite E1, E2, E3.
Qed.

Lemma setIsNext_word v a s nx b :
  0 <= b < 16 -> word_header v a s nx ->
  word_header (setBlockIsNext v b) a s
    (if b =? 0 then 0 else a + seg_size s + BLOCK_SIZE).
Proof.
  intros Hb (Hf & Hz & Hn). destruct (setBlockIsNext_spec v b Hb) as (E1 & E2 & E3).
  unfold word_header. rewrite E1, E2, E3, Hz. done.
Qed.

(** Any word describes some header. *)
Lemma word_any v a :
  word_header v a (Seg (getBlockSize v) (getBlockIsF v =? 1))
    (if getBlockIsNext v =? 0 then 0 else a + getBlockSize v + BLOCK_SIZE).
Proof. done. Qed.

(** The link flag of a word whose link is known. *)
Lemma word_link v a s nx :
  0 < a -> word_header v a s nx -> links 4 a s nx ->
  (getBlockIsNext v = 0 /\ nx = 0) \/
  (getBlockIsNext v =? 0) = false /\ nx = a + span 4 s.
Proof.
  intros Ha (_ & Hz & Hn) Hl. destruct (get_bounds v) as [? _].
  unfold links, span in *. unfold BLOCK_SIZE in Hn.
  destruct (getBlockIsNext v =? 0) eqn:E; bprop; [left; lia|right; split; [done|lia]].
Qed.

(** ** The packed headers implement the header interface *)

Section ops.
Context (lo hi : Z) (Hlo : 0 < lo) (Hsize : hi - lo <= 2 ^ 24).

Lemma w_setIsF_law b m a s nx :
  0 <= b < 16 -> wheader m a s nx ->
  wheader (put_word m a (fun w => setBlockIsF w b)) a (Seg (seg_size s) (b =? 1)) nx /\
  agree (outside 4 a) m (put_word m a (fun w => setBlockIsF w b)).
Proof.
  intros Hb Hh. rewrite header_word in *. split.
  - words. by apply setIsF_word.
  - apply put_agree. done.
Qed.

Lemma w_split_law m a s nx n :
  seg_in 4 lo hi a s -> wheader m a s nx -> links 4 a s nx -> 0 <= n ->
  n + 4 <= seg_size s ->
  wheader (w_split m a n (n + 4)) a (Seg n false) (a + (n + 4)) /\
  wheader (w_split m a n (n + 4)) (a + (n + 4)) (Seg (seg_size s - (n + 4)) true) nx /\
  agree (fun x => x < a \/ a + span 4 s <= x) m (w_split m a n (n + 4)).
Proof.
  intros (Ha & Hb & _) Hh Hnx H0 Hle. rewrite !header_word in *.
  unfold span in *. unfold w_split. cbv zeta.
  pose proof Hh as (_ & Hz & _).
  split; [|split].
  - words. rewrite (wrap_small 32 n) by lia.
    eapply (setIsF_word _ _ (Seg n _)) with (b := 0); [lia|].
    replace (a + (n + 4)) with (if 1 =? 0 then 0 else a + seg_size (Seg n (seg_isfree s)) + BLOCK_SIZE)
      by (cbn; unfold BLOCK_SIZE; lia).
    eapply setIsNext_word; [lia|]. eapply setSize_word; [lia|exact Hh|reflexivity].
  - words. rewrite Hz, wrap_small by lia.
    assert (0 <= getBlockIsNext (load 4 m a) < 16) as Hn by apply get_bounds.
    assert (nx = if getBlockIsNext (load 4 m a) =? 0 then 0
                 else a + (n + 4) + seg_size (Seg (seg_size s - (n + 4)) true) + BLOCK_SIZE) as ->.
    { assert (0 < a) as Ha0 by lia. destruct (word_link _ _ _ _ Ha0 Hh Hnx) as [[-> ->]|[-> ->]]; [done|].
      unfold span, BLOCK_SIZE; cbn; lia. }
    eapply setIsNext_word; [done|].
    eapply (setSize_word _ _ (Seg _ true)); [lia| |reflexivity].
    eapply (setIsF_word _ _ (Seg _ _)) with (b := 1); [lia|apply word_any].
  - intros x Hx. unfold put_word. rewrite !store_other; [done|cbn; lia..].
Qed.

Lemma w_merge_law m a s t nx :
  seg_in 4 lo hi a s -> seg_in 4 lo hi (a + span 4 s) t ->
  wheader m a s (a + span 4 s) -> wheader m (a + span 4 s) t nx ->
  links 4 (a + span 4 s) t nx ->
  wheader (w_merge m a (a + span 4 s)) a
    (Seg (seg_size s + (seg_size t + 4)) (seg_isfree s)) nx /\
  agree (outside 4 a) m (w_merge m a (a + span 4 s)).
Proof.
  intros (Ha & Hb & Hs0) (Ha' & Hb' & Ht0) Hh Hh' Hnx. rewrite !header_word in *.
  assert (0 < a + span 4 s) as Hpos by lia.
  pose proof Hh as (_ & Hz & _). pose proof Hh' as (_ & Hz' & _).
  unfold w_merge. cbv zeta. split.
  - assert (span 4 s = 4 + seg_size s) as E by done.
    assert (span 4 t = 4 + seg_size t) as E' by done.
    words. rewrite Hz, Hz'. unfold BLOCK_SIZE at 1. rewrite wrap_small by lia.
    replace (seg_size s + seg_size t + 4) with (seg_size s + (seg_size t + 4)) by lia.
    set (u := Seg (seg_size s + (seg_size t + 4)) (seg_isfree s)).
    assert (0 <= getBlockIsNext (load 4 m (a + span 4 s)) < 16) as Hn by apply get_bounds.
    assert (nx = if getBlockIsNext (load 4 m (a + span 4 s)) =? 0 then 0
                 else a + seg_size u + BLOCK_SIZE) as ->.
    { destruct (word_link _ _ _ _ Hpos Hh' Hnx) as [[-> ->]|[-> ->]]; [done|].
      unfold u, BLOCK_SIZE; cbn [seg_size]; lia. }
    eapply setIsNext_word; [done|].
    eapply setSize_word; [lia|exact Hh|reflexivity].
  - unfold put_word. etrans; apply store_agree; unfold outside; cbn; lia.
Qed.

#[local] Instance word_ops : HeaderOps 4 lo hi := {
  ho_take m b := put_word m b (fun w => setBlockIsF w 0);
  ho_free m b := put_word m b (fun w => setBlockIsF w 1);
  ho_split := w_split;
  ho_merge := w_merge;
  ho_take_law m a s nx _ := w_setIsF_law 0 m a s nx ltac:(lia);
  ho_free_law m a s nx _ := w_setIsF_law 1 m a s nx ltac:(lia);
  ho_split_law := w_split_law;
  ho_merge_law := w_merge_law
}.
End ops.

(** ** Accesses that never fault *)

Section words.
Context (PAGESIZE : Z) (stack : itimerval).

Notation ld := (ld PAGESIZE stack).
Notation st := (st PAGESIZE stack).
Notation upd := (upd PAGESIZE stack).

(** The byte at [a] can be accessed: it lies in the library pages, or in a page
    of user space that is not protected. *)
Definition open_byte (s : astate) (a : Z) : Prop :=
  a <> 0 /\
  (memory s <= a < userSpace s \/
   (userSpace s <= a < memory s + MAX_MEMORY /\ prot s ((a - userSpace s) / PAGESIZE) = true)).

Definition open_word (s : astate) (a : Z) : Prop :=
  0 < a /\ forall x, a <= x < a + 4 -> open_byte s x.

(** All bytes between [lo] and [hi] can be accessed. *)
Definition opens (s : astate) (lo hi : Z) : Prop := forall x, lo <= x < hi -> open_byte s x.

Lemma touch_open s a : open_byte s a -> touch PAGESIZE stack a s = Ok (tt, s).
Proof.
  intros [H0 H]. unfold touch. mstep by done. rewrite (Zeqb_f a 0) by done.
  destruct ((memory s <=? a) && (a <? userSpace s)) eqn:E; [done|].
  destruct H as [H|[H Hp]]; [rewrite (Zleb_t (memory s)), (Zltb_t a) in E by lia; done|].
  btests. by rewrite Hp.
Qed.

Lemma ld_word s a : open_word s a -> ld a s = Ok (load 4 (amem s) a, s).
Proof.
  intros [H0 H]. unfold MyAlloc.ld.
  do 2 (erewrite bind_ok_l by (apply touch_open, H; lia)).
  done.
Qed.

Lemma st_word s a v : open_word s a -> st a v s = Ok (tt, set_amem (store 4 (amem s) a v) s).
Proof.
  intros [H0 H]. unfold MyAlloc.st.
  do 2 (erewrite bind_ok_l by (apply touch_open, H; lia)).
  done.
Qed.

Lemma upd_word s a f : open_word s a -> upd a f s = Ok (tt, set_amem (put_word (amem s) a f) s).
Proof.
  intros H. unfold MyAlloc.upd. erewrite bind_ok_l by (by apply ld_word). by apply st_word.
Qed.

Lemma getNextBlock_word s a :
  open_word s a -> getNextBlock PAGESIZE stack a s = Ok (w_next (amem s) a, s).
Proof.
  intros H. unfold getNextBlock, w_next.
  erewrite bind_ok_l by (by apply ld_word). bcase; [done|].
  by erewrite bind_ok_l by (by apply ld_word).
Qed.

(** Runs the accesses to open words of a computation. *)
Ltac word_run :=
  repeat first
    [ erewrite bind_ok_l by (apply ld_word; assumption)
    | erewrite bind_ok_l by (apply upd_word; assumption)
    | erewrite bind_ok_l by (apply getNextBlock_word; assumption)
    | rewrite ld_word by assumption
    | rewrite upd_word by assumption
    | rewrite getNextBlock_word by assumption ].

Lemma split_at_words s c n w :
  open_word s c -> open_word s (c + w) ->
  split_at PAGESIZE stack c n w s = Ok (tt, set_amem (w_split (amem s) c n w) s).
Proof. intros H1 H2. unfold split_at. cbv zeta. by word_run. Qed.

Lemma merge_at_words s b nb :
  open_word s b -> open_word s nb ->
  merge_at PAGESIZE stack b nb s = Ok (tt, set_amem (w_merge (amem s) b nb) s).
Proof. intros H1 H2. unfold merge_at. by word_run. Qed.

Lemma set_amem_id s : set_amem (amem s) s = s.
Proof. by destruct s. Qed.

(** ** The walks are the generic ones *)

Context (lo hi : Z) (Hlo : 0 < lo) (Hsize : hi - lo <= 2 ^ 24).

#[local] Instance the_ops : HeaderOps 4 lo hi := word_ops lo hi Hlo Hsize.

Lemma hderef_word s b :
  opens s lo hi -> hderef (hdr:=4) (lo:=lo) (hi:=hi) b = Ok tt -> open_word s b.
Proof.
  intros Ho. unfold hderef. repeat (bcase; try discriminate). intros _. split; [lia|].
  intros x Hx. apply Ho. lia.
Qed.

Lemma find_fit_words fuel n w s cur p m' :
  opens s lo hi ->
  first_fit (lo:=lo) (hi:=hi) fuel n w (amem s) cur = Ok (p, m') ->
  exists r last, find_fit PAGESIZE stack fuel n w cur s = Ok ((r, last), set_amem m' s) /\
    match r with Some b => p = b + 4 /\ 0 < b | None => p = 0 end.
Proof.
  intros Ho. revert cur. induction fuel as [|fuel IH]; intros cur; [done|].
  cbn [first_fit find_fit].
  destruct (hderef cur) as [[]|e|e] eqn:Ed; cbn [mbind result_bind]; [|done..].
  pose proof (hderef_word s cur Ho Ed) as Hc.
  cbn [hv_free hv_len hv_next word_view ho_take ho_split word_ops the_ops].
  set (continue := if negb (w_next _ _ =? 0) then _ else _).
  intros E. word_run.
  set (cont := (getNextBlock _ _ cur ≫= _)).
  assert (continue = Ok (p, m') ->
    exists r last, cont s = Ok ((r, last), set_amem m' s) /\
      match r with Some b => p = b + 4 /\ 0 < b | None => p = 0 end) as Hcont.
  { subst continue cont. word_run. bcase; [by apply IH|]. intros [= <- <-].
    rewrite set_amem_id. by exists None, cur. }
  clearbody continue cont. clear IH.
  unfold w_free, w_len in *.
  destruct (getBlockIsF (load 4 (amem s) cur) =? 1) eqn:Ef;
    cbn [negb orb] in E.
  2: { destruct (getBlockIsF _ =? 0); cbn [orb]; [auto|]. destruct (_ <? n); auto. }
  apply Z.eqb_eq in Ef. rewrite Ef. cbn [Z.eqb Pos.eqb orb].
  destruct (getBlockSize _ <? n); [auto|].
  destruct (getBlockSize _ =? n).
  { injection E as <- <-. word_run. exists (Some cur), cur. destruct Hc as [Hc _].
    split; [done|lia]. }
  destruct (w <=? getBlockSize _); [|auto].
  destruct (hderef (cur + w)) as [[]|e|e] eqn:Ed2; cbn [mbind result_bind] in E; [|done..].
  injection E as <- <-. pose proof (hderef_word s _ Ho Ed2) as Hc2.
  erewrite bind_ok_l by (by apply split_at_words).
  exists (Some cur), cur. destruct Hc as [Hc _]. split; [done|lia].
Qed.

Lemma merge_if_free_words s test b nb m' :
  opens s lo hi -> open_word s b -> open_word s nb ->
  merge_if_free (lo:=lo) (hi:=hi) (amem s) test b nb = Ok m' ->
  (n ← ld test; if getBlockIsF n =? 1 then merge_at PAGESIZE stack b nb else mret tt) s
  = Ok (tt, set_amem m' s).
Proof.
  intros Ho Hb Hnb. unfold merge_if_free.
  destruct (hderef test) as [[]|e|e] eqn:Ed; cbn [mbind result_bind]; [|done..].
  pose proof (hderef_word s _ Ho Ed) as Ht. word_run.
  cbn [hv_free word_view ho_merge word_ops the_ops]. unfold w_free.
  bcase; intros [= <-]; [by apply merge_at_words|]. by rewrite set_amem_id.
Qed.

Lemma release_words fuel t s prev cur b m' :
  opens s lo hi -> (prev = 0 \/ open_word s prev) ->
  release (lo:=lo) (hi:=hi) fuel t (amem s) prev cur = Ok (b, m') ->
  freeAndMerge_loop PAGESIZE stack fuel t prev cur s = Ok (b, set_amem m' s).
Proof.
  intros Ho. revert prev cur. induction fuel as [|fuel IH]; intros prev cur Hp; [done|].
  cbn [release freeAndMerge_loop].
  destruct (hderef cur) as [[]|e|e] eqn:Ed; cbn [mbind result_bind]; [|by bcase..].
  pose proof (hderef_word s cur Ho Ed) as Hc.
  cbn [hv_next word_view ho_free word_ops the_ops]. destruct (cur =? t).
  - set (m1 := put_word _ _ _). intros E.
    apply bind_result_ok_inv in E as (m2 & E2 & E).
    apply bind_result_ok_inv in E as (m3 & E3 & [= <- <-]). word_run. fold m1.
    erewrite (bind_ok_l _ _ _ tt (set_amem m2 s)).
    2: { cbn [amem set_amem]. destruct (w_next m1 cur =? 0) eqn:En; cbn [negb] in *.
         - by injection E2 as <-.
         - pose proof E2 as E2'. unfold merge_if_free in E2'.
           apply bind_result_ok_inv in E2' as ([] & Ed2 & _).
           pose proof (hderef_word s _ Ho Ed2) as Hn.
           by rewrite (merge_if_free_words (set_amem m1 s) _ _ _ m2). }
    erewrite (bind_ok_l _ _ _ tt (set_amem m3 s)); [done|].
    destruct (prev =? 0) eqn:En; cbn [negb] in *; bprop.
    + by injection E3 as <-.
    + destruct Hp as [?|Hp]; [done|].
      by rewrite (merge_if_free_words (set_amem m2 s) _ _ _ m3).
  - word_run. bcase; [intros E; apply IH; auto|]. intros [= <- <-]. by rewrite set_amem_id.
Qed.
End words.

(** ** The timer around a request *)

Definition timer_ok (s : astate) : Prop := timerSet s = true -> thr s <> None.

(** The state after a request: the bytes are [m], [msgs] was printed, and the
    timer runs as before. *)
Definition after (s : astate) (m : mem) (msgs : list alloc_msg) : astate :=
  AState m (memory s) (firstMalloc s) (rootBlock s) (rootBlockD s) (userSpace s)
    (mainPageNum s) (pages s) (diskPages s) (swp s) (prot s) (thr s) (timerSet s)
    (if timerSet s then Timers (itimer (tim s)) (itimer (tim s)) else tim s)
    (msgs ++ aout s).

(** The timer stopped by [pause_timer]. *)
Definition paused (stack : itimerval) (s : astate) : astate :=
  if timerSet s then set_tim (pause_timer stack (tim s)) s else s.

Section timer.
Context (stack : itimerval).

Lemma pause_paused s : timer_ok s -> pause_if_set stack s = Ok (tt, paused stack s).
Proof.
  intros H. unfold pause_if_set, paused, gets, mbind, M_bind.
  destruct (timerSet s) eqn:E; [|done]. cbn [when]. unfold pause.
  specialize (H E). by destruct (thr s).
Qed.

Lemma unpause_after s m msgs :
  timer_ok s ->
  unpause_if_set (set_amem m (AState (amem s) (memory s) (firstMalloc s) (rootBlock s)
      (rootBlockD s) (userSpace s) (mainPageNum s) (pages s) (diskPages s) (swp s)
      (prot s) (thr s) (timerSet s) (tim (paused stack s)) (msgs ++ aout s)))
  = Ok (tt, after s m msgs).
Proof.
  intros H. unfold unpause_if_set, paused, gets, mbind, M_bind, after.
  destruct s as [? ? ? ? ? ? ? ? ? ? ? t [|] tm ?]; cbn; [|done].
  unfold unpause. destruct t as [[]|]; [done|by destruct H].
Qed.

Lemma paused_fields s :
  memory (paused stack s) = memory s /\ userSpace (paused stack s) = userSpace s /\
  amem (paused stack s) = amem s /\ rootBlock (paused stack s) = rootBlock s /\
  paused stack s = AState (amem s) (memory s) (firstMalloc s) (rootBlock s)
      (rootBlockD s) (userSpace s) (mainPageNum s) (pages s) (diskPages s) (swp s)
      (prot s) (thr s) (timerSet s) (tim (paused stack s)) (aout s).
Proof. unfold paused. by destruct s as [? ? ? ? ? ? ? ? ? ? ? ? [|] ? ?]. Qed.
End timer.
