(* ===== verification/LibHeapSpec.v ===== *)
(** * The library heap of [my_pthread/my_pthread.c]

    The requests [LIBRARYREQ] of [myallocate] and [mydeallocate] implement the
    segmented heap with packed 4-byte headers over the first pages of the
    region.  Accesses there never fault, so the walks are those of
    [FirstFit]. *)

From S2P Require Import Prelude CMem SegHeap FirstFit BlockWord Timer MyAlloc WordHeap.

(** ** The library pages *)

(** The word at [a] lies in the library pages. *)
Definition in_lib (s : astate) (a : Z) : Prop :=
  0 < memory s /\ memory s <= a /\ a + 4 <= userSpace s.

Lemma lib_opens PAGESIZE s : 0 < memory s -> opens PAGESIZE s (memory s) (userSpace s).
Proof. intros H0 x Hx. split; [lia|by left]. Qed.

Lemma in_lib_open PAGESIZE s a : in_lib s a -> open_word PAGESIZE s a.
Proof. intros (H0 & H1 & H2). split; [lia|]. intros x Hx. split; [lia|left; lia]. Qed.

(** ** The requests of the library *)

(** The library pages hold the segments [l]. *)
Definition lib_heap (PAGESIZE : Z) (s : astate) (l : list seg) : Prop :=
  0 < memory s /\ userSpace s = memory s + LIBPAGES * PAGESIZE /\
  rootBlock s = memory s /\ l <> [] /\
  tiles (hdr:=4) (lo:=memory s) (hi:=userSpace s) (memory s) l /\
  chain (hdr:=4) (amem s) (memory s) l.

Section requests.
Context (PAGESIZE : Z) (stack : itimerval).
Context (Hps : 1024 <= PAGESIZE <= 32768).

Notation lib_heap := (lib_heap PAGESIZE).
Notation lib_allocate := (lib_allocate PAGESIZE stack).
Notation lib_deallocate := (lib_deallocate PAGESIZE stack).

Lemma lib_heap_sizes s l :
  lib_heap s l ->
  sizes_ok l /\ memory s + total 4 l = userSpace s /\
  userSpace s - memory s <= 2 ^ 24 /\ (length l <= walk_fuel)%nat.
Proof.
  intros (H0 & Hu & _ & _ & (Hs & _ & Ht) & _). unfold LIBPAGES in *.
  split; [done|]. split; [done|]. split; [lia|].
  pose proof (total_length 4 hdr4_pos l Hs). unfold walk_fuel, MAX_MEMORY.
  apply Nat2Z.inj_le. rewrite Z2Nat.id by lia. lia.
Qed.

Lemma lib_heap_after s l m msgs l' :
  lib_heap s l -> l' <> [] ->
  tiles (hdr:=4) (lo:=memory s) (hi:=userSpace s) (memory s) l' ->
  chain (hdr:=4) m (memory s) l' -> lib_heap (after s m msgs) l'.
Proof. intros (H0 & Hu & Hr & _) Hne Ht Hc. exact (conj H0 (conj Hu (conj Hr (conj Hne (conj Ht Hc))))). Qed.

Lemma heap_allocate_spec s l size :
  lib_heap s l -> timer_ok s -> 0 <= size ->
  match seg_alloc 4 size (memory s) l with
  | Some (p, l') =>
      exists m', lib_allocate size s = Ok (p + 4, after s m' []) /\
        lib_heap (after s m' []) l' /\ agree (protected 4 (memory s) l) (amem s) m'
  | None => lib_allocate size s = Ok (0, after s (amem s) [NotEnoughSpace])
  end.
Proof.
  intros Hh Ht Hsz. destruct (lib_heap_sizes _ _ Hh) as (Hs & Htot & Hsp & Hlen).
  pose proof Hh as (H0 & Hu & Hr & Hne & Htl & Hc).
  destruct (paused_fields stack s) as (Pm & Pu & Pa & Pr & Pe).
  assert (opens PAGESIZE (paused stack s) (memory s) (userSpace s)) as Hop
    by (rewrite <- Pm, <- Pu; apply lib_opens; by rewrite Pm).
  assert (size <= userSpace s - memory s -> wrap 32 (size + 4) = size + 4) as Hw
    by (intros; apply wrap_small; lia).
  pose proof (first_fit_refines (HO:=word_ops (memory s) (userSpace s) H0 Hsp)
    hdr4_pos H0 size (wrap 32 (size + 4)) walk_fuel l (amem s) (memory s) Hsz Hw
    Htl Hne Hc Hlen) as Hff.
  assert (lib_allocate size s
          = heap_allocate PAGESIZE stack size (memory s) (paused stack s)) as ->.
  { unfold MyAlloc.lib_allocate. erewrite bind_ok_l by (by apply pause_paused).
    erewrite (bind_ok_l (gets rootBlock)) by reflexivity. by rewrite Pr, Hr. }
  unfold heap_allocate. cbv zeta. change BLOCK_SIZE with 4.
  destruct (seg_alloc 4 size (memory s) l) as [[p l']|] eqn:Ea.
  - destruct Hff as (m' & Eff & Hc' & Hag). rewrite <- Pa in Eff.
    destruct (find_fit_words PAGESIZE stack _ _ H0 Hsp _ _ _ _ _ _ _ Hop Eff)
      as (r & last & E & Hp).
    exists m'. erewrite bind_ok_l by exact E.
    destruct (seg_alloc_bounds 4 hdr4_pos _ _ _ _ _ Hsz Hs Ea).
    destruct r as [b|]; [|lia]. assert (b = p) as -> by lia.
    rewrite Pe. erewrite bind_ok_l by (exact (unpause_after stack s m' [] Ht)).
    split; [done|]. split; [|done].
    pose proof (seg_alloc_sizes 4 _ _ _ _ _ Hsz Hs Ea).
    pose proof (seg_alloc_total 4 _ _ _ _ _ Ea) as Ht'.
    eapply lib_heap_after; [done| | |done].
    + destruct l; [done|].
      by destruct (seg_alloc_head 4 _ _ _ _ _ _ Ea) as (? & ? & -> & _).
    + split; [done|]. split; [lia|]. by rewrite Ht'.
  - rewrite <- Pa in Hff.
    destruct (find_fit_words PAGESIZE stack _ _ H0 Hsp _ _ _ _ _ _ _ Hop Hff)
      as (r & last & E & Hp).
    erewrite bind_ok_l by exact E.
    destruct r as [b|]; [lia|].
    rewrite Pa, Pe. unfold puts, modify.
    erewrite bind_ok_l by reflexivity.
    by erewrite bind_ok_l by (exact (unpause_after stack s _ [NotEnoughSpace] Ht)).
Qed.

(** [freeAndMerge] and the guards of [mydeallocate], for a live block. *)
Lemma lib_deallocate_spec s l q x :
  lib_heap s l -> timer_ok s -> live 4 (memory s) l q x ->
  exists m' l',
    lib_deallocate (q + 4) s = Ok (tt, after s m' []) /\
    seg_free 4 q (memory s) l = Some l' /\
    lib_heap (after s m' []) l' /\ agree (protected 4 (memory s) l) (amem s) m' /\
    w_free m' q = true.
Proof.
  intros Hh Ht Hl. destruct (lib_heap_sizes _ _ Hh) as (Hs & Htot & Hsp & Hlen).
  pose proof Hh as (H0 & Hu & Hr & Hne & Htl & Hc).
  destruct (paused_fields stack s) as (Pm & Pu & Pa & Pr & Pe).
  assert (opens PAGESIZE (paused stack s) (memory s) (userSpace s)) as Hop
    by (rewrite <- Pm, <- Pu; apply lib_opens; by rewrite Pm).
  destruct (live_header (lo:=memory s) (hi:=userSpace s)
    hdr4_pos H0 _ _ _ _ _ Htl Hc Hl) as (Hf & Hd & Hq & Hb & Hx).
  pose proof (release_refines (HO:=word_ops (memory s) (userSpace s) H0 Hsp)
    hdr4_pos H0 walk_fuel l (amem s) (memory s) None q Htl Hc Hne Hlen) as Hrel.
  cbn [start ocons prev_addr] in Hrel.
  assert (is_Some (seg_release 4 q (memory s) None l)) as [l' El]
    by (by eapply (seg_release_live 4 hdr4_pos)).
  rewrite El in Hrel. destruct Hrel as (m' & Erel & Hc' & Hag & Hfr).
  exists m', l'.
  assert (open_word PAGESIZE (paused stack s) q) as Hin.
  { apply in_lib_open. unfold in_lib. rewrite Pm, Pu. unfold span in Hb. lia. }
  assert (lib_deallocate (q + 4) s = Ok (tt, after s m' [])) as ->.
  { unfold MyAlloc.lib_deallocate. erewrite bind_ok_l by (by apply pause_paused).
    unfold inMemSpace. erewrite (bind_ok_l (gets _)) by reflexivity. rewrite Pm.
    unfold span, LIBPAGES in *. unfold MAX_MEMORY. btests.
    change BLOCK_SIZE with 4. rewrite Z.add_simpl_r.
    erewrite bind_ok_l by (by apply ld_word). rewrite Pa.
    change (getBlockIsF (load 4 (amem s) q) =? 1) with (w_free (amem s) q).
    cbn [hv_free word_view] in Hf. rewrite Hf.
    assert (freeAndMerge PAGESIZE stack q 0 LIBRARYREQ (paused stack s)
            = Ok (true, set_amem m' (paused stack s))) as E.
    { unfold freeAndMerge. erewrite (bind_ok_l get) by reflexivity.
      rewrite Pr, Hr. rewrite Zeqb_f by lia. rewrite <- Pa in Erel.
      by apply (release_words PAGESIZE stack _ _ H0 Hsp _ _ _ _ _ _ _ Hop (or_introl eq_refl)). }
    erewrite bind_ok_l by exact E. cbn [when negb].
    rewrite Pe. exact (unpause_after stack s m' [] Ht). }
  destruct (seg_free_spec 4 hdr4_pos q (memory s) l l' Hs El) as (Ht' & Hs' & _ & _).
  split; [done|]. split; [done|]. split; [|done].
  eapply lib_heap_after; [done| | |done].
  - intros ->. cbn in Ht'. unfold LIBPAGES in Hu. lia.
  - split; [done|]. split; [lia|]. by rewrite Ht'.
Qed.

(** ** The first request *)

Definition tables : list seg :=
  [Seg (4 * NDISK PAGESIZE) false; Seg (4 * NPAGES PAGESIZE) false;
   Seg (LIBPAGES * PAGESIZE - 4 - (4 * NDISK PAGESIZE + 4) - (4 * NPAGES PAGESIZE + 4)) true].

Lemma page_counts :
  8 <= NDISK PAGESIZE /\ 0 <= NPAGES PAGESIZE /\
  4 * NDISK PAGESIZE + 4 * NPAGES PAGESIZE + 100 <= LIBPAGES * PAGESIZE.
Proof.
  unfold NDISK, NPAGES, DISK_MEMORY, MAX_MEMORY, LIBPAGES.
  pose proof (Z.div_mod 16777216 PAGESIZE ltac:(lia)).
  pose proof (Z.mod_pos_bound 16777216 PAGESIZE ltac:(lia)).
  pose proof (Z.div_mod 8388608 PAGESIZE ltac:(lia)).
  pose proof (Z.mod_pos_bound 8388608 PAGESIZE ltac:(lia)).
  assert (16777216 / PAGESIZE <= 16384) by (apply Z.div_le_upper_bound; lia).
  assert (8388608 / PAGESIZE <= 8192) by (apply Z.div_le_upper_bound; lia).
  nia.
Qed.

(** The state after [initializeRoot] on a region at [region]. *)
Lemma lib_root_spec s :
  0 < memory s -> userSpace s = memory s + LIBPAGES * PAGESIZE ->
  exists m, initializeRoot PAGESIZE stack s
            = Ok (tt, set_amem m (set_root false (memory s) s)) /\
    lib_heap (set_amem m (set_root false (memory s) s))
      [Seg (LIBPAGES * PAGESIZE - 4) true] /\
    agree (outside 4 (memory s)) (amem s) m.
Proof.
  intros H0 Hu. set (b := memory s).
  assert (open_word PAGESIZE (set_root true b s) b) as Hin.
  { apply in_lib_open. unfold in_lib; cbn. unfold LIBPAGES in *. subst b. lia. }
  unfold initializeRoot. erewrite (bind_ok_l (gets _)) by reflexivity.
  erewrite (bind_ok_l (modify _)) by reflexivity.
  do 3 (erewrite bind_ok_l by (apply upd_word; exact Hin)).
  eexists. split; [reflexivity|]. cbn [amem set_amem set_root].
  assert (wrap 32 (LIBPAGES * PAGESIZE - BLOCK_SIZE) = LIBPAGES * PAGESIZE - 4) as ->
    by (apply wrap_small; unfold LIBPAGES, BLOCK_SIZE; lia).
  split.
  - refine (conj H0 (conj Hu (conj eq_refl (conj _ (conj _ _))))); [done| |].
    + split; [constructor; [cbn; unfold LIBPAGES; lia|constructor]|].
      cbn. unfold span; cbn. subst b. lia.
    + split; [|done]. cbn [link set_amem set_root memory amem]. rewrite header_word. words.
      eapply (setIsNext_word _ _ _ _ 0); [lia|].
      eapply (setSize_word _ _ (Seg _ true)); [unfold LIBPAGES; lia| |reflexivity].
      eapply (setIsF_word _ _ (Seg _ _)) with (b := 1); [lia|apply word_any].
  - unfold put_word. repeat (etrans; [|apply store_agree; unfold outside; cbn; lia]). done.
Qed.

Lemma lib_allocate_some s l size p l' :
  lib_heap s l -> timerSet s = false -> 0 <= size ->
  seg_alloc 4 size (memory s) l = Some (p, l') ->
  exists m', lib_allocate size s = Ok (p + 4, set_amem m' s) /\
    lib_heap (set_amem m' s) l' /\ agree (protected 4 (memory s) l) (amem s) m'.
Proof.
  intros Hh Ht Hsz E.
  pose proof (heap_allocate_spec s l size Hh ltac:(by unfold timer_ok; rewrite Ht) Hsz) as H.
  rewrite E in H. destruct H as (m' & ? & ? & ?). exists m'.
  assert (set_amem m' s = after s m' []) as ->; [|done].
  unfold after. destruct s; cbn in *. by rewrite Ht.
Qed.

Lemma init_region_spec s region :
  0 < region -> timerSet s = false ->
  exists m,
    init_region PAGESIZE stack region s
    = Ok (tt, AState m region false region (rootBlockD s) (region + LIBPAGES * PAGESIZE)
                (mainPageNum s) (replicate (Z.to_nat (NPAGES PAGESIZE)) 1)
                (replicate (Z.to_nat (NDISK PAGESIZE)) 1) (fun _ => 0) (prot s) (thr s)
                (timerSet s) (tim s) (aout s)) /\
    lib_heap (AState m region false region (rootBlockD s) (region + LIBPAGES * PAGESIZE)
                (mainPageNum s) (replicate (Z.to_nat (NPAGES PAGESIZE)) 1)
                (replicate (Z.to_nat (NDISK PAGESIZE)) 1) (fun _ => 0) (prot s) (thr s)
                (timerSet s) (tim s) (aout s)) tables.
Proof.
  intros H0 Ht. pose proof page_counts as (Hd & Hn & Hroom).
  assert (LIBPAGES * PAGESIZE <= 2 ^ 24) as Hlib by (unfold LIBPAGES; lia).
  assert (0 <= 4 * NDISK PAGESIZE /\ 0 <= 4 * NPAGES PAGESIZE) as [Hd0 Hn0] by lia.
  assert (wrap 64 (4 * NDISK PAGESIZE) = 4 * NDISK PAGESIZE) as Wd
    by (apply wrap_small; lia).
  assert (wrap 64 (4 * NPAGES PAGESIZE) = 4 * NPAGES PAGESIZE) as Wn
    by (apply wrap_small; lia).
  unfold init_region. do 2 (erewrite (bind_ok_l (modify _)) by reflexivity).
  set (s1 := set_swp _ _).
  destruct (lib_root_spec s1 H0 eq_refl) as (m1 & E1 & Hh1 & _).
  erewrite bind_ok_l by exact E1.
  set (s2 := set_amem m1 _) in *.
  assert (seg_alloc 4 (4 * NDISK PAGESIZE) (memory s2) [Seg (LIBPAGES * PAGESIZE - 4) true]
    = Some (region, [Seg (4 * NDISK PAGESIZE) false;
                     Seg (LIBPAGES * PAGESIZE - 4 - (4 * NDISK PAGESIZE + 4)) true])) as A1.
  { cbn [seg_alloc seg_isfree seg_size negb orb]. by btests. }
  destruct (lib_allocate_some s2 _ _ _ _ Hh1 Ht Hd0 A1) as (m2 & E2 & Hh2 & _).
  rewrite Wd. erewrite bind_ok_l by exact E2.
  erewrite (bind_ok_l (modify _)) by reflexivity.
  set (s3 := set_diskPages _ _) in *.
  assert (lib_heap s3 [Seg (4 * NDISK PAGESIZE) false;
    Seg (LIBPAGES * PAGESIZE - 4 - (4 * NDISK PAGESIZE + 4)) true]) as Hh3 by exact Hh2.
  assert (seg_alloc 4 (4 * NPAGES PAGESIZE) (memory s3) [Seg (4 * NDISK PAGESIZE) false;
    Seg (LIBPAGES * PAGESIZE - 4 - (4 * NDISK PAGESIZE + 4)) true]
    = Some (region + span 4 (Seg (4 * NDISK PAGESIZE) false), tables)) as A2.
  { cbn [seg_alloc seg_isfree seg_size negb orb]. btests. cbn. done. }
  destruct (lib_allocate_some s3 _ _ _ _ Hh3 Ht Hn0 A2) as (m3 & E3 & Hh4 & _).
  rewrite Wn. erewrite bind_ok_l by exact E3.
  exists m3. split; [reflexivity|exact Hh4].
Qed.
End requests.

Section entry.
Context (PAGESIZE : Z) (stack : itimerval).

Lemma pause_unset s : timerSet s = false -> pause_if_set stack s = Ok (tt, s).
Proof. intros Ht. unfold pause_if_set, gets, mbind, M_bind. by rewrite Ht. Qed.

Lemma lib_allocate_unset s size :
  timerSet s = false ->
  lib_allocate PAGESIZE stack size s = heap_allocate PAGESIZE stack size (rootBlock s) s.
Proof.
  intros Ht. unfold lib_allocate. erewrite bind_ok_l by (by apply pause_unset). done.
Qed.

Lemma myallocate_lib s region size :
  timer_ok s -> firstMalloc s = false ->
  myallocate PAGESIZE stack region size LIBRARYREQ s = lib_allocate PAGESIZE stack size s.
Proof.
  intros Ht Hf. unfold myallocate, lib_allocate.
  do 2 (erewrite (bind_ok_l (pause_if_set stack)) by (by apply pause_paused)).
  erewrite (bind_ok_l (gets _)) by reflexivity.
  assert (firstMalloc (paused stack s) = false) as -> by (unfold paused; by destruct (timerSet s)).
  done.
Qed.

Lemma find_fit_null size w s :
  find_fit PAGESIZE stack walk_fuel size w 0 s = Fault NullDeref.
Proof.
  assert (Z.of_nat walk_fuel = MAX_MEMORY) as E
    by (unfold walk_fuel; rewrite Z2Nat.id; [done|unfold MAX_MEMORY; lia]).
  destruct walk_fuel; [done|]. done.
Qed.

Context (Hps : 1024 <= PAGESIZE <= 32768).

Lemma live_in s l q x :
  lib_heap PAGESIZE s l -> live 4 (memory s) l q x ->
  memory s <= q /\ q + 4 <= userSpace s.
Proof.
  intros Hh Hl. destruct (lib_heap_sizes PAGESIZE Hps _ _ Hh) as (Hs & Htot & _).
  destruct (live_bounds 4 hdr4_pos _ _ _ _ Hs Hl) as (? & ? & ? & _).
  unfold span in *. lia.
Qed.

(** A release of a block whose header says it is free. *)
Lemma lib_deallocate_freed s l q :
  lib_heap PAGESIZE s l -> timer_ok s -> memory s <= q -> q + 4 <= userSpace s ->
  w_free (amem s) q = true ->
  lib_deallocate PAGESIZE stack (q + 4) s = Ok (tt, after s (amem s) [AlreadyFreed]).
Proof.
  intros (H0 & Hu & _) Ht Hq Hq' Hfr.
  destruct (paused_fields stack s) as (Pm & Pu & Pa & Pr & Pe).
  assert (open_word PAGESIZE (paused stack s) q) as Hin
    by (apply in_lib_open; unfold in_lib; rewrite Pm, Pu; lia).
  unfold lib_deallocate. erewrite bind_ok_l by (by apply pause_paused).
  unfold inMemSpace. erewrite (bind_ok_l (gets _)) by reflexivity. rewrite Pm.
  unfold LIBPAGES in *. unfold MAX_MEMORY. btests.
  change BLOCK_SIZE with 4. rewrite Z.add_simpl_r.
  erewrite bind_ok_l by (by apply ld_word). rewrite Pa.
  change (getBlockIsF (load 4 (amem s) q) =? 1) with (w_free (amem s) q). rewrite Hfr.
  unfold puts. erewrite (bind_ok_l (modify _)) by reflexivity.
  rewrite Pe. exact (unpause_after stack s (amem s) [AlreadyFreed] Ht).
Qed.
End entry.

(** ** The properties of the library heap *)

Section theorems.
Context (PAGESIZE : Z) (stack : itimerval).
Context (Hps : 1024 <= PAGESIZE <= 32768).

(** The state after the first request of the program. *)
Definition built (m : mem) (region : Z) (s : astate) : astate :=
  AState m region false region (rootBlockD s) (region + LIBPAGES * PAGESIZE)
    (mainPageNum s) (replicate (Z.to_nat (NPAGES PAGESIZE)) 1)
    (replicate (Z.to_nat (NDISK PAGESIZE)) 1) (fun _ => 0) (prot s) (thr s)
    (timerSet s) (tim s) (aout s).

(** What the page tables leave of the library pages. *)
Definition left_over : Z :=
  LIBPAGES * PAGESIZE - 4 - (4 * NDISK PAGESIZE + 4) - (4 * NPAGES PAGESIZE + 4).

Lemma first_request s size region :
  firstMalloc s = true -> timerSet s = false -> 0 < region -> 0 <= size -> size + 4 <= left_over ->
  exists m,
    myallocate PAGESIZE stack region size LIBRARYREQ s
    = Ok (region + 4 * NDISK PAGESIZE + 4 + 4 * NPAGES PAGESIZE + 4 + 4, built m region s) /\
    lib_heap PAGESIZE (built m region s)
      [Seg (4 * NDISK PAGESIZE) false; Seg (4 * NPAGES PAGESIZE) false; Seg size false;
       Seg (left_over - (size + 4)) true].
Proof.
  unfold left_over. intros Hf Ht H0 Hsz Hroom. pose proof (page_counts PAGESIZE Hps) as (Hd & Hn & _).
  destruct (init_region_spec PAGESIZE stack Hps s region H0 Ht) as (m & E & Hh).
  set (s1 := AState m _ _ _ _ _ _ _ _ _ _ _ _ _ _) in E, Hh.
  assert (seg_alloc 4 size region (tables PAGESIZE)
    = Some (region + span 4 (Seg (4 * NDISK PAGESIZE) false)
              + span 4 (Seg (4 * NPAGES PAGESIZE) false),
       [Seg (4 * NDISK PAGESIZE) false; Seg (4 * NPAGES PAGESIZE) false; Seg size false;
        Seg (LIBPAGES * PAGESIZE - 4 - (4 * NDISK PAGESIZE + 4) - (4 * NPAGES PAGESIZE + 4)
            - (size + 4)) true])) as Ea.
  { unfold tables. cbn [seg_alloc seg_isfree seg_size negb orb]. by btests. }
  destruct (lib_allocate_some PAGESIZE stack Hps s1 _ _ _ _ Hh Ht Hsz Ea)
    as (m' & E2 & Hh2 & _).
  exists m'. split; [|exact Hh2].
  unfold myallocate. erewrite bind_ok_l by (apply pause_unset; exact Ht).
  erewrite (bind_ok_l (gets _)) by reflexivity. rewrite Hf. cbn [when].
  erewrite bind_ok_l by exact E. erewrite (bind_ok_l (gets _)) by reflexivity.
  rewrite <- (lib_allocate_unset PAGESIZE stack s1 size Ht), E2.
  do 2 f_equal. unfold span; cbn. lia.
Qed.

(** C9: [myallocate] for the library implements first-fit allocation on the
    segments that the packed 4-byte headers of the library pages describe.  It
    never faults, whatever the size; a served request returns the payload of
    the new segment inside the library pages; a refused one prints the message
    and leaves every byte as it is.  No allocated payload changes, in
    particular not the page tables, and the timer runs as before. *)
Theorem library_malloc_refines s l size region :
  lib_heap PAGESIZE s l -> timer_ok s -> firstMalloc s = false -> 0 <= size ->
  match seg_alloc 4 size (memory s) l with
  | Some (p, l') =>
      exists m', myallocate PAGESIZE stack region size LIBRARYREQ s
                 = Ok (p + 4, after s m' []) /\
        lib_heap PAGESIZE (after s m' []) l' /\
        agree (protected 4 (memory s) l) (amem s) m' /\
        memory s <= p /\ p + 4 + size <= userSpace s /\
        (forall x, taken_byte 4 (memory s) l x -> ~ (p <= x < p + 4 + size))
  | None => myallocate PAGESIZE stack region size LIBRARYREQ s
            = Ok (0, after s (amem s) [NotEnoughSpace])
  end.
Proof.
  intros Hh Ht Hf Hsz. pose proof (heap_allocate_spec PAGESIZE stack Hps s l size Hh Ht Hsz) as H.
  destruct (lib_heap_sizes PAGESIZE Hps _ _ Hh) as (Hs & Htot & _).
  rewrite (myallocate_lib PAGESIZE stack s region size Ht Hf).
  destruct (seg_alloc 4 size (memory s) l) as [[p l']|] eqn:E; [|done].
  destruct H as (m' & ? & ? & ?). exists m'.
  destruct (seg_alloc_bounds 4 hdr4_pos _ _ _ _ _ Hsz Hs E).
  split_and!; try done; try lia. intros x.
  by apply (seg_alloc_disjoint 4 hdr4_pos _ _ _ _ _ x Hsz Hs E).
Qed.

(** C17: [mydeallocate] for the library, on a block it allocated, implements
    the release of the segment list: the block is freed and merged with its
    free neighbours, the other blocks keep their places and bytes, nothing is
    printed and the timer runs as before. *)
Theorem library_free_refines s l q x :
  lib_heap PAGESIZE s l -> timer_ok s -> live 4 (memory s) l q x ->
  exists m' l',
    mydeallocate PAGESIZE stack (q + 4) LIBRARYREQ s = Ok (tt, after s m' []) /\
    seg_free 4 q (memory s) l = Some l' /\ lib_heap PAGESIZE (after s m' []) l' /\
    (coalesced l -> coalesced l') /\
    (forall q' x', live 4 (memory s) l' q' x' <-> live 4 (memory s) l q' x' /\ q' <> q) /\
    agree (protected 4 (memory s) l) (amem s) m'.
Proof.
  intros Hh Ht Hl.
  destruct (lib_deallocate_spec PAGESIZE stack Hps s l q x Hh Ht Hl)
    as (m' & l' & E & Ef & Hh' & Hag & _).
  destruct (lib_heap_sizes PAGESIZE Hps _ _ Hh) as (Hs & _).
  destruct (seg_free_spec 4 hdr4_pos _ _ _ _ Hs Ef) as (_ & _ & Hco & Hlv).
  by exists m', l'.
Qed.

(** The first request of the program builds the heap, whatever the new
    region holds: the bytes become the two page tables, every page of them
    free, and one free block that takes the rest of the library pages.  The
    request is then served from that heap. *)
Theorem library_first_request s size region :
  firstMalloc s = true -> timerSet s = false -> 0 < region -> 0 <= size ->
  size + 4 <= left_over ->
  exists s',
    myallocate PAGESIZE stack region size LIBRARYREQ s
    = Ok (region + 4 * NDISK PAGESIZE + 4 + 4 * NPAGES PAGESIZE + 4 + 4, s') /\
    lib_heap PAGESIZE s'
      [Seg (4 * NDISK PAGESIZE) false; Seg (4 * NPAGES PAGESIZE) false; Seg size false;
       Seg (left_over - (size + 4)) true] /\
    pages s' = replicate (Z.to_nat (NPAGES PAGESIZE)) 1 /\
    diskPages s' = replicate (Z.to_nat (NDISK PAGESIZE)) 1 /\
    firstMalloc s' = false /\ memory s' = region.
Proof.
  intros Hf Ht H0 Hsz Hroom.
  destruct (first_request s size region Hf Ht H0 Hsz Hroom) as (m & E & Hh).
  by exists (built m region s).
Qed.

(** Requests with the caller [DISKREQ] never succeed: the root of the disk
    heap is never initialised, so the first-fit loop starts at NULL. *)
Theorem disk_request_faults s region size :
  rootBlockD s = 0 -> firstMalloc s = false -> timer_ok s ->
  myallocate PAGESIZE stack region size DISKREQ s = Fault NullDeref.
Proof.
  intros Hr Hf Ht. unfold myallocate. erewrite bind_ok_l by (by apply pause_paused).
  erewrite (bind_ok_l (gets _)) by reflexivity.
  assert (firstMalloc (paused stack s) = false) as -> by (unfold paused; by destruct (timerSet s)).
  cbn [when]. erewrite (bind_ok_l (mret tt)) by reflexivity.
  erewrite (bind_ok_l (gets _)) by reflexivity.
  assert (rootBlockD (paused stack s) = 0) as -> by (unfold paused; by destruct (timerSet s)).
  unfold heap_allocate. apply bind_fault_l. by apply find_fit_null.
Qed.

(** A block the library allocates and gives back leaves the segments as
    they were, and releasing it once more is reported. *)
Theorem library_malloc_free s l size region :
  lib_heap PAGESIZE s l -> timer_ok s -> firstMalloc s = false -> 0 <= size ->
  coalesced l -> seg_alloc 4 size (memory s) l <> None ->
  exists ptr s1 s2 m3,
    myallocate PAGESIZE stack region size LIBRARYREQ s = Ok (ptr, s1) /\
    mydeallocate PAGESIZE stack ptr LIBRARYREQ s1 = Ok (tt, s2) /\
    lib_heap PAGESIZE s2 l /\ aout s2 = aout s /\
    mydeallocate PAGESIZE stack ptr LIBRARYREQ s2 = Ok (tt, after s2 m3 [AlreadyFreed]).
Proof.
  intros Hh Ht Hf Hsz Hco Hsome.
  pose proof (heap_allocate_spec PAGESIZE stack Hps s l size Hh Ht Hsz) as H.
  destruct (lib_heap_sizes PAGESIZE Hps _ _ Hh) as (Hs & _).
  destruct (seg_alloc 4 size (memory s) l) as [[p l']|] eqn:E; [|done].
  destruct H as (m1 & E1 & Hh1 & _).
  assert (live 4 (memory s) l' p (Seg size false)) as Hl
    by (apply (seg_alloc_live 4 _ _ _ _ _ E); auto).
  destruct (lib_deallocate_spec PAGESIZE stack Hps (after s m1 []) l' p _ Hh1 Ht Hl)
    as (m2 & l2 & E2 & Ef & Hh2 & _ & Hfr).
  pose proof (seg_release_alloc 4 hdr4_pos size _ l p l' None Hsz Hs Hco E) as Er.
  unfold seg_free in Ef. cbn [memory after] in Ef. rewrite Er in Ef. injection Ef as <-.
  exists (p + 4), (after s m1 []), (after (after s m1 []) m2 []), m2.
  split; [by rewrite (myallocate_lib PAGESIZE stack s region size Ht Hf)|].
  split; [exact E2|]. split; [done|]. split; [done|].
  destruct (live_in PAGESIZE Hps _ _ _ _ Hh1 Hl).
  by exact (lib_deallocate_freed PAGESIZE stack Hps (after (after s m1 []) m2 []) l p
           Hh2 Ht H H0 Hfr).
Qed.
End theorems.

(** ** The theorems at a concrete region

    4096-byte pages, the region at address 4096, called before any thread
    exists. *)

Definition before_init : astate :=
  AState (fun _ => 0) 0 true 0 0 0 0 [] [] (fun _ => 0) (fun _ => true) None false
    (Timers no_timer no_timer) [].

Lemma page_4096 : 1024 <= 4096 <= 32768. Proof. lia. Qed.

Lemma demo_region :
  exists s, lib_heap 4096 s (tables 4096) /\ timer_ok s /\ firstMalloc s = false /\
    memory s = 4096 /\ rootBlockD s = 0.
Proof.
  destruct (init_region_spec 4096 no_timer page_4096 before_init 4096 ltac:(lia) eq_refl)
    as (m & _ & Hh).
  eexists. split; [exact Hh|]. done.
Qed.

Lemma library_malloc_refines_witness :
  exists s m', myallocate 4096 no_timer 4096 100 LIBRARYREQ s
               = Ok (4096 + 16388 + 7396 + 4, after s m' []).
Proof.
  destruct demo_region as (s & Hh & Ht & Hf & Hm & _).
  pose proof (library_malloc_refines 4096 no_timer page_4096 s (tables 4096) 100 4096
    Hh Ht Hf ltac:(lia)) as H.
  rewrite Hm in H.
  destruct H as (m' & E & _). exists s, m'. exact E.
Defined.

Lemma library_free_refines_witness :
  exists s m', mydeallocate 4096 no_timer (4096 + 4) LIBRARYREQ s = Ok (tt, after s m' []).
Proof.
  destruct demo_region as (s & Hh & Ht & _ & Hm & _).
  assert (live 4 (memory s) (tables 4096) 4096 (Seg (4 * NDISK 4096) false)) as Hl
    by (rewrite Hm; left; done).
  destruct (library_free_refines 4096 no_timer page_4096 s (tables 4096) 4096 _
    Hh Ht Hl) as (m' & l' & E & _).
  exists s, m'. exact E.
Defined.

Lemma library_first_request_witness :
  exists s', myallocate 4096 no_timer 4096 72 LIBRARYREQ before_init
             = Ok (4096 + 16384 + 4 + 7392 + 4 + 4, s').
Proof.
  destruct (library_first_request 4096 no_timer page_4096 before_init 72 4096
    eq_refl eq_refl ltac:(lia) ltac:(lia) ltac:(vm_compute; discriminate)) as (s' & E & _).
  exists s'. exact E.
Defined.

Lemma disk_request_faults_witness :
  exists s, firstMalloc s = false /\
    myallocate 4096 no_timer 4096 16 DISKREQ s = Fault NullDeref.
Proof.
  destruct demo_region as (s & Hh & Ht & Hf & _ & Hd).
  exists s. split; [exact Hf|]. exact (disk_request_faults 4096 no_timer s 4096 16 Hd Hf Ht).
Defined.

Lemma library_malloc_free_witness :
  exists s ptr s1 s2, myallocate 4096 no_timer 4096 100 LIBRARYREQ s = Ok (ptr, s1) /\
    mydeallocate 4096 no_timer ptr LIBRARYREQ s1 = Ok (tt, s2) /\
    lib_heap 4096 s2 (tables 4096).
Proof.
  destruct demo_region as (s & Hh & Ht & Hf & Hm & _).
  destruct (library_malloc_free 4096 no_timer page_4096 s (tables 4096) 100 4096
    Hh Ht Hf ltac:(lia)) as (ptr & s1 & s2 & m3 & E1 & E2 & Hh2 & _).
  - cbn. split; [intros [? _]; done|]. split; [intros [? _]; done|done].
  - rewrite Hm. discriminate.
  - exists s, ptr, s1, s2. split; [exact E1|]. split; [exact E2|exact Hh2].
Defined.
