(* ===== verification/Disk.v ===== *)
(** * The block device: [assignment3/src/block.c]

    A disk is a file of the host: its bytes, its length and the descriptor
    [diskfile].  [pread] and [pwrite] are modelled by their documentation on a
    regular file: a read stops at the end of the file, a write past the end
    extends it with zeroes, a closed descriptor or a negative offset fails.
    An offset that does not fit [int] is undefined behaviour. *)

From S2P Require Import Prelude CMem.

Definition BLOCK_SIZE : Z := 16384.

Record disk := Disk { dbytes : mem; dlen : Z; diskfile : Z }.

Definition pread (d : disk) (n off : Z) (buf : mem) : Z * mem :=
  if (diskfile d <? 0) || (off <? 0) then (-1, buf)
  else
    let got := Z.max 0 (Z.min n (dlen d - off)) in
    (got, blit buf 0 got (slice (dbytes d) off)).

Definition pwrite (d : disk) (n off : Z) (buf : mem) : Z * disk :=
  if (diskfile d <? 0) || (off <? 0) then (-1, d)
  else
    let grown := fun x => if x <? dlen d then dbytes d x else 0 in
    (n, Disk (blit grown off n buf) (Z.max (dlen d) (off + n)) (diskfile d)).

(** [fd] is what [open] returns. *)
Definition disk_open (fd : Z) : M disk unit := fun d =>
  if 0 <=? diskfile d then Ok (tt, d)
  else if fd <? 0 then Exit 1
  else Ok (tt, Disk (dbytes d) (dlen d) fd).

(** [disk_close] closes the descriptor and keeps its number; the process does
    not use it again. *)
Definition disk_close : M disk unit := mret tt.

Definition block_offset (block_num : Z) : result Z :=
  let off := block_num * BLOCK_SIZE in
  if fits_int off then Ok off else Fault SignedOverflow.

(** The result and the buffer after the read; [buf] is what it held. *)
Definition block_read (block_num : Z) (buf : mem) : M disk (Z * mem) := fun d =>
  off ← block_offset block_num;
  let '(retstat, buf) := pread d BLOCK_SIZE off buf in
  if retstat <=? 0 then Ok ((retstat, blit buf 0 BLOCK_SIZE (fun _ => 0)), d)
  else Ok ((retstat, buf), d).

Definition block_write (block_num : Z) (buf : mem) : M disk Z := fun d =>
  off ← block_offset block_num;
  let '(retstat, d) := pwrite d BLOCK_SIZE off buf in
  Ok (retstat, d).

(** ** The disk as one memory

    [rd d] is the content of an open disk, zeroes past its end: block reads
    and writes are the copies between a buffer and that memory. *)
Definition rd (d : disk) : mem := fun x => if x <? dlen d then dbytes d x else 0.

Definition disk_ok (d : disk) : Prop :=
  0 <= diskfile d /\ 0 <= dlen d /\ dlen d mod BLOCK_SIZE = 0.

Definition block_at (n x : Z) : Prop := n * BLOCK_SIZE <= x < (n + 1) * BLOCK_SIZE.

(** The blocks the driver can address. *)
Definition valid_block (n : Z) : Prop := 0 <= n < 2 ^ 17.

Lemma block_offset_ok n : valid_block n -> block_offset n = Ok (n * BLOCK_SIZE).
Proof.
  intros Hn. unfold valid_block, block_offset, fits_int, BLOCK_SIZE in *. by btests.
Qed.

Lemma block_read_spec d n buf :
  disk_ok d -> valid_block n ->
  exists r b, block_read n buf d = Ok ((r, b), d) /\
    (forall k, 0 <= k < BLOCK_SIZE -> b k = rd d (n * BLOCK_SIZE + k)) /\
    (r = BLOCK_SIZE \/ r = 0 /\ forall k, 0 <= k < BLOCK_SIZE -> b k = 0).
Proof.
  intros (Hf & Hl & Hm) Hn. unfold block_read. rewrite block_offset_ok by done.
  cbn [mbind result_bind]. unfold pread, valid_block in *.
  rewrite (Zltb_f (diskfile d)), (Zltb_f (n * _)) by (unfold BLOCK_SIZE; lia). cbn [orb].
  apply Z.mod_divide in Hm as [q Hq]; [|done].
  unfold rd. set (off := n * BLOCK_SIZE).
  assert (dlen d <= off \/ off + BLOCK_SIZE <= dlen d) as [Hout|Hin]
    by (unfold off, BLOCK_SIZE in *; nia).
  - replace (Z.max 0 _) with 0 by lia. cbn [Z.leb Z.compare].
    eexists _, _. split; [reflexivity|].
    split; [|right; split; [done|intros; by rewrite blit0_in]].
    intros k Hk. rewrite blit0_in by done. by btests.
  - replace (Z.max 0 _) with BLOCK_SIZE by (unfold BLOCK_SIZE in *; lia).
    change (BLOCK_SIZE <=? 0) with false. eexists _, _. split; [reflexivity|].
    split; [|by left]. intros k Hk.
    rewrite blit0_in by done. unfold slice. by btests.
Qed.

Lemma block_write_spec d n buf :
  disk_ok d -> valid_block n ->
  exists d', block_write n buf d = Ok (BLOCK_SIZE, d') /\ disk_ok d' /\
    (forall k, 0 <= k < BLOCK_SIZE -> rd d' (n * BLOCK_SIZE + k) = buf k) /\
    agree (fun x => ~ block_at n x) (rd d) (rd d').
Proof.
  intros (Hf & Hl & Hm) Hn. unfold block_write. rewrite block_offset_ok by done.
  cbn [mbind result_bind]. unfold pwrite, valid_block in *.
  rewrite (Zltb_f (diskfile d)), (Zltb_f (n * _)) by (unfold BLOCK_SIZE; lia). cbn [orb].
  eexists. split; [reflexivity|]. set (off := n * BLOCK_SIZE).
  assert (off = n * BLOCK_SIZE) as Eoff by done. split; [|split].
  - split; [done|]. split; [cbn; lia|]. cbn [dlen].
    apply Z.mod_divide in Hm as [q Hq]; [|done]. apply Z.mod_divide; [done|].
    destruct (Z.max_spec (dlen d) (off + BLOCK_SIZE)) as [[_ ->]|[_ ->]].
    + exists (n + 1). lia.
    + by exists q.
  - intros k Hk. unfold rd. cbn [dlen dbytes]. rewrite Zltb_t by lia.
    by apply blit_in.
  - intros x Hx. unfold rd. cbn [dlen dbytes]. unfold block_at in Hx.
    rewrite blit_out by lia.
    destruct (Z.ltb_spec x (dlen d)); [by rewrite Zltb_t by lia|].
    by destruct (x <? _).
Qed.
