(* ===== verification/Inode.v ===== *)
(** * The on-disk structures of [assignment3/src/sfs.c]

    Block 0 holds a magic number and the inode map, block 1 the block map,
    blocks 3 to 45 the table of 128 inodes, three per block, and the blocks
    from [D_BLOCK_START] on the data.  A map has a bit per entry, 1 for free.
    An inode is the 4368 bytes of the C structure. *)

From S2P Require Import Prelude CMem Disk.

Definition MAGIC_NUM : Z := 6942069.
Definition IMAP_SIZE : Z := 16.
Definition BMAP_SIZE : Z := 512.
Definition INODE_LIST_SIZE : Z := 128.
Definition BLOCK_LIST_SIZE : Z := 4096.
Definition D_BLOCK_START : Z := 50.

(** ** The structure [inode] *)

Definition inode : Type := mem.

Definition sizeof_inode : Z := 4368.

Definition i_id (nd : inode) : Z := swrap 16 (load 2 nd 0).
Definition i_path (nd : inode) : mem := slice nd 2.
Definition i_mode (nd : inode) : Z := load 4 nd 260.
Definition i_size (nd : inode) : Z := swrap 32 (load 4 nd 264).
Definition i_data (nd : inode) (i : Z) : Z := swrap 32 (load 4 nd (268 + 4 * i)).
Definition i_hardlinks (nd : inode) : Z := swrap 32 (load 4 nd 4364).

Definition set_id (nd : inode) (v : Z) : inode := store 2 nd 0 v.
(** [memcpy(nd.path, path, n)] *)
Definition set_path (nd : inode) (path : mem) (n : Z) : inode := blit nd 2 n path.
Definition set_mode (nd : inode) (v : Z) : inode := store 4 nd 260 v.
Definition set_size (nd : inode) (v : Z) : inode := store 4 nd 264 v.
Definition set_data (nd : inode) (i v : Z) : inode := store 4 nd (268 + 4 * i) v.
Definition set_hardlinks (nd : inode) (v : Z) : inode := store 4 nd 4364 v.

(** [nd.data[i]]: the array has 1024 entries. *)
Definition data_index (i : Z) : M disk unit :=
  if (0 <=? i) && (i <? 1024) then mret tt else raise OutOfBounds.
Definition get_data (nd : inode) (i : Z) : M disk Z :=
  _ ← data_index i; mret (i_data nd i).
Definition put_data (nd : inode) (i v : Z) : M disk inode :=
  _ ← data_index i; mret (set_data nd i v).

(** ** The two maps *)

(** [(buf[base + n / 8] >> n % 8) & 0x1] for an array of [char] *)
Definition get_bit (buf : mem) (base n : Z) : Z :=
  Z.land (Z.shiftr (swrap 8 (load8 buf (base + Z.quot n 8))) (Z.rem n 8)) 1.

(** [buf[base + n / 8] |= 1 << n % 8], or [&= ~(1 << n % 8)] *)
Definition set_bit (buf : mem) (base n setting : Z) : mem :=
  let a := base + Z.quot n 8 in
  let c := Z.shiftl 1 (Z.rem n 8) in
  if setting =? 1 then store 1 buf a (Z.lor (load8 buf a) c)
  else store 1 buf a (Z.land (load8 buf a) (Z.lnot c)).

(** The byte of entry [n] lies in the buffer. *)
Definition bit_index (base n : Z) : M disk unit :=
  if (0 <=? n) && (base + Z.quot n 8 <? BLOCK_SIZE) then mret tt else raise OutOfBounds.

Section layout.
(** What an uninitialised local variable holds. *)
Context (uninit : mem).

Definition isBlockFree (n : Z) : M disk Z :=
  '(_, buf) ← block_read 1 uninit;
  _ ← bit_index 0 n;
  mret (get_bit buf 0 n).

Definition setBlock (n setting : Z) : M disk unit :=
  '(_, buf) ← block_read 1 uninit;
  _ ← bit_index 0 n;
  _ ← block_write 1 (set_bit buf 0 n setting);
  mret tt.

Definition isInodeFree (n : Z) : M disk Z :=
  '(_, buf) ← block_read 0 uninit;
  _ ← bit_index 4 n;
  mret (get_bit buf 4 n).

Definition setInode (n setting : Z) : M disk unit :=
  '(_, buf) ← block_read 0 uninit;
  _ ← bit_index 4 n;
  _ ← block_write 0 (set_bit buf 4 n setting);
  mret tt.

(** ** The inode table *)

Definition numPerBlock : Z := Z.quot BLOCK_SIZE sizeof_inode.

(** The offset of inode [n] in its block; a negative [n] is out of bounds. *)
Definition inode_offset (n : Z) : M disk Z :=
  if 0 <=? n then mret (Z.rem n numPerBlock * sizeof_inode) else raise OutOfBounds.

Definition readInode (n : Z) : M disk inode :=
  let block := 3 + Z.quot n numPerBlock in
  '(_, buf) ← block_read block uninit;
  off ← inode_offset n;
  mret (blit uninit 0 sizeof_inode (slice buf off)).

Definition writeInode (nd : inode) : M disk unit :=
  let n := i_id nd in
  let block := 3 + Z.quot n numPerBlock in
  '(_, buf) ← block_read block uninit;
  off ← inode_offset n;
  _ ← block_write block (blit buf off sizeof_inode nd);
  mret tt.

(** [strcmp(a, b) == 0] for the array [b] of [n] bytes *)
Fixpoint strcmp_eq (n : nat) (a b : mem) : result bool :=
  match n with
  | O => Fault OutOfBounds
  | S n =>
      if negb (load8 a 0 =? load8 b 0) then Ok false
      else if load8 a 0 =? 0 then Ok true
      else strcmp_eq n (slice a 1) (slice b 1)
  end.

Definition path_eq (path : mem) (nd : inode) : M disk bool :=
  lift (strcmp_eq 256 path (i_path nd)).

(** [n] inodes from [i] on are left to look at. *)
Fixpoint checkiNodePathName_loop (n : nat) (i : Z) (path : mem) : M disk inode :=
  match n with
  | O => mret (set_id uninit (-1))
  | S n =>
      free ← isInodeFree i;
      if free =? 0 then
        nd ← readInode i;
        eq ← path_eq path nd;
        if eq : bool then mret nd else checkiNodePathName_loop n (i + 1) path
      else checkiNodePathName_loop n (i + 1) path
  end.

(** The inode of the file [path], or an inode with identifier -1. *)
Definition checkiNodePathName (path : mem) : M disk inode :=
  checkiNodePathName_loop (Z.to_nat INODE_LIST_SIZE) 0 path.

Definition checkIfInit : M disk Z :=
  '(_, buf) ← block_read 0 uninit;
  mret (if swrap 32 (load 4 buf 0) =? MAGIC_NUM then 1 else 0).

Definition setFileInit : M disk unit :=
  _ ← block_write 0 (store 4 uninit 0 MAGIC_NUM);
  mret tt.

Fixpoint findNextOpenBlock_loop (n : nat) (i : Z) : M disk Z :=
  match n with
  | O => mret (-1)
  | S n =>
      free ← isBlockFree i;
      if free =? 1 then mret i else findNextOpenBlock_loop n (i + 1)
  end.

Definition findNextOpenBlock : M disk Z :=
  findNextOpenBlock_loop (Z.to_nat BLOCK_LIST_SIZE) 0.
End layout.
