(* ===== verification/InodeSpec.v ===== *)
(** * The maps and the inode table of [assignment3/src/sfs.c]

    What the primitives of [Inode] read and write, stated on the memory [rd]
    of an open disk: a map entry is one bit, an inode is the 4368 bytes at its
    place in the table, and every operation leaves the rest of the disk. *)

From S2P Require Import Prelude CMem Disk Inode.

(** ** Bits *)

Definition bit_test (m : mem) (a n : Z) : bool :=
  Z.testbit (load8 m (a + n / 8)) (n mod 8).

Definition inode_free (d : disk) (n : Z) : bool := bit_test (rd d) 4 n.
Definition block_free (d : disk) (n : Z) : bool := bit_test (rd d) BLOCK_SIZE n.

Lemma swrap_bit v i :
  0 <= v < 256 -> 0 <= i < 8 -> Z.testbit (swrap 8 v) i = Z.testbit v i.
Proof.
  intros Hv Hi. unfold swrap. change (2 ^ 8) with 256. change (2 ^ (8 - 1)) with 128.
  destruct (Z.ltb_spec v 128).
  - f_equal. rewrite Z.mod_small; lia.
  - assert ((v + 128) mod 256 - 128 = v + -1 * 2 ^ 8) as ->
      by (change (2 ^ 8) with 256; rewrite Z.mod_eq by lia;
          assert ((v + 128) / 256 = 1) as -> by (symmetry; apply (Z.div_unique _ _ _ (v - 128)); lia); lia).
    rewrite <- (Z.mod_pow2_bits_low (v + _) 8) by lia. rewrite Z.mod_add by lia.
    by rewrite Z.mod_small by lia.
Qed.

Lemma load8_bounds m a : 0 <= load8 m a < 256.
Proof. apply Z.mod_pos_bound. lia. Qed.

Lemma get_bit_test m a n : 0 <= n -> get_bit m a n = Z.b2z (bit_test m a n).
Proof.
  intros Hn. unfold get_bit, bit_test.
  rewrite Z.quot_div_nonneg, Z.rem_mod_nonneg by lia.
  pose proof (Z.mod_pos_bound n 8 ltac:(lia)).
  rewrite <- (swrap_bit (load8 m _)) by (first [apply load8_bounds|done]).
  change 1 with (Z.ones 1). rewrite Z.land_ones, Z.shiftr_div_pow2 by lia.
  change (2 ^ 1) with 2. rewrite <- Z.testbit_spec' by lia. done.
Qed.

Lemma load8_store8 m a v x :
  load8 (store 1 m a v) x = if x =? a then v mod 256 else load8 m x.
Proof.
  unfold load8, store. destruct (Z.eqb_spec x a) as [->|Hne].
  - btests. rewrite Z.sub_diag, Z.shiftr_0_r. by rewrite Z.mod_mod by lia.
  - destruct (Z.leb_spec a x), (Z.ltb_spec x (a + Z.of_nat 1)); cbn [andb]; try done. lia.
Qed.

Lemma testbit_one j : Z.testbit 1 j = (j =? 0).
Proof. by destruct j. Qed.

Lemma bit_set m a n k s :
  0 <= n -> 0 <= k ->
  bit_test (set_bit m a n s) a k = if k =? n then s =? 1 else bit_test m a k.
Proof.
  intros Hn Hk. unfold set_bit, bit_test.
  rewrite Z.quot_div_nonneg, Z.rem_mod_nonneg by lia.
  pose proof (Z.mod_pos_bound n 8 ltac:(lia)). pose proof (Z.mod_pos_bound k 8 ltac:(lia)).
  pose proof (Z.div_mod n 8 ltac:(lia)). pose proof (Z.div_mod k 8 ltac:(lia)).
  assert (forall v, Z.testbit (v mod 256) (k mod 8) = Z.testbit v (k mod 8)) as Hlow
    by (intros v; apply (Z.mod_pow2_bits_low v 8); lia).
  destruct (s =? 1); rewrite load8_store8;
    destruct (Z.eqb_spec (a + k / 8) (a + n / 8)) as [E|E];
    destruct (Z.eqb_spec k n) as [->|Hne]; try lia; try done;
    rewrite Hlow, ?Z.lor_spec, ?Z.land_spec, ?Z.lnot_spec, Z.shiftl_spec, testbit_one,
      ?E by lia;
    first [rewrite Z.sub_diag | rewrite Zeqb_f by lia]; cbn [Z.eqb negb];
    by rewrite ?orb_true_r, ?orb_false_r, ?andb_false_r, ?andb_true_r.
Qed.

Lemma set_bit_other m a n s x : 0 <= n -> x <> a + n / 8 -> set_bit m a n s x = m x.
Proof.
  intros Hn Hx. unfold set_bit. rewrite Z.quot_div_nonneg by lia.
  destruct (s =? 1); apply store_other; lia.
Qed.

Lemma bit_test_ext m m' a a' n :
  m' (a' + n / 8) = m (a + n / 8) -> bit_test m' a' n = bit_test m a n.
Proof. intros E. unfold bit_test, load8. by rewrite E. Qed.

(** ** Inodes as structures *)

Definition same_inode (nd nd' : inode) : Prop :=
  forall k, 0 <= k < sizeof_inode -> nd' k = nd k.

#[export] Instance same_inode_equiv : Equivalence same_inode.
Proof.
  split.
  - by intros nd k Hk.
  - intros a b H k Hk. by rewrite H.
  - intros a b c H1 H2 k Hk. by rewrite H2, H1.
Qed.

Lemma same_load nd nd' n a :
  same_inode nd nd' -> 0 <= a -> a + Z.of_nat n <= sizeof_inode ->
  load n nd' a = load n nd a.
Proof. intros H Ha Hn. apply load_ext. intros x Hx. apply H. lia. Qed.

Ltac same_field :=
  intros ? ? H; unfold i_id, i_mode, i_size, i_data, i_hardlinks;
  rewrite (same_load _ _ _ _ H); [done|try lia|unfold sizeof_inode; cbn; lia].

#[export] Instance i_id_proper : Proper (same_inode ==> eq) i_id.
Proof. same_field. Qed.
#[export] Instance i_mode_proper : Proper (same_inode ==> eq) i_mode.
Proof. same_field. Qed.
#[export] Instance i_size_proper : Proper (same_inode ==> eq) i_size.
Proof. same_field. Qed.
#[export] Instance i_hardlinks_proper : Proper (same_inode ==> eq) i_hardlinks.
Proof. same_field. Qed.

Lemma i_data_same nd nd' k : same_inode nd nd' -> 0 <= k < 1024 -> i_data nd' k = i_data nd k.
Proof.
  intros H Hk. unfold i_data.
  rewrite (same_load nd nd' 4 (268 + 4 * k) H); [done|lia|unfold sizeof_inode; cbn; lia].
Qed.

Lemma i_path_same nd nd' k : same_inode nd nd' -> 0 <= k < 256 -> i_path nd' k = i_path nd k.
Proof. intros H Hk. unfold i_path, slice. apply H. unfold sizeof_inode. lia. Qed.

(** The fields of a structure do not overlap. *)
Ltac ifields :=
  unfold i_id, i_mode, i_size, i_data, i_hardlinks, set_id, set_mode, set_size, set_data,
    set_hardlinks, set_path in *;
  repeat first
    [ rewrite load_store_same
    | rewrite load_store_other by (cbn; lia)
    | rewrite load_blit_other by (cbn; lia) ];
  change (256 ^ Z.of_nat 2) with (2 ^ 16) in *; change (256 ^ Z.of_nat 4) with (2 ^ 32) in *.

Lemma swrap_mod w z : 0 < w -> swrap w (z mod 2 ^ w) = swrap w z.
Proof. intros Hw. unfold swrap. by rewrite Z.add_mod_idemp_l by lia. Qed.

Lemma swrap_int z : - 2 ^ 31 <= z < 2 ^ 31 -> swrap 32 z = z.
Proof. intros. apply swrap_small; lia. Qed.

(** ** Paths *)

Definition terminated (nd : inode) : Prop := exists k, 0 <= k < 256 /\ load8 (i_path nd) k = 0.

(** Equal C strings *)
Definition cstr_eq (a b : mem) : Prop :=
  exists len, 0 <= len /\ load8 a len = 0 /\ load8 b len = 0 /\
    forall k, 0 <= k < len -> load8 a k = load8 b k /\ load8 a k <> 0.

Lemma strcmp_spec n a b :
  (exists k, 0 <= k < Z.of_nat n /\ load8 b k = 0) ->
  exists r, strcmp_eq n a b = Ok r /\ (r = true <-> cstr_eq a b).
Proof.
  revert a b. induction n as [|n IH]; intros a b (k & Hk & Hz); [lia|].
  cbn [strcmp_eq]. destruct (Z.eqb_spec (load8 a 0) (load8 b 0)) as [E|E]; cbn [negb].
  2: { eexists. split; [done|]. split; [done|]. intros (len & Hl & Ha & Hb & Hd).
       destruct (decide (len = 0)) as [->|]; [congruence|].
       destruct (Hd 0 ltac:(lia)). congruence. }
  destruct (Z.eqb_spec (load8 a 0) 0) as [E0|E0].
  { eexists. split; [done|]. split; [|done]. intros _. exists 0.
    split; [lia|]. split; [done|]. split; [congruence|]. intros; lia. }
  destruct (decide (k = 0)) as [->|Hk0]; [congruence|].
  destruct (IH (slice a 1) (slice b 1)) as (r & Er & Hr).
  { exists (k - 1). split; [lia|]. unfold load8, slice in *.
    by replace (1 + (k - 1)) with k by lia. }
  exists r. split; [done|]. rewrite Hr. unfold cstr_eq, load8, slice in *. split.
  - intros (len & Hl & Ha & Hb & Hd). exists (1 + len). split; [lia|].
    split; [done|]. split; [done|]. intros j Hj.
    destruct (decide (j = 0)) as [->|]; [done|].
    specialize (Hd (j - 1) ltac:(lia)). by replace (1 + (j - 1)) with j in Hd by lia.
  - intros (len & Hl & Ha & Hb & Hd). exists (len - 1).
    destruct (decide (len = 0)) as [->|]; [congruence|]. split; [lia|].
    replace (1 + (len - 1)) with len by lia. split; [done|]. split; [done|].
    intros j Hj. apply Hd. lia.
Qed.

(** ** The primitives on an open disk *)

Definition inode_addr (n : Z) : Z := (3 + n / 3) * BLOCK_SIZE + n mod 3 * sizeof_inode.

(** Inode [n] of the disk, and the address of byte [k] of data block [b]. *)
Definition node (d : disk) (n : Z) : inode := slice (rd d) (inode_addr n).
Definition data_addr (b k : Z) : Z := (D_BLOCK_START + b) * BLOCK_SIZE + k.

Definition inode_num (n : Z) : Prop := 0 <= n < INODE_LIST_SIZE.
Definition block_num (n : Z) : Prop := 0 <= n < BLOCK_LIST_SIZE.

Lemma inode_addr_bounds n :
  inode_num n ->
  3 * BLOCK_SIZE <= inode_addr n /\
  (3 + n / 3) * BLOCK_SIZE <= inode_addr n /\
  inode_addr n + sizeof_inode <= (3 + n / 3 + 1) * BLOCK_SIZE /\
  inode_addr n + sizeof_inode <= D_BLOCK_START * BLOCK_SIZE.
Proof.
  unfold inode_num, INODE_LIST_SIZE, inode_addr, BLOCK_SIZE, sizeof_inode, D_BLOCK_START.
  intros Hn. pose proof (Z.div_mod n 3 ltac:(lia)).
  pose proof (Z.mod_pos_bound n 3 ltac:(lia)). lia.
Qed.

Lemma inode_addr_disjoint n m :
  inode_num n -> inode_num m -> n <> m ->
  inode_addr n + sizeof_inode <= inode_addr m \/ inode_addr m + sizeof_inode <= inode_addr n.
Proof.
  unfold inode_num, INODE_LIST_SIZE, inode_addr, BLOCK_SIZE, sizeof_inode.
  intros Hn Hm Hne. pose proof (Z.div_mod n 3 ltac:(lia)). pose proof (Z.div_mod m 3 ltac:(lia)).
  pose proof (Z.mod_pos_bound n 3 ltac:(lia)). pose proof (Z.mod_pos_bound m 3 ltac:(lia)).
  assert (n / 3 < m / 3 \/ n / 3 = m / 3 \/ m / 3 < n / 3) as [?|[?|?]] by lia; lia.
Qed.

Section primitives.
Context (uninit : mem).

Lemma bit_index_ok base n d :
  0 <= n -> base + n / 8 < BLOCK_SIZE -> bit_index base n d = Ok (tt, d).
Proof.
  intros Hn Hb. unfold bit_index. rewrite Z.quot_div_nonneg by lia. by btests.
Qed.

(** A map entry is read from block [blk], and written there. *)
Lemma map_read d blk base n :
  disk_ok d -> valid_block blk -> 0 <= base -> 0 <= n -> base + n / 8 < BLOCK_SIZE ->
  ('(_, buf) ← block_read blk uninit; _ ← bit_index base n; mret (get_bit buf base n)) d
  = Ok (Z.b2z (bit_test (rd d) (blk * BLOCK_SIZE + base) n), d).
Proof.
  intros Hd Hb Hbase Hn Hlt.
  destruct (block_read_spec d blk uninit Hd Hb) as (r & b & E & Hbuf & _).
  mstep by exact E. mstep by (by apply bit_index_ok).
  rewrite get_bit_test by done. unfold mret, M_ret. do 3 f_equal.
  apply bit_test_ext. assert (0 <= n / 8) by (apply Z.div_pos; lia).
  rewrite Hbuf by lia. f_equal. lia.
Qed.

Lemma map_write d blk base n s :
  disk_ok d -> valid_block blk -> 0 <= base -> 0 <= n -> base + n / 8 < BLOCK_SIZE ->
  exists d',
    ('(_, buf) ← block_read blk uninit; _ ← bit_index base n;
     _ ← block_write blk (set_bit buf base n s); mret tt) d = Ok (tt, d') /\
    disk_ok d' /\
    (forall k, 0 <= k -> base + k / 8 < BLOCK_SIZE ->
       bit_test (rd d') (blk * BLOCK_SIZE + base) k
       = if k =? n then s =? 1 else bit_test (rd d) (blk * BLOCK_SIZE + base) k) /\
    agree (fun x => x <> blk * BLOCK_SIZE + base + n / 8) (rd d) (rd d').
Proof.
  intros Hd Hb Hbase Hn Hlt.
  destruct (block_read_spec d blk uninit Hd Hb) as (r & b & E & Hbuf & _).
  destruct (block_write_spec d blk (set_bit b base n s) Hd Hb) as (d' & Ew & Hd' & Hin & Hout).
  exists d'. mstep by exact E. mstep by (by apply bit_index_ok).
  mstep by exact Ew. split; [done|]. split; [done|]. split.
  - intros k Hk Hkb. assert (0 <= k / 8) by (apply Z.div_pos; lia).
    transitivity (bit_test (set_bit b base n s) base k).
    + apply bit_test_ext. rewrite <- Hin by lia. f_equal. lia.
    + rewrite bit_set by done. destruct (k =? n); [done|].
      apply bit_test_ext. rewrite Hbuf by lia. f_equal. lia.
  - intros x Hx. destruct (decide (block_at blk x)) as [Hat|Hat].
    + unfold block_at in Hat. replace x with (blk * BLOCK_SIZE + (x - blk * BLOCK_SIZE)) by lia.
      rewrite Hin, set_bit_other, Hbuf by lia. done.
    + by apply Hout.
Qed.

(** The entries of the maps, and the bytes they occupy. *)
Definition block_entry (n : Z) : Prop := 0 <= n < 8 * BLOCK_SIZE.
Definition inode_entry (n : Z) : Prop := 0 <= n < 8 * (BLOCK_SIZE - 4).

Lemma entry_byte n base : 0 <= n < 8 * (BLOCK_SIZE - base) -> base + n / 8 < BLOCK_SIZE.
Proof. intros. assert (n / 8 < BLOCK_SIZE - base) by (apply Z.div_lt_upper_bound; lia). lia. Qed.

Lemma isBlockFree_spec d n :
  disk_ok d -> block_entry n -> isBlockFree uninit n d = Ok (Z.b2z (block_free d n), d).
Proof.
  intros Hd Hn. unfold block_entry in Hn. unfold isBlockFree.
  by rewrite map_read by first [done | unfold valid_block; lia | lia | apply entry_byte; lia].
Qed.

Lemma isInodeFree_spec d n :
  disk_ok d -> inode_entry n -> isInodeFree uninit n d = Ok (Z.b2z (inode_free d n), d).
Proof.
  intros Hd Hn. unfold inode_entry in Hn. unfold isInodeFree.
  by rewrite map_read by first [done | unfold valid_block; lia | lia | apply entry_byte; lia].
Qed.

Lemma setBlock_spec d n s :
  disk_ok d -> block_entry n ->
  exists d', setBlock uninit n s d = Ok (tt, d') /\ disk_ok d' /\
    (forall k, block_entry k -> block_free d' k = if k =? n then s =? 1 else block_free d k) /\
    agree (fun x => x <> BLOCK_SIZE + n / 8) (rd d) (rd d').
Proof.
  intros Hd Hn. unfold block_entry in *.
  destruct (map_write d 1 0 n s Hd) as (d' & E & Hd' & Hbits & Hag);
    try (unfold valid_block; lia); [apply entry_byte; lia|].
  exists d'. split; [exact E|]. split; [done|]. split; [|exact Hag].
  intros k Hk. apply Hbits; [lia|]. apply entry_byte. lia.
Qed.

Lemma setInode_spec d n s :
  disk_ok d -> inode_entry n ->
  exists d', setInode uninit n s d = Ok (tt, d') /\ disk_ok d' /\
    (forall k, inode_entry k -> inode_free d' k = if k =? n then s =? 1 else inode_free d k) /\
    agree (fun x => x <> 4 + n / 8) (rd d) (rd d').
Proof.
  intros Hd Hn. unfold inode_entry in *.
  destruct (map_write d 0 4 n s Hd) as (d' & E & Hd' & Hbits & Hag);
    try (unfold valid_block; lia); [apply entry_byte; lia|].
  exists d'. split; [exact E|]. split; [done|]. split; [|exact Hag].
  intros k Hk. apply Hbits; [lia|]. apply entry_byte. lia.
Qed.

Lemma numPerBlock_3 : numPerBlock = 3.
Proof. done. Qed.

Lemma inode_offset_ok n d : 0 <= n -> inode_offset n d = Ok (n mod 3 * sizeof_inode, d).
Proof.
  intros Hn. unfold inode_offset. rewrite numPerBlock_3, Z.rem_mod_nonneg by lia. by btests.
Qed.

Lemma table_block n : inode_num n -> valid_block (3 + n / 3).
Proof.
  unfold inode_num, INODE_LIST_SIZE, valid_block. intros Hn.
  pose proof (Z.div_mod n 3 ltac:(lia)). pose proof (Z.mod_pos_bound n 3 ltac:(lia)). lia.
Qed.

Lemma readInode_spec d n :
  disk_ok d -> inode_num n ->
  exists nd, readInode uninit n d = Ok (nd, d) /\ same_inode (node d n) nd.
Proof.
  intros Hd Hn. pose proof (table_block n Hn) as Hv.
  pose proof (inode_addr_bounds n Hn) as (_ & Ha & Hb & _).
  assert (0 <= n) by (unfold inode_num in Hn; lia).
  destruct (block_read_spec d _ uninit Hd Hv) as (r & b & E & Hbuf & _).
  unfold readInode. rewrite numPerBlock_3, Z.quot_div_nonneg by lia.
  mstep by exact E. mstep by (by apply inode_offset_ok).
  eexists. split; [reflexivity|]. intros k Hk. rewrite blit0_in by done.
  unfold node, inode_addr, slice in *. rewrite Hbuf by lia. f_equal. lia.
Qed.

Lemma writeInode_spec d nd n :
  disk_ok d -> i_id nd = n -> inode_num n ->
  exists d', writeInode uninit nd d = Ok (tt, d') /\ disk_ok d' /\
    same_inode nd (node d' n) /\
    agree (fun x => x < inode_addr n \/ inode_addr n + sizeof_inode <= x) (rd d) (rd d').
Proof.
  intros Hd Hid Hn. pose proof (table_block n Hn) as Hv.
  pose proof (inode_addr_bounds n Hn) as (_ & Ha & Hb & _).
  assert (0 <= n) by (unfold inode_num in Hn; lia).
  destruct (block_read_spec d _ uninit Hd Hv) as (r & b & E & Hbuf & _).
  unfold writeInode. rewrite Hid, numPerBlock_3, Z.quot_div_nonneg by lia.
  set (off := n mod 3 * sizeof_inode).
  destruct (block_write_spec d _ (blit b off sizeof_inode nd) Hd Hv)
    as (d' & Ew & Hd' & Hin & Hout).
  exists d'. mstep by exact E.
  mstep by (by apply inode_offset_ok). fold off.
  mstep by exact Ew. split; [done|]. split; [done|].
  unfold node, inode_addr in *. fold off in Ha, Hb |- *. split.
  - intros k Hk. unfold slice.
    rewrite <- (blit_in b off sizeof_inode nd k Hk), <- Hin by lia. f_equal. lia.
  - intros x Hx. destruct (decide (block_at (3 + n / 3) x)) as [Hat|Hat]; [|by apply Hout].
    unfold block_at in Hat. set (base := (3 + n / 3) * BLOCK_SIZE) in *.
    replace x with (base + (x - base)) by lia. unfold BLOCK_SIZE in *.
    rewrite Hin, blit_out, Hbuf by lia. done.
Qed.
End primitives.

(** ** Searches *)

Lemma cstr_eq_same a nd nd' :
  same_inode nd nd' -> terminated nd ->
  cstr_eq a (i_path nd) <-> cstr_eq a (i_path nd').
Proof.
  intros Hs (k & Hk & Hz).
  assert (forall j, 0 <= j < 256 -> load8 (i_path nd') j = load8 (i_path nd) j) as Hp.
  { intros j Hj. unfold load8. by rewrite (i_path_same nd nd'). }
  assert (load8 (i_path nd') k = 0) as Hz' by (by rewrite Hp).
  split; intros (len & Hl & Ha & Hb & Hd).
  - assert (len <= k) by (destruct (decide (len <= k)); [done|];
      destruct (Hd k ltac:(lia)); congruence).
    exists len. rewrite Hp by lia. split; [done|]. split; [done|]. split; [done|].
    intros j Hj. rewrite Hp by lia. auto.
  - assert (len <= k) by (destruct (decide (len <= k)); [done|];
      destruct (Hd k ltac:(lia)); congruence).
    exists len. rewrite <- Hp by lia. split; [done|]. split; [done|]. split; [done|].
    intros j Hj. rewrite <- Hp by lia. auto.
Qed.

Lemma terminated_same nd nd' : same_inode nd nd' -> terminated nd -> terminated nd'.
Proof.
  intros Hs (k & Hk & Hz). exists k. split; [done|]. rewrite <- Hz.
  unfold load8. by rewrite (i_path_same nd nd').
Qed.

(** Inode [n] is in use and has the path [path]. *)
Definition holds (d : disk) (path : mem) (n : Z) : Prop :=
  inode_num n /\ inode_free d n = false /\ cstr_eq path (i_path (node d n)).

Definition names_ok (d : disk) : Prop :=
  forall n, inode_num n -> inode_free d n = false -> terminated (node d n).

Section searches.
Context (uninit : mem) (d : disk) (Hd : disk_ok d).

Lemma findNextOpenBlock_loop_spec n i :
  0 <= i -> i + Z.of_nat n <= BLOCK_LIST_SIZE ->
  exists b, findNextOpenBlock_loop uninit n i d = Ok (b, d) /\
    ((i <= b < i + Z.of_nat n /\ block_free d b = true /\
      forall k, i <= k < b -> block_free d k = false) \/
     (b = -1 /\ forall k, i <= k < i + Z.of_nat n -> block_free d k = false)).
Proof.
  unfold BLOCK_LIST_SIZE. revert i. induction n as [|n IH]; intros i Hi Hn.
  { exists (-1). split; [done|]. right. split; [done|]. intros; lia. }
  cbn [findNextOpenBlock_loop].
  mstep by (apply isBlockFree_spec; [done|unfold block_entry, BLOCK_SIZE; lia]).
  destruct (block_free d i) eqn:E; cbn [Z.b2z Z.eqb Pos.eqb].
  - exists i. split; [done|]. left. split; [lia|]. split; [done|]. intros; lia.
  - destruct (IH (i + 1) ltac:(lia) ltac:(lia)) as (b & Eb & Hb).
    exists b. split; [done|]. destruct Hb as [(H1 & H2 & H3)|[-> H]]; [left|right].
    + split; [lia|]. split; [done|]. intros k Hk.
      destruct (decide (k = i)) as [->|]; [done|]. apply H3. lia.
    + split; [done|]. intros k Hk.
      destruct (decide (k = i)) as [->|]; [done|]. apply H. lia.
Qed.

Lemma findNextOpenBlock_spec :
  exists b, findNextOpenBlock uninit d = Ok (b, d) /\
    ((block_num b /\ block_free d b = true /\
      forall k, 0 <= k < b -> block_free d k = false) \/
     (b = -1 /\ forall k, block_num k -> block_free d k = false)).
Proof.
  destruct (findNextOpenBlock_loop_spec (Z.to_nat BLOCK_LIST_SIZE) 0)
    as (b & E & Hb); [lia|unfold BLOCK_LIST_SIZE; lia|].
  exists b. split; [exact E|]. unfold block_num, BLOCK_LIST_SIZE in *.
  destruct Hb as [(? & ? & ?)|[? H]]; [left|right]; split_and!; try done; lia.
Qed.

Context (Hnames : names_ok d).

(** One step of the loops that look for a path. *)
Lemma path_step n path :
  inode_num n -> inode_free d n = false ->
  exists nd r, readInode uninit n d = Ok (nd, d) /\ same_inode (node d n) nd /\
    path_eq path nd d = Ok (r, d) /\ (r = true <-> holds d path n).
Proof.
  intros Hn Hf. destruct (readInode_spec uninit d n Hd Hn) as (nd & E & Hs).
  pose proof (Hnames n Hn Hf) as Ht.
  destruct (strcmp_spec 256 path (i_path nd)) as (r & Er & Hr).
  { exact (terminated_same _ _ Hs Ht). }
  exists nd, r. split; [done|]. split; [done|]. split.
  - unfold path_eq, lift. by rewrite Er.
  - rewrite Hr, <- (cstr_eq_same path _ _ Hs Ht). unfold holds. tauto.
Qed.

Lemma inode_entry_num n : inode_num n -> inode_entry n.
Proof. unfold inode_num, inode_entry, INODE_LIST_SIZE, BLOCK_SIZE. lia. Qed.

Lemma checkiNodePathName_loop_spec n i path :
  0 <= i -> i + Z.of_nat n <= INODE_LIST_SIZE ->
  (exists m nd, checkiNodePathName_loop uninit n i path d = Ok (nd, d) /\
     same_inode (node d m) nd /\ holds d path m /\ i <= m < i + Z.of_nat n /\
     forall k, i <= k < m -> ~ holds d path k) \/
  (checkiNodePathName_loop uninit n i path d = Ok (set_id uninit (-1), d) /\
     forall k, i <= k < i + Z.of_nat n -> ~ holds d path k).
Proof.
  unfold INODE_LIST_SIZE. revert i. induction n as [|n IH]; intros i Hi Hn.
  { right. split; [done|]. intros; lia. }
  cbn [checkiNodePathName_loop].
  assert (inode_num i) as Hin by (unfold inode_num, INODE_LIST_SIZE; lia).
  mstep by (apply isInodeFree_spec; [done|by apply inode_entry_num]).
  specialize (IH (i + 1) ltac:(lia) ltac:(lia)).
  assert (~ holds d path i -> forall E,
    E = checkiNodePathName_loop uninit n (i + 1) path d ->
    (exists m nd, E = Ok (nd, d) /\
     same_inode (node d m) nd /\ holds d path m /\ i <= m < i + Z.of_nat (S n) /\
     forall k, i <= k < m -> ~ holds d path k) \/
    (E = Ok (set_id uninit (-1), d) /\
     forall k, i <= k < i + Z.of_nat (S n) -> ~ holds d path k)) as Hnext.
  { intros Hno E ->. destruct IH as [(m & nd & -> & Hs & Hh & Hm & Hlt)|[-> Hlt]].
    - left. exists m, nd. split_and!; try done; try lia. intros k Hk.
      destruct (decide (k = i)) as [->|]; [done|]. apply Hlt. lia.
    - right. split; [done|]. intros k Hk.
      destruct (decide (k = i)) as [->|]; [done|]. apply Hlt. lia. }
  destruct (inode_free d i) eqn:Ef; cbn [Z.b2z Z.eqb].
  - apply Hnext; [|done]. intros (_ & Hf & _). congruence.
  - destruct (path_step i path Hin Ef) as (nd & r & E & Hs & Er & Hr).
    mstep by exact E. mstep by exact Er. destruct r.
    + left. exists i, nd. split; [done|]. split; [done|]. split; [by apply Hr|].
      split; [lia|]. intros; lia.
    + apply Hnext; [|done]. intros Hh. by apply Hr in Hh.
Qed.

Lemma checkiNodePathName_spec path :
  (exists n nd, checkiNodePathName uninit path d = Ok (nd, d) /\
     same_inode (node d n) nd /\ holds d path n /\
     forall k, 0 <= k < n -> ~ holds d path k) \/
  (checkiNodePathName uninit path d = Ok (set_id uninit (-1), d) /\
     forall n, ~ holds d path n).
Proof.
  destruct (checkiNodePathName_loop_spec (Z.to_nat INODE_LIST_SIZE) 0 path)
    as [(m & nd & E & Hs & Hh & _ & Hlt)|[E Hlt]];
    [lia|unfold INODE_LIST_SIZE; lia|left|right].
  - by exists m, nd.
  - split; [done|]. intros n Hh. apply (Hlt n); [|done]. destruct Hh as [Hn _].
    unfold inode_num, INODE_LIST_SIZE in *. lia.
Qed.
End searches.
