(* ===== verification/Sfs.v ===== *)
(** * The file system handlers of [assignment3/src/sfs.c]

    The functions FUSE calls, over the state of [Disk].  A handler returns its
    C result with what it leaves in the structures it was given.  Paths and
    buffers are memories at address 0; [memcpy(in.path, path, 256)] reads what
    follows a shorter path.  The log is not modelled.  What the C library and
    FUSE answer is a parameter: the time, [fcntl], the result of [open] and of
    the [filler] of a directory listing. *)

From S2P Require Import Prelude CMem Disk Inode.

Definition ENOENT : Z := 2.
Definition EBADF : Z := 9.
Definition EFAULT : Z := 14.
Definition S_IFDIR : Z := 0x4000.

(** A file has at most [1024 * BLOCK_SIZE] bytes. *)
Definition MAX_FILE : Z := 16777216.

Record stat := Stat {
  st_mode : Z; st_nlink : Z; st_size : Z; st_blocks : Z; st_ino : Z;
  st_ctime : Z; st_mtime : Z; st_atime : Z
}.

Definition fillStatBuff (now : Z) (iNode : inode) : stat :=
  Stat (i_mode iNode) (i_hardlinks iNode) (i_size iNode)
    (Z.quot (i_size iNode) BLOCK_SIZE + 1) (i_id iNode) now now now.

Section handlers.
Context (uninit : mem) (now : Z).

Notation isInodeFree := (isInodeFree uninit).
Notation setInode := (setInode uninit).
Notation setBlock := (setBlock uninit).
Notation readInode := (readInode uninit).
Notation writeInode := (writeInode uninit).
Notation checkiNodePathName := (checkiNodePathName uninit).
Notation findNextOpenBlock := (findNextOpenBlock uninit).

(** [buf[base .. base + n - 1] = 0xFF] *)
Definition fill_ff (buf : mem) (base n : Z) : mem := blit buf base n (fun _ => 0xFF).

(** [memcpy(root.path, "/", 2)] *)
Definition root_path : mem := fun k => if k =? 0 then 47 else 0.

Definition sfs_init (fd : Z) : M disk unit :=
  _ ← disk_open fd;
  init ← checkIfInit uninit;
  if init =? 1 then mret tt
  else
    _ ← setFileInit uninit;
    '(_, buf) ← block_read 0 uninit;
    _ ← block_write 0 (fill_ff buf 4 IMAP_SIZE);
    _ ← block_write 1 (fill_ff uninit 0 BMAP_SIZE);
    _ ← setInode 0 0;
    let root := set_id uninit 0 in
    let root := set_path root root_path 2 in
    let root := set_mode root (Z.lor S_IFDIR 0x1F6) in
    let root := set_size root 0 in
    let root := set_hardlinks root 2 in
    _ ← writeInode root;
    _ ← readInode 0;
    mret tt.

Definition sfs_destroy : M disk unit := disk_close.

Definition sfs_getattr (path : mem) (statbuf : stat) : M disk (Z * stat) :=
  root ← lift (strcmp_eq 2 path root_path);
  if root : bool then
    mret (0, Stat (Z.lor S_IFDIR 0x1FF) 2 (st_size statbuf) (st_blocks statbuf)
               (st_ino statbuf) (st_ctime statbuf) (st_mtime statbuf) (st_atime statbuf))
  else
    n ← checkiNodePathName path;
    if negb (i_id n =? -1) then mret (0, fillStatBuff now n)
    else mret (- ENOENT, statbuf).

(** The handlers that use [fi->fh] take it and return it. *)
Fixpoint sfs_create_loop (n : nat) (i : Z) (path : mem) (mode fh : Z) : M disk (Z * Z) :=
  match n with
  | O => mret (0, fh)
  | S n =>
      free ← isInodeFree i;
      if free =? 1 then
        _ ← setInode i 0;
        nd ← readInode i;
        let nd := set_id nd i in
        let nd := set_size nd 0 in
        let nd := set_mode nd mode in
        let nd := set_hardlinks nd 1 in
        let nd := set_path nd path 256 in
        b ← findNextOpenBlock;
        let nd := set_data nd 0 b in
        if i_data nd 0 =? -1 then mret (-1, fh)
        else
          _ ← setBlock (i_data nd 0) 0;
          _ ← writeInode nd;
          mret (0, i_id nd)
      else sfs_create_loop n (i + 1) path mode fh
  end.

Definition sfs_create (path : mem) (mode fh : Z) : M disk (Z * Z) :=
  sfs_create_loop (Z.to_nat INODE_LIST_SIZE) 0 path mode fh.

(** [for (i = i; i <= last; i++) setBlock(file.data[i], 1)], [n] rounds *)
Fixpoint free_blocks (n : nat) (i : Z) (file : inode) : M disk unit :=
  match n with
  | O => mret tt
  | S n =>
      b ← get_data file i;
      _ ← setBlock b 1;
      free_blocks n (i + 1) file
  end.

Definition sfs_unlink (path : mem) : M disk Z :=
  file ← checkiNodePathName path;
  if i_id file =? -1 then mret (-1)
  else
    let file := set_hardlinks file (i_hardlinks file - 2) in
    _ ← when (i_hardlinks file <? 1)
          (free_blocks (Z.to_nat (Z.quot (i_size file) BLOCK_SIZE + 2)) 0 file);
    _ ← setInode (i_id file) 1;
    mret 0.

Fixpoint sfs_open_loop (n : nat) (i : Z) (path : mem) (fh : Z) : M disk (Z * Z) :=
  match n with
  | O => mret (-1, fh)
  | S n =>
      free ← isInodeFree i;
      if free =? 0 then
        nd ← readInode i;
        eq ← path_eq path nd;
        if eq : bool then mret (0, i) else sfs_open_loop n (i + 1) path fh
      else sfs_open_loop n (i + 1) path fh
  end.

(** [fcntl_getfl fh] is [fcntl(fh, F_GETFL)]. *)
Definition sfs_open (fcntl_getfl : Z -> Z) (path : mem) (fh : Z) : M disk (Z * Z) :=
  let flags := fcntl_getfl fh in
  if flags =? -1 then mret (-1, fh)
  else sfs_open_loop (Z.to_nat INODE_LIST_SIZE) 0 path fh.

(** [fi->fh] is an unsigned 64-bit number. *)
Definition no_handle : Z := wrap 64 (-1).

Definition sfs_release (path : mem) (fh : Z) : M disk (Z * Z) :=
  file ← checkiNodePathName path;
  if i_id file =? -1 then mret (-1, fh) else mret (0, no_handle).

(** ** Reading *)

(** An index into the buffer of one block, an array of [BLOCK_SIZE] bytes. *)
Definition in_block (chr : Z) : M disk unit :=
  if (0 <=? chr) && (chr <? BLOCK_SIZE) then mret tt else raise OutOfBounds.

(** One byte per round: the buffer read into, the block in memory, the
    position in it and its number. *)
Fixpoint read_loop (n : nat) (i : Z) (file : inode) (buf diskbuf : mem) (chr blk : Z)
    : M disk mem :=
  match n with
  | O => mret buf
  | S n =>
      _ ← in_block chr;
      let buf := blit buf i 1 (fun _ => diskbuf chr) in
      let chr := chr + 1 in
      if Z.rem chr BLOCK_SIZE =? 0 then
        let blk := blk + 1 in
        b ← get_data file blk;
        '(_, diskbuf) ← block_read (D_BLOCK_START + b) diskbuf;
        read_loop n (i + 1) file buf diskbuf 0 blk
      else read_loop n (i + 1) file buf diskbuf chr blk
  end.

(** The result with the bytes left in [buf]. *)
Definition sfs_read (path buf : mem) (size offset : Z) : M disk (Z * mem) :=
  file ← checkiNodePathName path;
  if i_id file =? -1 then mret (- EBADF, buf)
  else if i_size file <? offset then mret (- EFAULT, buf)
  else if size =? 0 then mret (0, buf)
  else
    let buf := blit buf 0 size (fun _ => 0) in
    let blk := swrap 32 (Z.quot offset BLOCK_SIZE) in
    let chr := swrap 32 (Z.rem offset BLOCK_SIZE) in
    b ← get_data file blk;
    '(_, diskbuf) ← block_read (D_BLOCK_START + b) uninit;
    buf ← read_loop (Z.to_nat size) 0 file buf diskbuf chr blk;
    mret (size, buf).

(** ** Writing *)

(** The blocks between the end of the file and the block written to.  The
    rounds are at most the blocks of a file. *)
Fixpoint extend_loop (fuel : nat) (file : inode) (blk blksOwned : Z)
    : M disk (option inode) :=
  if blksOwned <? blk then
    match fuel with
    | O => raise OutOfFuel
    | S fuel =>
        nextBlk ← findNextOpenBlock;
        if nextBlk =? -1 then mret None
        else
          file ← put_data file (blksOwned + 1) nextBlk;
          _ ← setBlock nextBlk 0;
          extend_loop fuel file blk (blksOwned + 1)
    end
  else mret (Some file).

(** What one round does when it reaches the end of the file: the size grows
    and a full last block gets a successor.  [inl] is the value the handler
    returns at once. *)
Definition grow (file : inode) (diskbuf : mem) (chr blk bytesWritten : Z)
    : M disk (Z + inode) :=
  if i_size file <? chr + blk * BLOCK_SIZE then
    let file := set_size file (i_size file + 1) in
    if Z.rem (i_size file) BLOCK_SIZE =? 0 then
      if i_size file =? MAX_FILE then
        b ← get_data file blk;
        _ ← block_write (D_BLOCK_START + b) diskbuf;
        _ ← writeInode file;
        mret (inl bytesWritten)
      else
        nbl ← findNextOpenBlock;
        if nbl =? -1 then mret (inl (-1))
        else
          file ← put_data file (blk + 1) nbl;
          _ ← setBlock nbl 0;
          mret (inr file)
    else mret (inr file)
  else mret (inr file).

Fixpoint write_loop (n : nat) (i : Z) (buf : mem) (file : inode) (diskbuf : mem)
    (chr blk : Z) : M disk Z :=
  match n with
  | O =>
      b ← get_data file blk;
      _ ← block_write (D_BLOCK_START + b) diskbuf;
      _ ← writeInode file;
      mret i
  | S n =>
      _ ← in_block chr;
      let diskbuf := blit diskbuf chr 1 (fun _ => buf i) in
      let chr := chr + 1 in
      r ← grow file diskbuf chr blk (i + 1);
      match r with
      | inl ret => mret ret
      | inr file =>
          if Z.rem chr BLOCK_SIZE =? 0 then
            b ← get_data file blk;
            _ ← block_write (D_BLOCK_START + b) diskbuf;
            let blk := blk + 1 in
            b ← get_data file blk;
            '(_, diskbuf) ← block_read (D_BLOCK_START + b) diskbuf;
            write_loop n (i + 1) buf file diskbuf 0 blk
          else write_loop n (i + 1) buf file diskbuf chr blk
      end
  end.

Definition sfs_write (path buf : mem) (size offset fh : Z) : M disk Z :=
  file ← checkiNodePathName path;
  if i_id file =? -1 then mret (- EBADF)
  else if fh =? no_handle then mret (- EBADF)
  else if size =? 0 then mret 0
  else
    let blk := swrap 32 (Z.quot offset BLOCK_SIZE) in
    let chr := swrap 32 (Z.rem offset BLOCK_SIZE) in
    let blksOwned := Z.quot (i_size file) BLOCK_SIZE + 1 in
    r ← extend_loop 1024 file blk blksOwned;
    match r with
    | None => mret (-1)
    | Some file =>
        b ← get_data file blk;
        '(_, diskbuf) ← block_read (D_BLOCK_START + b) uninit;
        write_loop (Z.to_nat size) 0 buf file diskbuf chr blk
    end.

(** ** Directories *)

Definition sfs_mkdir : M disk Z := mret 0.
Definition sfs_rmdir : M disk Z := mret 0.
Definition sfs_opendir : M disk Z := mret 0.
Definition sfs_releasedir : M disk Z := mret 0.

(** [filler dir name] is the listing after an entry and its result, which is
    only logged. *)
Fixpoint sfs_readdir_loop {D} (filler : D -> mem -> D * Z) (n : nat) (i : Z) (dir : D)
    : M disk D :=
  match n with
  | O => mret dir
  | S n =>
      free ← isInodeFree i;
      if free =? 0 then
        nd ← readInode i;
        let filename := blit uninit 0 255 (slice nd 3) in
        let '(dir, _) := filler dir filename in
        sfs_readdir_loop filler n (i + 1) dir
      else sfs_readdir_loop filler n (i + 1) dir
  end.

Definition sfs_readdir {D} (filler : D -> mem -> D * Z) (dir : D) : M disk (Z * D) :=
  dir ← sfs_readdir_loop filler (Z.to_nat (INODE_LIST_SIZE - 1)) 1 dir;
  mret (0, dir).
End handlers.
