(* ===== verification/SfsInv.v ===== *)
(** * The invariant of the file system

    [fs_ok] states what the handlers of [Sfs] rely on and keep: the maps, the
    inode table and the data blocks describe disjoint files.  The lemmas show
    which parts of the disk each part of the invariant reads. *)

From S2P Require Import Prelude CMem Disk Inode InodeSpec Sfs.

(** The index of a byte of the block. *)
Lemma in_block_ok chr (d : disk) : 0 <= chr < BLOCK_SIZE -> in_block chr d = Ok (tt, d).
Proof. intros H. unfold in_block. by rewrite Zleb_t, Zltb_t by lia. Qed.

(** The number of data blocks of a file of [size] bytes: the last block is
    never full, except in a file of the largest size. *)
Definition nblocks (size : Z) : Z := Z.min 1024 (size / BLOCK_SIZE + 1).

(** Inode [n] is a regular file. *)
Definition is_file (d : disk) (n : Z) : Prop :=
  inode_num n /\ n <> 0 /\ inode_free d n = false.

(** Block [b] is the [k]-th data block of the inode. *)
Definition owns (nd : inode) (k b : Z) : Prop :=
  0 <= k < nblocks (i_size nd) /\ i_data nd k = b.

Record fs_ok (d : disk) : Prop := FsOk {
  ok_disk : disk_ok d;
  ok_magic : swrap 32 (load 4 (rd d) 0) = MAGIC_NUM;
  ok_names : names_ok d;
  ok_root : inode_free d 0 = false;
  ok_id n : inode_num n -> inode_free d n = false -> i_id (node d n) = n;
  ok_size n : is_file d n -> 0 <= i_size (node d n) <= MAX_FILE;
  ok_data n k b : is_file d n -> owns (node d n) k b -> block_num b /\ block_free d b = false;
  ok_disjoint n k n' k' b :
    is_file d n -> is_file d n' -> owns (node d n) k b -> owns (node d n') k' b ->
    n = n' /\ k = k'
}.

(** Byte [p] of the file with inode [nd]. *)
Definition file_byte (d : disk) (nd : inode) (p : Z) : Z :=
  rd d (data_addr (i_data nd (p / BLOCK_SIZE)) (p mod BLOCK_SIZE)).

(** ** What the parts of the disk depend on *)

Lemma data_addr_block b x : 0 <= x < BLOCK_SIZE -> block_at (D_BLOCK_START + b) (data_addr b x).
Proof. unfold block_at, data_addr. lia. Qed.

Lemma data_addr_other b b' x :
  0 <= x < BLOCK_SIZE -> b' <> b -> ~ block_at (D_BLOCK_START + b) (data_addr b' x).
Proof. unfold block_at, data_addr, BLOCK_SIZE. nia. Qed.

Lemma data_addr_high b x :
  block_num b -> 0 <= x < BLOCK_SIZE -> D_BLOCK_START * BLOCK_SIZE <= data_addr b x.
Proof. unfold block_num, data_addr, BLOCK_SIZE. nia. Qed.

Lemma block_at_high b x :
  block_num b -> block_at (D_BLOCK_START + b) x -> D_BLOCK_START * BLOCK_SIZE <= x.
Proof. unfold block_num, block_at, BLOCK_SIZE. nia. Qed.

Lemma data_block_valid b : block_num b -> valid_block (D_BLOCK_START + b).
Proof. unfold block_num, valid_block, BLOCK_LIST_SIZE, D_BLOCK_START. lia. Qed.

Lemma block_entry_num b : block_num b -> block_entry b.
Proof. unfold block_num, block_entry, BLOCK_LIST_SIZE, BLOCK_SIZE. lia. Qed.

Lemma div8_bounds n m : 0 <= n < 8 * m -> 0 <= n / 8 < m.
Proof. intros. split; [apply Z.div_pos; lia|apply Z.div_lt_upper_bound; lia]. Qed.

Lemma inode_free_agree d d' n :
  inode_num n -> agree (fun x => 4 <= x < 20) (rd d) (rd d') ->
  inode_free d' n = inode_free d n.
Proof.
  unfold inode_num, INODE_LIST_SIZE. intros Hn H. apply bit_test_ext. apply H.
  pose proof (div8_bounds n 16 ltac:(lia)). lia.
Qed.

Lemma block_free_agree d d' b :
  block_num b -> agree (fun x => BLOCK_SIZE <= x < 2 * BLOCK_SIZE) (rd d) (rd d') ->
  block_free d' b = block_free d b.
Proof.
  unfold block_num, BLOCK_LIST_SIZE. intros Hn H. apply bit_test_ext. apply H.
  pose proof (div8_bounds b 512 ltac:(lia)). unfold BLOCK_SIZE. lia.
Qed.

Lemma node_agree d d' n :
  inode_num n ->
  agree (fun x => inode_addr n <= x < inode_addr n + sizeof_inode) (rd d) (rd d') ->
  same_inode (node d n) (node d' n).
Proof. intros Hn H k Hk. apply H. lia. Qed.

(** The bytes before the data, without the block map. *)
Definition meta_byte (x : Z) : Prop :=
  x < BLOCK_SIZE \/ 2 * BLOCK_SIZE <= x < D_BLOCK_START * BLOCK_SIZE.

Lemma node_meta d d' n :
  inode_num n -> agree meta_byte (rd d) (rd d') -> same_inode (node d n) (node d' n).
Proof.
  intros Hn H. apply node_agree; [done|]. eapply agree_weaken; [done|].
  pose proof (inode_addr_bounds n Hn) as (? & _ & _ & ?). unfold meta_byte, BLOCK_SIZE in *.
  intros x Hx. right. lia.
Qed.

Lemma inode_free_meta d d' n :
  inode_num n -> agree meta_byte (rd d) (rd d') -> inode_free d' n = inode_free d n.
Proof.
  intros Hn H. apply inode_free_agree; [done|]. eapply agree_weaken; [done|].
  intros x Hx. left. unfold BLOCK_SIZE. lia.
Qed.

Lemma owns_same nd nd' k b : same_inode nd nd' -> owns nd k b <-> owns nd' k b.
Proof.
  intros H. unfold owns. rewrite (i_size_proper _ _ H).
  split; intros [Hk Hd]; (split; [done|]); rewrite <- Hd;
    [|symmetry]; apply i_data_same; try done; unfold nblocks in Hk; lia.
Qed.

(** ** Reading and writing data blocks *)

Lemma data_read d b buf :
  disk_ok d -> block_num b ->
  exists r db, block_read (D_BLOCK_START + b) buf d = Ok ((r, db), d) /\
    forall x, 0 <= x < BLOCK_SIZE -> db x = rd d (data_addr b x).
Proof.
  intros Hd Hb. destruct (block_read_spec d _ buf Hd (data_block_valid b Hb))
    as (r & db & E & H & _). by exists r, db.
Qed.

Lemma data_write d b buf :
  disk_ok d -> block_num b ->
  exists d', block_write (D_BLOCK_START + b) buf d = Ok (BLOCK_SIZE, d') /\ disk_ok d' /\
    (forall b' x, 0 <= x < BLOCK_SIZE ->
       rd d' (data_addr b' x) = if b' =? b then buf x else rd d (data_addr b' x)) /\
    agree (fun x => x < D_BLOCK_START * BLOCK_SIZE) (rd d) (rd d').
Proof.
  intros Hd Hb. destruct (block_write_spec d _ buf Hd (data_block_valid b Hb))
    as (d' & E & Hd' & Hin & Hout). exists d'. split; [done|]. split; [done|]. split.
  - intros b' x Hx. destruct (Z.eqb_spec b' b) as [->|Hne]; [by apply Hin|].
    apply Hout. by apply data_addr_other.
  - eapply agree_weaken; [exact Hout|]. intros x Hx Hat.
    pose proof (block_at_high b x Hb Hat). lia.
Qed.

Lemma get_data_ok nd k d : 0 <= k < 1024 -> get_data nd k d = Ok (i_data nd k, d).
Proof. intros Hk. unfold get_data, data_index. by btests. Qed.

Lemma put_data_ok nd k v d : 0 <= k < 1024 -> put_data nd k v d = Ok (set_data nd k v, d).
Proof. intros Hk. unfold put_data, data_index. by btests. Qed.

(** ** Allocating a block *)

Lemma setBlock_meta uninit d b s :
  disk_ok d -> block_num b ->
  exists d', setBlock uninit b s d = Ok (tt, d') /\ disk_ok d' /\
    (forall k, block_num k -> block_free d' k = if k =? b then s =? 1 else block_free d k) /\
    agree meta_byte (rd d) (rd d') /\
    (forall b' x, block_num b' -> 0 <= x < BLOCK_SIZE ->
       rd d' (data_addr b' x) = rd d (data_addr b' x)).
Proof.
  intros Hd Hb. destruct (setBlock_spec uninit d b s Hd (block_entry_num b Hb))
    as (d' & E & Hd' & Hbits & Hag). exists d'.
  assert (0 <= b / 8 < 512) as Hb8
    by (apply div8_bounds; unfold block_num, BLOCK_LIST_SIZE in Hb; lia).
  split; [done|]. split; [done|]. split; [|split].
  - intros k Hk. apply Hbits. by apply block_entry_num.
  - eapply agree_weaken; [done|]. unfold meta_byte, BLOCK_SIZE in *. lia.
  - intros b' x Hb' Hx. apply Hag. pose proof (data_addr_high b' x Hb' Hx).
    unfold D_BLOCK_START, BLOCK_SIZE in *. lia.
Qed.

(** The bytes of an inode but its size and its data. *)
Definition fixed_byte (k : Z) : Prop := 0 <= k < 264 \/ 4364 <= k < 4368.

Lemma fixed_id nd nd' : (forall k, fixed_byte k -> nd' k = nd k) -> i_id nd' = i_id nd.
Proof.
  intros H. unfold i_id. rewrite (load_ext 2 nd nd'); [done|]. intros x Hx. apply H. left.
  cbn in Hx. lia.
Qed.

Lemma fixed_terminated nd nd' :
  (forall k, fixed_byte k -> nd' k = nd k) -> terminated nd -> terminated nd'.
Proof.
  intros H (k & Hk & Hz). exists k. split; [done|]. rewrite <- Hz.
  unfold load8, i_path, slice. rewrite H; [done|]. left. lia.
Qed.

(** ** Changing one file *)

(** A file other than [n] owns block [b]. *)
Definition foreign (d : disk) (n b : Z) : Prop :=
  exists m k, is_file d m /\ m <> n /\ owns (node d m) k b.

Section update.
Context (d0 : disk) (Hok : fs_ok d0) (n : Z) (Hnum : inode_num n) (Hn0 : n <> 0).
Context (d : disk) (Hd : disk_ok d) (Hmagic : agree (fun x => x < 4) (rd d0) (rd d)).
Context (Him : forall m, inode_num m -> m <> n -> inode_free d m = inode_free d0 m).
Context (Hoth : forall m, inode_num m -> m <> n -> same_inode (node d0 m) (node d m)).

(** A disk on which only the inode [n] changed, that is now free or a file
    whose blocks no other file owns; the blocks of the others are still in
    use. *)
Lemma fs_ok_change :
  (inode_free d n = false ->
     i_id (node d n) = n /\ terminated (node d n) /\ 0 <= i_size (node d n) <= MAX_FILE /\
     (forall k b, owns (node d n) k b -> block_num b /\ block_free d b = false /\ ~ foreign d0 n b) /\
     (forall k k' b, owns (node d n) k b -> owns (node d n) k' b -> k = k')) ->
  (forall b, foreign d0 n b -> block_free d b = false) ->
  fs_ok d.
Proof.
  intros Hn Hkeep.
  assert (forall m, is_file d m -> m <> n -> is_file d0 m) as Hfile.
  { intros m (H1 & H2 & H3) Hne. rewrite Him in H3; done. }
  assert (forall m k b, is_file d m -> m <> n -> owns (node d m) k b -> owns (node d0 m) k b)
    as Hom.
  { intros m k b (Hm & _) Hne. by apply owns_same, Hoth. }
  assert (forall m k b, is_file d m -> m <> n -> owns (node d m) k b -> foreign d0 n b) as Hfor.
  { intros m k b Hm Hne Hb. exists m, k. auto. }
  split; try done.
  - rewrite (load_ext 4 (rd d0) (rd d)); [apply Hok|]. intros x Hx. apply Hmagic. cbn in Hx. lia.
  - intros m Hm Hf. destruct (decide (m = n)) as [->|Hne]; [by destruct (Hn Hf) as (? & ? & ? & _)|].
    rewrite Him in Hf by done.
    eapply terminated_same; [by apply Hoth|]. by apply (ok_names d0 Hok).
  - rewrite Him; [apply Hok| |done]. unfold inode_num, INODE_LIST_SIZE. lia.
  - intros m Hm Hf. destruct (decide (m = n)) as [->|Hne]; [by destruct (Hn Hf) as (? & ? & ? & _)|].
    rewrite Him in Hf by done. rewrite <- (i_id_proper _ _ (Hoth m Hm Hne)).
    by apply (ok_id d0 Hok).
  - intros m Hm. pose proof Hm as (Hm1 & _ & Hf).
    destruct (decide (m = n)) as [->|Hne]; [by destruct (Hn Hf) as (? & ? & ? & _)|].
    rewrite <- (i_size_proper _ _ (Hoth m Hm1 Hne)). apply (ok_size d0 Hok). auto.
  - intros m k b Hm Hb. pose proof Hm as (Hm1 & _ & Hf).
    destruct (decide (m = n)) as [->|Hne].
    + destruct (Hn Hf) as (_ & _ & _ & Ho & _). by destruct (Ho k b Hb) as (? & ? & _).
    + split; [|by eapply Hkeep, Hfor].
      by apply (ok_data d0 Hok m k b (Hfile m Hm Hne)), Hom.
  - intros m k m' k' b Hm Hm' Hb Hb'. pose proof Hm as (_ & _ & Hf). pose proof Hm' as (_ & _ & Hf').
    destruct (decide (m = n)) as [->|Hne], (decide (m' = n)) as [->|Hne'].
    + destruct (Hn Hf) as (_ & _ & _ & _ & Hinj). split; [done|]. by eapply Hinj.
    + destruct (Hn Hf) as (_ & _ & _ & Ho & _). destruct (Ho k b Hb) as (_ & _ & Hno).
      destruct Hno. exact (Hfor m' k' b Hm' Hne' Hb').
    + destruct (Hn Hf') as (_ & _ & _ & Ho & _). destruct (Ho k' b Hb') as (_ & _ & Hno).
      destruct Hno. exact (Hfor m k b Hm Hne Hb).
    + apply (ok_disjoint d0 Hok m k m' k' b); auto.
Qed.

Lemma fs_ok_update :
  i_id (node d n) = n -> terminated (node d n) -> 0 <= i_size (node d n) <= MAX_FILE ->
  (forall k b, owns (node d n) k b -> block_num b /\ block_free d b = false /\ ~ foreign d0 n b) ->
  (forall k k' b, owns (node d n) k b -> owns (node d n) k' b -> k = k') ->
  (forall b, block_num b -> block_free d b = true -> block_free d0 b = true) ->
  fs_ok d.
Proof.
  intros H1 H2 H3 H4 H5 Hfree. apply fs_ok_change; [auto|].
  intros b (m & k & Hm & _ & Hb). destruct (ok_data d0 Hok m k b Hm Hb) as [Hbn Hf].
  destruct (block_free d b) eqn:E; [|done]. by rewrite Hfree in Hf.
Qed.
End update.
