(* ===== verification/SfsWrite.v ===== *)
(** * [sfs_write]: the invariant of the write loop

    A write keeps in memory the inode and one data block of the file, and puts
    them on the disk as it crosses a block boundary and at its end.  [wbase]
    relates the disk and the inode in memory to the disk before the write,
    [wcont] the bytes of the file; the lemmas follow one round of the loop. *)

From S2P Require Import Prelude CMem Disk Inode InodeSpec Sfs SfsInv.

Lemma div_BS p : p / BLOCK_SIZE * BLOCK_SIZE <= p < (p / BLOCK_SIZE + 1) * BLOCK_SIZE /\
  p mod BLOCK_SIZE = p - p / BLOCK_SIZE * BLOCK_SIZE /\ 0 <= p mod BLOCK_SIZE < BLOCK_SIZE.
Proof.
  pose proof (Z.div_mod p BLOCK_SIZE ltac:(done)).
  pose proof (Z.mod_pos_bound p BLOCK_SIZE ltac:(done)). lia.
Qed.

Lemma div_BS_eq p q : q * BLOCK_SIZE <= p < (q + 1) * BLOCK_SIZE -> p / BLOCK_SIZE = q.
Proof. pose proof (div_BS p). unfold BLOCK_SIZE in *. lia. Qed.

Lemma nblocks_small s : 0 <= s < MAX_FILE -> nblocks s = s / BLOCK_SIZE + 1 /\ nblocks s <= 1024.
Proof. pose proof (div_BS s). unfold nblocks, MAX_FILE, BLOCK_SIZE in *. lia. Qed.

Lemma nblocks_bounds s : 0 <= s -> 1 <= nblocks s <= 1024.
Proof. pose proof (div_BS s). unfold nblocks, BLOCK_SIZE in *. lia. Qed.

(** A position of the file lies in one of its blocks. *)
Lemma nblocks_pos s p : 0 <= p < s -> s <= MAX_FILE -> 0 <= p / BLOCK_SIZE < nblocks s.
Proof.
  pose proof (div_BS s). pose proof (div_BS p). unfold nblocks, MAX_FILE, BLOCK_SIZE in *. lia.
Qed.

Lemma nblocks_mono s s' : s <= s' -> nblocks s <= nblocks s'.
Proof.
  intros H. pose proof (div_BS s). pose proof (div_BS s').
  unfold nblocks, BLOCK_SIZE in *. lia.
Qed.

Section write.
Context (uninit : mem) (d0 : disk) (Hok : fs_ok d0) (n : Z) (Hn : is_file d0 n).
Context (buf : mem) (offset : Z).

Notation nd0 := (node d0 n).
Notation S0 := (i_size (node d0 n)).

Context (Hoff : 0 <= offset <= S0).

Notation foreign := (foreign d0 n).

(** Byte [p] of the file once the bytes up to [pos] are written. *)
Definition expected (pos p : Z) : Z :=
  if (offset <=? p) && (p <? pos) then buf (p - offset) else file_byte d0 nd0 p.

Record wbase (d : disk) (file : inode) (s : Z) : Prop := WBase {
  wb_disk : disk_ok d;
  wb_meta : agree meta_byte (rd d0) (rd d);
  wb_fixed k : fixed_byte k -> file k = nd0 k;
  wb_size : i_size file = s;
  wb_range : S0 <= s <= MAX_FILE;
  wb_data k : 0 <= k < nblocks S0 -> i_data file k = i_data nd0 k;
  wb_owns k b : owns file k b -> block_num b /\ block_free d b = false /\ ~ foreign b;
  wb_inj k k' b : owns file k b -> owns file k' b -> k = k';
  wb_free b : block_num b -> block_free d b = true -> block_free d0 b = true;
  wb_other b x : block_num b -> (forall k, ~ owns file k b) -> 0 <= x < BLOCK_SIZE ->
    rd d (data_addr b x) = rd d0 (data_addr b x)
}.

Definition wcont (d : disk) (file : inode) (db : mem) (blk pos : Z) : Prop :=
  forall p, 0 <= p < Z.max S0 pos ->
    (if p / BLOCK_SIZE =? blk then db (p mod BLOCK_SIZE) else file_byte d file p)
    = expected pos p.

Lemma size0 : 0 <= S0 <= MAX_FILE.
Proof. apply (ok_size d0 Hok n Hn). Qed.

Lemma winit nd : same_inode nd0 nd -> wbase d0 nd S0.
Proof.
  intros Hs. pose proof size0 as H0. split.
  - apply Hok.
  - reflexivity.
  - intros k Hk. apply Hs. unfold fixed_byte, sizeof_inode in *. lia.
  - symmetry. by apply i_size_proper.
  - lia.
  - intros k Hk. apply i_data_same; [done|]. pose proof (nblocks_bounds S0). lia.
  - intros k b Hb. apply (owns_same _ _ k b Hs) in Hb.
    destruct (ok_data d0 Hok n k b Hn Hb). split_and!; [done|done|].
    intros (m & k' & Hm & Hne & Hb'). destruct (ok_disjoint d0 Hok _ _ _ _ _ Hn Hm Hb Hb'). done.
  - intros k k' b Hb Hb'. apply (owns_same _ _ _ b Hs) in Hb, Hb'.
    by destruct (ok_disjoint d0 Hok _ _ _ _ _ Hn Hn Hb Hb').
  - done.
  - done.
Qed.

(** One byte put in the block in memory. *)
Lemma wcont_put d file db blk pos :
  blk * BLOCK_SIZE <= pos < (blk + 1) * BLOCK_SIZE -> offset <= pos ->
  wcont d file db blk pos ->
  wcont d file (blit db (pos - blk * BLOCK_SIZE) 1 (fun _ => buf (pos - offset))) blk (pos + 1).
Proof.
  intros Hb Ho Hc p Hp. pose proof (div_BS p) as (Hd & Hm & _).
  destruct (decide (p = pos)) as [->|Hne].
  - rewrite (div_BS_eq pos blk Hb) in *. rewrite Z.eqb_refl, Hm.
    pose proof (blit_in db (pos - blk * BLOCK_SIZE) 1 (fun _ => buf (pos - offset)) 0) as Hin.
    rewrite Z.add_0_r in Hin. rewrite Hin by lia. unfold expected. by btests.
  - specialize (Hc p ltac:(lia)).
    assert (expected (pos + 1) p = expected pos p) as ->.
    { unfold expected. destruct (Z.leb_spec offset p), (Z.ltb_spec p (pos + 1)),
        (Z.ltb_spec p pos); cbn [andb]; try done; lia. }
    rewrite <- Hc. destruct (Z.eqb_spec (p / BLOCK_SIZE) blk) as [E|E]; [|done].
    apply blit_out. lia.
Qed.

(** The block in memory is written to the disk. *)
Lemma wflush d file s db blk pos :
  wbase d file s -> 0 <= blk < nblocks s -> Z.max S0 pos <= s ->
  wcont d file db blk pos ->
  exists d', block_write (D_BLOCK_START + i_data file blk) db d = Ok (BLOCK_SIZE, d') /\
    wbase d' file s /\
    (forall p, 0 <= p < Z.max S0 pos -> file_byte d' file p = expected pos p).
Proof.
  intros Hw Hblk Hpos Hc. pose proof (wb_size _ _ _ Hw) as Hs.
  assert (owns file blk (i_data file blk)) as Hown by (split; [by rewrite Hs|done]).
  destruct (wb_owns _ _ _ Hw _ _ Hown) as (Hb & _ & _).
  destruct (data_write d _ db (wb_disk _ _ _ Hw) Hb) as (d' & E & Hd' & Hdata & Hlow).
  assert (forall b, block_num b -> block_free d' b = block_free d b) as Hfree.
  { intros b Hbn. apply block_free_agree; [done|]. eapply agree_weaken; [exact Hlow|].
    unfold BLOCK_SIZE, D_BLOCK_START. lia. }
  exists d'. split; [done|]. split.
  - destruct Hw as [W1 W2 W3 W4 W5 W6 W7 W8 W9 W10]. split; try done.
    + etrans; [exact W2|]. eapply agree_weaken; [exact Hlow|].
      unfold meta_byte, BLOCK_SIZE, D_BLOCK_START. lia.
    + intros k b Ho. destruct (W7 k b Ho) as (? & ? & ?). by rewrite Hfree.
    + intros b Hbn. rewrite Hfree; auto.
    + intros b x Hbn Hno Hx. rewrite Hdata by done.
      rewrite Zeqb_f; [by apply W10|]. intros ->. by apply (Hno blk).
  - intros p Hp. specialize (Hc p Hp). rewrite <- Hc. unfold file_byte.
    pose proof (div_BS p) as (_ & _ & Hm). rewrite Hdata by done.
    destruct (wb_range _ _ _ Hw) as [_ Hmax].
    pose proof (nblocks_pos s p ltac:(lia) Hmax) as Hnb.
    destruct (Z.eqb_spec (p / BLOCK_SIZE) blk) as [->|Hne]; [by rewrite Z.eqb_refl|].
    rewrite Zeqb_f; [done|]. intros Heq. apply Hne.
    apply (wb_inj _ _ _ Hw _ _ (i_data file blk)); [|done]. by split; [rewrite Hs|].
Qed.

(** The next block is read into memory. *)
Lemma wread d file s blk pos buf0 :
  wbase d file s -> 0 <= blk < nblocks s ->
  (forall p, 0 <= p < Z.max S0 pos -> file_byte d file p = expected pos p) ->
  exists r db, block_read (D_BLOCK_START + i_data file blk) buf0 d = Ok ((r, db), d) /\
    wcont d file db blk pos.
Proof.
  intros Hw Hblk Hc. pose proof (wb_size _ _ _ Hw) as Hs.
  assert (owns file blk (i_data file blk)) as Hown by (split; [by rewrite Hs|done]).
  destruct (wb_owns _ _ _ Hw _ _ Hown) as (Hb & _ & _).
  destruct (data_read d _ buf0 (wb_disk _ _ _ Hw) Hb) as (r & db & E & Hdb).
  exists r, db. split; [done|]. intros p Hp. rewrite <- Hc by done.
  destruct (Z.eqb_spec (p / BLOCK_SIZE) blk) as [<-|Hne]; [|done].
  apply Hdb. apply div_BS.
Qed.

(** ** Growth *)

Lemma set_size_same nd v k : 0 <= k -> k < 264 \/ 268 <= k -> set_size nd v k = nd k.
Proof. intros Hk H. unfold set_size. apply store_other. cbn. lia. Qed.

Lemma i_size_set nd v : - 2 ^ 31 <= v < 2 ^ 31 -> i_size (set_size nd v) = v.
Proof. intros Hv. ifields. rewrite swrap_mod by lia. by apply swrap_int. Qed.

Lemma i_data_set nd k v j :
  0 <= k -> 0 <= j -> - 2 ^ 31 <= v < 2 ^ 31 ->
  i_data (set_data nd k v) j = if j =? k then v else i_data nd j.
Proof.
  intros Hk Hj Hv. destruct (Z.eqb_spec j k) as [->|Hne]; ifields; [|done].
  rewrite swrap_mod by lia. by apply swrap_int.
Qed.

Lemma i_data_set_size nd v k : 0 <= k -> i_data (set_size nd v) k = i_data nd k.
Proof. intros Hk. by ifields. Qed.

Lemma i_size_set_data nd v k : 0 <= k -> i_size (set_data nd k v) = i_size nd.
Proof. intros Hk. by ifields. Qed.

(** The file gets one byte longer and keeps its blocks. *)
Lemma wbase_longer d file s :
  wbase d file s -> s + 1 <= MAX_FILE -> nblocks (s + 1) = nblocks s ->
  wbase d (set_size file (s + 1)) (s + 1).
Proof.
  intros Hw Hmax Hnb. pose proof size0 as H0. destruct (wb_range _ _ _ Hw) as [Hr1 Hr2].
  pose proof (wb_size _ _ _ Hw) as Hs.
  assert (i_size (set_size file (s + 1)) = s + 1) as Hs'
    by (apply i_size_set; unfold MAX_FILE in *; lia).
  assert (forall k b, owns (set_size file (s + 1)) k b <-> owns file k b) as Ho.
  { intros k b. unfold owns. rewrite Hs', Hs, Hnb.
    split; intros [? <-]; split; auto; [|symmetry]; rewrite i_data_set_size by lia; done. }
  destruct Hw as [W1 W2 W3 W4 W5 W6 W7 W8 W9 W10]. split; try done.
  - intros k Hk. rewrite set_size_same by (unfold fixed_byte in Hk; lia). by apply W3.
  - lia.
  - intros k Hk. rewrite i_data_set_size by lia. auto.
  - intros k b Hk%Ho. by apply (W7 k).
  - intros k k' b Hk%Ho Hk'%Ho. by apply (W8 k k' b).
  - intros b x Hb Hno Hx. apply W10; [done| |done]. intros k. rewrite <- Ho. apply Hno.
Qed.

(** The file grows inside its last block. *)
Lemma wbase_size d file s :
  wbase d file s -> s + 1 < MAX_FILE -> (s + 1) mod BLOCK_SIZE <> 0 ->
  wbase d (set_size file (s + 1)) (s + 1).
Proof.
  intros Hw Hmax Hm. apply wbase_longer; [done|lia|].
  unfold nblocks. do 2 f_equal. pose proof (div_BS s). pose proof (div_BS (s + 1)).
  unfold BLOCK_SIZE in *. lia.
Qed.

Lemma file_byte_set_size d nd v p : 0 <= p -> file_byte d (set_size nd v) p = file_byte d nd p.
Proof.
  intros Hp. unfold file_byte. rewrite i_data_set_size; [done|]. by apply Z.div_pos.
Qed.

(** The file reaches the end of its last block and gets a new one. *)
Lemma wbase_block d d' file s nbl :
  wbase d file s -> s + 1 < MAX_FILE -> (s + 1) mod BLOCK_SIZE = 0 ->
  block_num nbl -> block_free d nbl = true ->
  disk_ok d' -> agree meta_byte (rd d) (rd d') ->
  (forall k, block_num k -> block_free d' k = if k =? nbl then false else block_free d k) ->
  (forall b x, block_num b -> 0 <= x < BLOCK_SIZE ->
     rd d' (data_addr b x) = rd d (data_addr b x)) ->
  wbase d' (set_data (set_size file (s + 1)) ((s + 1) / BLOCK_SIZE) nbl) (s + 1).
Proof.
  intros Hw Hmax Hm Hnbl Hfr Hd' Hmeta Hbits Hdata. pose proof size0 as H0.
  destruct (wb_range _ _ _ Hw) as [Hr1 Hr2]. pose proof (wb_size _ _ _ Hw) as Hs.
  set (k0 := (s + 1) / BLOCK_SIZE). set (file' := set_data _ _ _).
  assert (0 <= k0 < 1024 /\ nblocks (s + 1) = k0 + 1 /\ nblocks s = k0) as (Hk0 & Hnb' & Hnb).
  { unfold nblocks, k0. pose proof (div_BS s). pose proof (div_BS (s + 1)).
    unfold MAX_FILE, BLOCK_SIZE in *. lia. }
  assert (- 2 ^ 31 <= nbl < 2 ^ 31) as Hnbl'
    by (unfold block_num, BLOCK_LIST_SIZE in Hnbl; lia).
  assert (i_size file' = s + 1) as Hs'.
  { unfold file'. rewrite i_size_set_data by lia. apply i_size_set.
    unfold MAX_FILE in *. lia. }
  assert (forall k, 0 <= k -> i_data file' k = if k =? k0 then nbl else i_data file k) as Hdat.
  { intros k Hk. unfold file'. rewrite i_data_set by lia.
    by rewrite i_data_set_size. }
  assert (forall k b, owns file' k b <-> (k = k0 /\ b = nbl) \/ owns file k b) as Ho.
  { intros k b. unfold owns. rewrite Hs', Hs, Hnb', Hnb. split.
    - intros [Hk <-]. rewrite Hdat by lia. destruct (Z.eqb_spec k k0); [by left|].
      right. split; [lia|done].
    - intros [[-> ->]|[Hk <-]]; rewrite Hdat by lia.
      + rewrite Z.eqb_refl. split; [lia|done].
      + rewrite Zeqb_f by lia. split; [lia|done]. }
  assert (forall k, ~ owns file k nbl) as Hnot.
  { intros k Hk. destruct (wb_owns _ _ _ Hw _ _ Hk) as (_ & Hf & _). congruence. }
  destruct Hw as [W1 W2 W3 W4 W5 W6 W7 W8 W9 W10]. split; try done.
  - by etrans.
  - intros k Hk. unfold file', set_data. unfold fixed_byte in Hk.
    rewrite store_other by (cbn; lia). rewrite set_size_same by lia. auto.
  - lia.
  - intros k Hk. pose proof (nblocks_mono _ _ Hr1). rewrite Hdat by lia.
    rewrite Zeqb_f by lia. auto.
  - intros k b [[-> ->]|Hk]%Ho.
    + rewrite Hbits, Z.eqb_refl by done. split; [done|]. split; [done|].
      intros (m & k & Hm' & Hne & Hb). destruct (ok_data d0 Hok _ _ _ Hm' Hb) as [_ Hb'].
      rewrite W9 in Hb'; done.
    + destruct (W7 k b Hk) as (Hb & Hf & Hno). split; [done|]. split; [|done].
      rewrite Hbits by done. by destruct (b =? nbl).
  - intros k k' b Hk%Ho Hk'%Ho.
    destruct Hk as [[-> ->]|Hk], Hk' as [[-> Hb]|Hk']; subst; try done;
      try (by eapply W8); exfalso; by eapply Hnot.
  - intros b Hb. rewrite Hbits by done. destruct (b =? nbl); [done|auto].
  - intros b x Hb Hno Hx. rewrite Hdata by done. apply W10; [done| |done].
    intros k Hk. apply (Hno k), Ho. by right.
Qed.

(** The bytes of the other files are those of the disk before the write. *)
Lemma other_bytes d file s m nd p :
  wbase d file s -> is_file d0 m -> m <> n -> same_inode (node d0 m) nd ->
  0 <= p < i_size (node d0 m) -> file_byte d nd p = file_byte d0 (node d0 m) p.
Proof.
  intros Hw Hm Hne Hs Hp. pose proof (ok_size d0 Hok m Hm) as Hsz.
  pose proof (nblocks_pos _ p Hp ltac:(lia)) as Hnb.
  pose proof (nblocks_bounds (i_size (node d0 m)) ltac:(lia)).
  unfold file_byte. rewrite (i_data_same _ _ _ Hs) by lia.
  assert (owns (node d0 m) (p / BLOCK_SIZE) (i_data (node d0 m) (p / BLOCK_SIZE))) as Ho
    by done.
  apply (wb_other _ _ _ Hw); [apply (ok_data d0 Hok m _ _ Hm Ho)| |apply div_BS].
  intros k Hk. destruct (wb_owns _ _ _ Hw _ _ Hk) as (_ & _ & Hf). apply Hf. by exists m, (p / BLOCK_SIZE).
Qed.

(** No block is free. *)
Definition disk_full (d : disk) : Prop := forall b, block_num b -> block_free d b = false.

Lemma wcont_move d d' file file' db blk pos s :
  wbase d file s -> Z.max S0 pos <= s ->
  blk * BLOCK_SIZE <= pos < (blk + 1) * BLOCK_SIZE ->
  (forall k, 0 <= k < nblocks s -> i_data file' k = i_data file k) ->
  (forall b x, block_num b -> 0 <= x < BLOCK_SIZE ->
     rd d' (data_addr b x) = rd d (data_addr b x)) ->
  wcont d file db blk (pos + 1) -> wcont d' file' db blk (pos + 1).
Proof.
  intros Hw Hs Hb Hk Hdata Hc p Hp. rewrite <- Hc by done.
  destruct (Z.eqb_spec (p / BLOCK_SIZE) blk) as [E|E]; [done|].
  assert (p <> pos) by (intros ->; by rewrite (div_BS_eq pos blk Hb) in E).
  destruct (wb_range _ _ _ Hw) as [_ Hmax]. pose proof (wb_size _ _ _ Hw) as Hsz.
  pose proof (nblocks_pos s p ltac:(lia) Hmax) as Hnb.
  unfold file_byte. rewrite Hk by done. apply Hdata; [|apply div_BS].
  apply (wb_owns _ _ _ Hw (p / BLOCK_SIZE)). by split; [rewrite Hsz|].
Qed.

Lemma grow_spec d file db blk pos i :
  let s := Z.max S0 pos in
  wbase d file s -> wcont d file db blk (pos + 1) ->
  0 <= pos -> blk * BLOCK_SIZE <= pos < (blk + 1) * BLOCK_SIZE -> pos + 1 < MAX_FILE ->
  (exists d' file',
     grow uninit file db (pos + 1 - blk * BLOCK_SIZE) blk i d = Ok (inr file', d') /\
     wbase d' file' (Z.max S0 (pos + 1)) /\ wcont d' file' db blk (pos + 1)) \/
  (grow uninit file db (pos + 1 - blk * BLOCK_SIZE) blk i d = Ok (inl (-1), d) /\
   disk_full d /\ nblocks S0 * BLOCK_SIZE <= pos + 1).
Proof.
  intros s Hw Hc H0 Hb Hmax. pose proof (wb_size _ _ _ Hw) as Hs. pose proof size0 as HS0.
  unfold grow. rewrite Hs, Z.sub_add. destruct (Z.ltb_spec s (pos + 1)) as [Hlt|Hge].
  2: { left. exists d, file. split; [done|]. replace (Z.max S0 (pos + 1)) with s by lia. done. }
  assert (s = pos) as Es by lia. rewrite Es in *. cbv zeta.
  replace (Z.max S0 (pos + 1)) with (pos + 1) by lia.
  rewrite i_size_set by (unfold MAX_FILE in *; lia).
  rewrite Z.rem_mod_nonneg by (unfold BLOCK_SIZE; lia).
  destruct (Z.eqb_spec ((pos + 1) mod BLOCK_SIZE) 0) as [Em|Em].
  - rewrite Zeqb_f by lia.
    destruct (findNextOpenBlock_spec uninit d (wb_disk _ _ _ Hw))
      as (nbl & E & [(Hnb & Hfr & _)|[-> Hfull]]); mstep by exact E.
    2: { right. split; [done|]. split; [done|]. apply Z.mod_divide in Em as [q Hq]; [|done].
         pose proof (nblocks_mono S0 pos ltac:(lia)).
         assert (nblocks pos <= pos / BLOCK_SIZE + 1) by (unfold nblocks; lia).
         pose proof (div_BS pos). unfold BLOCK_SIZE in *. lia. }
    rewrite Zeqb_f by (unfold block_num in Hnb; lia).
    assert ((pos + 1) / BLOCK_SIZE = blk + 1) as Eblk.
    { pose proof (div_BS (pos + 1)) as (? & Hm & _). rewrite Em in Hm.
      unfold BLOCK_SIZE in *. lia. }
    assert (0 <= blk + 1 < 1024) as Hblk.
    { rewrite <- Eblk. pose proof (div_BS (pos + 1)). unfold MAX_FILE, BLOCK_SIZE in *. lia. }
    mstep by (by apply put_data_ok).
    destruct (setBlock_meta uninit d nbl 0 (wb_disk _ _ _ Hw) Hnb)
      as (d' & E' & Hd' & Hbits & Hmeta & Hdata).
    mstep by exact E'. left. eexists d', _. split; [reflexivity|].
    pose proof (wbase_block d d' file pos nbl Hw Hmax Em Hnb Hfr Hd' Hmeta Hbits Hdata) as Hw'.
    rewrite Eblk in Hw'. split; [done|].
    eapply wcont_move; [exact Hw|lia|done| |done|done].
    intros k Hk. assert (nblocks pos = blk + 1) as Hnbp.
    { unfold nblocks. rewrite (div_BS_eq pos blk Hb). lia. }
    rewrite i_data_set by (unfold block_num, BLOCK_LIST_SIZE in Hnb; lia).
    rewrite Zeqb_f by lia. apply i_data_set_size. lia.
  - left. exists d, (set_size file (pos + 1)). split; [done|].
    split; [by apply wbase_size|].
    eapply wcont_move; [exact Hw|lia|done| |done|done].
    intros k Hk. apply i_data_set_size. lia.
Qed.

(** ** The end of a write *)

(** What the disk is after [pos - offset] bytes were written at [offset]. *)
Record wrote (d : disk) (pos : Z) : Prop := Wrote {
  wr_ok : fs_ok d;
  wr_imap m : inode_num m -> inode_free d m = inode_free d0 m;
  wr_size : i_size (node d n) = Z.max S0 pos;
  wr_fixed k : fixed_byte k -> node d n k = nd0 k;
  wr_bytes p : 0 <= p < Z.max S0 pos -> file_byte d (node d n) p = expected pos p;
  wr_others m : inode_num m -> m <> n -> same_inode (node d0 m) (node d m);
  wr_other_bytes m p : is_file d0 m -> m <> n -> 0 <= p < i_size (node d0 m) ->
    file_byte d (node d m) p = file_byte d0 (node d0 m) p
}.

(** What it is after a write that found no free block: the inode is not
    written. *)
Record aborted (d : disk) : Prop := Aborted {
  ab_ok : fs_ok d;
  ab_full : disk_full d;
  ab_inode m : inode_num m -> inode_free d m = inode_free d0 m /\ same_inode (node d0 m) (node d m);
  ab_other_bytes m p : is_file d0 m -> m <> n -> 0 <= p < i_size (node d0 m) ->
    file_byte d (node d m) p = file_byte d0 (node d0 m) p
}.

(** The invariant after a change of the inode [n] and of blocks that no other
    file owns. *)
Lemma fs_ok_write d :
  disk_ok d -> agree (fun x => x < BLOCK_SIZE) (rd d0) (rd d) ->
  (forall m, inode_num m -> m <> n -> same_inode (node d0 m) (node d m)) ->
  (forall k, fixed_byte k -> node d n k = nd0 k) ->
  0 <= i_size (node d n) <= MAX_FILE ->
  (forall k b, owns (node d n) k b -> block_num b /\ block_free d b = false /\ ~ foreign b) ->
  (forall k k' b, owns (node d n) k b -> owns (node d n) k' b -> k = k') ->
  (forall b, block_num b -> block_free d b = true -> block_free d0 b = true) ->
  fs_ok d.
Proof.
  intros Hd Hag Hoth Hfix Hsz Hown Hinj Hfree. destruct Hn as (Hnum & Hn0 & Hf).
  assert (forall m, inode_num m -> inode_free d m = inode_free d0 m) as Him.
  { intros m Hm. apply inode_free_agree; [done|]. eapply agree_weaken; [exact Hag|].
    unfold BLOCK_SIZE. lia. }
  apply (fs_ok_update d0 Hok n Hn0 d); auto.
  - eapply agree_weaken; [exact Hag|]. unfold BLOCK_SIZE. lia.
  - rewrite (fixed_id _ _ Hfix). by apply (ok_id d0 Hok).
  - eapply fixed_terminated; [exact Hfix|]. by apply (ok_names d0 Hok).
Qed.

Lemma wbase_abort d file s : wbase d file s -> disk_full d -> aborted d.
Proof.
  intros Hw Hfull. pose proof size0 as H0.
  assert (forall m, inode_num m -> same_inode (node d0 m) (node d m)) as Hnode
    by (intros m Hm; apply node_meta; [done|apply Hw]).
  pose proof (Hnode n (proj1 Hn)) as Hnn.
  split.
  - apply fs_ok_write; auto.
    + apply Hw.
    + eapply agree_weaken; [apply Hw|]. by left.
    + intros k Hk. apply Hnn. unfold fixed_byte, sizeof_inode in *. lia.
    + by rewrite <- (i_size_proper _ _ Hnn).
    + intros k b Hb. apply (owns_same _ _ k b Hnn) in Hb.
      destruct (ok_data d0 Hok n k b Hn Hb) as [Hbn Hf]. split_and!; [done| |].
      { destruct (block_free d b) eqn:E; [|done]. by rewrite (wb_free _ _ _ Hw) in Hf. }
      intros (m & k' & Hm & Hne & Hb').
      destruct (ok_disjoint d0 Hok _ _ _ _ _ Hn Hm Hb Hb'). done.
    + intros k k' b Hb Hb'. apply (owns_same _ _ _ b Hnn) in Hb, Hb'.
      by destruct (ok_disjoint d0 Hok _ _ _ _ _ Hn Hn Hb Hb').
    + apply Hw.
  - done.
  - intros m Hm. split; [|auto]. apply inode_free_meta; [done|apply Hw].
  - intros m p Hm Hne Hp. eapply other_bytes; [done|done|done| |done]. apply Hnode, Hm.
Qed.

(** Writing an inode leaves the bytes of the files where they were. *)
Lemma file_byte_kept d d' nd nd' p :
  (forall b x, block_num b -> 0 <= x < BLOCK_SIZE -> rd d' (data_addr b x) = rd d (data_addr b x)) ->
  same_inode nd nd' -> 0 <= p < i_size nd -> i_size nd <= MAX_FILE ->
  (forall k b, owns nd k b -> block_num b) ->
  file_byte d' nd' p = file_byte d nd p.
Proof.
  intros Hdata Hs Hp Hmax Hb. pose proof (nblocks_pos _ p Hp Hmax) as Hnb.
  pose proof (nblocks_bounds (i_size nd) ltac:(lia)). unfold file_byte.
  rewrite (i_data_same _ _ _ Hs) by lia. apply Hdata; [|apply div_BS].
  by apply (Hb (p / BLOCK_SIZE)).
Qed.

(** The inode is written back when all bytes are on the disk. *)
Lemma wbase_finish d file pos :
  wbase d file (Z.max S0 pos) ->
  (forall p, 0 <= p < Z.max S0 pos -> file_byte d file p = expected pos p) ->
  exists d', writeInode uninit file d = Ok (tt, d') /\ wrote d' pos.
Proof.
  intros Hw Hc. pose proof size0 as H0. pose proof Hn as (Hnum & Hn0 & Hnf).
  assert (i_id file = n) as Hid.
  { rewrite (fixed_id nd0 file (wb_fixed _ _ _ Hw)). by apply ok_id. }
  destruct (writeInode_spec uninit d file n (wb_disk _ _ _ Hw) Hid Hnum)
    as (d' & E & Hd' & Hfile & Hag). exists d'. split; [done|].
  pose proof (inode_addr_bounds n Hnum) as (Hlo & _ & _ & Hhi).
  assert (agree (fun x => x < 2 * BLOCK_SIZE) (rd d) (rd d')) as Hlow
    by (eapply agree_weaken; [exact Hag|]; unfold BLOCK_SIZE in *; lia).
  assert (forall b x, block_num b -> 0 <= x < BLOCK_SIZE ->
    rd d' (data_addr b x) = rd d (data_addr b x)) as Hdata.
  { intros b x Hb Hx. apply Hag. pose proof (data_addr_high b x Hb Hx). lia. }
  assert (forall m, inode_num m -> m <> n -> same_inode (node d0 m) (node d' m)) as Hoth.
  { intros m Hm Hne. etrans; [apply node_meta; [done|apply Hw]|].
    apply node_agree; [done|]. eapply agree_weaken; [exact Hag|].
    pose proof (inode_addr_disjoint m n Hm Hnum Hne) as Hdis. intros x Hx. cbv beta in *. lia. }
  assert (forall b, block_num b -> block_free d' b = block_free d b) as Hbf.
  { intros b Hb. apply block_free_agree; [done|]. eapply agree_weaken; [exact Hlow|].
    intros x Hx. cbv beta in *. lia. }
  assert (forall k, fixed_byte k -> node d' n k = nd0 k) as Hfix.
  { intros k Hk. rewrite Hfile; [by apply Hw|]. unfold fixed_byte, sizeof_inode in *. lia. }
  assert (i_size (node d' n) = Z.max S0 pos) as Hsz
    by (rewrite <- (i_size_proper _ _ Hfile); apply Hw).
  split; try done.
  - apply fs_ok_write; try done.
    + etrans; [eapply agree_weaken; [apply Hw|by left]|].
      eapply agree_weaken; [exact Hlow|]. unfold BLOCK_SIZE. lia.
    + rewrite Hsz. destruct (wb_range _ _ _ Hw). lia.
    + intros k b Hb. apply (owns_same _ _ k b Hfile) in Hb. destruct (wb_owns _ _ _ Hw _ _ Hb).
      by rewrite Hbf.
    + intros k k' b Hb Hb'. apply (owns_same _ _ _ b Hfile) in Hb, Hb'. by eapply wb_inj.
    + intros b Hb. rewrite Hbf by done. by apply Hw.
  - intros m Hm. apply inode_free_agree; [done|].
    etrans; [eapply agree_weaken; [apply Hw|]|eapply agree_weaken; [exact Hlow|]];
      unfold meta_byte, BLOCK_SIZE; lia.
  - intros p Hp. rewrite <- Hc by done. destruct (wb_range _ _ _ Hw) as [_ Hmax].
    apply file_byte_kept; rewrite ?(wb_size _ _ _ Hw); [done..|].
    intros k b Hb. by apply (wb_owns _ _ _ Hw k).
  - intros m p Hm Hne Hp. specialize (Hoth m (proj1 Hm) Hne).
    rewrite <- (other_bytes d file _ m (node d' m) p Hw Hm Hne Hoth Hp).
    pose proof (ok_size d0 Hok m Hm) as Hms.
    assert (i_size (node d' m) = i_size (node d0 m)) as Esz by (by rewrite (i_size_proper _ _ Hoth)).
    apply (file_byte_kept d d' (node d' m) (node d' m)); rewrite ?Esz; [done..|lia|].
    intros k b Hb. apply (owns_same _ _ _ _ Hoth) in Hb. by apply (ok_data d0 Hok m k b Hm).
Qed.

(** ** The loop *)

Lemma blk_bound s pos : 0 <= pos <= s -> s <= MAX_FILE -> pos < MAX_FILE ->
  0 <= pos / BLOCK_SIZE < nblocks s.
Proof.
  pose proof (div_BS s). pose proof (div_BS pos). unfold nblocks, MAX_FILE, BLOCK_SIZE in *. lia.
Qed.

(** One round of the loop, before the largest size is reached: it leads to the
    next one, or finds the disk full. *)
Lemma write_round N i d file db pos blk :
  let s := Z.max S0 pos in
  pos = offset + i -> 0 <= i -> blk * BLOCK_SIZE <= pos < (blk + 1) * BLOCK_SIZE ->
  wbase d file s -> wcont d file db blk pos -> pos + 1 < MAX_FILE ->
  (exists d1 file1 db1 blk1,
     write_loop uninit (S N) i buf file db (pos - blk * BLOCK_SIZE) blk d
     = write_loop uninit N (i + 1) buf file1 db1 (pos + 1 - blk1 * BLOCK_SIZE) blk1 d1 /\
     blk1 * BLOCK_SIZE <= pos + 1 < (blk1 + 1) * BLOCK_SIZE /\
     wbase d1 file1 (Z.max S0 (pos + 1)) /\ wcont d1 file1 db1 blk1 (pos + 1)) \/
  (write_loop uninit (S N) i buf file db (pos - blk * BLOCK_SIZE) blk d = Ok (-1, d) /\
     aborted d /\ nblocks S0 * BLOCK_SIZE <= pos + 1).
Proof.
  intros s Hpos Hi Hb Hw Hc Hmax. cbn [write_loop]. cbv zeta.
  mstep by (apply in_block_ok; unfold BLOCK_SIZE in *; lia).
  assert (pos - blk * BLOCK_SIZE + 1 = pos + 1 - blk * BLOCK_SIZE) as -> by lia.
  assert (i = pos - offset) as Ei by lia.
  pose proof (wcont_put d file db blk pos Hb ltac:(lia) Hc) as Hc1. rewrite <- Ei in Hc1.
  set (db1 := blit db _ 1 _) in *.
  destruct (grow_spec d file db1 blk pos (i + 1) Hw Hc1 ltac:(lia) Hb ltac:(lia))
    as [(d1 & file1 & E1 & Hw1 & Hc2)|(E1 & Hfull & Hroom)]; mstep by exact E1.
  2: { right. split; [done|]. split; [by eapply wbase_abort|lia]. }
  left. destruct (wb_range _ _ _ Hw1) as [_ Hs1].
  rewrite Z.rem_mod_nonneg by (unfold BLOCK_SIZE in *; lia).
  destruct (Z.eqb_spec ((pos + 1 - blk * BLOCK_SIZE) mod BLOCK_SIZE) 0) as [Em|Em].
  - assert (pos + 1 = (blk + 1) * BLOCK_SIZE) as Epos.
    { apply Z.mod_divide in Em as [q Hq]; [|done]. unfold BLOCK_SIZE in *. lia. }
    pose proof (blk_bound (Z.max S0 (pos + 1)) (pos + 1) ltac:(lia) Hs1 ltac:(lia)) as Hblk.
    rewrite (div_BS_eq (pos + 1) (blk + 1)) in Hblk by (unfold BLOCK_SIZE in *; lia).
    pose proof (nblocks_bounds (Z.max S0 (pos + 1)) ltac:(lia)).
    assert (0 <= blk) by (unfold BLOCK_SIZE in *; lia).
    mstep by (apply get_data_ok; lia).
    destruct (wflush d1 file1 _ db1 blk (pos + 1) Hw1 ltac:(lia) ltac:(lia) Hc2)
      as (d2 & E2 & Hw2 & Hc3).
    mstep by exact E2. mstep by (apply get_data_ok; lia).
    destruct (wread d2 file1 _ (blk + 1) (pos + 1) db1 Hw2 ltac:(lia) Hc3)
      as (r & db2 & E3 & Hc4).
    mstep by exact E3. exists d2, file1, db2, (blk + 1).
    replace (pos + 1 - (blk + 1) * BLOCK_SIZE) with 0 by lia.
    split; [done|]. split; [unfold BLOCK_SIZE in *; lia|done].
  - exists d1, file1, db1, blk. split; [done|]. split; [|done].
    assert (pos + 1 <> (blk + 1) * BLOCK_SIZE); [|unfold BLOCK_SIZE in *; lia].
    intros E. apply Em. rewrite E.
    replace ((blk + 1) * BLOCK_SIZE - blk * BLOCK_SIZE) with BLOCK_SIZE by lia. done.
Qed.

Lemma write_loop_spec N i d file db pos blk :
  let s := Z.max S0 pos in
  pos = offset + i -> 0 <= i -> blk * BLOCK_SIZE <= pos < (blk + 1) * BLOCK_SIZE ->
  wbase d file s -> wcont d file db blk pos -> pos + Z.of_nat N < MAX_FILE ->
  (exists d', write_loop uninit N i buf file db (pos - blk * BLOCK_SIZE) blk d
              = Ok (i + Z.of_nat N, d') /\ wrote d' (pos + Z.of_nat N)) \/
  (exists d', write_loop uninit N i buf file db (pos - blk * BLOCK_SIZE) blk d = Ok (-1, d') /\
     aborted d' /\ nblocks S0 * BLOCK_SIZE <= pos + Z.of_nat N).
Proof.
  revert i d file db pos blk.
  induction N as [|N IH]; intros i d file db pos blk s Hpos Hi Hb Hw Hc Hmax.
  - left. cbn [write_loop]. destruct (wb_range _ _ _ Hw) as [_ Hs].
    pose proof (blk_bound s pos ltac:(lia) Hs ltac:(lia)) as Hblk.
    rewrite (div_BS_eq pos blk Hb) in Hblk. pose proof (nblocks_bounds s ltac:(lia)).
    mstep by (apply get_data_ok; lia).
    destruct (wflush d file s db blk pos Hw Hblk ltac:(lia) Hc) as (d1 & E1 & Hw1 & Hc1).
    mstep by exact E1.
    destruct (wbase_finish d1 file pos Hw1 Hc1) as (d2 & E2 & Hwr).
    mstep by exact E2. exists d2. rewrite !Z.add_0_r. done.
  - replace (pos + Z.of_nat (S N)) with (pos + 1 + Z.of_nat N) in * by lia.
    replace (i + Z.of_nat (S N)) with (i + 1 + Z.of_nat N) by lia.
    destruct (write_round N i d file db pos blk Hpos Hi Hb Hw Hc ltac:(lia))
      as [(d1 & file1 & db1 & blk1 & -> & Hb1 & Hw1 & Hc1)|(-> & Hab & Hroom)].
    + apply IH; [lia|lia|done..].
    + right. exists d. split; [done|]. split; [done|lia].
Qed.

(** ** The handler *)

(** The path names the file [n]: it is the first inode with that path. *)
Definition names (path : mem) : Prop :=
  holds d0 path n /\ forall k, 0 <= k < n -> ~ holds d0 path k.

Lemma lookup_file path :
  names path ->
  exists nd, checkiNodePathName uninit path d0 = Ok (nd, d0) /\ same_inode nd0 nd /\
    i_id nd = n.
Proof.
  intros [Hh Hfirst].
  destruct (checkiNodePathName_spec uninit d0 (ok_disk d0 Hok) (ok_names d0 Hok) path)
    as [(m & nd & E & Hs & Hm & Hlt)|[_ Hno]]; [|by destruct (Hno n)].
  assert (m = n) as ->.
  { destruct (Z.lt_trichotomy m n) as [Hl|[?|Hl]]; [|done|].
    - destruct (Hfirst m); [|done]. destruct Hm as [[? _] _]. lia.
    - destruct (Hlt n); [|done]. destruct Hh as [[? _] _]. lia. }
  exists nd. split; [done|]. split; [done|]. rewrite <- (i_id_proper _ _ Hs).
  apply (ok_id d0 Hok); apply Hn.
Qed.

(** What [sfs_write] does before its loop. *)
Lemma sfs_write_start path size fh :
  names path -> fh <> no_handle -> 0 < size -> offset < MAX_FILE ->
  exists nd db,
    sfs_write uninit path buf size offset fh d0
    = write_loop uninit (Z.to_nat size) 0 buf nd db (offset - offset / BLOCK_SIZE * BLOCK_SIZE)
        (offset / BLOCK_SIZE) d0 /\
    wbase d0 nd (Z.max S0 offset) /\ wcont d0 nd db (offset / BLOCK_SIZE) offset.
Proof.
  intros Hp Hfh Hsz Hmax. pose proof size0 as H0.
  destruct (lookup_file path Hp) as (nd & E & Hs & Hid).
  assert (0 <= n) by (destruct Hn as [[? _] _]; lia).
  unfold sfs_write. mstep by exact E. rewrite Hid, (Zeqb_f n), (Zeqb_f fh), (Zeqb_f size) by lia.
  pose proof (div_BS offset) as (Hdiv & Hmod & Hmod').
  assert (0 <= offset / BLOCK_SIZE < 1024) as Hblk
    by (unfold MAX_FILE, BLOCK_SIZE in *; lia).
  rewrite Z.quot_div_nonneg, Z.rem_mod_nonneg by (unfold BLOCK_SIZE; lia).
  rewrite !swrap_int by (unfold BLOCK_SIZE in *; lia).
  rewrite <- (i_size_proper _ _ Hs). rewrite Z.quot_div_nonneg by (unfold BLOCK_SIZE; lia).
  assert (offset / BLOCK_SIZE <= S0 / BLOCK_SIZE) as Hle by (apply Z.div_le_mono; [done|lia]).
  mstep by (cbn [extend_loop]; rewrite Zltb_f by lia; reflexivity).
  mstep by (apply get_data_ok; lia).
  pose proof (winit nd Hs) as Hw.
  destruct (wread d0 nd S0 (offset / BLOCK_SIZE) offset uninit Hw) as (r & db & Er & Hc).
  { apply blk_bound; lia. }
  { intros p Hp0. rewrite Z.max_l in Hp0 by lia. unfold expected.
    assert ((offset <=? p) && (p <? offset) = false) as ->
      by (destruct (Z.leb_spec offset p); [btests|]; done).
    unfold file_byte. rewrite (i_data_same _ _ _ Hs); [done|].
    pose proof (nblocks_pos S0 p Hp0 ltac:(lia)). pose proof (nblocks_bounds S0). lia. }
  mstep by exact Er. rewrite Hmod. exists nd, db. rewrite Z.max_l by lia. done.
Qed.

Lemma sfs_write_spec path size fh :
  names path -> fh <> no_handle -> 0 < size -> offset + size < MAX_FILE ->
  (exists d', sfs_write uninit path buf size offset fh d0 = Ok (size, d') /\
     wrote d' (offset + size)) \/
  (exists d', sfs_write uninit path buf size offset fh d0 = Ok (-1, d') /\ aborted d' /\
     nblocks S0 * BLOCK_SIZE <= offset + size).
Proof.
  intros Hp Hfh Hsz Hmax.
  destruct (sfs_write_start path size fh Hp Hfh Hsz ltac:(lia)) as (nd & db & -> & Hw & Hc).
  pose proof (div_BS offset) as (Hdiv & _).
  destruct (write_loop_spec (Z.to_nat size) 0 d0 nd db offset (offset / BLOCK_SIZE))
    as [(d' & E' & Hwr)|(d' & E' & Hab & Hroom)]; try done; try lia.
  - left. exists d'. rewrite Z2Nat.id in * by lia. split; [exact E'|done].
  - right. exists d'. split; [exact E'|]. split; [done|lia].
Qed.
End write.
