(* ===== verification/SfsOps.v ===== *)
(** * The other handlers of the file system

    What [sfs_read], [sfs_create], [sfs_unlink], [sfs_init], the lookups and
    the directory listing do on a disk that satisfies [fs_ok]. *)

From S2P Require Import Prelude CMem Disk Inode InodeSpec Sfs SfsInv SfsWrite.

Section read.
Context (uninit : mem) (d : disk) (Hok : fs_ok d) (n : Z) (Hn : is_file d n).
Context (nd : inode) (Hs : same_inode (node d n) nd).

Notation S0 := (i_size (node d n)).

Lemma read_block k buf :
  0 <= k < nblocks S0 ->
  get_data nd k d = Ok (i_data nd k, d) /\
  exists r db, block_read (D_BLOCK_START + i_data nd k) buf d = Ok ((r, db), d) /\
    forall x, 0 <= x < BLOCK_SIZE -> db x = file_byte d (node d n) (k * BLOCK_SIZE + x).
Proof.
  intros Hk. pose proof (ok_size d Hok n Hn) as H0. pose proof (nblocks_bounds S0 ltac:(lia)).
  split; [apply get_data_ok; lia|]. rewrite (i_data_same _ _ _ Hs) by lia.
  destruct (ok_data d Hok n k (i_data (node d n) k) Hn) as [Hb _]; [done|].
  destruct (data_read d _ buf (ok_disk d Hok) Hb) as (r & db & E & Hdb).
  exists r, db. split; [done|]. intros x Hx. rewrite Hdb by done. unfold file_byte.
  assert ((k * BLOCK_SIZE + x) / BLOCK_SIZE = k) as Ek by (apply div_BS_eq; lia).
  destruct (div_BS (k * BLOCK_SIZE + x)) as (_ & Em & _). rewrite Ek in *. rewrite Em.
  f_equal. f_equal. lia.
Qed.

Lemma read_loop_spec N i buf db chr blk offset :
  blk * BLOCK_SIZE + chr = offset + i -> 0 <= chr < BLOCK_SIZE -> 0 <= i -> 0 <= offset ->
  offset + i + Z.of_nat N < nblocks S0 * BLOCK_SIZE ->
  (forall x, 0 <= x < BLOCK_SIZE -> db x = file_byte d (node d n) (blk * BLOCK_SIZE + x)) ->
  exists buf', read_loop N i nd buf db chr blk d = Ok (buf', d) /\
    forall k, buf' k = if (i <=? k) && (k <? i + Z.of_nat N)
                       then file_byte d (node d n) (offset + k) else buf k.
Proof.
  revert i buf db chr blk.
  induction N as [|N IH]; intros i buf db chr blk Hpos Hchr Hi Ho Hlt Hdb.
  { exists buf. split; [done|]. intros k.
    destruct (Z.leb_spec i k), (Z.ltb_spec k (i + Z.of_nat 0)); try done; lia. }
  cbn [read_loop]. cbv zeta. mstep by (by apply in_block_ok). set (buf1 := blit buf i 1 _).
  assert (forall k, buf1 k = if k =? i then file_byte d (node d n) (offset + i) else buf k) as Hb1.
  { intros k. destruct (Z.eqb_spec k i) as [->|Hne]; [|apply blit_out; lia].
    pose proof (blit_in buf i 1 (fun _ => db chr) 0 ltac:(lia)) as E.
    rewrite Z.add_0_r in E. subst buf1. rewrite E, Hdb by done. f_equal. lia. }
  assert (forall (E : result (mem * disk)) b0,
    (exists buf', E = Ok (buf', d) /\
       forall k, buf' k = if (i + 1 <=? k) && (k <? i + 1 + Z.of_nat N)
                          then file_byte d (node d n) (offset + k) else b0 k) ->
    b0 = buf1 ->
    exists buf', E = Ok (buf', d) /\
      forall k, buf' k = if (i <=? k) && (k <? i + Z.of_nat (S N))
                         then file_byte d (node d n) (offset + k) else buf k) as Hstep.
  { intros E b0 (buf' & -> & Hb') ->. exists buf'. split; [done|]. intros k.
    rewrite Hb', Hb1. destruct (Z.eqb_spec k i) as [->|Hne].
    - btests. done.
    - destruct (Z.leb_spec (i + 1) k), (Z.leb_spec i k); try lia; cbn [andb]; [|done].
      destruct (Z.ltb_spec k (i + 1 + Z.of_nat N)), (Z.ltb_spec k (i + Z.of_nat (S N)));
        try lia; done. }
  rewrite Z.rem_mod_nonneg by (unfold BLOCK_SIZE in *; lia).
  destruct (Z.eqb_spec ((chr + 1) mod BLOCK_SIZE) 0) as [Em|Em].
  - assert (chr + 1 = BLOCK_SIZE) as Ec
      by (apply Z.mod_divide in Em as [q Hq]; [|done]; unfold BLOCK_SIZE in *; lia).
    assert (0 <= blk + 1 < nblocks S0) as Hblk by (unfold BLOCK_SIZE in *; lia).
    destruct (read_block (blk + 1) db Hblk) as (Eg & r & db2 & Er & Hdb2).
    mstep by exact Eg. mstep by exact Er.
    eapply Hstep; [|reflexivity].
    apply IH; try done; unfold BLOCK_SIZE in *; lia.
  - assert (chr + 1 <> BLOCK_SIZE) by (intros E; by rewrite E in Em).
    eapply Hstep; [|reflexivity].
    apply IH; try done; unfold BLOCK_SIZE in *; lia.
Qed.
End read.

Section handlers.
Context (uninit : mem).

Lemma sfs_read_spec d n path buf size offset :
  fs_ok d -> is_file d n -> names d n path ->
  0 < size -> 0 <= offset <= i_size (node d n) ->
  offset + size < nblocks (i_size (node d n)) * BLOCK_SIZE ->
  exists buf', sfs_read uninit path buf size offset d = Ok ((size, buf'), d) /\
    (forall k, 0 <= k < size -> buf' k = file_byte d (node d n) (offset + k)) /\
    (forall k, k < 0 \/ size <= k -> buf' k = buf k).
Proof.
  intros Hok Hn Hp Hsz Hoff Hlt.
  destruct (lookup_file uninit d Hok n Hn path Hp) as (nd & E & Hs & Hid).
  pose proof (ok_size d Hok n Hn) as H0.
  assert (0 <= n) by (destruct Hn as [[? _] _]; lia).
  unfold sfs_read. mstep by exact E. rewrite Hid, (Zeqb_f n), <- (i_size_proper _ _ Hs) by lia.
  rewrite (Zltb_f (i_size _)), (Zeqb_f size) by lia.
  pose proof (div_BS offset) as (Hdiv & Hmod & Hmod').
  pose proof (nblocks_bounds (i_size (node d n)) ltac:(lia)).
  assert (0 <= offset / BLOCK_SIZE < nblocks (i_size (node d n))) as Hblk
    by (unfold BLOCK_SIZE in *; lia).
  rewrite Z.quot_div_nonneg, Z.rem_mod_nonneg by (unfold BLOCK_SIZE; lia).
  rewrite !swrap_int by (unfold BLOCK_SIZE in *; lia).
  destruct (read_block d Hok n Hn nd Hs (offset / BLOCK_SIZE) uninit Hblk)
    as (Eg & r & db & Er & Hdb).
  mstep by exact Eg. mstep by exact Er.
  set (buf0 := blit buf 0 size _).
  destruct (read_loop_spec d Hok n Hn nd Hs (Z.to_nat size) 0 buf0 db
    (offset mod BLOCK_SIZE) (offset / BLOCK_SIZE) offset) as (buf' & El & Hb'); try done; try lia.
  mstep by exact El. exists buf'. split; [done|].
  split; intros k Hk; rewrite Hb', Z2Nat.id, (Z.add_0_l size) by lia.
  - btests. done.
  - assert ((0 <=? k) && (k <? size) = false) as ->
      by (destruct Hk; [by rewrite Zleb_f by lia|rewrite (Zltb_f k) by lia; apply andb_false_r]).
    apply blit_out. lia.
Qed.

(** ** Attributes *)

Lemma root_path_eq path :
  exists r, strcmp_eq 2 path root_path = Ok r /\ (r = true <-> cstr_eq path root_path).
Proof. apply strcmp_spec. by exists 1. Qed.

Lemma sfs_getattr_spec now d path st :
  fs_ok d -> ~ cstr_eq path root_path ->
  (exists n, names d n path /\ inode_num n /\
     sfs_getattr uninit now path st d
     = Ok ((0, Stat (i_mode (node d n)) (i_hardlinks (node d n)) (i_size (node d n))
                 (Z.quot (i_size (node d n)) BLOCK_SIZE + 1) n now now now), d)) \/
  ((forall n, ~ holds d path n) /\
   sfs_getattr uninit now path st d = Ok ((- ENOENT, st), d)).
Proof.
  intros Hok Hroot. destruct (root_path_eq path) as (r & Er & Hr).
  destruct r; [by destruct Hroot; apply Hr|].
  unfold sfs_getattr. mstep by (unfold lift; rewrite Er; reflexivity).
  destruct (checkiNodePathName_spec uninit d (ok_disk d Hok) (ok_names d Hok) path)
    as [(n & nd & E & Hs & Hh & Hlt)|[E Hno]]; mstep by exact E.
  - left. exists n. pose proof Hh as (Hn & Hf & _). split; [done|]. split; [done|].
    assert (i_id nd = n) as Hid
      by (rewrite <- (i_id_proper _ _ Hs); by apply (ok_id d Hok)).
    rewrite Hid, Zeqb_f by (destruct Hn; lia). cbn [negb]. unfold fillStatBuff.
    by rewrite <- (i_size_proper _ _ Hs), <- (i_mode_proper _ _ Hs),
      <- (i_hardlinks_proper _ _ Hs), Hid.
  - right. split; [done|].
    assert (i_id (set_id uninit (-1)) = -1) as -> by (ifields; done). done.
Qed.

(** ** Creating a file *)

(** Disk [d'] is [d] with the empty file [n], with path [path], in block [b]. *)
Record created (d : disk) (n b : Z) (path : mem) (mode : Z) (d' : disk) : Prop := Created {
  cr_ok : fs_ok d';
  cr_file : is_file d' n;
  cr_path : cstr_eq path (i_path (node d' n));
  cr_attr : i_size (node d' n) = 0 /\ i_mode (node d' n) = wrap 32 mode /\
            i_hardlinks (node d' n) = 1 /\ i_data (node d' n) 0 = b;
  cr_stale k : 1 <= k < 1024 -> i_data (node d' n) k = i_data (node d n) k;
  cr_blocks k : block_num k -> block_free d' k = if k =? b then false else block_free d k;
  cr_others m : inode_num m -> m <> n ->
    inode_free d' m = inode_free d m /\ same_inode (node d m) (node d' m);
  cr_data k x : block_num k -> 0 <= x < BLOCK_SIZE ->
    rd d' (data_addr k x) = rd d (data_addr k x)
}.

(** The inode [sfs_create] writes. *)
Definition new_inode (nd : inode) (n : Z) (path : mem) (mode b : Z) : inode :=
  set_data (set_path (set_hardlinks (set_mode (set_size (set_id nd n) 0) mode) 1) path 256) 0 b.

Lemma new_inode_fields nd n path mode b :
  inode_num n -> block_num b \/ b = -1 ->
  let i := new_inode nd n path mode b in
  i_id i = n /\ i_size i = 0 /\ i_mode i = wrap 32 mode /\ i_hardlinks i = 1 /\
  i_data i 0 = b /\ (forall k, 0 <= k < 256 -> i_path i k = path k) /\
  forall k, 1 <= k < 1024 -> i_data i k = i_data nd k.
Proof.
  intros Hn Hb i. unfold inode_num, INODE_LIST_SIZE, block_num, BLOCK_LIST_SIZE in *.
  subst i. unfold new_inode. split_and!.
  - ifields. rewrite swrap_mod by lia. apply swrap_small; lia.
  - by ifields.
  - by ifields.
  - by ifields.
  - rewrite i_data_set by lia. done.
  - intros k Hk. unfold i_path, slice, set_data, set_path.
    rewrite store_other by (cbn; lia). by apply blit_in.
  - intros k Hk. by ifields.
Qed.

Lemma first_zero a k :
  0 <= k -> load8 a k = 0 ->
  exists len, 0 <= len <= k /\ load8 a len = 0 /\ forall j, 0 <= j < len -> load8 a j <> 0.
Proof.
  intros Hk Hz.
  assert (forall m : nat,
    (exists len, 0 <= len < Z.of_nat m /\ load8 a len = 0 /\
       forall j, 0 <= j < len -> load8 a j <> 0) \/
    forall j, 0 <= j < Z.of_nat m -> load8 a j <> 0) as Hm.
  { induction m as [|m [(len & ? & ? & ?)|IH]].
    - right. intros; lia.
    - left. exists len. split_and!; [lia|lia|done|done].
    - destruct (decide (load8 a (Z.of_nat m) = 0)) as [E|E].
      + left. exists (Z.of_nat m). split_and!; [lia|lia|done|]. intros j Hj. apply IH. lia.
      + right. intros j Hj. destruct (decide (j = Z.of_nat m)) as [->|]; [done|].
        apply IH. lia. }
  destruct (Hm (Z.to_nat (k + 1))) as [(len & ? & ? & ?)|Hno].
  - exists len. split_and!; try done; lia.
  - destruct (Hno k); [lia|done].
Qed.

Lemma path_terminated path nd :
  (exists k, 0 <= k < 256 /\ load8 path k = 0) ->
  (forall k, 0 <= k < 256 -> i_path nd k = path k) ->
  terminated nd /\ cstr_eq path (i_path nd).
Proof.
  intros (k & Hk & Hz) Hp.
  assert (forall j, 0 <= j < 256 -> load8 (i_path nd) j = load8 path j) as Hl
    by (intros j Hj; unfold load8; by rewrite Hp).
  split; [exists k; by rewrite Hl|].
  destruct (first_zero path k ltac:(lia) Hz) as (len & ? & ? & Hnz).
  exists len. rewrite Hl by lia. split_and!; [lia|done|done|].
  intros j Hj. rewrite Hl by lia. auto.
Qed.

Lemma i_path_ext nd nd' path :
  same_inode nd nd' -> (forall k, 0 <= k < 256 -> i_path nd k = path k) ->
  forall k, 0 <= k < 256 -> i_path nd' k = path k.
Proof. intros Hs H k Hk. by rewrite (i_path_same _ _ _ Hs), H. Qed.

(** The three writes of [sfs_create]: the bit of inode [n], the bit of block
    [b], and the inode. *)
Section create_writes.
Context (d d1 d2 d3 : disk) (n b : Z) (Hn : inode_num n).
Context (Him1 : forall k, inode_entry k -> inode_free d1 k = if k =? n then false else inode_free d k).
Context (Hag1 : agree (fun x => x <> 4 + n / 8) (rd d) (rd d1)).
Context (Hbits : forall k, block_num k -> block_free d2 k = if k =? b then false else block_free d1 k).
Context (Hmeta : agree meta_byte (rd d1) (rd d2)).
Context (Hdata : forall b' x, block_num b' -> 0 <= x < BLOCK_SIZE ->
  rd d2 (data_addr b' x) = rd d1 (data_addr b' x)).
Context (Hag3 : agree (fun x => x < inode_addr n \/ inode_addr n + sizeof_inode <= x) (rd d2) (rd d3)).

Lemma writes_low : 0 <= n / 8 < 16 /\ 3 * BLOCK_SIZE <= inode_addr n /\
  inode_addr n + sizeof_inode <= D_BLOCK_START * BLOCK_SIZE.
Proof.
  assert (0 <= n < 128) as Hn128 by exact Hn.
  pose proof (inode_addr_bounds n Hn) as (? & _ & _ & ?).
  by split; [apply div8_bounds; lia|].
Qed.

Lemma writes_block k : block_num k -> block_free d1 k = block_free d k.
Proof.
  intros Hk. destruct writes_low as (Hn8 & _). apply block_free_agree; [done|].
  eapply agree_weaken; [exact Hag1|]. unfold BLOCK_SIZE. intros x Hx. lia.
Qed.

Lemma writes_inodes m : inode_num m ->
  inode_free d3 m = if m =? n then false else inode_free d m.
Proof.
  intros Hm. destruct writes_low as (_ & Hlo & _).
  rewrite (inode_free_agree d2 d3 m Hm), (inode_free_meta d1 d2 m Hm Hmeta).
  - apply Him1. by apply inode_entry_num.
  - eapply agree_weaken; [exact Hag3|]. intros x Hx. unfold BLOCK_SIZE in *. lia.
Qed.

Lemma writes_blocks k : block_num k -> block_free d3 k = if k =? b then false else block_free d k.
Proof.
  intros Hk. destruct writes_low as (_ & Hlo & _).
  rewrite (block_free_agree d2 d3 k Hk); [by rewrite Hbits, writes_block|].
  eapply agree_weaken; [exact Hag3|]. intros x Hx. unfold BLOCK_SIZE in *. lia.
Qed.

Lemma writes_others m : inode_num m -> m <> n -> same_inode (node d m) (node d3 m).
Proof.
  intros Hm Hmn. destruct writes_low as (Hn8 & _).
  pose proof (inode_addr_bounds m Hm) as (? & _ & _ & ?).
  pose proof (inode_addr_disjoint m n Hm Hn Hmn) as Hdis.
  etrans; [|etrans; [by apply (node_meta d1 d2)|]]; apply node_agree; try done;
    eapply agree_weaken; try eassumption; intros x Hx; unfold BLOCK_SIZE in *; cbv beta in *; lia.
Qed.

Lemma writes_data k x : block_num k -> 0 <= x < BLOCK_SIZE ->
  rd d3 (data_addr k x) = rd d (data_addr k x).
Proof.
  intros Hk Hx. destruct writes_low as (Hn8 & _ & Hhi).
  pose proof (data_addr_high k x Hk Hx).
  rewrite Hag3, Hdata, Hag1; [done| |done|done|]; unfold BLOCK_SIZE, D_BLOCK_START in *; lia.
Qed.

Lemma writes_magic : agree (fun x => x < 4) (rd d) (rd d3).
Proof.
  intros x Hx. destruct writes_low as (Hn8 & Hlo & _).
  rewrite Hag3, Hmeta, Hag1; [done|lia| |]; unfold meta_byte, BLOCK_SIZE in *; lia.
Qed.

(** The inode that was read before it was changed. *)
Lemma writes_old nd : same_inode (node d1 n) nd -> same_inode (node d n) nd.
Proof.
  intros Hs. destruct writes_low as (Hn8 & Hlo & _). etrans; [|exact Hs].
  apply node_agree; [done|]. eapply agree_weaken; [exact Hag1|].
  unfold BLOCK_SIZE in *. intros x Hx. lia.
Qed.

(** Together they create the file. *)
Lemma writes_created path mode nd :
  fs_ok d -> n <> 0 -> inode_free d n = true -> block_num b -> block_free d b = true ->
  disk_ok d3 -> (exists k, 0 <= k < 256 /\ load8 path k = 0) ->
  same_inode (node d1 n) nd -> same_inode (new_inode nd n path mode b) (node d3 n) ->
  created d n b path mode d3.
Proof.
  intros Hok Hn0 Hf Hb Hbd Hd3 Hpath Hs Hnode.
  destruct (new_inode_fields nd n path mode b Hn (or_introl Hb))
    as (Fid & Fsz & Fmode & Fhl & Fdata & Fpath & Fstale).
  destruct (path_terminated path (node d3 n) Hpath (i_path_ext _ _ _ Hnode Fpath)) as [Hterm Heq].
  rewrite (i_id_proper _ _ Hnode) in Fid. rewrite (i_size_proper _ _ Hnode) in Fsz.
  rewrite (i_mode_proper _ _ Hnode) in Fmode. rewrite (i_hardlinks_proper _ _ Hnode) in Fhl.
  assert (0 <= 0 < 1024) as H0 by lia. rewrite <- (i_data_same _ _ 0 Hnode H0) in Fdata.
  assert (forall k b', owns (node d3 n) k b' -> k = 0 /\ b' = b) as Hown.
  { intros k b' [Hk <-]. rewrite Fsz in Hk. change (nblocks 0) with 1 in Hk.
    assert (k = 0) as -> by lia. done. }
  split; try done; auto using writes_blocks, writes_data.
  - apply (fs_ok_update d Hok n Hn0 d3); try done; auto using writes_others, writes_magic.
    + intros m Hm Hmn. rewrite writes_inodes by done. by rewrite Zeqb_f.
    + rewrite Fsz. unfold MAX_FILE. lia.
    + intros k b' [-> ->]%Hown. split; [done|]. rewrite writes_blocks, Z.eqb_refl by done.
      split; [done|]. intros (m & k' & Hm & _ & Ho). destruct (ok_data d Hok m k' b Hm Ho). congruence.
    + intros k k' b' [-> _]%Hown [-> _]%Hown. done.
    + intros k Hk. rewrite writes_blocks by done. by destruct (k =? b).
  - split; [done|]. split; [done|]. rewrite writes_inodes by done. by rewrite Z.eqb_refl.
  - intros k Hk. rewrite (i_data_same _ _ _ Hnode), Fstale by lia.
    apply i_data_same; [by apply writes_old|lia].
  - intros m Hm Hmn. split; [|by apply writes_others]. rewrite writes_inodes by done. by rewrite Zeqb_f.
Qed.
End create_writes.

(** The steps of [sfs_create] once inode [n] is chosen. *)
Lemma create_at d n path mode fh N :
  fs_ok d -> inode_num n -> inode_free d n = true ->
  (exists k, 0 <= k < 256 /\ load8 path k = 0) ->
  (exists b d', block_num b /\ block_free d b = true /\
     (forall k, 0 <= k < b -> block_free d k = false) /\
     sfs_create_loop uninit (S N) n path mode fh d = Ok ((0, n), d') /\
     created d n b path mode d') \/
  (disk_full d /\
   exists d', sfs_create_loop uninit (S N) n path mode fh d = Ok ((-1, fh), d') /\
     (forall m, inode_num m -> inode_free d' m = if m =? n then false else inode_free d m) /\
     agree (fun x => BLOCK_SIZE <= x) (rd d) (rd d')).
Proof.
  intros Hok Hn Hf Hpath. pose proof (ok_disk d Hok) as Hd.
  pose proof (inode_entry_num n Hn) as Hne.
  assert (n <> 0) as Hn0 by (intros ->; by rewrite (ok_root d Hok) in Hf).
  cbn [sfs_create_loop]. mstep by (by apply isInodeFree_spec). rewrite Hf. cbn [Z.b2z Z.eqb Pos.eqb].
  destruct (setInode_spec uninit d n 0 Hd Hne) as (d1 & E1 & Hd1 & Him1 & Hag1).
  mstep by exact E1.
  destruct (readInode_spec uninit d1 n Hd1 Hn) as (nd & E2 & Hs). mstep by exact E2. cbv zeta.
  pose proof (writes_block d d1 n Hn Hag1) as Hbf1.
  destruct (findNextOpenBlock_spec uninit d1 Hd1) as (b & E3 & Hb). mstep by exact E3.
  fold (new_inode nd n path mode b).
  destruct (new_inode_fields nd n path mode b Hn) as (Fid & _ & _ & _ & Fdata & _).
  { destruct Hb as [[? _]|[? _]]; [by left|by right]. }
  rewrite Fdata. destruct Hb as [(Hb & Hbfree & Hbmin)|[-> Hfull]].
  2: { right. split; [intros k Hk; rewrite <- Hbf1 by done; auto|].
       exists d1. split; [done|]. split.
       - intros m Hm. apply Him1. by apply inode_entry_num.
       - eapply agree_weaken; [exact Hag1|]. unfold BLOCK_SIZE. intros x Hx.
         destruct (writes_low n Hn). lia. }
  left. rewrite Zeqb_f by (destruct Hb; lia).
  destruct (setBlock_meta uninit d1 b 0 Hd1 Hb) as (d2 & E4 & Hd2 & Hbits & Hmeta & Hdata).
  mstep by exact E4.
  destruct (writeInode_spec uninit d2 _ n Hd2 Fid Hn) as (d3 & E5 & Hd3 & Hnode & Hag3).
  mstep by exact E5. rewrite Fid. exists b, d3.
  assert (block_free d b = true) as Hbd by (rewrite <- Hbf1; done).
  split; [done|]. split; [done|]. split.
  { intros k Hk. rewrite <- Hbf1; [by apply Hbmin|]. unfold block_num in *. lia. }
  split; [done|]. by apply (writes_created d d1 d2 d3 n b) with (nd := nd).
Qed.

(** The search for a free inode. *)
Lemma create_search d path mode fh N i :
  disk_ok d -> 0 <= i -> i + Z.of_nat N <= INODE_LIST_SIZE ->
  (exists n N', i <= n < i + Z.of_nat N /\ inode_free d n = true /\
     (forall k, i <= k < n -> inode_free d k = false) /\
     sfs_create_loop uninit N i path mode fh d = sfs_create_loop uninit (S N') n path mode fh d) \/
  ((forall k, i <= k < i + Z.of_nat N -> inode_free d k = false) /\
   sfs_create_loop uninit N i path mode fh d = Ok ((0, fh), d)).
Proof.
  intros Hd. unfold INODE_LIST_SIZE. revert i. induction N as [|N IH]; intros i Hi HN.
  { right. split; [intros; lia|done]. }
  destruct (inode_free d i) eqn:E.
  { left. exists i, N. split_and!; [lia|lia|done|intros; lia|done]. }
  assert (sfs_create_loop uninit (S N) i path mode fh d
          = sfs_create_loop uninit N (i + 1) path mode fh d) as Estep.
  { cbn [sfs_create_loop]. mstep by (apply isInodeFree_spec; [done|];
      unfold inode_entry, BLOCK_SIZE; lia). by rewrite E. }
  rewrite Estep. destruct (IH (i + 1) ltac:(lia) ltac:(lia)) as [(n & N' & ? & ? & Hlt & ->)|[H ->]].
  - left. exists n, N'. split_and!; try done; try lia. intros k Hk.
    destruct (decide (k = i)) as [->|]; [done|]. apply Hlt. lia.
  - right. split; [|done]. intros k Hk.
    destruct (decide (k = i)) as [->|]; [done|]. apply H. lia.
Qed.

(** ** Removing a file *)

(** The blocks marked free: [file.data[i .. i + N - 1]]. *)
Lemma free_blocks_spec N i nd d :
  disk_ok d -> 0 <= i -> i + Z.of_nat N <= 1024 ->
  (forall k, i <= k < i + Z.of_nat N -> block_entry (i_data nd k)) ->
  exists d', free_blocks uninit N i nd d = Ok (tt, d') /\ disk_ok d' /\
    agree (fun x => x < BLOCK_SIZE \/ 2 * BLOCK_SIZE <= x) (rd d) (rd d') /\
    (forall b, block_num b -> block_free d' b = true <->
       block_free d b = true \/ exists k, i <= k < i + Z.of_nat N /\ i_data nd k = b).
Proof.
  revert i d. induction N as [|N IH]; intros i d Hd Hi HN Hent.
  { exists d. split; [done|]. split; [done|]. split; [done|]. intros b Hb.
    split; [by left|]. intros [?|(k & Hk & _)]; [done|lia]. }
  cbn [free_blocks]. mstep by (apply get_data_ok; lia).
  assert (block_entry (i_data nd i)) as He by (apply Hent; lia).
  destruct (setBlock_spec uninit d _ 1 Hd He) as (d1 & E1 & Hd1 & Hbits & Hag).
  mstep by exact E1.
  destruct (IH (i + 1) d1 Hd1 ltac:(lia) ltac:(lia)) as (d2 & E2 & Hd2 & Hag2 & Hbf).
  { intros k Hk. apply Hent. lia. }
  exists d2. split; [exact E2|]. split; [done|]. split.
  - etrans; [|exact Hag2]. eapply agree_weaken; [exact Hag|].
    pose proof (div8_bounds (i_data nd i) BLOCK_SIZE He). intros x Hx. cbv beta. lia.
  - intros b Hb. rewrite Hbf, Hbits by (first [done|by apply block_entry_num]).
    destruct (Z.eqb_spec b (i_data nd i)) as [->|Hne].
    + split; [|by left]. intros _. right. exists i. split; [lia|done].
    + split.
      * intros [?|(k & Hk & ?)]; [by left|]. right. exists k. split; [lia|done].
      * intros [?|(k & Hk & Hkb)]; [by left|]. right. exists k. split; [|done].
        destruct (decide (k = i)) as [->|]; [congruence|lia].
Qed.

(** The entries of the data array that [sfs_unlink] frees: one more than the
    blocks of the file. *)
Definition unlinked (nd : inode) (b : Z) : Prop :=
  exists k, 0 <= k <= i_size nd / BLOCK_SIZE + 1 /\ i_data nd k = b.

(** Disk [d'] is [d] without the file [n]. *)
Record removed (d : disk) (n : Z) (d' : disk) : Prop := Removed {
  rm_disk : disk_ok d';
  rm_inodes m : inode_num m -> inode_free d' m = if m =? n then true else inode_free d m;
  rm_table m : inode_num m -> same_inode (node d m) (node d' m);
  rm_blocks b : block_num b ->
    block_free d' b = true <-> block_free d b = true \/ unlinked (node d n) b;
  rm_magic : agree (fun x => x < 4) (rd d) (rd d');
  rm_data b x : block_num b -> 0 <= x < BLOCK_SIZE ->
    rd d' (data_addr b x) = rd d (data_addr b x)
}.

Lemma set_hardlinks_data nd v k : 0 <= k < 1024 -> i_data (set_hardlinks nd v) k = i_data nd k.
Proof. intros Hk. by ifields. Qed.

(** The inode [sfs_unlink] works on: two links fewer, all else as on the disk. *)
Lemma drop_links nd0 nd :
  same_inode nd0 nd -> - 2 ^ 31 + 2 <= i_hardlinks nd0 <= 2 ->
  let file := set_hardlinks nd (i_hardlinks nd - 2) in
  i_hardlinks file = i_hardlinks nd0 - 2 /\ i_size file = i_size nd0 /\ i_id file = i_id nd /\
  forall k, 0 <= k < 1024 -> i_data file k = i_data nd0 k.
Proof.
  intros Hs Hl file. split_and!.
  - unfold file. ifields. rewrite swrap_mod by lia.
    fold (i_hardlinks nd). rewrite <- (i_hardlinks_proper _ _ Hs). apply swrap_int. lia.
  - unfold file. rewrite (i_size_proper _ _ Hs). by ifields.
  - unfold file. by ifields.
  - intros k Hk. unfold file. rewrite set_hardlinks_data by done. by apply i_data_same.
Qed.

Lemma sfs_unlink_spec d n path :
  fs_ok d -> is_file d n -> names d n path ->
  i_hardlinks (node d n) <= 2 -> - 2 ^ 31 + 2 <= i_hardlinks (node d n) ->
  i_size (node d n) / BLOCK_SIZE + 1 < 1024 ->
  block_entry (i_data (node d n) (i_size (node d n) / BLOCK_SIZE + 1)) ->
  exists d', sfs_unlink uninit path d = Ok (0, d') /\ removed d n d'.
Proof.
  intros Hok Hn Hp Hl Hl' Hlast He. pose proof (ok_size d Hok n Hn) as H0.
  destruct (lookup_file uninit d Hok n Hn path Hp) as (nd & E & Hs & Hid).
  pose proof Hn as (Hnum & _ & _). assert (0 <= n) by (destruct Hnum; lia).
  unfold sfs_unlink. mstep by exact E. rewrite Hid, Zeqb_f by lia.
  destruct (drop_links (node d n) nd Hs ltac:(lia)) as (Ehl & Esz & Eid & Hdat).
  rewrite Hid in Eid. set (file := set_hardlinks nd _) in *. set (S := i_size (node d n)) in *.
  rewrite Ehl, (Zltb_t _ 1) by lia. cbn [when]. rewrite Esz.
  rewrite Z.quot_div_nonneg by (unfold BLOCK_SIZE; lia).
  assert (0 <= S / BLOCK_SIZE) by (apply Z.div_pos; [lia|done]).
  destruct (free_blocks_spec (Z.to_nat (S / BLOCK_SIZE + 2)) 0 file d (ok_disk d Hok))
    as (d1 & E1 & Hd1 & Hag1 & Hbf1); [lia|lia| |].
  { intros k Hk. rewrite Z2Nat.id in Hk by lia. rewrite Hdat by lia.
    destruct (decide (k = S / BLOCK_SIZE + 1)) as [->|Hk']; [done|].
    apply block_entry_num, (ok_data d Hok n k _ Hn). split; [|done].
    fold S. unfold nblocks. lia. }
  mstep by exact E1. rewrite Eid.
  destruct (setInode_spec uninit d1 n 1 Hd1 (inode_entry_num n Hnum))
    as (d2 & E2 & Hd2 & Him2 & Hag2).
  mstep by exact E2. exists d2. split; [done|].
  assert (0 <= n / 8 < 16) by (apply div8_bounds; exact Hnum).
  assert (agree (fun x => BLOCK_SIZE <= x) (rd d1) (rd d2)) as Hag2'.
  { eapply agree_weaken; [exact Hag2|]. unfold BLOCK_SIZE. intros x Hx. lia. }
  split.
  - done.
  - intros m Hm. rewrite Him2 by (by apply inode_entry_num). destruct (m =? n); [done|].
    apply inode_free_agree; [done|]. eapply agree_weaken; [exact Hag1|].
    unfold BLOCK_SIZE. intros x Hx. lia.
  - intros m Hm. pose proof (inode_addr_bounds m Hm). apply node_agree; [done|].
    etrans; eapply agree_weaken; [exact Hag1| |exact Hag2'|];
      unfold BLOCK_SIZE in *; intros x Hx; cbv beta in *; lia.
  - intros b Hb. rewrite (block_free_agree d1 d2 b Hb).
    2: { eapply agree_weaken; [exact Hag2'|]. unfold BLOCK_SIZE. intros x Hx. lia. }
    rewrite Hbf1 by done. rewrite Z2Nat.id by lia. unfold unlinked. fold S.
    split; (intros [?|(k & Hk & Hkb)]; [by left|right; exists k]).
    + rewrite Hdat in Hkb by lia. split; [lia|done].
    + rewrite Hdat by lia. split; [lia|done].
  - intros x Hx. rewrite Hag2, Hag1; [done| |]; unfold BLOCK_SIZE in *; lia.
  - intros b x Hb Hx. pose proof (data_addr_high b x Hb Hx).
    rewrite Hag2', Hag1; [done| |]; unfold BLOCK_SIZE, D_BLOCK_START in *; lia.
Qed.

Lemma removed_ok d n d' :
  fs_ok d -> is_file d n -> removed d n d' ->
  ~ foreign d n (i_data (node d n) (i_size (node d n) / BLOCK_SIZE + 1)) ->
  i_size (node d n) / BLOCK_SIZE + 1 < 1024 -> fs_ok d'.
Proof.
  intros Hok Hn Hr Hno Hlast. pose proof Hn as (Hnum & Hn0 & Hf).
  pose proof (ok_size d Hok n Hn) as H0.
  assert (0 <= i_size (node d n) / BLOCK_SIZE) by (apply Z.div_pos; [lia|done]).
  apply (fs_ok_change d Hok n Hn0 d').
  - apply Hr.
  - apply Hr.
  - intros m Hm Hne. rewrite (rm_inodes _ _ _ Hr) by done. by rewrite Zeqb_f.
  - intros m Hm Hne. by apply Hr.
  - rewrite (rm_inodes _ _ _ Hr) by done. by rewrite Z.eqb_refl.
  - intros b Hb. pose proof Hb as (m & k & Hm & Hne & Ho).
    destruct (ok_data d Hok m k b Hm Ho) as [Hbn Hbf].
    destruct (block_free d' b) eqn:E; [|done]. exfalso.
    apply (rm_blocks _ _ _ Hr b Hbn) in E as [E|(k' & Hk' & Hkb)]; [congruence|].
    destruct (decide (k' = i_size (node d n) / BLOCK_SIZE + 1)) as [->|Hk2].
    + apply Hno. by rewrite Hkb.
    + destruct (ok_disjoint d Hok n k' m k b Hn Hm) as [? _]; [|done|done].
      split; [|done]. unfold nblocks. lia.
Qed.

(** ** Mounting *)

(** A freshly formatted disk. *)
Record formatted (d : disk) : Prop := Formatted {
  fm_ok : fs_ok d;
  fm_root : holds d root_path 0;
  fm_root_attr : i_mode (node d 0) = Z.lor S_IFDIR 0x1F6 /\ i_size (node d 0) = 0 /\
                 i_hardlinks (node d 0) = 2;
  fm_inodes m : inode_num m -> m <> 0 -> inode_free d m = true;
  fm_blocks b : block_num b -> block_free d b = true
}.

(** The disk opened with descriptor [fd]. *)
Definition opened (fd : Z) (d : disk) : disk :=
  if 0 <=? diskfile d then d else Disk (dbytes d) (dlen d) fd.

Lemma opened_ok fd d :
  0 <= fd -> 0 <= dlen d -> dlen d mod BLOCK_SIZE = 0 ->
  disk_open fd d = Ok (tt, opened fd d) /\ disk_ok (opened fd d).
Proof.
  intros Hfd Hl Hm. unfold disk_open, opened.
  destruct (Z.leb_spec 0 (diskfile d)); [done|]. rewrite Zltb_f by lia. done.
Qed.

Lemma checkIfInit_spec d :
  disk_ok d ->
  checkIfInit uninit d = Ok (if swrap 32 (load 4 (rd d) 0) =? MAGIC_NUM then 1 else 0, d).
Proof.
  intros Hd. destruct (block_read_spec d 0 uninit Hd) as (r & b & E & Hb & _);
    [unfold valid_block; lia|].
  unfold checkIfInit. mstep by exact E. rewrite (load_ext 4 (rd d) b); [done|].
  intros x Hx. cbn in Hx. by rewrite (Hb x) by (unfold BLOCK_SIZE; lia).
Qed.

Lemma bit_ff m a n : 0 <= n -> m (a + n / 8) = 0xFF -> bit_test m a n = true.
Proof.
  intros Hn E. unfold bit_test, load8. rewrite E. change (0xFF mod 256) with (Z.ones 8).
  apply Z.ones_spec_low. pose proof (Z.mod_pos_bound n 8 ltac:(lia)). lia.
Qed.

Lemma fill_ff_in b base n x : base <= x < base + n -> fill_ff b base n x = 0xFF.
Proof.
  intros Hx. unfold fill_ff. pose proof (blit_in b base n (fun _ => 0xFF) (x - base)) as H.
  replace (base + (x - base)) with x in H by lia. apply H. lia.
Qed.

(** The root inode of a new file system. *)
Definition root_inode : inode :=
  set_hardlinks (set_size (set_mode (set_path (set_id uninit 0) root_path 2)
    (Z.lor S_IFDIR 0x1F6)) 0) 2.

Lemma root_inode_fields :
  i_id root_inode = 0 /\ i_mode root_inode = Z.lor S_IFDIR 0x1F6 /\ i_size root_inode = 0 /\
  i_hardlinks root_inode = 2 /\ forall k, 0 <= k < 2 -> i_path root_inode k = root_path k.
Proof.
  unfold root_inode. split_and!; try (by ifields).
  intros k Hk. unfold i_path, slice, set_hardlinks, set_size, set_mode, set_path.
  rewrite !store_other by (cbn; lia). by apply blit_in.
Qed.

(** The two maps before the root is entered. *)
Lemma init_maps d :
  disk_ok d ->
  exists d2 b d3 d4,
    setFileInit uninit d = Ok (tt, d2) /\ block_read 0 uninit d2 = Ok (b, d2) /\
    block_write 0 (fill_ff b.2 4 IMAP_SIZE) d2 = Ok (BLOCK_SIZE, d3) /\
    block_write 1 (fill_ff uninit 0 BMAP_SIZE) d3 = Ok (BLOCK_SIZE, d4) /\ disk_ok d4 /\
    swrap 32 (load 4 (rd d4) 0) = MAGIC_NUM /\
    (forall m, inode_num m -> inode_free d4 m = true) /\
    (forall k, block_num k -> block_free d4 k = true) /\
    agree (fun x => 2 * BLOCK_SIZE <= x) (rd d) (rd d4).
Proof.
  intros Hd. assert (valid_block 0 /\ valid_block 1) as [V0 V1] by (unfold valid_block; lia).
  destruct (block_write_spec d 0 (store 4 uninit 0 MAGIC_NUM) Hd V0) as (d2 & E2 & Hd2 & Hin2 & Hout2).
  destruct (block_read_spec d2 0 uninit Hd2 V0) as (r & b & E & Hb & _).
  destruct (block_write_spec d2 0 (fill_ff b 4 IMAP_SIZE) Hd2 V0) as (d3 & E3 & Hd3 & Hin3 & Hout3).
  destruct (block_write_spec d3 1 (fill_ff uninit 0 BMAP_SIZE) Hd3 V1)
    as (d4 & E4 & Hd4 & Hin4 & Hout4).
  exists d2, (r, b), d3, d4. split; [unfold setFileInit; by mstep by exact E2|].
  split; [done|]. split; [done|]. split; [done|]. split; [done|].
  assert (forall x, 0 <= x < BLOCK_SIZE -> rd d4 x = fill_ff b 4 IMAP_SIZE x) as H0.
  { intros x Hx. rewrite Hout4 by (unfold block_at, BLOCK_SIZE in *; lia). by apply Hin3. }
  split; [|split; [|split]].
  - rewrite (load_ext 4 (store 4 uninit 0 MAGIC_NUM) (rd d4)), load_store_same; [done|].
    intros x Hx. cbn in Hx. rewrite H0 by (unfold BLOCK_SIZE; lia).
    unfold fill_ff. rewrite blit_out by lia.
    rewrite Hb, <- Hin2 by (unfold BLOCK_SIZE; lia). done.
  - intros m Hm. pose proof (div8_bounds m 16 Hm). destruct Hm. apply bit_ff; [done|].
    rewrite H0 by (unfold BLOCK_SIZE; lia). apply fill_ff_in. unfold IMAP_SIZE. lia.
  - intros k Hk. pose proof (div8_bounds k 512 Hk). destruct Hk. apply bit_ff; [done|].
    rewrite <- (Z.mul_1_l BLOCK_SIZE), Hin4 by (unfold BLOCK_SIZE; lia).
    apply fill_ff_in. unfold BMAP_SIZE. lia.
  - intros x Hx. unfold block_at, BLOCK_SIZE in *. rewrite Hout4, Hout3, Hout2; [done|lia..].
Qed.

(** A disk with the magic number, the root and nothing else is formatted. *)
Lemma fresh_formatted d :
  disk_ok d -> swrap 32 (load 4 (rd d) 0) = MAGIC_NUM -> same_inode root_inode (node d 0) ->
  (forall m, inode_num m -> inode_free d m = if m =? 0 then false else true) ->
  (forall k, block_num k -> block_free d k = true) -> formatted d.
Proof.
  intros Hd Hmg Hnode Hif Hbf. assert (inode_num 0) as Hn0 by (unfold inode_num, INODE_LIST_SIZE; lia).
  destruct root_inode_fields as (Fid & Fmode & Fsz & Fhl & Fpath).
  assert (cstr_eq root_path (i_path (node d 0))) as Hroot.
  { exists 1. unfold load8. rewrite !(i_path_same _ _ _ Hnode), !Fpath by lia.
    split_and!; [lia|done|done|]. intros k Hk. assert (k = 0) as -> by lia.
    rewrite (i_path_same _ _ _ Hnode), Fpath by lia. done. }
  rewrite (i_id_proper _ _ Hnode) in Fid. rewrite (i_mode_proper _ _ Hnode) in Fmode.
  rewrite (i_size_proper _ _ Hnode) in Fsz. rewrite (i_hardlinks_proper _ _ Hnode) in Fhl.
  assert (forall m, inode_num m -> inode_free d m = false -> m = 0) as Honly.
  { intros m Hm' Hf. rewrite Hif in Hf by done. by destruct (Z.eqb_spec m 0). }
  assert (forall m, ~ is_file d m) as Hnone by (intros m (H1 & H2 & H3); auto).
  split; try done.
  - split; try (intros; exfalso; eapply Hnone; eassumption).
    + done.
    + done.
    + intros m Hm' Hf. rewrite (Honly m Hm' Hf). exists 1. split; [lia|]. unfold load8.
      by rewrite (i_path_same _ _ _ Hnode), Fpath by lia.
    + by rewrite Hif.
    + intros m Hm' Hf. by rewrite (Honly m Hm' Hf).
  - split; [done|]. split; [|done]. by rewrite Hif.
  - intros m Hm' Hne. rewrite Hif by done. by rewrite Zeqb_f.
Qed.

Lemma sfs_init_spec fd d :
  0 <= fd -> 0 <= dlen d -> dlen d mod BLOCK_SIZE = 0 ->
  swrap 32 (load 4 (rd d) 0) <> MAGIC_NUM ->
  exists d', sfs_init uninit fd d = Ok (tt, d') /\ formatted d' /\
    agree (fun x => inode_addr 0 + sizeof_inode <= x) (rd d) (rd d').
Proof.
  intros Hfd Hl Hm Hmagic. destruct (opened_ok fd d Hfd Hl Hm) as [E1 Hd1].
  assert (rd (opened fd d) = rd d) as Erd by (unfold opened, rd; by destruct (0 <=? diskfile d)).
  unfold sfs_init. mstep by exact E1.
  mstep by (apply checkIfInit_spec; done). rewrite Erd, (Zeqb_f _ _ Hmagic). cbn [Z.eqb].
  destruct (init_maps _ Hd1) as (d2 & b & d3 & d4 & E2 & Eb & E3 & E4 & Hd4 & Hmg & Him & Hbm & Hag4).
  mstep by exact E2. destruct b as [r b]. mstep by exact Eb. mstep by exact E3. mstep by exact E4.
  assert (inode_num 0) as Hn0 by (unfold inode_num, INODE_LIST_SIZE; lia).
  destruct (setInode_spec uninit d4 0 0 Hd4 (inode_entry_num 0 Hn0))
    as (d5 & E5 & Hd5 & Him5 & Hag5).
  mstep by exact E5. cbv zeta. fold root_inode.
  pose proof (proj1 root_inode_fields) as Fid.
  destruct (writeInode_spec uninit d5 root_inode 0 Hd5 Fid Hn0) as (d6 & E6 & Hd6 & Hnode & Hag6).
  mstep by exact E6.
  destruct (readInode_spec uninit d6 0 Hd6 Hn0) as (nd & E7 & _). mstep by exact E7.
  exists d6. split; [done|].
  pose proof (inode_addr_bounds 0 Hn0) as (Hlo & _ & _ & _).
  change (4 + 0 / 8) with 4 in Hag5. split.
  2: { intros x Hx. unfold sizeof_inode, BLOCK_SIZE in *.
       rewrite Hag6, Hag5, Hag4, Erd; [done|unfold BLOCK_SIZE in *; lia..]. }
  assert (forall m, inode_num m -> inode_free d6 m = if m =? 0 then false else true) as Hif.
  { intros m Hm'. rewrite (inode_free_agree d5 d6 m Hm').
    - rewrite Him5 by (by apply inode_entry_num). destruct (m =? 0); [done|auto].
    - eapply agree_weaken; [exact Hag6|]. unfold BLOCK_SIZE in *. intros x Hx. lia. }
  assert (forall k, block_num k -> block_free d6 k = true) as Hbf.
  { intros k Hk. rewrite (block_free_agree d4 d6 k Hk); [auto|].
    etrans; eapply agree_weaken; [exact Hag5| |exact Hag6|];
      unfold BLOCK_SIZE in *; intros x Hx; cbv beta in *; lia. }
  apply fresh_formatted; try done.
  rewrite (load_ext 4 (rd d4) (rd d6)); [done|]. intros x Hx. cbn in Hx.
  rewrite Hag6, Hag5; [done|lia|]. left. unfold BLOCK_SIZE in *. lia.
Qed.

Lemma sfs_init_again fd d :
  disk_ok d -> swrap 32 (load 4 (rd d) 0) = MAGIC_NUM -> sfs_init uninit fd d = Ok (tt, d).
Proof.
  intros Hd Hm. unfold sfs_init.
  mstep by (unfold disk_open; rewrite Zleb_t by apply Hd; reflexivity).
  mstep by (apply checkIfInit_spec; done). by rewrite Hm.
Qed.

(** ** Opening and listing *)

Lemma sfs_open_loop_spec d path fh N i :
  fs_ok d -> 0 <= i -> i + Z.of_nat N <= INODE_LIST_SIZE ->
  (exists n, sfs_open_loop uninit N i path fh d = Ok ((0, n), d) /\ holds d path n /\
     i <= n /\ forall k, i <= k < n -> ~ holds d path k) \/
  (sfs_open_loop uninit N i path fh d = Ok ((-1, fh), d) /\
     forall k, i <= k < i + Z.of_nat N -> ~ holds d path k).
Proof.
  intros Hok. unfold INODE_LIST_SIZE. revert i. induction N as [|N IH]; intros i Hi HN.
  { right. split; [done|]. intros; lia. }
  assert (inode_num i) as Hin by (unfold inode_num, INODE_LIST_SIZE; lia).
  cbn [sfs_open_loop].
  mstep by (apply isInodeFree_spec; [apply Hok|by apply inode_entry_num]).
  specialize (IH (i + 1) ltac:(lia) ltac:(lia)).
  set (E := sfs_open_loop uninit N (i + 1) path fh d) in *.
  assert (~ holds d path i ->
    (exists n, E = Ok ((0, n), d) /\ holds d path n /\
       i <= n /\ forall k, i <= k < n -> ~ holds d path k) \/
    (E = Ok ((-1, fh), d) /\ forall k, i <= k < i + Z.of_nat (S N) -> ~ holds d path k)) as Hnext.
  { intros Hno. destruct IH as [(n & -> & Hh & Hn & Hlt)|[-> Hlt]].
    - left. exists n. split_and!; try done; try lia. intros k Hk.
      destruct (decide (k = i)) as [->|]; [done|]. apply Hlt. lia.
    - right. split; [done|]. intros k Hk.
      destruct (decide (k = i)) as [->|]; [done|]. apply Hlt. lia. }
  destruct (inode_free d i) eqn:Ef; cbn [Z.b2z Z.eqb].
  - apply Hnext. intros (_ & Hf & _). congruence.
  - destruct (path_step uninit d (ok_disk d Hok) (ok_names d Hok) i path Hin Ef)
      as (nd & r & E1 & Hs & Er & Hr).
    mstep by exact E1. mstep by exact Er. destruct r.
    + left. exists i. split; [done|]. split; [by apply Hr|]. split; [lia|]. intros; lia.
    + apply Hnext. intros Hh. by apply Hr in Hh.
Qed.

Lemma sfs_open_spec d getfl path fh :
  fs_ok d -> getfl fh <> -1 ->
  (exists n, names d n path /\ sfs_open uninit getfl path fh d = Ok ((0, n), d)) \/
  ((forall n, ~ holds d path n) /\ sfs_open uninit getfl path fh d = Ok ((-1, fh), d)).
Proof.
  intros Hok Hfl. unfold sfs_open. rewrite (Zeqb_f _ _ Hfl).
  destruct (sfs_open_loop_spec d path fh (Z.to_nat INODE_LIST_SIZE) 0 Hok)
    as [(n & E & Hh & _ & Hlt)|[E Hlt]]; [lia|unfold INODE_LIST_SIZE; lia|left|right].
  - by exists n.
  - split; [|done]. intros n Hh. apply (Hlt n); [|done]. destruct Hh as [Hn _].
    unfold inode_num, INODE_LIST_SIZE in *. lia.
Qed.

(** The name of inode [m] in a listing, and the inodes listed. *)
Definition entry_name (d : disk) (m : Z) : mem := slice (node d m) 3.
Definition listed (d : disk) (i : Z) (n : nat) : list Z :=
  filter (fun m => inode_free d m = false) (seqZ i (Z.of_nat n)).

Lemma sfs_readdir_loop_spec {D} (filler : D -> mem -> D * Z) d N i dir :
  (forall dir a b, (forall k, 0 <= k < 255 -> a k = b k) -> filler dir a = filler dir b) ->
  disk_ok d -> 0 <= i -> i + Z.of_nat N <= INODE_LIST_SIZE ->
  sfs_readdir_loop uninit filler N i dir d
  = Ok (foldl (fun dir m => (filler dir (entry_name d m)).1) dir (listed d i N), d).
Proof.
  intros Hfill Hd. unfold INODE_LIST_SIZE. revert i dir.
  induction N as [|N IH]; intros i dir Hi HN; [done|].
  assert (inode_num i) as Hin by (unfold inode_num, INODE_LIST_SIZE; lia).
  cbn [sfs_readdir_loop]. mstep by (apply isInodeFree_spec; [done|by apply inode_entry_num]).
  unfold listed. rewrite seqZ_cons by lia. rewrite <- Z.add_1_r.
  replace (Z.pred (Z.of_nat (S N))) with (Z.of_nat N) by lia. rewrite filter_cons.
  destruct (inode_free d i) eqn:Ef; cbn [Z.b2z Z.eqb].
  - rewrite decide_False by done. apply IH; lia.
  - rewrite decide_True by done.
    destruct (readInode_spec uninit d i Hd Hin) as (nd & E & Hs). mstep by exact E.
    assert (filler dir (blit uninit 0 255 (slice nd 3)) = filler dir (entry_name d i)) as ->.
    { apply Hfill. intros k Hk. rewrite blit0_in by done. unfold entry_name, slice.
      apply Hs. unfold sizeof_inode. lia. }
    destruct (filler dir (entry_name d i)) as [dir' r] eqn:Efl.
    rewrite IH by lia. cbn [foldl]. by rewrite Efl.
Qed.
End handlers.
