(* ===== verification/SfsSpec.v ===== *)
(** * Correctness of the file system in [assignment3/src]

    The properties of the block device, of the on-disk structures and of the
    handlers, each with an instance on a disk that is formatted by [sfs_init]
    and holds one file. *)

From Stdlib Require Import String Ascii.
From S2P Require Import Prelude CMem Disk Inode InodeSpec Sfs SfsInv SfsWrite SfsOps.

Section lemmas.
Lemma holds_wrote d n buf off d' pos path m :
  is_file d n -> names_ok d -> wrote d n buf off d' pos -> inode_num m ->
  holds d path m <-> holds d' path m.
Proof.
  intros Hn Hnm Hw Hm. unfold holds. rewrite (wr_imap _ _ _ _ _ _ Hw m Hm).
  destruct (inode_free d m) eqn:Ef; [naive_solver|].
  assert (cstr_eq path (i_path (node d m)) <-> cstr_eq path (i_path (node d' m))) as Hc; [|tauto].
  pose proof (Hnm m Hm Ef) as Ht. destruct (decide (m = n)) as [->|Hne].
  - (* the written file keeps the bytes of its path *)
    assert (forall a nd nd', terminated nd -> (forall k, fixed_byte k -> nd' k = nd k) ->
      cstr_eq a (i_path nd) <-> cstr_eq a (i_path nd')) as Hfix.
    { intros a nd nd' Htm Hf.
      set (nd2 := (fun k => if k <? 264 then nd' k else nd k) : inode).
      assert (cstr_eq a (i_path nd) <-> cstr_eq a (i_path nd2)) as ->.
      { apply cstr_eq_same; [|done]. intros k Hk. unfold nd2.
        destruct (Z.ltb_spec k 264); [apply Hf; left; lia|done]. }
      destruct Htm as (k0 & Hk0 & Hz0).
      assert (forall k, 0 <= k < 256 -> load8 (i_path nd2) k = load8 (i_path nd') k) as Hp.
      { intros k Hk. unfold load8, i_path, slice, nd2. by rewrite Zltb_t by lia. }
      assert (load8 (i_path nd') k0 = 0) as Hz'.
      { rewrite <- Hz0. unfold load8, i_path, slice. rewrite Hf; [done|]. left. lia. }
      assert (forall c c', (forall k, 0 <= k < 256 -> load8 c k = load8 c' k) ->
        load8 c k0 = 0 -> cstr_eq a c -> cstr_eq a c') as Hgen.
      { intros c c' Hcc Hc0 (len & H1 & H2 & H3 & H4). exists len.
        assert (len <= k0) by (destruct (decide (len <= k0)); [done|];
          destruct (H4 k0 ltac:(lia)); congruence).
        rewrite <- Hcc by lia. split_and!; try done. intros k Hk. rewrite <- Hcc by lia. auto. }
      split; apply Hgen; try done; [by rewrite Hp|]. intros k Hk. by rewrite Hp. }
    apply Hfix; [done|]. apply Hw.
  - apply cstr_eq_same; [|done]. by apply Hw.
Qed.

Lemma names_wrote d n buf off d' pos path :
  is_file d n -> names_ok d -> wrote d n buf off d' pos -> names d n path -> names d' n path.
Proof.
  intros Hn Hnm Hw [Hh Hlt]. pose proof Hn as [Hnum _].
  split; [by apply (holds_wrote d n buf off d' pos path n)|].
  intros k Hk Hh'. apply (Hlt k Hk).
  apply (holds_wrote d n buf off d' pos path k); try done.
  unfold inode_num in *. lia.
Qed.

Lemma is_file_wrote d n buf off d' pos :
  is_file d n -> wrote d n buf off d' pos -> is_file d' n.
Proof.
  intros (H1 & H2 & H3) Hw. split; [done|]. split; [done|]. by rewrite (wr_imap _ _ _ _ _ _ Hw).
Qed.
End lemmas.

(** ** The handlers *)

Section theorems.
Context (uninit : mem).

(** C5: a write to an open file, at an offset inside the file or at its end,
    of bytes that stay below the largest file size, either writes all bytes or
    finds the disk full.  When it succeeds the file holds the new bytes at
    their place and its old bytes elsewhere, its size is the larger of the old
    size and the end of the write, its path and mode stay, every other file
    keeps its inode and its bytes, and the invariant [fs_ok] holds again.  When
    the disk is full, which only a write that needs a new block finds out, the
    result is -1, every inode is as before, the bytes of
    the other files are as before, and the invariant holds. *)
Theorem file_write_correct d n path buf size offset fh :
  fs_ok d -> is_file d n -> names d n path -> fh <> no_handle ->
  0 <= offset <= i_size (node d n) -> 0 < size -> offset + size < MAX_FILE ->
  (exists d', sfs_write uninit path buf size offset fh d = Ok (size, d') /\
     fs_ok d' /\ names d' n path /\
     i_size (node d' n) = Z.max (i_size (node d n)) (offset + size) /\
     i_mode (node d' n) = i_mode (node d n) /\
     (forall p, 0 <= p < i_size (node d' n) ->
        file_byte d' (node d' n) p
        = if (offset <=? p) && (p <? offset + size) then buf (p - offset)
          else file_byte d (node d n) p) /\
     (forall m, is_file d m -> m <> n ->
        is_file d' m /\ same_inode (node d m) (node d' m) /\
        forall p, 0 <= p < i_size (node d m) ->
          file_byte d' (node d' m) p = file_byte d (node d m) p)) \/
  (exists d', sfs_write uninit path buf size offset fh d = Ok (-1, d') /\
     fs_ok d' /\ disk_full d' /\
     nblocks (i_size (node d n)) * BLOCK_SIZE <= offset + size /\
     (forall m, inode_num m -> same_inode (node d m) (node d' m)) /\
     (forall m p, is_file d m -> m <> n -> 0 <= p < i_size (node d m) ->
        file_byte d' (node d' m) p = file_byte d (node d m) p)).
Proof.
  intros Hok Hn Hp Hfh Hoff Hsz Hmax.
  destruct (sfs_write_spec uninit d Hok n Hn buf offset Hoff path size fh Hp Hfh Hsz Hmax)
    as [(d' & E & Hw)|(d' & E & Hab & Hroom)]; [left|right]; exists d'; (split; [done|]).
  - split; [apply Hw|]. split; [eapply names_wrote; eauto; apply Hok|].
    split; [apply Hw|]. split.
    { unfold i_mode. apply load_ext. intros x Hx. cbn in Hx.
      apply (wr_fixed _ _ _ _ _ _ Hw). left. lia. }
    split; [intros k Hk; rewrite (wr_size _ _ _ _ _ _ Hw) in Hk; by apply Hw|].
    intros m (Hm1 & Hm2 & Hm3) Hne.
    split; [split; [done|]; split; [done|]; by rewrite (wr_imap _ _ _ _ _ _ Hw)|].
    split; [by apply Hw|]. intros k Hk. by apply (wr_other_bytes _ _ _ _ _ _ Hw).
  - split; [apply Hab|]. split; [apply Hab|]. split; [done|]. split; [intros m Hm; by apply Hab|]. apply Hab.
Qed.

(** Reading inside the blocks of a file returns as many bytes as were
    asked for, each the byte of the file at its offset; nothing else of the
    buffer changes, and neither does the disk.  The handler does not stop at
    the end of the file: past it the bytes are those of the last block. *)
Theorem file_read_correct d n path buf size offset :
  fs_ok d -> is_file d n -> names d n path ->
  0 < size -> 0 <= offset <= i_size (node d n) ->
  offset + size < nblocks (i_size (node d n)) * BLOCK_SIZE ->
  exists buf', sfs_read uninit path buf size offset d = Ok ((size, buf'), d) /\
    (forall k, 0 <= k < size -> buf' k = file_byte d (node d n) (offset + k)) /\
    (forall k, k < 0 \/ size <= k -> buf' k = buf k).
Proof. apply sfs_read_spec. Qed.

(** C7: what a successful write puts into a file is what a read of the same
    range returns afterwards. *)
Theorem write_then_read d n path buf size offset fh d' buf0 :
  fs_ok d -> is_file d n -> names d n path -> fh <> no_handle ->
  0 <= offset <= i_size (node d n) -> 0 < size -> offset + size < MAX_FILE ->
  sfs_write uninit path buf size offset fh d = Ok (size, d') ->
  exists buf', sfs_read uninit path buf0 size offset d' = Ok ((size, buf'), d') /\
    forall k, 0 <= k < size -> buf' k = buf k.
Proof.
  intros Hok Hn Hp Hfh Hoff Hsz Hmax E.
  destruct (sfs_write_spec uninit d Hok n Hn buf offset Hoff path size fh Hp Hfh Hsz Hmax)
    as [(d1 & E1 & Hw)|(d1 & E1 & Hab & _)]; rewrite E in E1; injection E1; intros; subst d1; [|lia].
  pose proof (is_file_wrote _ _ _ _ _ _ Hn Hw) as Hn'.
  pose proof (names_wrote _ _ _ _ _ _ _ Hn (ok_names d Hok) Hw Hp) as Hp'.
  pose proof (ok_size d' (wr_ok _ _ _ _ _ _ Hw) n Hn') as HS'.
  pose proof (wr_size _ _ _ _ _ _ Hw) as Es. rewrite Es in HS'.
  destruct (sfs_read_spec uninit d' n path buf0 size offset) as (buf' & Er & Hb' & _).
  - apply Hw.
  - done.
  - done.
  - done.
  - lia.
  - rewrite Es. pose proof (div_BS (Z.max (i_size (node d n)) (offset + size))).
    unfold nblocks, MAX_FILE, BLOCK_SIZE in *. lia.
  - exists buf'. split; [done|]. intros k Hk. rewrite Hb' by done.
    rewrite (wr_bytes _ _ _ _ _ _ Hw) by lia. unfold expected. btests. f_equal. lia.
Qed.

(** The three ways [sfs_create] ends. *)
Lemma sfs_create_spec d path mode fh :
  fs_ok d -> (exists k, 0 <= k < 256 /\ load8 path k = 0) ->
  (exists n b d', inode_free d n = true /\ (forall k, 0 <= k < n -> inode_free d k = false) /\
     block_free d b = true /\ (forall k, 0 <= k < b -> block_free d k = false) /\
     sfs_create uninit path mode fh d = Ok ((0, n), d') /\ created d n b path mode d' /\
     ((forall m, ~ holds d path m) -> names d' n path)) \/
  (exists n d', inode_free d n = true /\ inode_num n /\ disk_full d /\
     sfs_create uninit path mode fh d = Ok ((-1, fh), d') /\ inode_free d' n = false) \/
  ((forall n, inode_num n -> inode_free d n = false) /\
   sfs_create uninit path mode fh d = Ok ((0, fh), d)).
Proof.
  intros Hok Hpath. unfold sfs_create.
  destruct (create_search uninit d path mode fh (Z.to_nat INODE_LIST_SIZE) 0 (ok_disk d Hok))
    as [(n & N' & Hn & Hf & Hlt & ->)|[Hno ->]]; [lia|unfold INODE_LIST_SIZE; lia| |].
  2: { right; right. split; [|done]. intros n Hn. apply Hno.
       unfold inode_num, INODE_LIST_SIZE in *. lia. }
  assert (inode_num n) as Hnum by (unfold inode_num, INODE_LIST_SIZE in *; lia).
  destruct (create_at uninit d n path mode fh N' Hok Hnum Hf Hpath)
    as [(b & d' & Hb & Hbf & Hblt & E & Hc)|(Hfull & d' & E & Him & _)].
  - left. exists n, b, d'. split_and!; try done. intros Hnone. split.
    + split; [done|]. split; [apply Hc|apply Hc].
    + intros k Hk Hh. apply (Hnone k). destruct Hh as (Hk1 & Hk2 & Hk3).
      destruct (cr_others _ _ _ _ _ _ Hc k Hk1 ltac:(lia)) as [Ek Hs].
      rewrite Ek in Hk2. split; [done|]. split; [done|].
      by apply (cstr_eq_same path _ _ Hs), Hk3; apply (ok_names d Hok).
  - right; left. exists n, d'. split_and!; try done. rewrite Him by done. by rewrite Z.eqb_refl.
Qed.

(** C31: creating a file takes the lowest free inode and the lowest free block.
    The new file is empty, has the path and mode given, one link, and is what
    the path names when no file had it; the other files and all data blocks
    are as before and the invariant holds.  Without a free block the result is
    -1, and the inode that was taken stays marked as used.  Without a free inode
    the result is 0, success, although nothing is created: the comment over the
    function says that it creates the file and then opens it. *)
Theorem file_create_correct d path mode fh :
  fs_ok d -> (exists k, 0 <= k < 256 /\ load8 path k = 0) ->
  (exists n b d', inode_free d n = true /\ (forall k, 0 <= k < n -> inode_free d k = false) /\
     block_free d b = true /\ (forall k, 0 <= k < b -> block_free d k = false) /\
     sfs_create uninit path mode fh d = Ok ((0, n), d') /\ created d n b path mode d' /\
     ((forall m, ~ holds d path m) -> names d' n path)) \/
  (exists n d', inode_free d n = true /\ inode_num n /\ disk_full d /\
     sfs_create uninit path mode fh d = Ok ((-1, fh), d') /\ inode_free d' n = false) \/
  ((forall n, inode_num n -> inode_free d n = false) /\
   sfs_create uninit path mode fh d = Ok ((0, fh), d)).
Proof. apply sfs_create_spec. Qed.

(** C32: removing a file frees its inode and its blocks and changes no other
    inode, no data, and no other entry of the maps, except that one entry of
    the data array past the last block of the file is freed too.  When that
    stale entry is not a block of another file the invariant holds again. *)
Theorem file_unlink_correct d n path :
  fs_ok d -> is_file d n -> names d n path ->
  -2147483646 <= i_hardlinks (node d n) <= 2 ->
  i_size (node d n) / BLOCK_SIZE + 1 < 1024 ->
  block_entry (i_data (node d n) (i_size (node d n) / BLOCK_SIZE + 1)) ->
  exists d', sfs_unlink uninit path d = Ok (0, d') /\
    (forall m, inode_num m -> inode_free d' m = if m =? n then true else inode_free d m) /\
    (forall m, inode_num m -> same_inode (node d m) (node d' m)) /\
    (forall b, block_num b ->
       block_free d' b = true <-> block_free d b = true \/ unlinked (node d n) b) /\
    (forall b x, block_num b -> 0 <= x < BLOCK_SIZE ->
       rd d' (data_addr b x) = rd d (data_addr b x)) /\
    (~ foreign d n (i_data (node d n) (i_size (node d n) / BLOCK_SIZE + 1)) -> fs_ok d').
Proof.
  intros Hok Hn Hp Hl Hlast He.
  destruct (sfs_unlink_spec uninit d n path Hok Hn Hp ltac:(lia) ltac:(lia) Hlast He)
    as (d' & E & Hr).
  exists d'. split; [done|]. split; [apply Hr|]. split; [apply Hr|]. split; [apply Hr|].
  split; [apply Hr|]. intros Hno. by eapply removed_ok.
Qed.

(** Mounting a disk without the magic number formats it: only the root
    inode is in use, with the path "/" and no data, every block is free, and
    the invariant holds, whatever the disk held. *)
Theorem mount_formats fd d :
  0 <= fd -> 0 <= dlen d -> dlen d mod BLOCK_SIZE = 0 ->
  swrap 32 (load 4 (rd d) 0) <> MAGIC_NUM ->
  exists d', sfs_init uninit fd d = Ok (tt, d') /\
    fs_ok d' /\ names d' 0 root_path /\
    i_mode (node d' 0) = Z.lor S_IFDIR 0x1F6 /\ i_size (node d' 0) = 0 /\
    (forall m, inode_num m -> m <> 0 -> inode_free d' m = true) /\
    (forall b, block_num b -> block_free d' b = true).
Proof.
  intros H1 H2 H3 H4. destruct (sfs_init_spec uninit fd d H1 H2 H3 H4) as (d' & E & Hf & _).
  exists d'. split; [done|]. split; [apply Hf|].
  split; [split; [apply Hf|]; intros; lia|]. destruct (fm_root_attr d' Hf) as (? & ? & _).
  split; [done|]. split; [done|]. split; apply Hf.
Qed.

(** Mounting a formatted disk changes nothing on it. *)
Theorem mount_keeps fd d :
  fs_ok d -> sfs_init uninit fd d = Ok (tt, d).
Proof. intros Hok. apply sfs_init_again; apply Hok. Qed.

(** [sfs_getattr] and [sfs_open] find the same file: the first inode with
    the path, whose mode, links, size and number are the attributes and whose
    number becomes the handle; for a path that no inode has, the results are
    [-ENOENT] and -1.  Nothing changes on the disk. *)
Theorem lookup_correct d path now st getfl fh :
  fs_ok d -> ~ cstr_eq path root_path -> getfl fh <> -1 ->
  (exists n, names d n path /\
     sfs_getattr uninit now path st d
     = Ok ((0, Stat (i_mode (node d n)) (i_hardlinks (node d n)) (i_size (node d n))
                 (Z.quot (i_size (node d n)) BLOCK_SIZE + 1) n now now now), d) /\
     sfs_open uninit getfl path fh d = Ok ((0, n), d)) \/
  ((forall n, ~ holds d path n) /\
   sfs_getattr uninit now path st d = Ok ((- ENOENT, st), d) /\
   sfs_open uninit getfl path fh d = Ok ((-1, fh), d)).
Proof.
  intros Hok Hr Hfl.
  destruct (sfs_getattr_spec uninit now d path st Hok Hr) as [(n & Hp & Hn & E)|[Hno E]],
    (sfs_open_spec uninit d getfl path fh Hok Hfl) as [(m & Hp' & E')|[Hno' E']].
  - left. exists n. split; [done|]. split; [done|]. rewrite E'. do 3 f_equal.
    destruct Hp as [Hh Hlt], Hp' as [Hh' Hlt'].
    destruct Hh as [[? ?] ?], Hh' as [[? ?] ?].
    destruct (Z.lt_trichotomy m n) as [?|[?|?]]; [|done|];
      [destruct (Hlt m)|destruct (Hlt' n)]; try lia; by split.
  - exfalso. by apply (Hno' n), Hp.
  - exfalso. by apply (Hno m), Hp'.
  - by right.
Qed.

(** A directory listing gives the filler the name of every inode in use
    but the root, in the order of the table, each once, and returns 0. *)
Theorem readdir_correct {D} (filler : D -> mem -> D * Z) d dir :
  fs_ok d ->
  (forall dir a b, (forall k, 0 <= k < 255 -> a k = b k) -> filler dir a = filler dir b) ->
  sfs_readdir uninit filler dir d
  = Ok ((0, foldl (fun dir m => (filler dir (entry_name d m)).1) dir
              (filter (fun m => inode_free d m = false) (seqZ 1 127))), d).
Proof.
  intros Hok Hfill. unfold sfs_readdir.
  mstep by (apply sfs_readdir_loop_spec; [exact Hfill|apply Hok|lia|]; unfold INODE_LIST_SIZE; lia).
  done.
Qed.
End theorems.

(** ** The structures on the disk *)

Section structures.
Context (uninit : mem).

(** An inode written to the table is read back byte for byte, whatever
    inode it is; every other inode of the table, both maps and the data blocks
    stay as they are. *)
Theorem inode_table_roundtrip d nd :
  disk_ok d -> inode_num (i_id nd) ->
  exists d' nd', writeInode uninit nd d = Ok (tt, d') /\
    readInode uninit (i_id nd) d' = Ok (nd', d') /\ same_inode nd nd' /\
    (forall m, inode_num m -> m <> i_id nd -> same_inode (node d m) (node d' m)) /\
    (forall m, inode_num m -> inode_free d' m = inode_free d m) /\
    (forall b, block_num b -> block_free d' b = block_free d b) /\
    agree (fun x => D_BLOCK_START * BLOCK_SIZE <= x) (rd d) (rd d').
Proof.
  intros Hd Hn. destruct (writeInode_spec uninit d nd _ Hd eq_refl Hn)
    as (d' & E & Hd' & Hs & Hag).
  destruct (readInode_spec uninit d' (i_id nd) Hd' Hn) as (nd' & E' & Hs').
  pose proof (inode_addr_bounds _ Hn) as (Hlo & _ & _ & Hhi).
  exists d', nd'. split; [done|]. split; [done|]. split; [by etrans|]. split_and!.
  - intros m Hm Hne. pose proof (inode_addr_disjoint m _ Hm Hn Hne) as Hdis.
    apply node_agree; [done|]. eapply agree_weaken; [exact Hag|]. intros x Hx. cbv beta in *. lia.
  - intros m Hm. apply inode_free_agree; [done|]. eapply agree_weaken; [exact Hag|].
    unfold BLOCK_SIZE in *. intros x Hx. lia.
  - intros b Hb. apply block_free_agree; [done|]. eapply agree_weaken; [exact Hag|].
    unfold BLOCK_SIZE in *. intros x Hx. cbv beta in *. lia.
  - eapply agree_weaken; [exact Hag|]. intros x Hx. cbv beta in *. lia.
Qed.

(** An entry of the block map or of the inode map is set and read alone:
    after [setBlock(n, s)] the entry [n] is free exactly when [s] is 1 and all
    other entries are as before, and only the byte of the map that holds the
    entry can change; [setInode] likewise, and it leaves the magic number. *)
Theorem map_entries d n s :
  disk_ok d -> block_num n ->
  (exists d', setBlock uninit n s d = Ok (tt, d') /\
     (forall k, block_num k ->
        isBlockFree uninit k d'
        = Ok (Z.b2z (if k =? n then s =? 1 else block_free d k), d')) /\
     agree (fun x => x <> BLOCK_SIZE + n / 8) (rd d) (rd d')) /\
  (inode_num n -> exists d', setInode uninit n s d = Ok (tt, d') /\
     (forall k, inode_num k ->
        isInodeFree uninit k d'
        = Ok (Z.b2z (if k =? n then s =? 1 else inode_free d k), d')) /\
     agree (fun x => x <> 4 + n / 8) (rd d) (rd d')).
Proof.
  intros Hd Hn. split.
  - destruct (setBlock_spec uninit d n s Hd (block_entry_num n Hn)) as (d' & E & Hd' & Hb & Hag).
    exists d'. split; [done|]. split; [|done]. intros k Hk. pose proof (block_entry_num k Hk).
    rewrite isBlockFree_spec, Hb by done. done.
  - intros Hi. destruct (setInode_spec uninit d n s Hd (inode_entry_num n Hi))
      as (d' & E & Hd' & Hb & Hag).
    exists d'. split; [done|]. split; [|done]. intros k Hk. pose proof (inode_entry_num k Hk).
    rewrite isInodeFree_spec, Hb by done. done.
Qed.

(** [findNextOpenBlock] returns the lowest free block, and -1 exactly
    when there is none. *)
Theorem next_open_block d :
  disk_ok d ->
  exists b, findNextOpenBlock uninit d = Ok (b, d) /\
    (b = -1 <-> disk_full d) /\
    (b <> -1 -> block_num b /\ block_free d b = true /\
       forall k, 0 <= k < b -> block_free d k = false).
Proof.
  intros Hd. destruct (findNextOpenBlock_spec uninit d Hd) as (b & E & Hb).
  exists b. split; [done|]. destruct Hb as [(Hb & Hf & Hlt)|[-> Hfull]].
  - split; [|done]. split; [destruct Hb; lia|]. intros Hfull.
    rewrite (Hfull b Hb) in Hf. done.
  - split; [|done]. split; done.
Qed.

(** A block of the device reads back what was last written to it, every
    other block keeps its content, a block never written reads as zeroes with
    result 0, and on a closed descriptor a read gives zeroes and -1 and a write
    does nothing. *)
Theorem block_device_correct d n buf buf0 :
  disk_ok d -> valid_block n ->
  (exists d' b, block_write n buf d = Ok (BLOCK_SIZE, d') /\ disk_ok d' /\
     block_read n buf0 d' = Ok ((BLOCK_SIZE, b), d') /\
     (forall k, 0 <= k < BLOCK_SIZE -> b k = buf k) /\
     (forall x, ~ block_at n x -> rd d' x = rd d x)) /\
  (dlen d <= n * BLOCK_SIZE ->
     exists b, block_read n buf0 d = Ok ((0, b), d) /\ forall k, 0 <= k < BLOCK_SIZE -> b k = 0) /\
  (forall d0, diskfile d0 < 0 ->
     block_write n buf d0 = Ok (-1, d0) /\
     exists b, block_read n buf0 d0 = Ok ((-1, b), d0) /\ forall k, 0 <= k < BLOCK_SIZE -> b k = 0).
Proof.
  intros Hd Hn. split; [|split].
  - destruct (block_write_spec d n buf Hd Hn) as (d' & E & Hd' & Hin & Hout).
    assert (n * BLOCK_SIZE + BLOCK_SIZE <= dlen d') as Hlen.
    { revert E. unfold block_write. rewrite block_offset_ok by done. cbn [mbind result_bind].
      unfold pwrite. destruct Hd as (Hf & _). rewrite (Zltb_f (diskfile d)) by lia.
      rewrite (Zltb_f (n * _)) by (unfold valid_block, BLOCK_SIZE in *; lia).
      intros [= <-]. cbn. lia. }
    assert (exists b, block_read n buf0 d' = Ok ((BLOCK_SIZE, b), d') /\
      forall k, 0 <= k < BLOCK_SIZE -> b k = rd d' (n * BLOCK_SIZE + k)) as (b & Eb & Hb).
    { destruct Hd' as (Hf & _). unfold block_read. rewrite block_offset_ok by done.
      cbn [mbind result_bind]. unfold pread. rewrite (Zltb_f (diskfile d')) by lia.
      rewrite (Zltb_f (n * _)) by (unfold valid_block, BLOCK_SIZE in *; lia). cbn [orb].
      replace (Z.max 0 _) with BLOCK_SIZE by (unfold BLOCK_SIZE in *; lia).
      change (BLOCK_SIZE <=? 0) with false. eexists. split; [reflexivity|].
      intros k Hk. rewrite blit0_in by done. unfold slice, rd. by btests. }
    exists d', b. split_and!; try done. intros k Hk. by rewrite Hb, Hin.
  - intros Hl. destruct Hd as (Hf & _). unfold block_read. rewrite block_offset_ok by done.
    cbn [mbind result_bind]. unfold pread. rewrite (Zltb_f (diskfile d)) by lia.
    rewrite (Zltb_f (n * _)) by (unfold valid_block, BLOCK_SIZE in *; lia). cbn [orb].
    replace (Z.max 0 _) with 0 by lia. change (0 <=? 0) with true. cbv iota.
    eexists. split; [reflexivity|]. intros k Hk. by rewrite blit0_in.
  - intros d0 Hneg. unfold block_write, block_read. rewrite block_offset_ok by done.
    cbn [mbind result_bind]. unfold pread, pwrite. rewrite (Zltb_t (diskfile d0)) by lia. cbn [orb].
    split; [done|]. change (-1 <=? 0) with true. cbv iota.
    eexists. split; [reflexivity|]. intros k Hk. by rewrite blit0_in.
Qed.
End structures.

(** ** A disk with one file *)

(** The bytes of a C string. *)
Fixpoint cstring (s : string) : mem :=
  match s with
  | EmptyString => fun _ => 0
  | String c s => fun k => if k =? 0 then Z.of_N (N_of_ascii c) else cstring s (k - 1)
  end.

Definition zeros : mem := fun _ => 0.
Definition path_a : mem := cstring "/a".
Definition blank : disk := Disk zeros 0 (-1).

Lemma path_a_end : exists k, 0 <= k < 256 /\ load8 path_a k = 0.
Proof. by exists 2. Qed.

Lemma path_a_not_root b : cstr_eq root_path b -> ~ cstr_eq path_a b.
Proof.
  intros (l1 & ? & Hr & Hb & H1) (l2 & ? & Ha & Hb' & H2).
  destruct (H2 1) as [E _].
  { assert (l2 <> 0) by (intros ->; done). assert (l2 <> 1) by (intros ->; done). lia. }
  destruct (H1 0) as [E0 _]; [assert (l1 <> 0) by (intros ->; done); lia|].
  destruct (decide (l1 <= 1)) as [|Hl].
  - assert (l1 = 1) as -> by (assert (l1 <> 0) by (intros ->; done); lia).
    rewrite Hb in E. done.
  - destruct (H1 1) as [_ Hn]; [lia|]. done.
Qed.

Lemma demo_disk :
  exists d, fs_ok d /\ is_file d 1 /\ names d 1 path_a /\ i_size (node d 1) = 0 /\
    i_hardlinks (node d 1) = 1 /\ i_data (node d 1) 1 = 0.
Proof.
  destruct (sfs_init_spec zeros 3 blank) as (d & _ & Hf & Hag); try done.
  assert (inode_num 1) as H1 by (unfold inode_num, INODE_LIST_SIZE; lia).
  assert (inode_num 0) as H0 by (unfold inode_num, INODE_LIST_SIZE; lia).
  destruct (create_at zeros d 1 path_a 0x81A4 0 0 (fm_ok d Hf) H1
    (fm_inodes d Hf 1 H1 ltac:(done)) path_a_end) as [(b & d' & _ & _ & _ & _ & Hc)|[Hfull _]].
  2: { assert (block_num 0) as Hb0 by (unfold block_num, BLOCK_LIST_SIZE; lia).
       pose proof (Hfull 0 Hb0) as E. by rewrite (fm_blocks d Hf 0 Hb0) in E. }
  exists d'. destruct (cr_attr _ _ _ _ _ _ Hc) as (Hs & _ & Hl & _).
  split; [apply Hc|]. split; [apply Hc|]. split; [split|].
  - split; [done|]. split; [apply Hc|apply Hc].
  - intros k Hk (_ & _ & Heq). assert (k = 0) as -> by lia.
    destruct (cr_others _ _ _ _ _ _ Hc 0 H0 ltac:(done)) as [_ Hsame].
    destruct (fm_root d Hf) as (_ & Hf0 & Hroot).
    apply (cstr_eq_same root_path _ _ Hsame) in Hroot.
    + by apply (path_a_not_root _ Hroot).
    + apply (ok_names d (fm_ok d Hf)); done.
  - split; [done|]. split; [done|]. rewrite (cr_stale _ _ _ _ _ _ Hc) by lia.
    assert (forall x, 0 <= x < 4 -> node d 1 (268 + 4 * 1 + x) = 0) as Hz.
    { intros x Hx. unfold node, slice.
      assert (inode_addr 1 = inode_addr 0 + sizeof_inode) as Ea by reflexivity.
      rewrite Hag by (rewrite Ea; lia). unfold rd. by destruct (_ <? _). }
    unfold i_data. rewrite (load_ext 4 zeros (node d 1)); [done|].
    intros x Hx. cbn in Hx. replace x with (268 + 4 * 1 + (x - 272)) by lia.
    rewrite Hz by lia. done.
Qed.

(** ** Removing a file can free a block of another *)

Definition path_b : mem := cstring "/b".
Definition path_c : mem := cstring "/c".

(** Three files: "/a" is written, "/b" is created and removed, "/c" is created
    and written, then "/a" is read. *)
Definition shared_block : M disk (list Z * list Z) :=
  _ ← sfs_init zeros 3;
  '(r1, fh1) ← sfs_create zeros path_a 0x81A4 0;
  w1 ← sfs_write zeros path_a (cstring "first") 5 0 fh1;
  '(r2, _) ← sfs_create zeros path_b 0x81A4 0;
  u ← sfs_unlink zeros path_b;
  '(r3, fh3) ← sfs_create zeros path_c 0x81A4 0;
  w3 ← sfs_write zeros path_c (cstring "third") 5 0 fh3;
  '(r, buf) ← sfs_read zeros path_a zeros 5 0;
  mret ([r1; w1; r2; u; r3; w3; r], map (fun k => load8 buf k) [0; 1; 2; 3; 4]).

Definition observe {A} (r : result (A * disk)) : option A :=
  match r with Ok (a, _) => Some a | _ => None end.

(** [sfs_unlink] frees one entry of the data array too many.  On a new
    disk that entry is 0, the block of the first file: after "/b" was removed,
    "/c" is given the block of "/a", and reading "/a" returns the bytes that
    were written to "/c".  Every call reports success. *)
Theorem unlink_shares_block :
  observe (shared_block blank)
  = Some ([0; 5; 0; 0; 0; 5; 5], map (fun k => load8 (cstring "third") k) [0; 1; 2; 3; 4]).
Proof. vm_compute. reflexivity. Qed.

(** ** The theorems on that disk *)

Lemma file_write_correct_witness :
  exists d d', sfs_write zeros path_a (cstring "hello") 5 0 1 d = Ok (5, d') /\ fs_ok d' /\
    i_size (node d' 1) = 5.
Proof.
  destruct demo_disk as (d & Hok & Hn & Hp & Hs & _).
  assert (0 <= 0 <= i_size (node d 1)) as Hoff by (rewrite Hs; lia).
  destruct (file_write_correct zeros d 1 path_a (cstring "hello") 5 0 1 Hok Hn Hp
    ltac:(discriminate) Hoff ltac:(lia) ltac:(reflexivity))
    as [(d' & E & Hok' & _ & Hs' & _)|(d' & _ & _ & _ & Hroom & _)].
  - exists d, d'. rewrite Hs in Hs'. split; [exact E|]. split; [exact Hok'|exact Hs'].
  - rewrite Hs in Hroom. exfalso. apply Hroom. reflexivity.
Defined.

Lemma file_read_correct_witness :
  exists d buf', sfs_read zeros path_a zeros 5 0 d = Ok ((5, buf'), d).
Proof.
  destruct demo_disk as (d & Hok & Hn & Hp & Hs & _).
  assert (0 <= 0 <= i_size (node d 1)) as Hoff by (rewrite Hs; lia).
  assert (0 + 5 < nblocks (i_size (node d 1)) * BLOCK_SIZE) as Hlt by (rewrite Hs; reflexivity).
  destruct (file_read_correct zeros d 1 path_a zeros 5 0 Hok Hn Hp ltac:(lia) Hoff Hlt)
    as (buf' & E & _).
  exists d, buf'. exact E.
Defined.

Lemma demo_write :
  exists d d', fs_ok d /\ is_file d 1 /\ names d 1 path_a /\ i_size (node d 1) = 0 /\
    sfs_write zeros path_a (cstring "hello") 5 0 1 d = Ok (5, d').
Proof.
  destruct demo_disk as (d & Hok & Hn & Hp & Hs & _).
  destruct (sfs_write_spec zeros d Hok 1 Hn (cstring "hello") 0 ltac:(rewrite Hs; lia)
    path_a 5 1 Hp ltac:(done) ltac:(lia) ltac:(done)) as [(d' & E & _)|(d' & _ & _ & Hroom)].
  - by exists d, d'.
  - rewrite Hs in Hroom. exfalso. by apply Hroom.
Qed.

Lemma write_then_read_witness :
  exists d' buf', sfs_read zeros path_a zeros 5 0 d' = Ok ((5, buf'), d') /\
    forall k, 0 <= k < 5 -> buf' k = cstring "hello" k.
Proof.
  destruct demo_write as (d & d' & Hok & Hn & Hp & Hs & E).
  assert (0 <= 0 <= i_size (node d 1)) as Hoff by (rewrite Hs; lia).
  destruct (write_then_read zeros d 1 path_a (cstring "hello") 5 0 1 d' zeros Hok Hn Hp
    ltac:(discriminate) Hoff ltac:(lia) ltac:(reflexivity) E) as (buf' & Er & Hb).
  exists d', buf'. split; [exact Er|exact Hb].
Defined.

Lemma demo_formatted : exists d, formatted d.
Proof. destruct (sfs_init_spec zeros 3 blank) as (d & _ & Hf & _); try done. by exists d. Qed.

Lemma file_create_correct_witness :
  exists d n d', sfs_create zeros path_a 0x81A4 0 d = Ok ((0, n), d') /\ fs_ok d'.
Proof.
  destruct demo_formatted as (d & Hf).
  destruct (file_create_correct zeros d path_a 0x81A4 0 (fm_ok d Hf) path_a_end)
    as [(n & b & d' & _ & _ & _ & _ & E & Hc & _)|[(n & d' & _ & _ & Hfull & _)|[Hno _]]].
  - exists d, n, d'. split; [exact E|exact (cr_ok _ _ _ _ _ _ Hc)].
  - exfalso. assert (block_num 0) as Hb by (unfold block_num, BLOCK_LIST_SIZE; lia).
    pose proof (Hfull 0 Hb) as E. rewrite (fm_blocks d Hf 0 Hb) in E. discriminate.
  - exfalso. assert (inode_num 1) as H1 by (unfold inode_num, INODE_LIST_SIZE; lia).
    pose proof (Hno 1 H1) as E. rewrite (fm_inodes d Hf 1 H1 ltac:(discriminate)) in E.
    discriminate.
Defined.

Lemma file_unlink_correct_witness :
  exists d d', sfs_unlink zeros path_a d = Ok (0, d') /\ inode_free d' 1 = true.
Proof.
  destruct demo_disk as (d & Hok & Hn & Hp & Hs & Hl & Hd).
  assert (-2147483646 <= i_hardlinks (node d 1) <= 2) as H1 by (rewrite Hl; lia).
  assert (i_size (node d 1) / BLOCK_SIZE + 1 < 1024) as H2 by (rewrite Hs; reflexivity).
  assert (block_entry (i_data (node d 1) (i_size (node d 1) / BLOCK_SIZE + 1))) as H3.
  { rewrite Hs. change (0 / BLOCK_SIZE + 1) with 1. rewrite Hd.
    unfold block_entry, BLOCK_SIZE. lia. }
  destruct (file_unlink_correct zeros d 1 path_a Hok Hn Hp H1 H2 H3) as (d' & E & Him & _).
  exists d, d'. split; [exact E|].
  exact (Him 1 ltac:(unfold inode_num, INODE_LIST_SIZE; lia)).
Defined.

Lemma mount_formats_witness :
  exists d', sfs_init zeros 3 blank = Ok (tt, d') /\ fs_ok d'.
Proof.
  destruct (mount_formats zeros 3 blank ltac:(lia) ltac:(simpl; lia) ltac:(reflexivity)
    ltac:(discriminate)) as (d' & E & Hok & _).
  exists d'. split; [exact E|exact Hok].
Defined.

Lemma mount_keeps_witness : exists d, sfs_init zeros 3 d = Ok (tt, d).
Proof.
  destruct demo_formatted as (d & Hf). exists d.
  exact (mount_keeps zeros 3 d (fm_ok d Hf)).
Defined.

Lemma lookup_correct_witness :
  exists d st, sfs_getattr zeros 7 path_a (Stat 0 0 0 0 0 0 0 0) d = Ok ((0, st), d).
Proof.
  destruct demo_disk as (d & Hok & Hn & Hp & _).
  assert (cstr_eq path_a path_a) as Hself.
  { exists 2. split; [lia|]. split; [reflexivity|]. split; [reflexivity|].
    intros k Hk. split; [reflexivity|].
    assert (k = 0 \/ k = 1) as [-> | ->] by lia; discriminate. }
  assert (cstr_eq root_path root_path) as Hr.
  { exists 1. split; [lia|]. split; [reflexivity|]. split; [reflexivity|].
    intros k Hk. split; [reflexivity|]. assert (k = 0) as -> by lia. discriminate. }
  destruct (lookup_correct zeros d path_a 7 (Stat 0 0 0 0 0 0 0 0) (fun _ => 0) 0 Hok
    (path_a_not_root root_path Hr) ltac:(discriminate)) as [(n & _ & E & _)|(Hno & _)].
  - exists d. eexists. exact E.
  - exfalso. exact (Hno 1 (proj1 Hp)).
Defined.

(** A listing as the first two bytes of each name. *)
Definition two_bytes (dir : list (Z * Z)) (name : mem) : list (Z * Z) * Z :=
  (dir ++ [(name 0, name 1)], 0).

Lemma readdir_correct_witness :
  exists d dir, sfs_readdir zeros two_bytes [] d = Ok ((0, dir), d).
Proof.
  destruct demo_disk as (d & Hok & _). exists d. eexists.
  apply (readdir_correct zeros two_bytes d [] Hok).
  intros dir a b Hab. unfold two_bytes. rewrite (Hab 0), (Hab 1) by lia. reflexivity.
Defined.

Lemma inode_table_roundtrip_witness :
  exists d d' nd', writeInode zeros (set_id zeros 5) d = Ok (tt, d') /\
    readInode zeros 5 d' = Ok (nd', d').
Proof.
  destruct demo_disk as (d & Hok & _).
  destruct (inode_table_roundtrip zeros d (set_id zeros 5) (ok_disk d Hok)
    ltac:(vm_compute; split; [discriminate|reflexivity])) as (d' & nd' & E & E' & _).
  exists d, d', nd'. split; [exact E|exact E'].
Defined.

Lemma map_entries_witness :
  exists d d', setBlock zeros 9 0 d = Ok (tt, d') /\ isBlockFree zeros 9 d' = Ok (0, d').
Proof.
  destruct demo_disk as (d & Hok & _).
  assert (block_num 9) as H9 by (unfold block_num, BLOCK_LIST_SIZE; lia).
  destruct (map_entries zeros d 9 0 (ok_disk d Hok) H9) as [(d' & E & Hb & _) _].
  exists d, d'. split; [exact E|]. exact (Hb 9 H9).
Defined.

Lemma next_open_block_witness : exists d b, findNextOpenBlock zeros d = Ok (b, d).
Proof.
  destruct demo_disk as (d & Hok & _).
  destruct (next_open_block zeros d (ok_disk d Hok)) as (b & E & _). exists d, b. exact E.
Defined.

Lemma block_device_correct_witness :
  exists d d' b, block_write 7 (fun _ => 42) d = Ok (BLOCK_SIZE, d') /\
    block_read 7 zeros d' = Ok ((BLOCK_SIZE, b), d') /\ b 100 = 42.
Proof.
  destruct demo_disk as (d & Hok & _).
  destruct (block_device_correct d 7 (fun _ => 42) zeros (ok_disk d Hok)
    ltac:(unfold valid_block; lia)) as [(d' & b & E & _ & Er & Hb & _) _].
  exists d, d', b. split; [exact E|]. split; [exact Er|].
  exact (Hb 100 ltac:(unfold BLOCK_SIZE; lia)).
Defined.
