(* ===== verification/SfsModel.v ===== *)
(** * Files as a map

    What a mounted disk holds, for the callers of the handlers: a finite map
    from inode numbers to files, each with its path, its attributes and its
    bytes.  [abs] reads it off the disk; the lemmas say what the relations
    between two disks in which the handlers are specified do to it. *)

From S2P Require Import Prelude CMem Disk Inode InodeSpec Sfs SfsInv SfsWrite SfsOps.

(** ** Tables *)

Definition tabulate {A} (f : Z -> A) (n : Z) : list A := map f (seqZ 0 n).

Section tabulate.
Context {A : Type}.
Implicit Types (f g : Z -> A).

Lemma length_tabulate f n : length (tabulate f n) = Z.to_nat n.
Proof. unfold tabulate. by rewrite length_map, length_seqZ. Qed.

Lemma tabulate_lookup f n i : 0 <= i < n -> tabulate f n !! Z.to_nat i = Some (f i).
Proof.
  intros Hi. unfold tabulate. rewrite list_lookup_fmap, lookup_seqZ_lt by lia. cbn.
  do 2 f_equal. lia.
Qed.

Lemma tabulate_end f n (i : nat) : n <= Z.of_nat i -> tabulate f n !! i = None.
Proof. intros H. apply lookup_ge_None. rewrite length_tabulate. lia. Qed.

Lemma tabulate_ext f g n :
  (forall i, 0 <= i < n -> f i = g i) -> tabulate f n = tabulate g n.
Proof.
  intros H. unfold tabulate. apply map_ext_in. intros i Hi%list_elem_of_In%elem_of_seqZ.
  apply H. lia.
Qed.

Lemma tabulate_inj f g n m :
  0 <= n -> 0 <= m -> tabulate f n = tabulate g m -> n = m /\ forall i, 0 <= i < n -> f i = g i.
Proof.
  intros Hn Hm E. assert (n = m) as <-.
  { apply (f_equal length) in E. rewrite !length_tabulate in E. lia. }
  split; [done|]. intros i Hi. apply (f_equal (fun l => l !! Z.to_nat i)) in E.
  rewrite !tabulate_lookup in E by done. congruence.
Qed.

(** [bs] written over [l] from [off] on, which grows when they do not fit. *)
Definition splice (l : list A) (off : Z) (bs : list A) : list A :=
  take (Z.to_nat off) l ++ bs ++ drop (Z.to_nat off + length bs) l.

Lemma splice_tabulate f b n off k :
  0 <= off <= n -> 0 <= k ->
  splice (tabulate f n) off (tabulate b k)
  = tabulate (fun i => if (off <=? i) && (i <? off + k) then b (i - off) else f i)
      (Z.max n (off + k)).
Proof.
  intros Ho Hk. unfold splice. apply list_eq. intros i.
  destruct (Z.lt_ge_cases (Z.of_nat i) (Z.max n (off + k))) as [Hi|Hi].
  2: { rewrite tabulate_end by lia. apply lookup_ge_None.
       rewrite !length_app, length_take, length_drop, !length_tabulate. lia. }
  replace i with (Z.to_nat (Z.of_nat i)) by lia. set (j := Z.of_nat i) in *.
  rewrite (tabulate_lookup _ (Z.max n (off + k))) by lia.
  destruct (Z.lt_ge_cases j off) as [H1|H1].
  { rewrite lookup_app_l by (rewrite length_take, length_tabulate; lia).
    rewrite lookup_take_lt by lia. rewrite tabulate_lookup by lia. by btests. }
  rewrite lookup_app_r by (rewrite length_take, length_tabulate; lia).
  rewrite length_take, length_tabulate, Nat.min_l by lia.
  destruct (Z.lt_ge_cases j (off + k)) as [H2|H2].
  - rewrite lookup_app_l by (rewrite length_tabulate; lia).
    replace (Z.to_nat j - Z.to_nat off)%nat with (Z.to_nat (j - off)) by lia.
    rewrite tabulate_lookup by lia. by btests.
  - rewrite lookup_app_r by (rewrite length_tabulate; lia). rewrite lookup_drop, !length_tabulate.
    replace (_ + _)%nat with (Z.to_nat j) by lia. rewrite tabulate_lookup by lia.
    rewrite (Zltb_f j) by lia. by rewrite andb_false_r.
Qed.
End tabulate.

(** The first number of a range with a property. *)
Lemma head_filter_seqZ (P : Z -> Prop) `{HP : !forall x, Decision (P x)} a k n :
  head (filter P (seqZ a k)) = Some n <->
  a <= n < a + k /\ P n /\ forall j, a <= j < n -> ~ P j.
Proof.
  destruct (Z.le_gt_cases k 0) as [Hk|Hk].
  { rewrite seqZ_nil by lia. split; [done|]. intros (H & _). lia. }
  assert (exists m, k = Z.of_nat m) as [m ->] by (exists (Z.to_nat k); lia). clear Hk.
  revert a. induction m as [|m IH]; intros a; [split; [done|intros (? & _); lia]|].
  rewrite seqZ_cons by lia. replace (Z.pred (Z.of_nat (S m))) with (Z.of_nat m) by lia.
  rewrite filter_cons. destruct (decide (P a)) as [Ha|Ha].
  - cbn. split.
    + intros [= ->]. split; [lia|]. split; [done|]. intros; lia.
    + intros (H1 & H2 & H3). f_equal. destruct (Z.eq_dec a n); [done|]. destruct (H3 a); [lia|done].
  - rewrite IH. split; intros (H1 & H2 & H3).
    + split; [lia|]. split; [done|]. intros j Hj. destruct (decide (j = a)) as [->|]; [done|].
      apply H3. lia.
    + assert (n <> a) by congruence. split; [lia|]. split; [done|]. intros j Hj. apply H3. lia.
Qed.

(** ** Paths *)

(** The bytes of a C string of at most [n] bytes at [a]. *)
Fixpoint cstr (n : nat) (a : Z) (m : mem) : list Z :=
  match n with
  | O => []
  | S n => if load8 m a =? 0 then [] else load8 m a :: cstr n (a + 1) m
  end.

Definition path_of (m : mem) : list Z := cstr 256 0 m.

(** The string at 0 ends at [k]. *)
Definition ends (m : mem) (k : Z) : Prop :=
  0 <= k < 256 /\ load8 m k = 0 /\ forall j, 0 <= j < k -> load8 m j <> 0.

Definition has_end (m : mem) : Prop := exists k, 0 <= k < 256 /\ load8 m k = 0.

Lemma has_end_ends m : has_end m -> exists k, ends m k.
Proof.
  intros (k & Hk & Hz). destruct (first_zero m k) as (j & Hj & Hjz & Hlt); [lia|done|].
  exists j. split; [lia|done].
Qed.

Lemma path_of_ends m k : ends m k -> path_of m = tabulate (load8 m) k.
Proof.
  intros (Hk & Hz & Hlt). unfold path_of, tabulate.
  assert (forall n a, 0 <= a <= k -> k - a < Z.of_nat n -> cstr n a m = map (load8 m) (seqZ a (k - a)))
    as H.
  { induction n as [|n IH]; intros a Ha Hn; [lia|]. cbn [cstr].
    destruct (decide (a = k)) as [->|Hne].
    - rewrite Hz. cbn [Z.eqb]. by rewrite seqZ_nil by lia.
    - rewrite (Zeqb_f _ _ (Hlt a ltac:(lia))). rewrite seqZ_cons by lia. cbn [map]. f_equal.
      rewrite IH by lia. by replace (Z.pred (k - a)) with (k - (a + 1)) by lia. }
  rewrite H by lia. by rewrite Z.sub_0_r.
Qed.

Lemma cstr_eq_path a b : has_end a -> has_end b -> cstr_eq a b <-> path_of a = path_of b.
Proof.
  intros (ka & Ha)%has_end_ends (kb & Hb)%has_end_ends.
  rewrite (path_of_ends a ka Ha), (path_of_ends b kb Hb).
  destruct Ha as (Ha & Hza & Hna), Hb as (Hb & Hzb & Hnb). split.
  - intros (len & Hl & Hla & Hlb & Hd).
    assert (forall m k, load8 m k = 0 -> (forall j, 0 <= j < k -> load8 m j <> 0) ->
      0 <= k -> load8 m len = 0 -> (forall j, 0 <= j < len -> load8 m j <> 0) -> k = len) as Huniq.
    { intros m k Hz Hn Hk Hz' Hn'. destruct (Z.lt_trichotomy k len) as [?|[?|?]]; [|done|].
      - destruct (Hn' k); [lia|done].
      - destruct (Hn len); [lia|done]. }
    assert (ka = len) as -> by (apply (Huniq a); [done..|lia|done|intros j Hj; by apply Hd]).
    assert (kb = len) as ->
      by (apply (Huniq b); [done..|lia|done|intros j Hj; destruct (Hd j Hj); congruence]).
    apply tabulate_ext. intros i Hi. by apply Hd.
  - intros E. apply tabulate_inj in E as [<- E]; [|lia..]. exists ka.
    split; [lia|]. split; [done|]. split; [done|]. intros k Hk. split; [by apply E|by apply Hna].
Qed.

Lemma path_of_ext a b : (forall k, 0 <= k < 256 -> a k = b k) -> path_of a = path_of b.
Proof.
  intros H. unfold path_of.
  assert (forall n k, 0 <= k -> k + Z.of_nat n <= 256 -> cstr n k a = cstr n k b) as Hc.
  { induction n as [|n IH]; intros k Hk Hn; [done|]. cbn [cstr].
    assert (load8 a k = load8 b k) as -> by (unfold load8; by rewrite H by lia).
    by rewrite IH by lia. }
  apply Hc; lia.
Qed.

(** ** Files *)

Record afile := AFile {
  f_path : list Z;
  f_mode : Z;
  f_links : Z;
  f_bytes : list Z
}.

#[export] Instance afile_eq_dec : EqDecision afile.
Proof. solve_decision. Defined.

Notation afs := (gmap Z afile).

Definition file_at (d : disk) (n : Z) : afile :=
  AFile (path_of (i_path (node d n))) (i_mode (node d n)) (i_hardlinks (node d n))
    (tabulate (file_byte d (node d n)) (i_size (node d n))).

(** The inodes in use but the root. *)
Definition in_use (d : disk) : list Z := filter (fun m => inode_free d m = false) (seqZ 1 127).

Definition abs (d : disk) : afs := list_to_map (map (fun n => (n, file_at d n)) (in_use d)).

Lemma elem_of_in_use d n : n ∈ in_use d <-> is_file d n.
Proof.
  unfold in_use, is_file, inode_num, INODE_LIST_SIZE. rewrite list_elem_of_filter, elem_of_seqZ.
  split; [intros [? ?]|intros ([? ?] & ? & ?)]; split_and?; try done; lia.
Qed.

Lemma abs_keys d : (map (fun n => (n, file_at d n)) (in_use d)).*1 = in_use d.
Proof.
  rewrite <- list_fmap_compose. apply list_fmap_id.
Qed.

Lemma abs_lookup d n f : abs d !! n = Some f <-> is_file d n /\ f = file_at d n.
Proof.
  unfold abs. rewrite <- elem_of_list_to_map.
  - rewrite list_elem_of_fmap, <- elem_of_in_use. split.
    + intros (m & [= -> ->] & Hm). done.
    + intros [Hn ->]. by exists n.
  - rewrite abs_keys. apply NoDup_filter, NoDup_seqZ.
Qed.

Lemma abs_file d n : is_file d n -> abs d !! n = Some (file_at d n).
Proof. intros Hn. by apply abs_lookup. Qed.

Lemma abs_none d n : abs d !! n = None <-> ~ is_file d n.
Proof.
  rewrite eq_None_not_Some. split; intros H Hn; apply H.
  - exists (file_at d n). by apply abs_file.
  - destruct Hn as [f Hf]. by apply abs_lookup in Hf as [? _].
Qed.

(** Two disks with the same files but [n]. *)
Definition same_but (n : Z) (d d' : disk) : Prop :=
  forall m, m <> n -> (is_file d' m <-> is_file d m) /\
    (is_file d m -> file_at d' m = file_at d m).

Lemma abs_insert n d d' : same_but n d d' -> is_file d' n -> abs d' = <[n := file_at d' n]> (abs d).
Proof.
  intros H Hn. apply map_eq. intros m. destruct (decide (m = n)) as [->|Hne].
  - by rewrite lookup_insert_eq, abs_file.
  - rewrite lookup_insert_ne by done. destruct (H m Hne) as [Hf He].
    destruct (abs d !! m) as [f|] eqn:E.
    + apply abs_lookup in E as [Hm ->]. rewrite abs_file by (by apply Hf). by rewrite He.
    + apply abs_none. rewrite Hf. by apply abs_none.
Qed.

Lemma abs_delete n d d' : same_but n d d' -> ~ is_file d' n -> abs d' = delete n (abs d).
Proof.
  intros H Hn. apply map_eq. intros m. destruct (decide (m = n)) as [->|Hne].
  - rewrite lookup_delete_eq. by apply abs_none.
  - rewrite lookup_delete_ne by done. destruct (H m Hne) as [Hf He].
    destruct (abs d !! m) as [f|] eqn:E.
    + apply abs_lookup in E as [Hm ->]. rewrite abs_file by (by apply Hf). by rewrite He.
    + apply abs_none. rewrite Hf. by apply abs_none.
Qed.

Lemma file_at_ext d d' m :
  same_inode (node d m) (node d' m) ->
  (forall p, 0 <= p < i_size (node d m) -> file_byte d' (node d' m) p = file_byte d (node d m) p) ->
  file_at d' m = file_at d m.
Proof.
  intros Hs Hb. unfold file_at.
  rewrite <- (i_mode_proper _ _ Hs), <- (i_hardlinks_proper _ _ Hs), <- (i_size_proper _ _ Hs).
  rewrite (path_of_ext (i_path (node d' m)) (i_path (node d m)))
    by (intros k Hk; by apply (i_path_same _ _ _ Hs)).
  by rewrite (tabulate_ext _ _ _ Hb).
Qed.

(** ** What the handlers do *)

Lemma is_file_same d d' m :
  inode_free d' m = inode_free d m -> is_file d' m <-> is_file d m.
Proof. intros H. unfold is_file. by rewrite H. Qed.

(** Every file but [n], when the disk is written by a call for [n]. *)
Lemma same_but_intro n d d' :
  (forall m, inode_num m -> m <> n -> inode_free d' m = inode_free d m) ->
  (forall m, is_file d m -> m <> n -> same_inode (node d m) (node d' m)) ->
  (forall m p, is_file d m -> m <> n -> 0 <= p < i_size (node d m) ->
     file_byte d' (node d' m) p = file_byte d (node d m) p) ->
  same_but n d d'.
Proof.
  intros Hf Hs Hb m Hne. split.
  - split; intros Hm; (apply (is_file_same d d'); [|exact Hm]); apply Hf; try done; apply Hm.
  - intros Hm. apply file_at_ext; [by apply Hs|]. intros p Hp. by apply Hb.
Qed.

Lemma data_kept d d' m p :
  fs_ok d -> is_file d m -> same_inode (node d m) (node d' m) -> 0 <= p < i_size (node d m) ->
  (forall b x, block_num b -> 0 <= x < BLOCK_SIZE -> rd d' (data_addr b x) = rd d (data_addr b x)) ->
  file_byte d' (node d' m) p = file_byte d (node d m) p.
Proof.
  intros Hok Hm Hs Hp Hd. apply file_byte_kept; try done; [by apply (ok_size d Hok m Hm)|].
  intros k b Hb. by apply (ok_data d Hok m k b Hm).
Qed.

Lemma abs_created d n b path mode d' :
  fs_ok d -> has_end path -> ~ is_file d n -> created d n b path mode d' ->
  abs d' = <[n := AFile (path_of path) (wrap 32 mode) 1 []]> (abs d).
Proof.
  intros Hok Hend Hn Hc. rewrite (abs_insert n d d').
  - f_equal. unfold file_at. destruct (cr_attr _ _ _ _ _ _ Hc) as (-> & -> & -> & _).
    destruct (cr_file _ _ _ _ _ _ Hc) as (H1 & _ & H3).
    pose proof (cr_path _ _ _ _ _ _ Hc) as Hp. apply cstr_eq_path in Hp; [|done|].
    + by rewrite <- Hp.
    + by apply (ok_names d' (cr_ok _ _ _ _ _ _ Hc)).
  - apply same_but_intro.
    + intros m Hm Hne. by apply Hc.
    + intros m [Hm _] Hne. by apply Hc.
    + intros m p Hm Hne Hp. apply data_kept; try done; [|apply Hc].
      by apply (cr_others _ _ _ _ _ _ Hc m (proj1 Hm)).
  - apply Hc.
Qed.

Lemma abs_removed d n d' : fs_ok d -> is_file d n -> removed d n d' -> abs d' = delete n (abs d).
Proof.
  intros Hok Hn Hr. apply abs_delete.
  - apply same_but_intro.
    + intros m Hm Hne. rewrite (rm_inodes _ _ _ Hr) by done. by rewrite Zeqb_f.
    + intros m [Hm _] _. by apply Hr.
    + intros m p Hm Hne Hp. apply data_kept; try done; apply Hr. apply Hm.
  - intros (H1 & _ & H). rewrite (rm_inodes _ _ _ Hr) in H by done. by rewrite Z.eqb_refl in H.
Qed.

Lemma abs_wrote d n buf off d' pos :
  fs_ok d -> is_file d n -> 0 <= off <= i_size (node d n) -> off <= pos -> wrote d n buf off d' pos ->
  abs d' = <[n := AFile (path_of (i_path (node d n))) (i_mode (node d n)) (i_hardlinks (node d n))
                    (splice (f_bytes (file_at d n)) off (tabulate buf (pos - off)))]> (abs d).
Proof.
  intros Hok Hn Hoff Hpos Hw. rewrite (abs_insert n d d').
  - f_equal. unfold file_at at 1. cbn [f_bytes file_at]. rewrite splice_tabulate by lia.
    rewrite (wr_size _ _ _ _ _ _ Hw).
    assert (i_mode (node d' n) = i_mode (node d n)) as ->.
    { unfold i_mode. apply load_ext. intros x Hx. cbn in Hx. apply (wr_fixed _ _ _ _ _ _ Hw). left. lia. }
    assert (i_hardlinks (node d' n) = i_hardlinks (node d n)) as ->.
    { unfold i_hardlinks. f_equal. apply load_ext. intros x Hx. cbn in Hx.
      apply (wr_fixed _ _ _ _ _ _ Hw). right. lia. }
    rewrite (path_of_ext (i_path (node d' n)) (i_path (node d n))).
    + replace (off + (pos - off)) with pos by lia. f_equal. apply tabulate_ext. intros i Hi.
      by apply (wr_bytes _ _ _ _ _ _ Hw).
    + intros k Hk. unfold i_path, slice. apply (wr_fixed _ _ _ _ _ _ Hw). left. lia.
  - apply same_but_intro.
    + intros m Hm _. by apply Hw.
    + intros m [Hm _] Hne. by apply Hw.
    + intros m p Hm Hne Hp. by apply Hw.
  - destruct Hn as (H1 & H2 & H3). split; [done|]. split; [done|]. by rewrite (wr_imap _ _ _ _ _ _ Hw).
Qed.

Lemma abs_aborted d n d' :
  is_file d n -> aborted d n d' ->
  exists l, length l = length (f_bytes (file_at d n)) /\
    abs d' = <[n := AFile (path_of (i_path (node d n))) (i_mode (node d n))
                      (i_hardlinks (node d n)) l]> (abs d).
Proof.
  intros Hn Ha. exists (tabulate (file_byte d' (node d' n)) (i_size (node d n))).
  split; [cbn; by rewrite !length_tabulate|]. rewrite (abs_insert n d d').
  - f_equal. destruct (ab_inode _ _ _ Ha n (proj1 Hn)) as [_ Hs]. unfold file_at.
    rewrite (path_of_ext (i_path (node d' n)) (i_path (node d n)))
      by (intros k Hk; by apply (i_path_same _ _ _ Hs)).
    by rewrite <- (i_mode_proper _ _ Hs), <- (i_hardlinks_proper _ _ Hs), <- (i_size_proper _ _ Hs).
  - apply same_but_intro.
    + intros m Hm _. by apply Ha.
    + intros m [Hm _] Hne. by apply (ab_inode _ _ _ Ha).
    + intros m p Hm Hne Hp. by apply Ha.
  - destruct Hn as (H1 & H2 & H3). split; [done|]. split; [done|].
    by destruct (ab_inode _ _ _ Ha n H1) as [-> _].
Qed.
