(* ===== verification/SfsPast.v ===== *)
(** * Writes past the end of a file

    A write whose offset is behind the end of the file grows the file by one
    byte for each byte written, not up to the place of that byte. *)

From Stdlib Require Import String.
From S2P Require Import Prelude CMem Disk Inode InodeSpec Sfs SfsInv SfsWrite SfsOps SfsSpec SfsModel.

Section past.
Context (uninit : mem) (d : disk) (Hok : fs_ok d) (n : Z) (Hn : is_file d n).
Context (buf : mem) (offset size : Z).

Notation S0 := (i_size (node d n)).
Notation blk := (S0 / BLOCK_SIZE).
Notation wbase := (wbase d n).
Notation write_loop := (write_loop uninit).

(** The write starts behind the end, in the last block, and stays in it. *)
Context (Hoff : S0 < offset) (Hsize : 0 < size).
Context (Hroom : offset + size < (blk + 1) * BLOCK_SIZE) (Hmax : (blk + 1) * BLOCK_SIZE <= MAX_FILE).

(** A byte written there: the file gets one byte longer and no new block. *)
Lemma grow_past file db i :
  wbase d file (S0 + i) -> 0 <= i < size ->
  grow uninit file db (offset + i - blk * BLOCK_SIZE + 1) blk (i + 1) d
  = Ok (inr (set_size file (S0 + i + 1)), d).
Proof.
  intros Hw Hi. unfold grow. rewrite (wb_size _ _ _ _ _ Hw). rewrite Zltb_t by lia.
  cbv zeta. pose proof (div_BS S0) as (Hd & _). pose proof (size0 d Hok n Hn).
  rewrite i_size_set by (unfold MAX_FILE in *; lia).
  rewrite Z.rem_mod_nonneg by (unfold BLOCK_SIZE; lia). rewrite Zeqb_f; [done|].
  intros E. apply Z.mod_divide in E as [q Hq]; [|done]. unfold BLOCK_SIZE in *. lia.
Qed.

Lemma wbase_past file i :
  wbase d file (S0 + i) -> 0 <= i < size -> wbase d (set_size file (S0 + i + 1)) (S0 + (i + 1)).
Proof.
  intros Hw Hi. rewrite Z.add_assoc. pose proof (div_BS S0) as (Hd & _).
  pose proof (size0 d Hok n Hn). apply wbase_size; [done|done|done|unfold BLOCK_SIZE in *; lia|].
  intros E. apply Z.mod_divide in E as [q Hq]; [|done]. unfold BLOCK_SIZE in *. lia.
Qed.

(** The rounds of the loop only change the inode and the block in memory. *)
Lemma past_loop N i file db :
  wbase d file (S0 + i) -> 0 <= i -> i + Z.of_nat N = size ->
  exists file' db', wbase d file' (S0 + size) /\
    write_loop N i buf file db (offset + i - blk * BLOCK_SIZE) blk d
    = write_loop 0 size buf file' db' (offset + size - blk * BLOCK_SIZE) blk d /\
    forall x, 0 <= x -> db' x = if (offset + i - blk * BLOCK_SIZE <=? x) &&
                        (x <? offset + size - blk * BLOCK_SIZE)
                     then buf (x + blk * BLOCK_SIZE - offset) else db x.
Proof.
  revert i file db. induction N as [|N IH]; intros i file db Hw Hi HN.
  - assert (i = size) as -> by lia. exists file, db. split; [done|]. split; [done|].
    intros x _. destruct (Z.leb_spec (offset + size - blk * BLOCK_SIZE) x); cbn [andb]; [|done].
    by rewrite Zltb_f by lia.
  - cbn [Sfs.write_loop]. cbv zeta.
    mstep by (apply in_block_ok; pose proof (div_BS S0) as (Hd & _); pose proof (size0 d Hok n Hn);
      unfold BLOCK_SIZE in *; lia).
    set (db1 := blit db (offset + i - blk * BLOCK_SIZE) 1 (fun _ => buf i)).
    mstep by (apply grow_past; [done|lia]).
    assert (Z.rem (offset + i - blk * BLOCK_SIZE + 1) BLOCK_SIZE =? 0 = false) as ->.
    { pose proof (div_BS S0) as (Hd & _). pose proof (size0 d Hok n Hn).
      apply Z.eqb_neq. rewrite Z.rem_small; unfold BLOCK_SIZE in *; lia. }
    destruct (IH (i + 1) (set_size file (S0 + i + 1)) db1) as (file' & db' & Hw' & E & Hdb);
      [by apply wbase_past; [|lia]|lia|lia|].
    exists file', db'. split; [done|]. split.
    + etransitivity; [|exact E].
      by replace (offset + i - blk * BLOCK_SIZE + 1) with (offset + (i + 1) - blk * BLOCK_SIZE) by lia.
    + intros x Hx. rewrite Hdb by done. unfold db1.
      destruct (decide (x = offset + i - blk * BLOCK_SIZE)) as [->|Hne].
      * rewrite (Zleb_f (offset + (i + 1) - _)), (Zleb_t (offset + i - _)), Zltb_t by lia.
        cbn [andb]. pose proof (blit_in db (offset + i - blk * BLOCK_SIZE) 1 (fun _ => buf i) 0) as H.
        rewrite Z.add_0_r in H. rewrite H by lia. f_equal. lia.
      * rewrite blit_out by lia.
        destruct (Z.leb_spec (offset + (i + 1) - blk * BLOCK_SIZE) x),
          (Z.leb_spec (offset + i - blk * BLOCK_SIZE) x); cbn [andb]; try done; lia.
Qed.

(** What the file holds afterwards, as if [size] bytes were appended to it. *)
Definition past_bytes (p : Z) : Z :=
  if offset <=? p then buf (p - offset) else file_byte d (node d n) p.
Definition appended (j : Z) : Z := past_bytes (S0 + j).

Lemma past_expected p :
  p < S0 + size -> expected d n appended S0 (S0 + size) p = past_bytes p.
Proof.
  intros Hp. unfold expected, appended. destruct (Z.leb_spec S0 p).
  - rewrite Zltb_t by lia. cbn [andb]. f_equal. lia.
  - cbn [andb]. unfold past_bytes. by rewrite Zleb_f by lia.
Qed.

(** The block in memory after the loop is the last block of that file. *)
Lemma past_wcont nd file db db' :
  same_inode (node d n) nd -> wbase d file (S0 + size) ->
  (forall x, 0 <= x < BLOCK_SIZE -> db x = rd d (data_addr (i_data nd blk) x)) ->
  (forall x, 0 <= x -> db' x = if (offset - blk * BLOCK_SIZE <=? x) &&
                        (x <? offset + size - blk * BLOCK_SIZE)
                     then buf (x + blk * BLOCK_SIZE - offset) else db x) ->
  wcont d n appended S0 d file db' blk (S0 + size).
Proof.
  intros Hs Hw Hdb Hdb' p Hp. rewrite Z.max_r in Hp by lia. rewrite past_expected by lia.
  pose proof (size0 d Hok n Hn) as H0. pose proof (div_BS p) as (Hd & Hm & Hr).
  pose proof (div_BS S0) as (Hd0 & _).
  assert (p / BLOCK_SIZE <= blk) as Hle by (unfold BLOCK_SIZE in *; lia).
  pose proof (nblocks_bounds S0 ltac:(lia)) as Hnb.
  assert (blk < nblocks S0) as Hblk by (unfold nblocks, MAX_FILE, BLOCK_SIZE in *; lia).
  assert (forall k, 0 <= k <= blk -> i_data file k = i_data (node d n) k) as Hdat
    by (intros k Hk; apply (wb_data _ _ _ _ _ Hw); lia).
  assert (0 <= p / BLOCK_SIZE) by (apply Z.div_pos; [lia|done]).
  unfold past_bytes, file_byte. destruct (Z.eqb_spec (p / BLOCK_SIZE) blk) as [E|E].
  - rewrite Hdb', Hm, E in * by lia. destruct (Z.leb_spec offset p).
    + rewrite Zleb_t, Zltb_t by lia. cbn [andb]. f_equal. lia.
    + rewrite Zleb_f by lia. cbn [andb]. rewrite Hdb by lia.
      by rewrite (i_data_same _ _ _ Hs) by lia.
  - rewrite Zleb_f by (unfold BLOCK_SIZE in *; lia). by rewrite Hdat by lia.
Qed.

Lemma past_finish nd db :
  same_inode (node d n) nd ->
  (forall x, 0 <= x < BLOCK_SIZE -> db x = rd d (data_addr (i_data nd blk) x)) ->
  exists d', write_loop (Z.to_nat size) 0 buf nd db (offset - blk * BLOCK_SIZE) blk d = Ok (size, d') /\
    wrote d n appended S0 d' (S0 + size).
Proof.
  intros Hs Hdb. pose proof (size0 d Hok n Hn) as H0. pose proof (div_BS S0) as (Hd0 & _).
  pose proof (winit d Hok n Hn nd Hs) as Hw0. assert (0 <= blk) by (apply Z.div_pos; [lia|done]).
  assert (blk < nblocks S0 /\ blk < 1024) as [Hblk Hb'] by (unfold nblocks, MAX_FILE, BLOCK_SIZE in *; lia).
  destruct (past_loop (Z.to_nat size) 0 nd db) as (file & db' & Hw & El & Hdb');
    [by rewrite Z.add_0_r|lia|lia|].
  rewrite !Z.add_0_r in El, Hdb'. rewrite El. cbn [Sfs.write_loop].
  pose proof (past_wcont nd file db db' Hs Hw Hdb Hdb') as Hc.
  assert (nblocks S0 <= nblocks (S0 + size)) as Hmono by (apply nblocks_mono; lia).
  mstep by (apply get_data_ok; lia).
  destruct (wflush d n appended S0 d file (S0 + size) db' blk (S0 + size) Hw ltac:(lia)
    ltac:(lia) Hc) as (d1 & E1 & Hw1 & Hc1). mstep by exact E1.
  assert (Z.max S0 (S0 + size) = S0 + size) as Emax by lia. rewrite <- Emax in Hw1.
  destruct (wbase_finish uninit d Hok n Hn appended S0 d1 file (S0 + size) Hw1 Hc1)
    as (d2 & E2 & Hwr). mstep by exact E2. by exists d2.
Qed.

Lemma sfs_write_past path fh :
  names d n path -> fh <> no_handle ->
  exists d', sfs_write uninit path buf size offset fh d = Ok (size, d') /\
    wrote d n appended S0 d' (S0 + size).
Proof.
  intros Hp Hfh. pose proof (size0 d Hok n Hn) as H0. pose proof (div_BS S0) as (Hd0 & _).
  destruct (lookup_file uninit d Hok n Hn path Hp) as (nd & E & Hs & Hid).
  assert (0 <= n) by (destruct Hn as [[? _] _]; lia).
  unfold sfs_write. mstep by exact E. rewrite Hid, (Zeqb_f n), (Zeqb_f fh), (Zeqb_f size) by lia.
  assert (offset / BLOCK_SIZE = blk) as Eb by (apply div_BS_eq; unfold BLOCK_SIZE in *; lia).
  pose proof (div_BS offset) as (_ & Hmod & _). rewrite Eb in Hmod.
  rewrite Z.quot_div_nonneg, Z.rem_mod_nonneg by (unfold BLOCK_SIZE; lia). rewrite Eb, Hmod.
  assert (0 <= blk) by (apply Z.div_pos; [lia|done]).
  rewrite !swrap_int by (unfold MAX_FILE, BLOCK_SIZE in *; lia).
  rewrite <- (i_size_proper _ _ Hs). rewrite Z.quot_div_nonneg by (unfold BLOCK_SIZE; lia).
  mstep by (cbn [extend_loop]; rewrite Zltb_f by lia; reflexivity).
  assert (blk < nblocks S0 /\ blk < 1024) as [Hblk Hb'] by (unfold nblocks, MAX_FILE, BLOCK_SIZE in *; lia).
  mstep by (apply get_data_ok; lia).
  assert (block_num (i_data nd blk)) as Hb.
  { pose proof (winit d Hok n Hn nd Hs) as Hw0.
    apply (wb_owns _ _ _ _ _ Hw0 blk). split; [by rewrite (wb_size _ _ _ _ _ Hw0)|done]. }
  destruct (data_read d (i_data nd blk) uninit (ok_disk d Hok) Hb) as (r & db & Er & Hdb).
  mstep by exact Er. by apply past_finish.
Qed.
End past.

Section theorems.
Context (uninit : mem).

(** The map of files after such a write. *)
Lemma abs_past d n path buf offset size fh :
  fs_ok d -> is_file d n -> names d n path -> fh <> no_handle ->
  let S := i_size (node d n) in
  S < offset -> 0 < size -> offset + size < (S / BLOCK_SIZE + 1) * BLOCK_SIZE ->
  (S / BLOCK_SIZE + 1) * BLOCK_SIZE <= MAX_FILE ->
  exists d', sfs_write uninit path buf size offset fh d = Ok (size, d') /\
    wrote d n (appended d n buf offset) S d' (S + size) /\
    abs d' = <[n := AFile (path_of (i_path (node d n))) (i_mode (node d n)) (i_hardlinks (node d n))
                (tabulate (past_bytes d n buf offset) (S + size))]> (abs d).
Proof.
  intros Hok Hn Hp Hfh S Ho Hsz Hr Hm. pose proof (size0 d Hok n Hn) as H0. fold S in H0.
  destruct (sfs_write_past uninit d Hok n Hn buf offset size Ho Hsz Hr Hm path fh Hp Hfh)
    as (d' & E & Hw).
  exists d'. split; [done|]. split; [done|].
  rewrite (abs_wrote d n (appended d n buf offset) S d' (S + size) Hok Hn) by (done || lia).
  assert (splice (f_bytes (file_at d n)) S (tabulate (appended d n buf offset) (S + size - S))
    = tabulate (past_bytes d n buf offset) (S + size)) as ->; [|done].
  cbn [f_bytes file_at]. fold S. rewrite splice_tabulate by lia.
  replace (S + (S + size - S)) with (S + size) by lia. rewrite Z.max_r by lia.
  apply tabulate_ext. intros p Hpp. unfold appended, past_bytes. fold S.
  destruct (Z.leb_spec S p).
  - rewrite Zltb_t by lia. cbn [andb]. by replace (S + (p - S)) with p by lia.
  - cbn [andb]. by rewrite Zleb_f by lia.
Qed.

(** C25: a write that starts behind the end of the file, in its last block,
    reports that it wrote all bytes; but the file only grows by their number from
    its old end on, not to the end of the write.  The bytes between the old end
    and the offset are what the block held; the last bytes of the write lie
    behind the new end.  The invariant holds and no other file changes. *)
Theorem write_past_end d n path buf size offset fh :
  fs_ok d -> is_file d n -> names d n path -> fh <> no_handle ->
  let S := i_size (node d n) in
  S < offset -> 0 < size -> offset + size < (S / BLOCK_SIZE + 1) * BLOCK_SIZE ->
  (S / BLOCK_SIZE + 1) * BLOCK_SIZE <= MAX_FILE ->
  exists d', sfs_write uninit path buf size offset fh d = Ok (size, d') /\ fs_ok d' /\
    i_size (node d' n) = S + size /\ S + size < offset + size /\
    (forall p, 0 <= p < S + size ->
       file_byte d' (node d' n) p
       = if offset <=? p then buf (p - offset) else file_byte d (node d n) p) /\
    (forall m, m <> n -> abs d' !! m = abs d !! m).
Proof.
  intros Hok Hn Hp Hfh S Ho Hsz Hr Hm.
  destruct (abs_past d n path buf offset size fh Hok Hn Hp Hfh Ho Hsz Hr Hm) as (d' & E & Hw & Ea).
  exists d'. split; [done|]. split; [apply Hw|].
  split; [rewrite (wr_size _ _ _ _ _ _ Hw); fold S; lia|]. split; [lia|]. split.
  - intros p Hpp. rewrite (wr_bytes _ _ _ _ _ _ Hw) by (fold S; lia).
    by rewrite past_expected by (fold S; lia).
  - intros m Hne. by rewrite Ea, lookup_insert_ne.
Qed.
End theorems.

(** Five bytes at offset 100 of an empty file make it five bytes long. *)
Lemma write_past_end_witness :
  exists d d', sfs_write zeros path_a (cstring "hello"%string) 5 100 1 d = Ok (5, d') /\
    i_size (node d 1) = 0 /\ i_size (node d' 1) = 5.
Proof.
  destruct demo_disk as (d & Hok & Hn & Hp & Hs & _).
  destruct (write_past_end zeros d 1 path_a (cstring "hello"%string) 5 100 1 Hok Hn Hp
    ltac:(discriminate) ltac:(rewrite Hs; reflexivity) ltac:(reflexivity)
    ltac:(rewrite Hs; reflexivity) ltac:(rewrite Hs; vm_compute; discriminate))
    as (d' & E & _ & Hs' & _).
  exists d, d'. split; [exact E|]. split; [exact Hs|]. rewrite Hs', Hs. reflexivity.
Defined.
