(* ===== verification/SfsLimit.v ===== *)
(** * Writes that reach the largest file size

    A file has at most [MAX_FILE] bytes.  The write that gives it its last byte
    stops there; a write that touches the last byte of a file that already has
    it runs past the end of the array of data blocks. *)

From S2P Require Import Prelude CMem Disk Inode InodeSpec Sfs SfsInv SfsWrite SfsOps SfsSpec.

Section limit.
Context (uninit : mem) (d0 : disk) (Hok : fs_ok d0) (n : Z) (Hn : is_file d0 n).
Context (buf : mem) (offset : Z).

Notation S0 := (i_size (node d0 n)).
Notation wbase := (wbase d0 n).
Notation wcont := (wcont d0 n buf offset).
Notation wrote := (wrote d0 n buf offset).
Notation aborted := (aborted d0 n).
Notation write_loop := (write_loop uninit).

Context (Hoff : 0 <= offset <= S0).

Lemma nblocks_limit : nblocks MAX_FILE = 1024.
Proof. done. Qed.

Lemma nblocks_last pos : pos + 1 = MAX_FILE -> nblocks pos = 1024.
Proof. unfold MAX_FILE. intros H. assert (pos = 16777215) as -> by lia. done. Qed.

Lemma limit_block pos blk :
  pos + 1 = MAX_FILE -> blk * BLOCK_SIZE <= pos < (blk + 1) * BLOCK_SIZE -> blk = 1023.
Proof. unfold MAX_FILE, BLOCK_SIZE. lia. Qed.

(** The round that gives the file its last byte ends the handler. *)
Lemma limit_round N i d file db pos blk :
  S0 < MAX_FILE -> pos + 1 = MAX_FILE -> pos = offset + i -> 0 <= i ->
  blk * BLOCK_SIZE <= pos < (blk + 1) * BLOCK_SIZE ->
  wbase d file (Z.max S0 pos) -> wcont d file db blk pos ->
  exists d', write_loop (S N) i buf file db (pos - blk * BLOCK_SIZE) blk d = Ok (i + 1, d') /\
    wrote d' MAX_FILE.
Proof.
  intros HS Hpos Hi Hi0 Hb Hw Hc. rewrite Z.max_r in Hw by lia.
  pose proof (limit_block pos blk Hpos Hb) as ->.
  pose proof (wcont_put d0 n buf offset d file db 1023 pos Hb ltac:(lia) Hc) as Hc1.
  replace (pos - offset) with i in Hc1 by lia.
  pose proof (wbase_longer d0 Hok n Hn d file pos Hw ltac:(lia)
    ltac:(by rewrite (nblocks_last pos Hpos), Hpos)) as Hw1.
  cbn [Sfs.write_loop]. cbv zeta. mstep by (apply in_block_ok; unfold BLOCK_SIZE in *; lia).
  set (db1 := blit db _ 1 _) in *.
  set (file1 := set_size file (pos + 1)) in *.
  assert (wcont d file1 db1 1023 (pos + 1)) as Hc2.
  { intros p Hp. specialize (Hc1 p Hp). unfold file1. by rewrite file_byte_set_size by lia. }
  destruct (wflush d0 n buf offset d file1 (pos + 1) db1 1023 (pos + 1) Hw1
    ltac:(rewrite Hpos, nblocks_limit; lia) ltac:(lia) Hc2)
    as (d1 & E1 & Hw2 & Hc3).
  assert (Z.max S0 (pos + 1) = pos + 1) as Emax by lia. rewrite <- Emax in Hw2.
  destruct (wbase_finish uninit d0 Hok n Hn buf offset d1 file1 (pos + 1) Hw2 Hc3)
    as (d2 & E2 & Hwr).
  assert (grow uninit file db1 (pos - 1023 * BLOCK_SIZE + 1) 1023 (i + 1) d
    = Ok (inl (i + 1), d2)) as Eg.
  { unfold grow. rewrite (wb_size _ _ _ _ _ Hw), Zltb_t by lia. cbv zeta. fold file1.
    rewrite (wb_size _ _ _ _ _ Hw1), Hpos. change (Z.rem MAX_FILE BLOCK_SIZE =? 0) with true.
    rewrite Z.eqb_refl. mstep by (apply get_data_ok; lia). mstep by exact E1. by mstep by exact E2. }
  mstep by exact Eg. exists d2. split; [done|]. by rewrite <- Hpos.
Qed.

Lemma limit_loop N i d file db pos blk :
  S0 < MAX_FILE -> pos < MAX_FILE <= pos + Z.of_nat N -> pos = offset + i -> 0 <= i ->
  blk * BLOCK_SIZE <= pos < (blk + 1) * BLOCK_SIZE ->
  wbase d file (Z.max S0 pos) -> wcont d file db blk pos ->
  (exists d', write_loop N i buf file db (pos - blk * BLOCK_SIZE) blk d
              = Ok (MAX_FILE - offset, d') /\ wrote d' MAX_FILE) \/
  (exists d', write_loop N i buf file db (pos - blk * BLOCK_SIZE) blk d = Ok (-1, d') /\ aborted d').
Proof.
  intros HS. revert i d file db pos blk.
  induction N as [|N IH]; intros i d file db pos blk Hm Hpos Hi Hb Hw Hc; [lia|].
  destruct (decide (pos + 1 = MAX_FILE)) as [Hlast|Hnot].
  - left. destruct (limit_round N i d file db pos blk HS Hlast Hpos Hi Hb Hw Hc) as (d' & E & Hwr).
    exists d'. split; [|done]. rewrite E. do 2 f_equal. lia.
  - destruct (write_round uninit d0 Hok n Hn buf offset Hoff N i d file db pos blk Hpos Hi Hb Hw Hc
      ltac:(lia)) as [(d1 & file1 & db1 & blk1 & -> & Hb1 & Hw1 & Hc1)|(-> & Hab & _)].
    + apply IH; [lia|lia|lia|done..].
    + right. by exists d.
Qed.

(** On a file of the largest size the last round asks for a block number past
    the end of the array. *)
Lemma overrun_round N i d file db pos blk :
  S0 = MAX_FILE -> pos + 1 = MAX_FILE -> pos = offset + i -> 0 <= i ->
  blk * BLOCK_SIZE <= pos < (blk + 1) * BLOCK_SIZE ->
  wbase d file (Z.max S0 pos) -> wcont d file db blk pos ->
  write_loop (S N) i buf file db (pos - blk * BLOCK_SIZE) blk d = Fault OutOfBounds.
Proof.
  intros HS Hpos Hi Hi0 Hb Hw Hc. rewrite Z.max_l in Hw by lia.
  pose proof (limit_block pos blk Hpos Hb) as ->.
  pose proof (wcont_put d0 n buf offset d file db 1023 pos Hb ltac:(lia) Hc) as Hc1.
  replace (pos - offset) with i in Hc1 by lia.
  cbn [Sfs.write_loop]. cbv zeta. mstep by (apply in_block_ok; unfold BLOCK_SIZE in *; lia).
  set (db1 := blit db _ 1 _) in *.
  mstep by (unfold grow; rewrite (wb_size _ _ _ _ _ Hw), Zltb_f by (unfold MAX_FILE, BLOCK_SIZE in *; lia);
    reflexivity).
  replace (pos - 1023 * BLOCK_SIZE + 1) with BLOCK_SIZE by (unfold MAX_FILE, BLOCK_SIZE in *; lia).
  change (Z.rem BLOCK_SIZE BLOCK_SIZE =? 0) with true. cbv iota.
  mstep by (apply get_data_ok; lia).
  destruct (wflush d0 n buf offset d file S0 db1 1023 (pos + 1) Hw
    ltac:(rewrite HS, nblocks_limit; lia) ltac:(lia) Hc1) as (d1 & E1 & _).
  mstep by exact E1. done.
Qed.

Lemma overrun_loop N i d file db pos blk :
  S0 = MAX_FILE -> pos < MAX_FILE <= pos + Z.of_nat N -> pos = offset + i -> 0 <= i ->
  blk * BLOCK_SIZE <= pos < (blk + 1) * BLOCK_SIZE ->
  wbase d file (Z.max S0 pos) -> wcont d file db blk pos ->
  write_loop N i buf file db (pos - blk * BLOCK_SIZE) blk d = Fault OutOfBounds.
Proof.
  intros HS. revert i d file db pos blk.
  induction N as [|N IH]; intros i d file db pos blk Hm Hpos Hi Hb Hw Hc; [lia|].
  destruct (decide (pos + 1 = MAX_FILE)) as [Hlast|Hnot]; [by apply overrun_round|].
  destruct (write_round uninit d0 Hok n Hn buf offset Hoff N i d file db pos blk Hpos Hi Hb Hw Hc
    ltac:(lia)) as [(d1 & file1 & db1 & blk1 & -> & Hb1 & Hw1 & Hc1)|(_ & _ & Hroom)].
  - apply IH; [lia|lia|lia|done..].
  - exfalso. rewrite HS in Hroom. change (nblocks MAX_FILE * BLOCK_SIZE) with MAX_FILE in Hroom. lia.
Qed.
End limit.

Section theorems.
Context (uninit : mem).

(** A write from inside the file to the largest size or further. *)
Lemma sfs_write_limit d n path buf size offset fh :
  fs_ok d -> is_file d n -> names d n path -> fh <> no_handle ->
  0 <= offset <= i_size (node d n) -> i_size (node d n) < MAX_FILE -> MAX_FILE <= offset + size ->
  (exists d', sfs_write uninit path buf size offset fh d = Ok (MAX_FILE - offset, d') /\
     wrote d n buf offset d' MAX_FILE) \/
  (exists d', sfs_write uninit path buf size offset fh d = Ok (-1, d') /\ aborted d n d').
Proof.
  intros Hok Hn Hp Hfh Hoff HS Hm. pose proof (div_BS offset) as (Hdiv & _).
  destruct (sfs_write_start uninit d Hok n Hn buf offset Hoff path size fh Hp Hfh
    ltac:(lia) ltac:(lia)) as (nd & db & -> & Hw & Hc).
  apply limit_loop; try done; lia.
Qed.

(** C22: the last byte a file can have.  A write from inside the file that would
    go past the largest size stops when the file has it and returns how many bytes
    it took, unless the disk runs full before; the bytes are in the file.  But
    when the file has the largest size already, a write that reaches its last byte
    looks up the block behind it, past the end of the array of the inode. *)
Theorem write_at_limit d n path buf size offset fh :
  fs_ok d -> is_file d n -> names d n path -> fh <> no_handle ->
  0 <= offset <= i_size (node d n) -> 0 < size -> MAX_FILE <= offset + size ->
  (i_size (node d n) < MAX_FILE ->
   (exists d', sfs_write uninit path buf size offset fh d = Ok (MAX_FILE - offset, d') /\
      fs_ok d' /\ i_size (node d' n) = MAX_FILE /\
      forall p, 0 <= p < MAX_FILE ->
        file_byte d' (node d' n) p
        = if offset <=? p then buf (p - offset) else file_byte d (node d n) p) \/
   (exists d', sfs_write uninit path buf size offset fh d = Ok (-1, d') /\ fs_ok d' /\ disk_full d')) /\
  (i_size (node d n) = MAX_FILE -> offset < MAX_FILE ->
   sfs_write uninit path buf size offset fh d = Fault OutOfBounds).
Proof.
  intros Hok Hn Hp Hfh Hoff Hsz Hm. split.
  - intros HS.
    destruct (sfs_write_limit d n path buf size offset fh Hok Hn Hp Hfh Hoff HS Hm)
      as [(d' & E & Hw)|(d' & E & Ha)]; [left|right]; exists d'; (split; [done|]).
    + split; [apply Hw|]. split; [rewrite (wr_size _ _ _ _ _ _ Hw); lia|]. intros p Hpp.
      rewrite (wr_bytes _ _ _ _ _ _ Hw) by lia. unfold expected. rewrite (Zltb_t p) by lia.
      by rewrite andb_true_r.
    + split; apply Ha.
  - intros HS Ho. pose proof (div_BS offset) as (Hdiv & _).
    destruct (sfs_write_start uninit d Hok n Hn buf offset Hoff path size fh Hp Hfh
      ltac:(lia) ltac:(lia)) as (nd & db & -> & Hw & Hc).
    apply (overrun_loop uninit d Hok n Hn buf offset Hoff); try done; lia.
Qed.
End theorems.

(** A write of 16 megabytes to a new file. *)
Lemma write_at_limit_witness :
  exists d d', sfs_write zeros path_a zeros MAX_FILE 0 1 d = Ok (MAX_FILE, d') \/
    sfs_write zeros path_a zeros MAX_FILE 0 1 d = Ok (-1, d').
Proof.
  destruct demo_disk as (d & Hok & Hn & Hp & Hs & _).
  assert (0 <= 0 <= i_size (node d 1)) as Hoff by (rewrite Hs; lia).
  assert (i_size (node d 1) < MAX_FILE) as HS by (rewrite Hs; reflexivity).
  destruct (write_at_limit zeros d 1 path_a zeros MAX_FILE 0 1 Hok Hn Hp ltac:(discriminate) Hoff
    ltac:(reflexivity) ltac:(rewrite Z.add_0_l; apply Z.le_refl)) as [Hl _].
  destruct (Hl HS) as [(d' & E & _)|(d' & E & _)]; exists d, d'; [left|right]; exact E.
Defined.
