(* ===== verification/SfsSystem.v ===== *)
(** * The file system as FUSE calls it

    [sfs_oper] is the table of handlers FUSE gets, [call] how it serves a
    request.  [fs_step] is what a request may do to the files, seen as a map
    from inode numbers; the handlers refine it on every disk that [mounted]
    describes, and so does every sequence of requests to a new disk. *)

From S2P Require Import Prelude CMem Disk Inode InodeSpec Sfs SfsInv SfsWrite SfsOps SfsModel.

(** ** The table of handlers *)

(** [struct fuse_operations], without the fields that stay [NULL].  A
    directory listing is an element of [D]. *)
Record fuse_operations (D : Type) := FuseOperations {
  op_init : M disk unit;
  op_destroy : M disk unit;
  op_getattr : mem -> stat -> M disk (Z * stat);
  op_create : mem -> Z -> Z -> M disk (Z * Z);
  op_unlink : mem -> M disk Z;
  op_open : mem -> Z -> M disk (Z * Z);
  op_release : mem -> Z -> M disk (Z * Z);
  op_read : mem -> mem -> Z -> Z -> M disk (Z * mem);
  op_write : mem -> mem -> Z -> Z -> Z -> M disk Z;
  op_readdir : D -> M disk (Z * D)
}.
Arguments op_init {D}. Arguments op_destroy {D}. Arguments op_getattr {D}.
Arguments op_create {D}. Arguments op_unlink {D}. Arguments op_open {D}.
Arguments op_release {D}. Arguments op_read {D}. Arguments op_write {D}.
Arguments op_readdir {D}.

Section table.
Context {D : Type} (uninit : mem) (now fd : Z) (getfl : Z -> Z) (filler : D -> mem -> D * Z).

Definition sfs_oper : fuse_operations D := {|
  op_init := sfs_init uninit fd;
  op_destroy := sfs_destroy;
  op_getattr := sfs_getattr uninit now;
  op_create := sfs_create uninit;
  op_unlink := sfs_unlink uninit;
  op_open := sfs_open uninit getfl;
  op_release := sfs_release uninit;
  op_read := sfs_read uninit;
  op_write := sfs_write uninit;
  op_readdir := sfs_readdir uninit filler
|}.
End table.

(** ** Requests *)

Inductive request (D : Type) :=
  | Getattr (path : mem) (st : stat)
  | Create (path : mem) (mode fh : Z)
  | Unlink (path : mem)
  | Open (path : mem) (fh : Z)
  | Release (path : mem) (fh : Z)
  | Read (path buf : mem) (size offset : Z)
  | Write (path buf : mem) (size offset fh : Z)
  | Readdir (dir : D).
Arguments Getattr {D}. Arguments Create {D}. Arguments Unlink {D}. Arguments Open {D}.
Arguments Release {D}. Arguments Read {D}. Arguments Write {D}. Arguments Readdir {D}.

(** The result of a handler with what it leaves in its arguments. *)
Inductive response (D : Type) :=
  | Status (r : Z)
  | Attributes (r : Z) (st : stat)
  | Handle (r fh : Z)
  | Bytes (r : Z) (buf : mem)
  | Listing (r : Z) (dir : D).
Arguments Status {D}. Arguments Attributes {D}. Arguments Handle {D}. Arguments Bytes {D}.
Arguments Listing {D}.

Definition call {D} (ops : fuse_operations D) (q : request D) : M disk (response D) :=
  match q with
  | Getattr path st => '(r, st) ← op_getattr ops path st; mret (Attributes r st)
  | Create path mode fh => '(r, fh) ← op_create ops path mode fh; mret (Handle r fh)
  | Unlink path => r ← op_unlink ops path; mret (Status r)
  | Open path fh => '(r, fh) ← op_open ops path fh; mret (Handle r fh)
  | Release path fh => '(r, fh) ← op_release ops path fh; mret (Handle r fh)
  | Read path buf size offset =>
      '(r, buf) ← op_read ops path buf size offset; mret (Bytes r buf)
  | Write path buf size offset fh =>
      r ← op_write ops path buf size offset fh; mret (Status r)
  | Readdir dir => '(r, dir) ← op_readdir ops dir; mret (Listing r dir)
  end.

(** ** What requests do to the files *)

(** The file a path names: the first with that path. *)
Definition file_of (F : afs) (path : list Z) : option Z :=
  head (filter (fun n => f_path <$> F !! n = Some path) (seqZ 1 127)).

(** The first inode that is not in use. *)
Definition unused (F : afs) : option Z := head (filter (fun n => F !! n = None) (seqZ 1 127)).

Definition attributes (now n : Z) (f : afile) : stat :=
  Stat (f_mode f) (f_links f) (Z.of_nat (length (f_bytes f)))
    (Z.quot (Z.of_nat (length (f_bytes f))) BLOCK_SIZE + 1) n now now now.

Definition root_attributes (st : stat) : stat :=
  Stat (Z.lor S_IFDIR 0x1FF) 2 (st_size st) (st_blocks st) (st_ino st) (st_ctime st)
    (st_mtime st) (st_atime st).

Definition is_root (path : mem) : Prop := path_of path = [47].

(** The names of the files, without the leading slash, in the order of the
    inodes. *)
Definition entries (F : afs) : list (list Z) :=
  omap (fun n => (fun f => tail (f_path f)) <$> F !! n) (seqZ 1 127).

Section spec.
Context {D : Type} (now : Z) (getfl : Z -> Z) (add : D -> list Z -> D).

Inductive fs_step (F : afs) : request D -> response D -> afs -> Prop :=
  | step_getattr_root path st :
      is_root path -> fs_step F (Getattr path st) (Attributes 0 (root_attributes st)) F
  | step_getattr path st n f :
      ~ is_root path -> file_of F (path_of path) = Some n -> F !! n = Some f ->
      fs_step F (Getattr path st) (Attributes 0 (attributes now n f)) F
  | step_getattr_none path st :
      ~ is_root path -> file_of F (path_of path) = None ->
      fs_step F (Getattr path st) (Attributes (- ENOENT) st) F
  | step_create path mode fh n :
      unused F = Some n ->
      fs_step F (Create path mode fh) (Handle 0 n)
        (<[n := AFile (path_of path) (wrap 32 mode) 1 []]> F)
  | step_create_none path mode fh :
      unused F = None -> fs_step F (Create path mode fh) (Handle 0 fh) F
  | step_unlink path n :
      file_of F (path_of path) = Some n -> fs_step F (Unlink path) (Status 0) (delete n F)
  | step_unlink_none path :
      file_of F (path_of path) = None -> fs_step F (Unlink path) (Status (-1)) F
  | step_open path fh n :
      getfl fh <> -1 -> file_of F (path_of path) = Some n ->
      fs_step F (Open path fh) (Handle 0 n) F
  | step_open_none path fh :
      getfl fh = -1 \/ file_of F (path_of path) = None ->
      fs_step F (Open path fh) (Handle (-1) fh) F
  | step_release path fh n :
      file_of F (path_of path) = Some n -> fs_step F (Release path fh) (Handle 0 no_handle) F
  | step_release_none path fh :
      file_of F (path_of path) = None -> fs_step F (Release path fh) (Handle (-1) fh) F
  | step_read path buf size offset n f buf' :
      file_of F (path_of path) = Some n -> F !! n = Some f ->
      offset <= Z.of_nat (length (f_bytes f)) ->
      (forall k, 0 <= k < size -> offset + k < Z.of_nat (length (f_bytes f)) ->
         f_bytes f !! Z.to_nat (offset + k) = Some (buf' k)) ->
      (forall k, k < 0 \/ size <= k -> buf' k = buf k) ->
      fs_step F (Read path buf size offset) (Bytes size buf') F
  | step_read_beyond path buf size offset n f :
      file_of F (path_of path) = Some n -> F !! n = Some f ->
      Z.of_nat (length (f_bytes f)) < offset ->
      fs_step F (Read path buf size offset) (Bytes (- EFAULT) buf) F
  | step_read_none path buf size offset :
      file_of F (path_of path) = None ->
      fs_step F (Read path buf size offset) (Bytes (- EBADF) buf) F
  | step_write path buf size offset fh n f :
      file_of F (path_of path) = Some n -> F !! n = Some f -> fh <> no_handle ->
      let written := Z.min size (MAX_FILE - offset) in
      fs_step F (Write path buf size offset fh) (Status written)
        (<[n := AFile (f_path f) (f_mode f) (f_links f)
                  (splice (f_bytes f) offset (tabulate buf written))]> F)
  | step_write_past path buf size offset fh n f l :
      file_of F (path_of path) = Some n -> F !! n = Some f -> fh <> no_handle ->
      Z.of_nat (length (f_bytes f)) < offset ->
      Z.of_nat (length l) = Z.of_nat (length (f_bytes f)) + size ->
      take (length (f_bytes f)) l = f_bytes f ->
      (forall p, offset <= p < Z.of_nat (length l) -> l !! Z.to_nat p = Some (buf (p - offset))) ->
      fs_step F (Write path buf size offset fh) (Status size)
        (<[n := AFile (f_path f) (f_mode f) (f_links f) l]> F)
  | step_write_full path buf size offset fh n f l :
      file_of F (path_of path) = Some n -> F !! n = Some f -> fh <> no_handle ->
      length l = length (f_bytes f) ->
      nblocks (Z.of_nat (length (f_bytes f))) * BLOCK_SIZE <= offset + size ->
      fs_step F (Write path buf size offset fh) (Status (-1))
        (<[n := AFile (f_path f) (f_mode f) (f_links f) l]> F)
  | step_write_none path buf size offset fh :
      file_of F (path_of path) = None \/ fh = no_handle ->
      fs_step F (Write path buf size offset fh) (Status (- EBADF)) F
  | step_readdir dir :
      fs_step F (Readdir dir) (Listing 0 (foldl add dir (entries F))) F.
End spec.

(** A sequence of requests with their responses, each at its own time. *)
Inductive fs_trace {D} (add : D -> list Z -> D) : afs -> list (request D * response D) -> afs -> Prop :=
  | fs_trace_nil F : fs_trace add F [] F
  | fs_trace_cons now getfl F q r F1 tr F2 :
      fs_step now getfl add F q r F1 -> fs_trace add F1 tr F2 -> fs_trace add F ((q, r) :: tr) F2.
