(* ===== verification/SfsMain.v ===== *)
(** * The start of the file system: [main] of [assignment3/src/sfs.c]

    The process checks its command line, takes the disk file out of it, opens the
    log ([log_open] of [log.c]) and hands the rest to FUSE.  [fopen], [malloc]
    and [fuse_main] are parameters: a pointer is 0 when the call failed. *)

From Stdlib Require Import String Ascii.
From S2P Require Import Prelude CMem Disk Sfs SfsSystem.

(** [struct sfs_state] *)
Record sfs_state := SfsState { logfile : Z; diskfile_name : string }.

(** The exit status a shell reports after [abort]. *)
Definition ABORTED : Z := 134.
Definition EXIT_FAILURE : Z := 1.

(** [argv] is an array of strings; [None] is [NULL]. *)
Definition arg (argv : list (option string)) (i : Z) : result (option string) :=
  match (if i <? 0 then None else argv !! Z.to_nat i) with
  | Some a => mret a
  | None => Fault OutOfBounds
  end.

Definition set_arg (argv : list (option string)) (i : Z) (a : option string)
    : result (list (option string)) :=
  _ ← arg argv i; mret (<[Z.to_nat i := a]> argv).

(** [a[0]]; the terminating zero of an empty string. *)
Definition first_char (a : option string) : result ascii :=
  match a with
  | None => Fault NullDeref
  | Some EmptyString => mret zero
  | Some (String c _) => mret c
  end.

Definition dash : ascii := "-"%char.

Section main.
Context {D : Type} (ops : fuse_operations D).
Context (fopen : string -> string -> Z) (malloc : Z).
Context (fuse_main : Z -> list (option string) -> fuse_operations D -> sfs_state -> result Z).

Definition log_open : result Z :=
  let logfile := fopen "sfs.log"%string "w"%string in
  if logfile =? 0 then Exit EXIT_FAILURE else mret logfile.

Definition sfs_usage : result unit := Exit ABORTED.

(** The condition of the check, evaluated from left to right. *)
Definition bad_command_line (argc : Z) (argv : list (option string)) : result bool :=
  if argc <? 3 then mret true
  else
    a ← arg argv (argc - 2);
    c ← first_char a;
    if decide (c = dash) then mret true
    else
      b ← arg argv (argc - 1);
      c ← first_char b;
      mret (bool_decide (c = dash)).

Definition main (argc : Z) (argv : list (option string)) : result Z :=
  bad ← bad_command_line argc argv;
  _ ← (if bad : bool then sfs_usage else mret tt);
  if malloc =? 0 then Exit ABORTED
  else
    a ← arg argv (argc - 2);
    diskfile ← (match a with Some a => mret a | None => Fault NullDeref end);
    b ← arg argv (argc - 1);
    argv ← set_arg argv (argc - 2) b;
    argv ← set_arg argv (argc - 1) None;
    let argc := argc - 1 in
    logfile ← log_open;
    fuse_main argc argv ops (SfsState logfile diskfile).

(** ** What it does *)

(** The array [main] gets for the arguments [args]. *)
Definition argv_of (args : list string) : list (option string) := map Some args ++ [None].

Definition is_option (a : string) : bool :=
  match a with String c _ => bool_decide (c = dash) | EmptyString => false end.

Lemma arg_at l1 a l2 i : i = Z.of_nat (length l1) -> arg (l1 ++ a :: l2) i = Ok a.
Proof.
  intros ->. unfold arg. rewrite Zltb_f by lia. rewrite Nat2Z.id, list_lookup_middle by done. done.
Qed.

Lemma set_arg_at l1 a b l2 i :
  i = Z.of_nat (length l1) -> set_arg (l1 ++ a :: l2) i b = Ok (l1 ++ b :: l2).
Proof.
  intros Hi. unfold set_arg. rewrite (arg_at l1 a l2 i Hi). cbn. rewrite Hi, Nat2Z.id.
  by rewrite insert_app_r_alt, Nat.sub_diag by lia.
Qed.

Lemma first_char_option a :
  exists c, first_char (Some a) = Ok c /\ bool_decide (c = dash) = is_option a.
Proof. destruct a as [|c a]; eexists; split; reflexivity. Qed.

(** A command line that ends in two arguments. *)
Lemma bad_command_line_spec opts disk mnt :
  bad_command_line (Z.of_nat (length opts) + 2) (argv_of (opts ++ [disk; mnt]))
  = Ok ((Z.of_nat (length opts) + 2 <? 3) || is_option disk || is_option mnt).
Proof.
  unfold bad_command_line, argv_of. rewrite map_app, <- app_assoc. cbn [map app].
  destruct (_ <? 3) eqn:E; [done|]. cbn [orb].
  rewrite (arg_at (map Some opts) (Some disk) _ (Z.of_nat (length opts) + 2 - 2))
    by (rewrite length_map; lia). cbn [mbind result_bind].
  destruct (first_char_option disk) as (c & -> & Hc). cbn [mbind result_bind].
  assert (map Some opts ++ [Some disk; Some mnt; None]
    = (map Some opts ++ [Some disk]) ++ Some mnt :: [None]) as -> by (by rewrite <- app_assoc).
  rewrite (arg_at _ (Some mnt)) by (rewrite length_app, length_map; cbn [length]; lia). cbn [mbind result_bind].
  destruct (first_char_option mnt) as (c' & -> & Hc'). cbn.
  rewrite <- Hc, <- Hc'. destruct (decide (c = dash)) as [Ec|Ec].
  - by rewrite (bool_decide_true _ Ec).
  - by rewrite (bool_decide_false _ Ec).
Qed.

Lemma main_accepts opts disk mnt :
  is_option disk = false -> is_option mnt = false -> (1 <= length opts)%nat ->
  main (Z.of_nat (length opts) + 2) (argv_of (opts ++ [disk; mnt])) =
  if malloc =? 0 then Exit ABORTED
  else logfile ← log_open;
    fuse_main (Z.of_nat (length opts) + 1) (map Some (opts ++ [mnt]) ++ [None; None]) ops
      (SfsState logfile disk).
Proof.
  intros Hd Hm Hl. unfold main. rewrite bad_command_line_spec, Hd, Hm, Zltb_f by lia.
  cbn [orb mbind result_bind]. destruct (malloc =? 0); [done|].
  unfold argv_of. rewrite !map_app, <- !app_assoc. cbn [map app].
  assert (map Some opts ++ [Some disk; Some mnt; None]
    = (map Some opts ++ [Some disk]) ++ Some mnt :: [None]) as E by (by rewrite <- app_assoc).
  rewrite (arg_at (map Some opts) (Some disk) _ (Z.of_nat (length opts) + 2 - 2))
    by (rewrite length_map; lia). cbn [mbind result_bind].
  assert (arg (map Some opts ++ [Some disk; Some mnt; None]) (Z.of_nat (length opts) + 2 - 1)
    = Ok (Some mnt)) as -> by (rewrite E; apply arg_at; rewrite length_app, length_map; cbn [length]; lia).
  cbn [mbind result_bind].
  rewrite (set_arg_at (map Some opts)) by (rewrite length_map; lia). cbn [mbind result_bind].
  assert (map Some opts ++ [Some mnt; Some mnt; None]
    = (map Some opts ++ [Some mnt]) ++ Some mnt :: [None]) as -> by (by rewrite <- app_assoc).
  rewrite set_arg_at by (rewrite length_app, length_map; cbn [length]; lia). cbn [mbind result_bind].
  rewrite <- app_assoc. by replace (_ + 2 - 1) with (Z.of_nat (length opts) + 1) by lia.
Qed.

Lemma main_refuses argc argv :
  bad_command_line argc argv = Ok true -> main argc argv = Exit ABORTED.
Proof. intros E. unfold main. by rewrite E. Qed.

(** C35: what [main] does on every command line.  With fewer than two arguments
    after the program's name, or when one of the last two is an option, and when
    there is no memory, it aborts; without a log file it exits with a failure;
    else FUSE gets all arguments but the last but one, which is the disk file, in
    an array that still ends in [NULL]. *)
Theorem main_correct args :
  main (Z.of_nat (length args)) (argv_of args) =
  match reverse args with
  | mnt :: disk :: ((_ :: _) as opts) =>
      if is_option disk || is_option mnt || (malloc =? 0) then Exit ABORTED
      else if fopen "sfs.log" "w" =? 0 then Exit EXIT_FAILURE
      else fuse_main (Z.of_nat (length args) - 1) (map Some (reverse opts ++ [mnt]) ++ [None; None])
             ops (SfsState (fopen "sfs.log" "w") disk)
  | _ => Exit ABORTED
  end.
Proof.
  assert (args = reverse (reverse args)) as E by (by rewrite reverse_involutive).
  destruct (reverse args) as [|mnt [|disk [|p opts]]]; subst args; try (by apply main_refuses).
  rewrite !reverse_cons. set (o := reverse opts ++ [p]).
  assert ((o ++ [disk]) ++ [mnt] = o ++ [disk; mnt]) as -> by (by rewrite <- app_assoc).
  assert (Z.of_nat (length (o ++ [disk; mnt])) = Z.of_nat (length o) + 2) as ->
    by (rewrite length_app; cbn [length]; lia).
  assert (1 <= length o)%nat as Ho by (unfold o; rewrite length_app; cbn [length]; lia).
  destruct (is_option disk || is_option mnt) eqn:Eo.
  { apply main_refuses. rewrite bad_command_line_spec, <- orb_assoc, Eo. by rewrite orb_true_r. }
  apply orb_false_iff in Eo as [Ed Em]. rewrite main_accepts by done. cbn [orb].
  destruct (malloc =? 0); [done|]. unfold log_open.
  destruct (fopen _ _ =? 0); [done|]. by replace (_ + 2 - 1) with (Z.of_nat (length o) + 1) by lia.
Qed.
End main.
