(* ===== verification/SfsRefine.v ===== *)
(** * The handlers refine the map of files

    [mounted] is what the handlers keep on the disk; [allowed] is when a request
    is one the handlers serve well.  On a mounted disk every allowed request
    returns and does to [abs] what [fs_step] says. *)

From S2P Require Import Prelude CMem Disk Inode InodeSpec Sfs SfsInv SfsWrite SfsOps SfsSpec SfsModel SfsPast SfsLimit SfsSystem.

(** ** Looking up paths *)

Section lookup.
Context (d : disk) (Hok : fs_ok d) (Hroot : is_root (i_path (node d 0))).

Lemma used_end n : inode_num n -> inode_free d n = false -> has_end (i_path (node d n)).
Proof. apply (ok_names d Hok). Qed.

Lemma holds_file path n :
  has_end path -> ~ is_root path ->
  holds d path n <-> is_file d n /\ path_of (i_path (node d n)) = path_of path.
Proof.
  intros Hp Hr. unfold holds, is_file. split.
  - intros (H1 & H2 & H3). pose proof (used_end n H1 H2) as He. apply cstr_eq_path in H3; [|done..].
    split; [|done]. split_and!; try done. intros ->. apply Hr. unfold is_root in *. congruence.
  - intros ((H1 & _ & H2) & H3). split_and!; try done.
    pose proof (used_end n H1 H2) as He. by apply cstr_eq_path.
Qed.

Lemma abs_path n p :
  f_path <$> abs d !! n = Some p <-> is_file d n /\ path_of (i_path (node d n)) = p.
Proof.
  rewrite fmap_Some. split.
  - by intros (f & [Hf ->]%abs_lookup & ->).
  - intros [Hn <-]. exists (file_at d n). split; [by apply abs_file|done].
Qed.

Lemma file_of_some path n :
  has_end path -> ~ is_root path ->
  file_of (abs d) (path_of path) = Some n <-> names d n path.
Proof.
  intros Hp Hr. unfold file_of. rewrite head_filter_seqZ, abs_path, <- (holds_file path n Hp Hr).
  unfold names. split.
  - intros (Hn & Hh & Hlt). split; [done|]. intros k Hk Hh'.
    pose proof Hh' as [(_ & ? & _) _]%holds_file; [|done..].
    apply (Hlt k); [lia|]. by apply abs_path, holds_file.
  - intros [Hh Hlt]. pose proof Hh as [([? ?] & ? & _) _]%holds_file; [|done..].
    unfold INODE_LIST_SIZE in *. split; [lia|]. split; [done|].
    intros j Hj. rewrite abs_path, <- (holds_file path j Hp Hr). apply Hlt. lia.
Qed.

Lemma file_of_none path :
  has_end path -> ~ is_root path ->
  file_of (abs d) (path_of path) = None <-> forall n, ~ holds d path n.
Proof.
  intros Hp Hr. split.
  - intros H n Hn. assert (exists m, names d m path) as [m Hm].
    { destruct (checkiNodePathName_spec (fun _ => 0) d (ok_disk d Hok) (ok_names d Hok) path)
        as [(m & _ & _ & _ & Hm & Hlt)|[_ Hno]]; [by exists m|by destruct (Hno n)]. }
    apply file_of_some in Hm; [|done..]. congruence.
  - intros H. destruct (file_of _ _) as [n|] eqn:E; [|done].
    apply file_of_some in E as [Hh _]; [|done..]. by destruct (H n).
Qed.

(** The search every handler starts with. *)
Lemma lookup_cases uninit path :
  has_end path -> ~ is_root path ->
  (exists n nd, names d n path /\ is_file d n /\ file_of (abs d) (path_of path) = Some n /\
     checkiNodePathName uninit path d = Ok (nd, d) /\ same_inode (node d n) nd /\ i_id nd = n) \/
  (file_of (abs d) (path_of path) = None /\
     checkiNodePathName uninit path d = Ok (set_id uninit (-1), d)).
Proof.
  intros Hp Hr.
  destruct (checkiNodePathName_spec uninit d (ok_disk d Hok) (ok_names d Hok) path)
    as [(n & nd & E & Hs & Hh & Hlt)|[E Hno]]; [left|right].
  - exists n, nd. assert (names d n path) as Hn by done. split; [done|].
    pose proof Hh as [Hf _]%holds_file; [|done..]. split; [done|].
    split; [by apply file_of_some|]. split; [done|]. split; [done|].
    rewrite <- (i_id_proper _ _ Hs). apply (ok_id d Hok); apply Hf.
  - split; [|done]. by apply file_of_none.
Qed.
End lookup.

(** ** The invariant and the requests *)

Record mounted (d : disk) : Prop := Mounted {
  mt_ok : fs_ok d;
  mt_root : is_root (i_path (node d 0));
  mt_links n : is_file d n -> i_hardlinks (node d n) = 1;
  mt_paths n : is_file d n -> path_of (i_path (node d n)) <> []
}.

Definition len (d : disk) (n : Z) : Z := i_size (node d n).

(** What [sfs_unlink] needs of the file: the entry of its data array past its
    last block exists, and is not a block of another file. *)
Definition removable (d : disk) (n : Z) : Prop :=
  let k := len d n / BLOCK_SIZE + 1 in
  k < 1024 /\ block_entry (i_data (node d n) k) /\ ~ foreign d n (i_data (node d n) k).

Definition allowed {D} (d : disk) (q : request D) : Prop :=
  match q with
  | Getattr path _ => has_end path
  | Create path _ _ => has_end path /\ path_of path <> [] /\ ~ disk_full d
  | Unlink path => has_end path /\ ~ is_root path /\ forall n, names d n path -> removable d n
  | Open path _ | Release path _ => has_end path /\ ~ is_root path
  | Read path _ size offset =>
      has_end path /\ ~ is_root path /\ 0 <= size /\ 0 <= offset /\
      forall n, names d n path -> offset <= len d n ->
        offset + size < nblocks (len d n) * BLOCK_SIZE
  | Write path _ size offset _ =>
      has_end path /\ ~ is_root path /\ 0 <= size /\
      forall n, names d n path ->
        (0 <= offset <= len d n /\ (len d n = MAX_FILE -> offset + size < MAX_FILE)) \/
        (len d n < offset /\ offset + size < (len d n / BLOCK_SIZE + 1) * BLOCK_SIZE /\
         (len d n / BLOCK_SIZE + 1) * BLOCK_SIZE <= MAX_FILE)
  | Readdir _ => True
  end.

Section keeps.
Context (d d' : disk) (n : Z) (Hm : mounted d) (Hok' : fs_ok d').

(** A call for the file [n] keeps the rest of the invariant. *)
Lemma mounted_intro :
  n <> 0 ->
  (forall m, inode_num m -> m <> n -> same_inode (node d m) (node d' m)) ->
  (forall m, inode_num m -> m <> n -> inode_free d' m = inode_free d m) ->
  (is_file d' n -> i_hardlinks (node d' n) = 1 /\ path_of (i_path (node d' n)) <> []) ->
  mounted d'.
Proof.
  intros Hn Hs Hf Hl. assert (inode_num 0) as H0 by (unfold inode_num, INODE_LIST_SIZE; lia).
  split; [done| | |].
  - unfold is_root. rewrite <- (mt_root d Hm). apply path_of_ext. intros k Hk.
    by apply (i_path_same _ _ _ (Hs 0 H0 ltac:(done))).
  - intros m Hf'. destruct (decide (m = n)) as [->|Hne]; [by apply Hl|].
    pose proof Hf' as (H1 & _ & _). rewrite <- (i_hardlinks_proper _ _ (Hs m H1 Hne)).
    apply (mt_links d Hm). apply (is_file_same d d'); [by apply Hf|done].
  - intros m Hf'. destruct (decide (m = n)) as [->|Hne]; [by apply Hl|].
    pose proof Hf' as (H1 & _ & _). rewrite (path_of_ext _ (i_path (node d m))).
    + apply (mt_paths d Hm). apply (is_file_same d d'); [by apply Hf|done].
    + intros k Hk. by apply (i_path_same _ _ _ (Hs m H1 Hne)).
Qed.
End keeps.

(** ** Requests one by one *)

Section requests.
Context {D : Type} (uninit : mem) (now fd : Z) (getfl : Z -> Z) (filler : D -> mem -> D * Z).
Context (add : D -> list Z -> D).

(** The filler of FUSE takes a name as a C string. *)
Context (Hfill : forall dir a k, k < 255 -> ends a k -> (filler dir a).1 = add dir (path_of a)).

Notation ops := (sfs_oper uninit now fd getfl filler).
Notation fs_step := (fs_step now getfl add).

(** The request returns, does what the specification says, and the disk stays
    mounted. *)
Definition served (d : disk) (q : request D) : Prop :=
  exists r d', call ops q d = Ok (r, d') /\ fs_step (abs d) q r (abs d') /\ mounted d'.

Lemma request_intro d q r d' :
  call ops q d = Ok (r, d') -> fs_step (abs d) q r (abs d') -> mounted d' -> served d q.
Proof. intros. by exists r, d'. Qed.

Lemma length_bytes d n : fs_ok d -> is_file d n -> Z.of_nat (length (f_bytes (file_at d n))) = len d n.
Proof. intros Hok Hn. cbn. rewrite length_tabulate. pose proof (ok_size d Hok n Hn). unfold len. lia. Qed.

Lemma is_root_eq path : has_end path -> cstr_eq path root_path <-> is_root path.
Proof.
  intros Hp. assert (has_end root_path) as Hre by (by exists 1).
  rewrite (cstr_eq_path path root_path Hp Hre). done.
Qed.

Lemma named_file d path n :
  mounted d -> has_end path -> ~ is_root path -> names d n path ->
  is_file d n /\ file_of (abs d) (path_of path) = Some n.
Proof.
  intros Hm Hp Hr Hn. pose proof (mt_ok d Hm) as Hok. pose proof (mt_root d Hm) as Hrt.
  split; [|by apply file_of_some]. destruct Hn as [Hh _]. by apply holds_file in Hh as [? _].
Qed.

Lemma unnamed d path :
  mounted d -> has_end path -> ~ is_root path -> (forall n, ~ holds d path n) ->
  file_of (abs d) (path_of path) = None.
Proof.
  intros Hm Hp Hr. apply file_of_none; [apply (mt_ok d Hm)|apply (mt_root d Hm)|done..].
Qed.

Lemma getattr_served d path st :
  mounted d -> allowed d (Getattr (D:=D) path st) -> served d (Getattr path st).
Proof.
  intros Hm Hp. pose proof (mt_ok d Hm) as Hok. cbn in Hp.
  destruct (decide (is_root path)) as [Hr|Hr].
  - eapply request_intro; [|by apply step_getattr_root|done].
    destruct (root_path_eq path) as (b & Eb & Hb).
    assert (b = true) as -> by (apply Hb; by apply is_root_eq).
    cbn [call op_getattr sfs_oper].
    mstep by (unfold sfs_getattr; mstep by (unfold lift; rewrite Eb; reflexivity); reflexivity).
    done.
  - assert (~ cstr_eq path root_path) as Hr' by (by rewrite is_root_eq).
    destruct (sfs_getattr_spec uninit now d path st Hok Hr') as [(n & Hn & _ & E)|[Hno E]].
    + destruct (named_file d path n Hm Hp Hr Hn) as [Hf Ef].
      eapply request_intro; [|eapply (step_getattr _ _ _ _ path st n (file_at d n)); [done| |]|done].
      * cbn [call op_getattr sfs_oper]. mstep by exact E. unfold attributes.
        rewrite (length_bytes d n Hok Hf). reflexivity.
      * done.
      * by apply abs_file.
    + eapply request_intro; [|apply step_getattr_none; [done|]|done].
      * cbn [call op_getattr sfs_oper]. mstep by exact E. reflexivity.
      * by apply unnamed.
Qed.

Lemma unused_some d n :
  unused (abs d) = Some n <-> 1 <= n < 128 /\ ~ is_file d n /\ forall j, 1 <= j < n -> is_file d j.
Proof.
  unfold unused. rewrite head_filter_seqZ, abs_none. split; intros (H1 & H2 & H3).
  - split; [lia|]. split; [done|]. intros j Hj. pose proof (H3 j Hj) as H.
    rewrite abs_none in H. unfold is_file in *. destruct (inode_free d j) eqn:E.
    + destruct H. intros (_ & _ & ?). done.
    + split_and!; [unfold inode_num, INODE_LIST_SIZE; lia|lia|done].
  - split; [lia|]. split; [done|]. intros j Hj. rewrite abs_none. intros H. by apply H, H3.
Qed.

Lemma create_served d path mode fh :
  mounted d -> allowed d (Create (D:=D) path mode fh) -> served d (Create path mode fh).
Proof.
  intros Hm (Hp & Hne & Hfull). pose proof (mt_ok d Hm) as Hok.
  pose proof (ok_root d Hok) as H0.
  destruct (sfs_create_spec uninit d path mode fh Hok Hp)
    as [(n & b & d' & Hf & Hlt & _ & _ & E & Hc & _)|[(_ & _ & _ & _ & Hfl & _)|[Hno E]]]; [| done |].
  - pose proof (cr_file _ _ _ _ _ _ Hc) as Hn. pose proof Hn as (Hnum & Hn0 & _).
    assert (~ is_file d n) as Hnf by (intros (_ & _ & ?); congruence).
    eapply request_intro; [|rewrite (abs_created d n b path mode d'); [|done..]; apply step_create|].
    + cbn [call op_create sfs_oper]. by mstep by exact E.
    + unfold inode_num, INODE_LIST_SIZE in Hnum. apply unused_some. split; [lia|]. split; [done|].
      intros j Hj. split_and!; [unfold inode_num, INODE_LIST_SIZE; lia|lia|apply Hlt; lia].
    + apply (mounted_intro d d' n Hm (cr_ok _ _ _ _ _ _ Hc) Hn0).
      * intros m H1 H2. by apply Hc.
      * intros m H1 H2. by apply Hc.
      * intros _. destruct (cr_attr _ _ _ _ _ _ Hc) as (_ & _ & -> & _). split; [done|].
        pose proof (cr_path _ _ _ _ _ _ Hc) as Hpt. apply cstr_eq_path in Hpt; [by rewrite <- Hpt|done|].
        by apply (ok_names d' (cr_ok _ _ _ _ _ _ Hc)); [|apply Hn].
  - eapply request_intro; [|apply step_create_none|done].
    + cbn [call op_create sfs_oper]. by mstep by exact E.
    + destruct (unused (abs d)) as [n|] eqn:Eu; [|done]. apply unused_some in Eu as (Hn & Hnf & _).
      destruct Hnf. split_and!; [unfold inode_num, INODE_LIST_SIZE; lia|lia|].
      apply Hno. unfold inode_num, INODE_LIST_SIZE; lia.
Qed.

(** The lookup of a request on a mounted disk. *)
Lemma mounted_lookup d path :
  mounted d -> has_end path -> ~ is_root path ->
  (exists n nd, names d n path /\ is_file d n /\ file_of (abs d) (path_of path) = Some n /\
     checkiNodePathName uninit path d = Ok (nd, d) /\ same_inode (node d n) nd /\
     i_id nd = n /\ n <> -1) \/
  (file_of (abs d) (path_of path) = None /\
     checkiNodePathName uninit path d = Ok (set_id uninit (-1), d) /\
     (forall n, ~ holds d path n)).
Proof.
  intros Hm Hp Hr. pose proof (mt_ok d Hm) as Hok. pose proof (mt_root d Hm) as Hrt.
  destruct (lookup_cases d Hok Hrt uninit path Hp Hr) as [(n & nd & H1 & H2 & H)|[H1 H2]];
    [left|right].
  - exists n, nd. destruct H as (? & ? & ? & ?). split_and!; try done.
    destruct H2 as [[? _] _]. lia.
  - split; [done|]. split; [done|]. by apply (file_of_none d Hok Hrt path).
Qed.

Lemma no_file_id : i_id (set_id uninit (-1)) = -1.
Proof. by ifields. Qed.

Lemma unlink_served d path :
  mounted d -> allowed d (Unlink (D:=D) path) -> served d (Unlink path).
Proof.
  intros Hm (Hp & Hr & Hrm). pose proof (mt_ok d Hm) as Hok.
  destruct (mounted_lookup d path Hm Hp Hr) as [(n & nd & Hn & Hf & Ef & _)|(Ef & E & _)].
  - destruct (Hrm n Hn) as (H1 & H2 & H3). pose proof (mt_links d Hm n Hf) as Hl.
    destruct (sfs_unlink_spec uninit d n path Hok Hf Hn) as (d' & E & Hrd); try done; [lia..|].
    pose proof (removed_ok d n d' Hok Hf Hrd H3 H1) as Hok'.
    eapply request_intro; [|rewrite (abs_removed d n d'); [|done..]; by apply step_unlink|].
    + cbn [call op_unlink sfs_oper]. by mstep by exact E.
    + apply (mounted_intro d d' n Hm Hok'); [apply Hf| | |].
      * intros m Hm' _. by apply Hrd.
      * intros m Hm' Hne. rewrite (rm_inodes _ _ _ Hrd) by done. by rewrite Zeqb_f.
      * intros (Hn1 & _ & Hn2). rewrite (rm_inodes _ _ _ Hrd) in Hn2 by done.
        by rewrite Z.eqb_refl in Hn2.
  - eapply request_intro; [|by apply step_unlink_none|done].
    cbn [call op_unlink sfs_oper]. mstep by (unfold sfs_unlink; mstep by exact E;
      rewrite no_file_id; reflexivity). done.
Qed.

Lemma open_served d path fh :
  mounted d -> allowed d (Open (D:=D) path fh) -> served d (Open path fh).
Proof.
  intros Hm (Hp & Hr). pose proof (mt_ok d Hm) as Hok. pose proof (mt_root d Hm) as Hrt.
  destruct (decide (getfl fh = -1)) as [Hfl|Hfl].
  { eapply request_intro; [|by apply step_open_none; left|done].
    cbn [call op_open sfs_oper]. mstep by (unfold sfs_open; rewrite Hfl; reflexivity). done. }
  destruct (sfs_open_spec uninit d getfl path fh Hok Hfl) as [(n & Hn & E)|[Hno E]].
  - eapply request_intro; [|apply (step_open _ _ _ _ path fh n Hfl)|done].
    + cbn [call op_open sfs_oper]. by mstep by exact E.
    + by apply named_file.
  - eapply request_intro; [|apply step_open_none; right|done].
    + cbn [call op_open sfs_oper]. by mstep by exact E.
    + by apply unnamed.
Qed.

Lemma release_served d path fh :
  mounted d -> allowed d (Release (D:=D) path fh) -> served d (Release path fh).
Proof.
  intros Hm (Hp & Hr).
  destruct (mounted_lookup d path Hm Hp Hr)
    as [(n & nd & _ & _ & Ef & E & _ & Hid & Hn1)|(Ef & E & _)].
  - eapply request_intro; [|by eapply step_release|done]. cbn [call op_release sfs_oper].
    mstep by (unfold sfs_release; mstep by exact E; rewrite Hid, Zeqb_f by done; reflexivity). done.
  - eapply request_intro; [|by apply step_release_none|done]. cbn [call op_release sfs_oper].
    mstep by (unfold sfs_release; mstep by exact E; rewrite no_file_id; reflexivity). done.
Qed.

Lemma bytes_lookup d n p :
  fs_ok d -> is_file d n -> 0 <= p < len d n ->
  f_bytes (file_at d n) !! Z.to_nat p = Some (file_byte d (node d n) p).
Proof. intros Hok Hn Hp. cbn. by rewrite tabulate_lookup. Qed.

Lemma read_served d path buf size offset :
  mounted d -> allowed d (Read (D:=D) path buf size offset) -> served d (Read path buf size offset).
Proof.
  intros Hm (Hp & Hr & Hsz & Hoff & Hin). pose proof (mt_ok d Hm) as Hok.
  destruct (mounted_lookup d path Hm Hp Hr)
    as [(n & nd & Hn & Hf & Ef & E & Hs & Hid & Hn1)|(Ef & E & _)].
  2: { eapply request_intro; [|by apply step_read_none|done]. cbn [call op_read sfs_oper].
       mstep by (unfold sfs_read; mstep by exact E; rewrite no_file_id; reflexivity). done. }
  pose proof (length_bytes d n Hok Hf) as Hl. pose proof (i_size_proper _ _ Hs) as Esz.
  destruct (Z.lt_ge_cases (len d n) offset) as [Hlt|Hge].
  { eapply request_intro; [|eapply (step_read_beyond _ _ _ _ path buf size offset n (file_at d n));
      [done|by apply abs_file|by rewrite Hl]|done].
    cbn [call op_read sfs_oper]. mstep by (unfold sfs_read; mstep by exact E;
      rewrite Hid, (Zeqb_f n), <- Esz, Zltb_t by done; reflexivity). done. }
  destruct (decide (size = 0)) as [->|Hpos].
  - eapply request_intro; [|eapply (step_read _ _ _ _ path buf 0 offset n (file_at d n));
      [done|by apply abs_file|by rewrite Hl|intros; lia|done]|done].
    cbn [call op_read sfs_oper]. mstep by (unfold sfs_read; mstep by exact E;
      rewrite Hid, (Zeqb_f n), <- Esz, Zltb_f by done; reflexivity). done.
  - destruct (file_read_correct uninit d n path buf size offset Hok Hf Hn ltac:(lia)
      ltac:(done) (Hin n Hn Hge)) as (buf' & Er & Hb & Ho).
    eapply request_intro; [|eapply (step_read _ _ _ _ path buf size offset n (file_at d n) buf');
      [done|by apply abs_file|by rewrite Hl| |exact Ho]|done].
    + cbn [call op_read sfs_oper]. mstep by exact Er. done.
    + intros k Hk Hlen. rewrite Hl in Hlen. rewrite bytes_lookup by (done || lia). by rewrite Hb.
Qed.

Lemma splice_nil {A} (l : list A) off : splice l off [] = l.
Proof. unfold splice. cbn. by rewrite Nat.add_0_r, take_drop. Qed.

Lemma rewritten d n buf off :
  is_file d n ->
  <[n := AFile (f_path (file_at d n)) (f_mode (file_at d n)) (f_links (file_at d n))
           (splice (f_bytes (file_at d n)) off (tabulate buf 0))]> (abs d) = abs d.
Proof.
  intros Hf. change (tabulate buf 0) with (@nil Z). rewrite splice_nil.
  apply insert_id. by rewrite (abs_file d n Hf).
Qed.

Lemma afile_inj p m l b p' m' l' b' :
  Some (AFile p m l b) = Some (AFile p' m' l' b') -> p = p' /\ l = l'.
Proof. by intros [= -> _ -> _]. Qed.

Lemma kept_attributes d d' n m b :
  mounted d -> is_file d n ->
  abs d' = <[n := AFile (path_of (i_path (node d n))) m (i_hardlinks (node d n)) b]> (abs d) ->
  is_file d' n -> i_hardlinks (node d' n) = 1 /\ path_of (i_path (node d' n)) <> [].
Proof.
  intros Hm Hf E Hf'. pose proof (abs_file d' n Hf') as Ea. rewrite E, lookup_insert_eq in Ea.
  apply afile_inj in Ea as [Ep El]. split.
  - rewrite <- El. by apply (mt_links d Hm).
  - rewrite <- Ep. by apply (mt_paths d Hm).
Qed.

(** A call for the file [n] that leaves its path and its links. *)
Lemma mounted_kept d d' n m b :
  mounted d -> is_file d n -> fs_ok d' ->
  (forall m, inode_num m -> m <> n -> same_inode (node d m) (node d' m)) ->
  (forall m, inode_num m -> inode_free d' m = inode_free d m) ->
  abs d' = <[n := AFile (path_of (i_path (node d n))) m (i_hardlinks (node d n)) b]> (abs d) ->
  mounted d'.
Proof.
  intros Hm Hf Hok' Hs Hfr Ea. apply (mounted_intro d d' n Hm Hok'); [apply Hf|done| |].
  - intros k Hk _. by apply Hfr.
  - by apply (kept_attributes d d' n m b).
Qed.

Lemma wrote_served d n path buf size offset fh d' :
  mounted d -> is_file d n -> file_of (abs d) (path_of path) = Some n -> fh <> no_handle ->
  0 <= offset <= len d n -> let w := Z.min size (MAX_FILE - offset) in 0 <= w ->
  sfs_write uninit path buf size offset fh d = Ok (w, d') ->
  wrote d n buf offset d' (offset + w) -> served d (Write path buf size offset fh).
Proof.
  intros Hm Hf Ef Hfh Hoff w H0 E Hw. pose proof (mt_ok d Hm) as Hok.
  pose proof (abs_wrote d n buf offset d' (offset + w) Hok Hf Hoff ltac:(lia) Hw) as Ea.
  replace (offset + w - offset) with w in Ea by lia.
  eapply request_intro; [|rewrite Ea; apply (step_write _ _ _ _ path buf size offset fh n (file_at d n));
    [done|by apply abs_file|done]|].
  - cbn [call op_write sfs_oper]. by mstep by exact E.
  - apply (mounted_kept d d' n _ _ Hm Hf (wr_ok _ _ _ _ _ _ Hw)) in Ea; [done|apply Hw..].
Qed.

Lemma aborted_served d n path buf size offset fh d' :
  mounted d -> is_file d n -> file_of (abs d) (path_of path) = Some n -> fh <> no_handle ->
  nblocks (len d n) * BLOCK_SIZE <= offset + size ->
  sfs_write uninit path buf size offset fh d = Ok (-1, d') -> aborted d n d' ->
  served d (Write path buf size offset fh).
Proof.
  intros Hm Hf Ef Hfh Hroom E Hab. destruct (abs_aborted d n d' Hf Hab) as (l & Hl & Ea).
  eapply request_intro; [|rewrite Ea; apply (step_write_full _ _ _ _ path buf size offset fh n
    (file_at d n)); [done|by apply abs_file|done|done|by rewrite length_bytes by (done || apply Hm)]|].
  - cbn [call op_write sfs_oper]. by mstep by exact E.
  - apply (mounted_kept d d' n _ _ Hm Hf (ab_ok _ _ _ Hab)) in Ea; [done|..].
    + intros m Hk _. by apply Hab.
    + intros m Hk. by apply Hab.
Qed.

Lemma past_served d n path buf size offset fh :
  mounted d -> is_file d n -> names d n path -> file_of (abs d) (path_of path) = Some n ->
  fh <> no_handle -> len d n < offset -> 0 < size ->
  offset + size < (len d n / BLOCK_SIZE + 1) * BLOCK_SIZE ->
  (len d n / BLOCK_SIZE + 1) * BLOCK_SIZE <= MAX_FILE ->
  served d (Write path buf size offset fh).
Proof.
  intros Hm Hf Hn Ef Hfh Ho Hsz Hr Hmx. pose proof (mt_ok d Hm) as Hok.
  pose proof (ok_size d Hok n Hf) as H0. fold (len d n) in H0.
  destruct (abs_past uninit d n path buf offset size fh Hok Hf Hn Hfh Ho Hsz Hr Hmx)
    as (d' & E & Hw & Ea). fold (len d n) in Hw, Ea.
  eapply request_intro; [|rewrite Ea; apply (step_write_past _ _ _ _ path buf size offset fh n
    (file_at d n)); [done|by apply abs_file|done|by rewrite length_bytes|..]|].
  - cbn [call op_write sfs_oper]. by mstep by exact E.
  - rewrite length_bytes, length_tabulate by done. lia.
  - apply list_eq. intros i. pose proof (length_bytes d n Hok Hf) as Hl.
    destruct (Z.lt_ge_cases (Z.of_nat i) (len d n)) as [Hi|Hi].
    + rewrite lookup_take_lt by lia. replace i with (Z.to_nat (Z.of_nat i)) by lia.
      rewrite tabulate_lookup, bytes_lookup by (done || lia). unfold past_bytes. by rewrite Zleb_f by lia.
    + rewrite lookup_take_ge, lookup_ge_None_2 by lia. done.
  - intros p Hp. rewrite length_tabulate in Hp. rewrite tabulate_lookup by lia.
    unfold past_bytes. by rewrite Zleb_t by lia.
  - apply (mounted_kept d d' n _ _ Hm Hf (wr_ok _ _ _ _ _ _ Hw)) in Ea; [done|apply Hw..].
Qed.

(** Nothing is written. *)
Lemma write_nothing d n path buf offset fh :
  mounted d -> is_file d n -> file_of (abs d) (path_of path) = Some n -> fh <> no_handle ->
  0 <= offset <= len d n \/ len d n < offset ->
  sfs_write uninit path buf 0 offset fh d = Ok (0, d) -> served d (Write path buf 0 offset fh).
Proof.
  intros Hm Hf Ef Hfh Hoff E. pose proof (mt_ok d Hm) as Hok.
  pose proof (ok_size d Hok n Hf) as Hmx. fold (len d n) in Hmx.
  assert (call ops (Write path buf 0 offset fh) d = Ok (Status 0, d)) as Ec
    by (cbn [call op_write sfs_oper]; by mstep by exact E).
  assert (<[n := file_at d n]> (abs d) = abs d) as Eid by (by apply insert_id, abs_file).
  destruct Hoff as [Hoff|Hoff].
  - eapply request_intro; [exact Ec| |done]. rewrite <- (rewritten d n buf offset Hf) at 2.
    pose proof (step_write now getfl add (abs d) path buf 0 offset fh n (file_at d n) Ef
      (abs_file d n Hf) Hfh) as H. cbv zeta in H. by rewrite Z.min_l in H by lia.
  - eapply request_intro; [exact Ec| |done]. rewrite <- Eid at 2.
    apply (step_write_past _ _ _ _ path buf 0 offset fh n (file_at d n)
      (f_bytes (file_at d n)));
      [done|by apply abs_file|done|by rewrite length_bytes|lia|by rewrite firstn_all|].
    intros p Hp. rewrite length_bytes in Hp by done. lia.
Qed.

Lemma write_served d path buf size offset fh :
  mounted d -> allowed d (Write (D:=D) path buf size offset fh) ->
  served d (Write path buf size offset fh).
Proof.
  intros Hm (Hp & Hr & Hsz & Hin). pose proof (mt_ok d Hm) as Hok.
  destruct (mounted_lookup d path Hm Hp Hr)
    as [(n & nd & Hn & Hf & Ef & E & Hs & Hid & Hn1)|(Ef & E & _)].
  2: { eapply request_intro; [|by apply step_write_none; left|done]. cbn [call op_write sfs_oper].
       mstep by (unfold sfs_write; mstep by exact E; rewrite no_file_id; reflexivity). done. }
  pose proof (ok_size d Hok n Hf) as Hmx. fold (len d n) in Hmx.
  destruct (decide (fh = no_handle)) as [->|Hfh].
  { eapply request_intro; [|by apply step_write_none; right|done]. cbn [call op_write sfs_oper].
    mstep by (unfold sfs_write; mstep by exact E; rewrite Hid, (Zeqb_f n) by done; reflexivity). done. }
  destruct (decide (size = 0)) as [->|Hpos].
  { apply (write_nothing d n); [done..|by destruct (Hin n Hn) as [[? _]|[? _]]; auto|].
    unfold sfs_write. mstep by exact E. by rewrite Hid, (Zeqb_f n), (Zeqb_f fh) by done. }
  destruct (Hin n Hn) as [[Hoff Hlim]|(Ho & Hr' & Hmx')]; [|apply (past_served d n); done || lia].
  destruct (Z.lt_ge_cases (offset + size) MAX_FILE) as [Hlt|Hge].
  - destruct (sfs_write_spec uninit d Hok n Hf buf offset Hoff path size fh Hn Hfh ltac:(lia) Hlt)
      as [(d' & Ew & Hw)|(d' & Ew & Hab & Hroom)]; [|by apply (aborted_served d n _ _ _ _ _ d')].
    apply (wrote_served d n _ _ _ _ _ d'); try done; rewrite Z.min_l by lia; done || lia.
  - destruct (sfs_write_limit uninit d n path buf size offset fh Hok Hf Hn Hfh Hoff)
      as [(d' & Ew & Hw)|(d' & Ew & Hab)]; [unfold len in *; lia|done|..].
    + apply (wrote_served d n _ _ _ _ _ d'); try done; rewrite Z.min_r by lia; [lia|done|].
      by replace (offset + (MAX_FILE - offset)) with MAX_FILE by lia.
    + apply (aborted_served d n _ _ _ _ _ d'); try done.
      pose proof (nblocks_bounds (len d n) ltac:(lia)). unfold MAX_FILE, BLOCK_SIZE in *. lia.
Qed.

(** The name [sfs_readdir] copies out of an inode. *)
Definition entry (d : disk) (m : Z) : list Z := tail (path_of (i_path (node d m))).

Lemma entry_ends d m nd :
  mounted d -> is_file d m -> same_inode (node d m) nd ->
  exists k, k < 255 /\ ends (blit uninit 0 255 (slice nd 3)) k /\
    path_of (blit uninit 0 255 (slice nd 3)) = entry d m.
Proof.
  intros Hm Hf Hs. pose proof (mt_paths d Hm m Hf) as Hne.
  destruct (has_end_ends (i_path (node d m))) as (k & He).
  { apply (ok_names d (mt_ok d Hm)); apply Hf. }
  set (name := blit _ _ _ _). unfold entry. rewrite (path_of_ends _ k He) in *.
  destruct He as (Hk & Hz & Hlt). destruct (decide (k = 0)) as [->|Hk0]; [done|].
  assert (forall j, 0 <= j < 255 -> load8 name j = load8 (i_path (node d m)) (j + 1)) as Hn.
  { intros j Hj. unfold load8, name. rewrite blit0_in by done. unfold slice, i_path.
    rewrite Hs by (unfold sizeof_inode; lia). unfold slice. do 2 f_equal. lia. }
  assert (ends name (k - 1)) as He.
  { split; [lia|]. rewrite Hn by lia. replace (k - 1 + 1) with k by lia. split; [done|].
    intros j Hj. rewrite Hn by lia. apply Hlt. lia. }
  exists (k - 1). split; [lia|]. split; [done|]. rewrite (path_of_ends _ _ He).
  unfold tabulate. rewrite (seqZ_cons 0 k) by lia. cbn [map tail].
  replace (Z.pred k) with (k - 1) by lia. change (Z.succ 0) with 1.
  replace (seqZ 1 (k - 1)) with (map (Z.add 1) (seqZ 0 (k - 1))) by apply fmap_add_seqZ.
  rewrite map_map. apply map_ext_in. intros j Hj%list_elem_of_In%elem_of_seqZ.
  rewrite Hn by lia. f_equal. lia.
Qed.

Lemma readdir_loop_entries d N i dir :
  mounted d -> 1 <= i -> i + Z.of_nat N <= 128 ->
  sfs_readdir_loop uninit filler N i dir d
  = Ok (foldl add dir (map (entry d) (listed d i N)), d).
Proof.
  intros Hm. pose proof (ok_disk d (mt_ok d Hm)) as Hd. revert i dir.
  induction N as [|N IH]; intros i dir Hi HN; [done|].
  assert (inode_num i) as Hin by (unfold inode_num, INODE_LIST_SIZE; lia).
  cbn [sfs_readdir_loop]. mstep by (apply isInodeFree_spec; [done|by apply inode_entry_num]).
  unfold listed. rewrite seqZ_cons by lia. rewrite <- Z.add_1_r.
  replace (Z.pred (Z.of_nat (S N))) with (Z.of_nat N) by lia. rewrite filter_cons.
  destruct (inode_free d i) eqn:Ef; cbn [Z.b2z Z.eqb].
  - rewrite decide_False by done. apply IH; lia.
  - rewrite decide_True by done.
    destruct (readInode_spec uninit d i Hd Hin) as (nd & E & Hs). mstep by exact E.
    assert (is_file d i) as Hf by (split_and!; [done|lia|done]).
    destruct (entry_ends d i nd Hm Hf Hs) as (k & Hk & He & Hp).
    pose proof (Hfill dir _ k Hk He) as Ha. rewrite Hp in Ha.
    destruct (filler dir _) as [dir' r]. cbn in Ha. subst dir'.
    rewrite IH by lia. done.
Qed.

Lemma entries_abs d : entries (abs d) = map (entry d) (in_use d).
Proof.
  unfold entries, in_use.
  assert (forall l, (forall m, m ∈ l -> 1 <= m < 128) ->
    omap (fun n => (fun f => tail (f_path f)) <$> abs d !! n) l =
    map (entry d) (filter (fun m => inode_free d m = false) l)) as H.
  { induction l as [|m l IH]; intros Hl; [done|]. rewrite filter_cons.
    pose proof (IH (fun x Hx => Hl x (list_elem_of_further _ _ _ Hx))) as IH'.
    pose proof (Hl m (list_elem_of_here _ _)) as Hr. cbn [omap list_omap].
    assert (is_file d m <-> inode_free d m = false) as Hf.
    { unfold is_file, inode_num, INODE_LIST_SIZE. split; [tauto|]. intros ?. split; [lia|split; [lia|done]]. }
    destruct (decide (inode_free d m = false)) as [E|E].
    - rewrite (abs_file d m) by (by apply Hf). cbn [fmap option_fmap option_map map]. by rewrite <- IH'.
    - assert (abs d !! m = None) as -> by (apply abs_none; by rewrite Hf). exact IH'. }
  apply H. intros m Hm%elem_of_seqZ. lia.
Qed.

Lemma readdir_served d dir : mounted d -> served d (Readdir dir).
Proof.
  intros Hm. eapply request_intro; [|apply step_readdir|done].
  cbn [call op_readdir sfs_oper]. rewrite entries_abs.
  mstep by (unfold sfs_readdir; mstep by (apply readdir_loop_entries; [done|lia|];
    unfold INODE_LIST_SIZE; lia); reflexivity).
  done.
Qed.

Lemma request_served d q : mounted d -> allowed d q -> served d q.
Proof.
  intros Hm Ha. destruct q.
  - by apply getattr_served.
  - by apply create_served.
  - by apply unlink_served.
  - by apply open_served.
  - by apply release_served.
  - by apply read_served.
  - by apply write_served.
  - by apply readdir_served.
Qed.
End requests.
