(* ===== verification/SfsSafety.v ===== *)
(** * The file system from its first mount on

    What a program sees of the file system is what the map of files would do,
    whatever it asks for, as long as the requests are allowed, and across
    unmounting. *)

From S2P Require Import Prelude CMem Disk Inode InodeSpec Sfs SfsInv SfsWrite SfsOps SfsSpec SfsModel SfsSystem SfsRefine.

(** The file on the host when no process has it open. *)
Definition unplugged (d : disk) : disk := Disk (dbytes d) (dlen d) (-1).

Section system.
Context {D : Type} (filler : D -> mem -> D * Z) (add : D -> list Z -> D).
Context (Hfill : forall dir a k, k < 255 -> ends a k -> (filler dir a).1 = add dir (path_of a)).

(** Requests served one after the other, and mounts by a new process in
    between.  Each call has its own time, descriptors and stack. *)
Inductive run : disk -> list (request D * response D) -> disk -> Prop :=
  | run_nil d : run d [] d
  | run_request uninit now fd getfl d q r d1 tr d2 :
      allowed d q -> call (sfs_oper uninit now fd getfl filler) q d = Ok (r, d1) ->
      run d1 tr d2 -> run d ((q, r) :: tr) d2
  | run_remount uninit now fd getfl d d0 d1 tr d2 :
      let ops := sfs_oper uninit now fd getfl filler in
      op_destroy ops d = Ok (tt, d0) -> 0 <= fd ->
      op_init ops (unplugged d0) = Ok (tt, d1) -> run d1 tr d2 -> run d tr d2.

Lemma unplugged_ok fd d :
  0 <= fd -> mounted d ->
  let d' := Disk (dbytes d) (dlen d) fd in mounted d' /\ abs d' = abs d.
Proof.
  intros Hfd [Hok Hr Hl Hp] d'. split; [|done]. split; [|done..].
  destruct Hok as [(H1 & H2 & H3) ? ? ? ? ? ? ?]. by split.
Qed.

Lemma remount uninit fd d :
  0 <= fd -> mounted d ->
  exists d', sfs_init uninit fd (unplugged d) = Ok (tt, d') /\ mounted d' /\ abs d' = abs d.
Proof.
  intros Hfd Hm. destruct (unplugged_ok fd d Hfd Hm) as [Hm' Ea].
  exists (Disk (dbytes d) (dlen d) fd). split; [|done].
  transitivity (sfs_init uninit fd (Disk (dbytes d) (dlen d) fd)).
  - unfold sfs_init.
    rewrite (bind_ok_l _ _ _ tt (Disk (dbytes d) (dlen d) fd))
      by (unfold disk_open, unplugged; cbn; by rewrite Zltb_f by lia).
    symmetry. rewrite (bind_ok_l _ _ _ tt (Disk (dbytes d) (dlen d) fd)); [done|].
    unfold disk_open. cbn. by rewrite Zleb_t by lia.
  - pose proof (mt_ok _ Hm') as [? ? ? ? ? ? ? ?]. by apply sfs_init_again.
Qed.

Lemma formatted_mounted d : formatted d -> mounted d /\ abs d = ∅.
Proof.
  intros Hf. assert (forall n, ~ is_file d n) as Hno.
  { intros n (H1 & H2 & H3). rewrite (fm_inodes d Hf n H1 H2) in H3. done. }
  split.
  - split; [apply Hf| |intros n Hn; by destruct (Hno n)..].
    destruct (fm_root d Hf) as (H1 & H2 & H3).
    assert (has_end (i_path (node d 0))) as He by (by apply (ok_names d (fm_ok d Hf))).
    apply cstr_eq_path in H3; [|by exists 1|done]. unfold is_root. by rewrite <- H3.
  - apply map_eq. intros n. rewrite lookup_empty. by apply abs_none.
Qed.

(** From a mounted disk every run is a sequence of steps of the map of files. *)
Lemma run_trace d tr d' :
  run d tr d' -> mounted d -> mounted d' /\ fs_trace add (abs d) tr (abs d').
Proof.
  induction 1 as [d|uninit now fd getfl d q r d1 tr d2 Ha E _ IH
    |uninit now fd getfl d d0 d1 tr d2 ops E0 Hfd E1 _ IH]; intros Hm.
  - split; [done|constructor].
  - destruct (request_served uninit now fd getfl filler add Hfill d q Hm Ha)
      as (r' & d1' & E' & Hs & Hm1).
    rewrite E in E'. injection E' as <- <-. destruct (IH Hm1) as [Hm2 Ht].
    split; [done|]. by econstructor.
  - cbn in E0, E1. injection E0 as <-. destruct (remount uninit fd d Hfd Hm) as (d1' & E' & Hm1 & Ea).
    rewrite E1 in E'. injection E' as <-. destruct (IH Hm1) as [Hm2 Ht]. by rewrite Ea in Ht.
Qed.
End system.

(** ** The theorems *)

Section theorems.
Context {D : Type} (filler : D -> mem -> D * Z) (add : D -> list Z -> D).
Context (Hfill : forall dir a k, k < 255 -> ends a k -> (filler dir a).1 = add dir (path_of a)).

(** C3: on a mounted disk every allowed request returns, with a result and an
    effect on the files that the map of files allows, and the disk stays
    mounted.  This holds for all eight handlers and all their branches: files
    that exist and files that do not, reads and writes inside the file, at its
    end and behind it, writes that reach the largest size, closed handles, a full
    inode table, and a disk that runs full during a write. *)
Theorem request_refines uninit now fd getfl d q :
  mounted d -> allowed d q ->
  exists r d', call (sfs_oper uninit now fd getfl filler) q d = Ok (r, d') /\
    fs_step now getfl add (abs d) q r (abs d') /\ mounted d'.
Proof. intros Hm Ha. by apply (request_served uninit now fd getfl filler add Hfill). Qed.

(** C4: from the first mount of a new disk on, through any allowed requests and
    remounts, the responses are those of the map of files, which starts empty
    and ends as what is on the disk; the disk satisfies its invariant at every
    point, and every allowed request returns there. *)
Theorem file_system_safety uninit now fd getfl d d0 tr d1 :
  0 <= fd -> 0 <= dlen d -> dlen d mod BLOCK_SIZE = 0 ->
  swrap 32 (load 4 (rd d) 0) <> MAGIC_NUM ->
  op_init (sfs_oper uninit now fd getfl filler) d = Ok (tt, d0) -> run filler d0 tr d1 ->
  fs_trace add ∅ tr (abs d1) /\ fs_ok d1 /\
  forall q, allowed d1 q ->
    is_ok (call (sfs_oper uninit now fd getfl filler) q d1) = true.
Proof.
  intros Hfd Hl Hmod Hmg E Hrun.
  destruct (sfs_init_spec uninit fd d Hfd Hl Hmod Hmg) as (d0' & E' & Hf & _).
  cbn in E. rewrite E in E'. injection E' as <-.
  destruct (formatted_mounted d0 Hf) as [Hm Ea].
  destruct (run_trace filler add Hfill d0 tr d1 Hrun Hm) as [Hm1 Ht]. rewrite Ea in Ht.
  split; [done|]. split; [apply Hm1|]. intros q Ha.
  by destruct (request_served uninit now fd getfl filler add Hfill d1 q Hm1 Ha) as (r & d' & -> & _).
Qed.

(** C24: files survive unmounting.  [sfs_destroy] followed by [sfs_init] in a new
    process, with any descriptor and anything on its stack, finds the same
    files, and does not format the disk. *)
Theorem files_survive_remount uninit now fd getfl d :
  0 <= fd -> mounted d ->
  exists d0 d1, op_destroy (sfs_oper uninit now fd getfl filler) d = Ok (tt, d0) /\
    op_init (sfs_oper uninit now fd getfl filler) (unplugged d0) = Ok (tt, d1) /\
    mounted d1 /\ abs d1 = abs d.
Proof.
  intros Hfd Hm. destruct (remount uninit fd d Hfd Hm) as (d1 & E & H). by exists d, d1.
Qed.
End theorems.

(** ** A new disk and its first file *)

(** A listing as the names the filler was given. *)
Definition list_filler (dir : list (list Z)) (name : mem) : list (list Z) * Z :=
  (dir ++ [path_of name], 0).
Definition list_add (dir : list (list Z)) (name : list Z) : list (list Z) := dir ++ [name].

Lemma list_filler_ok dir a k :
  k < 255 -> ends a k -> (list_filler dir a).1 = list_add dir (path_of a).
Proof. done. Qed.

Notation demo_ops := (sfs_oper zeros 7 3 (fun _ => 0) list_filler).

Lemma new_disk : exists d, op_init demo_ops blank = Ok (tt, d) /\ formatted d.
Proof. destruct (sfs_init_spec zeros 3 blank) as (d & E & Hf & _); try done. by exists d. Qed.

Lemma create_allowed d : formatted d -> allowed (D:=list (list Z)) d (Create path_a 0x81A4 0).
Proof.
  intros Hf. split; [exact path_a_end|]. split; [discriminate|]. intros Hfull.
  assert (block_num 0) as H0 by (unfold block_num, BLOCK_LIST_SIZE; lia).
  pose proof (Hfull 0 H0) as E. by rewrite (fm_blocks d Hf 0 H0) in E.
Qed.

Lemma first_create now getfl path mode fh r F :
  fs_step now getfl list_add ∅ (Create path mode fh) r F ->
  r = Handle 0 1 /\ F = <[1 := AFile (path_of path) (wrap 32 mode) 1 []]> ∅.
Proof.
  assert (unused ∅ = Some 1) as E by (vm_compute; reflexivity).
  remember (∅ : afs) as F0 eqn:EF. remember (Create path mode fh) as q eqn:Eq.
  destruct 1; try discriminate; injection Eq as -> -> ->.
  - assert (n = 1) as -> by congruence. done.
  - congruence.
Qed.

Lemma request_refines_witness :
  exists d r d', call demo_ops (Create path_a 0x81A4 0) d = Ok (r, d') /\ r = Handle 0 1 /\
    abs d = ∅ /\ abs d' !! 1 = Some (AFile [47; 97] 0x81A4 1 []).
Proof.
  destruct new_disk as (d & _ & Hf). destruct (formatted_mounted d Hf) as [Hm Ea].
  destruct (request_refines list_filler list_add list_filler_ok zeros 7 3 (fun _ => 0) d
    (Create path_a 0x81A4 0) Hm (create_allowed d Hf)) as (r & d' & E & Hs & _).
  rewrite Ea in Hs. destruct (first_create _ _ _ _ _ _ _ Hs) as [Er Ed].
  exists d, r, d'. split; [exact E|]. split; [exact Er|]. split; [exact Ea|].
  rewrite Ed, lookup_insert_eq. reflexivity.
Defined.

Lemma file_system_safety_witness :
  exists d0 r d1, op_init demo_ops blank = Ok (tt, d0) /\
    call demo_ops (Create path_a 0x81A4 0) d0 = Ok (r, d1) /\
    fs_trace list_add ∅ [(Create path_a 0x81A4 0, r)] (abs d1) /\ fs_ok d1.
Proof.
  destruct new_disk as (d0 & E0 & Hf). destruct (formatted_mounted d0 Hf) as [Hm _].
  destruct (request_served zeros 7 3 (fun _ => 0) list_filler list_add list_filler_ok d0
    (Create path_a 0x81A4 0) Hm (create_allowed d0 Hf)) as (r & d1 & E & _).
  destruct (file_system_safety list_filler list_add list_filler_ok zeros 7 3 (fun _ => 0) blank d0
    [(Create path_a 0x81A4 0, r)] d1 ltac:(lia) ltac:(simpl; lia) eq_refl ltac:(discriminate) E0
    (run_request list_filler zeros 7 3 (fun _ => 0) d0 _ r d1 [] d1 (create_allowed d0 Hf) E
       (run_nil list_filler d1))) as (Ht & Hok & _).
  exists d0, r, d1. split; [exact E0|]. split; [exact E|]. split; [exact Ht|exact Hok].
Defined.

Lemma files_survive_remount_witness :
  exists d d1, sfs_init zeros 3 (unplugged d) = Ok (tt, d1) /\ abs d1 = ∅.
Proof.
  destruct new_disk as (d & _ & Hf). destruct (formatted_mounted d Hf) as [Hm Ea].
  destruct (files_survive_remount list_filler zeros 7 3 (fun _ => 0) d ltac:(lia) Hm)
    as (d0 & d1 & E0 & E1 & _ & Ea1).
  injection E0 as <-. exists d, d1. split; [exact E1|]. rewrite Ea1. exact Ea.
Defined.
