(* ===== verification/Queue.v ===== *)
(** * Nodes, run queues and lists of [my_pthread/my_pthread.c]

    The scheduler keeps its threads in linked structures: nodes in the
    multilevel run queues, the promotion queues and the join list, thread
    records in a list of their own.  Nodes and records are cells of two finite
    maps keyed by their address, linked by their [next] fields; 0 is NULL.
    Times are ticks of [clock] and the run time is the C [double] computed
    from them. *)

From Stdlib Require Import Floats.SpecFloat.
From S2P Require Import Prelude MyAlloc.

Definition RUN_QUEUE_SIZE : Z := 5.
Definition CLOCKS_PER_SEC : Z := 1000000.

Inductive STATUS := NEUTRAL | YIELDING | EXITING | JOINING.

#[export] Instance STATUS_eq_dec : EqDecision STATUS.
Proof. solve_decision. Defined.

Record node := Node {
  threadID : Z; ut : Z; priority : Z; timeCreated : Z; runtime : spec_float;
  status : STATUS; joinee : Z; next : Z
}.

Record thread := Thread {
  tid : Z; isDead : Z; exitArg : Z; pageNum : Z; tnext : Z
}.

Record queue := Queue { head : Z; rear : Z; priorityLevel : Z }.

(** [started] says that [scd] is not NULL. *)
Record sched := Sched {
  started : bool;
  nodes : gmap Z node;
  thrs : gmap Z thread;
  runQ : list queue;
  promotionQ : list queue;
  current : Z;
  joinList : Z;
  threads : Z;
  threadNum : Z;
  cycles : Z;
  al : astate
}.

(** ** Updates *)

Definition set_nodes f s := Sched (started s) (f (nodes s)) (thrs s) (runQ s)
  (promotionQ s) (current s) (joinList s) (threads s) (threadNum s) (cycles s) (al s).
Definition set_thrs f s := Sched (started s) (nodes s) (f (thrs s)) (runQ s)
  (promotionQ s) (current s) (joinList s) (threads s) (threadNum s) (cycles s) (al s).
Definition set_runQ q s := Sched (started s) (nodes s) (thrs s) q
  (promotionQ s) (current s) (joinList s) (threads s) (threadNum s) (cycles s) (al s).
Definition set_promotionQ q s := Sched (started s) (nodes s) (thrs s) (runQ s)
  q (current s) (joinList s) (threads s) (threadNum s) (cycles s) (al s).
Definition set_current a s := Sched (started s) (nodes s) (thrs s) (runQ s)
  (promotionQ s) a (joinList s) (threads s) (threadNum s) (cycles s) (al s).
Definition set_joinList a s := Sched (started s) (nodes s) (thrs s) (runQ s)
  (promotionQ s) (current s) a (threads s) (threadNum s) (cycles s) (al s).
Definition set_threads a s := Sched (started s) (nodes s) (thrs s) (runQ s)
  (promotionQ s) (current s) (joinList s) a (threadNum s) (cycles s) (al s).
Definition set_threadNum n s := Sched (started s) (nodes s) (thrs s) (runQ s)
  (promotionQ s) (current s) (joinList s) (threads s) n (cycles s) (al s).
Definition set_cycles n s := Sched (started s) (nodes s) (thrs s) (runQ s)
  (promotionQ s) (current s) (joinList s) (threads s) (threadNum s) n (al s).
Definition set_al a s := Sched (started s) (nodes s) (thrs s) (runQ s)
  (promotionQ s) (current s) (joinList s) (threads s) (threadNum s) (cycles s) a.

Definition with_next (a : Z) (n : node) : node :=
  Node (threadID n) (ut n) (priority n) (timeCreated n) (runtime n) (status n) (joinee n) a.
Definition with_priority (p : Z) (n : node) : node :=
  Node (threadID n) (ut n) p (timeCreated n) (runtime n) (status n) (joinee n) (next n).
Definition with_status (st : STATUS) (n : node) : node :=
  Node (threadID n) (ut n) (priority n) (timeCreated n) (runtime n) st (joinee n) (next n).
Definition with_runtime (r : spec_float) (n : node) : node :=
  Node (threadID n) (ut n) (priority n) (timeCreated n) r (status n) (joinee n) (next n).
Definition with_joinee (a : Z) (n : node) : node :=
  Node (threadID n) (ut n) (priority n) (timeCreated n) (runtime n) (status n) a (next n).

(** ** Pointers *)

Definition cell {A} (m : gmap Z A) (a : Z) : result A :=
  if a =? 0 then Fault NullDeref
  else match m !! a with Some x => Ok x | None => Fault OutOfBounds end.

Definition rd_node (a : Z) : M sched node := fun s => lift (cell (nodes s) a) s.
Definition upd_node (a : Z) (f : node -> node) : M sched unit :=
  n ← rd_node a; modify (set_nodes (<[a := f n]>)).
Definition rd_thr (a : Z) : M sched thread := fun s => lift (cell (thrs s) a) s.
Definition upd_thr (a : Z) (f : thread -> thread) : M sched unit :=
  t ← rd_thr a; modify (set_thrs (<[a := f t]>)).

(** [scd->runQ[i]] and [scd->promotionQ[i]] *)
Inductive qref := RunQ (i : Z) | PromotionQ (i : Z).

Definition index {A} (l : list A) (i : Z) : result A :=
  if i <? 0 then Fault OutOfBounds
  else match l !! Z.to_nat i with Some x => Ok x | None => Fault OutOfBounds end.

Definition rd_queue (q : qref) : M sched queue := fun s =>
  match q with
  | RunQ i => lift (index (runQ s) i) s
  | PromotionQ i => lift (index (promotionQ s) i) s
  end.
Definition wr_queue (q : qref) (v : queue) : M sched unit := modify (fun s =>
  match q with
  | RunQ i => set_runQ (<[Z.to_nat i := v]> (runQ s)) s
  | PromotionQ i => set_promotionQ (<[Z.to_nat i := v]> (promotionQ s)) s
  end).

(** A walk along [next] visits every node at most once. *)
Definition walk_bound : M sched nat := gets (fun s => S (size (nodes s))).
Definition thread_bound : M sched nat := gets (fun s => S (size (thrs s))).

(** ** Queues *)

(** [x > y] on run times *)
Definition runtime_gt (x y : spec_float) : bool := SFltb y x.

Fixpoint insertByTime_loop (fuel : nat) (q : qref) (newNode prev ptr : Z) : M sched unit :=
  match fuel with
  | O => raise OutOfFuel
  | S fuel =>
      if ptr =? 0 then
        v ← rd_queue q;
        _ ← upd_node (rear v) (with_next newNode);
        _ ← wr_queue q (Queue (head v) newNode (priorityLevel v));
        upd_node newNode (with_next 0)
      else
        new ← rd_node newNode;
        p ← rd_node ptr;
        if runtime_gt (runtime new) (runtime p) then
          _ ← upd_node newNode (with_next ptr);
          if prev =? 0 then
            v ← rd_queue q;
            wr_queue q (Queue newNode (rear v) (priorityLevel v))
          else upd_node prev (with_next newNode)
        else insertByTime_loop fuel q newNode ptr (next p)
  end.

Definition insertByTime (q : qref) (newNode : Z) : M sched unit :=
  v ← rd_queue q;
  if head v =? 0 then
    _ ← wr_queue q (Queue newNode newNode (priorityLevel v));
    upd_node newNode (with_next 0)
  else
    fuel ← walk_bound;
    insertByTime_loop fuel q newNode 0 (head v).

Definition enQ (q : qref) (newNode : Z) : M sched unit :=
  v ← rd_queue q;
  if head v =? 0 then
    _ ← wr_queue q (Queue newNode newNode (priorityLevel v));
    _ ← upd_node newNode (with_next 0);
    upd_node newNode (with_priority (priorityLevel v))
  else
    _ ← upd_node (rear v) (with_next newNode);
    _ ← wr_queue q (Queue (head v) newNode (priorityLevel v));
    _ ← upd_node newNode (with_next 0);
    n ← rd_node newNode;
    if bool_decide (status n = YIELDING) then mret tt
    else upd_node newNode (with_priority (priorityLevel v)).

Definition demoteNode (demotee : Z) : M sched unit :=
  n ← rd_node demotee;
  let newPriority := if priority n <? RUN_QUEUE_SIZE - 1 then priority n + 1 else priority n in
  enQ (RunQ newPriority) demotee.

Definition deQ (q : qref) : M sched Z :=
  v ← rd_queue q;
  if head v =? 0 then mret 0
  else
    let result := head v in
    n ← rd_node (head v);
    let h := next n in
    _ ← wr_queue q (Queue h (if h =? 0 then 0 else rear v) (priorityLevel v));
    _ ← upd_node result (with_next 0);
    mret result.

Fixpoint getNextNode_loop (n : nat) (i : Z) : M sched Z :=
  match n with
  | O => mret 0
  | S n =>
      v ← rd_queue (RunQ i);
      if negb (head v =? 0) then deQ (RunQ i) else getNextNode_loop n (i + 1)
  end.

Definition getNextNode : M sched Z := getNextNode_loop (Z.to_nat RUN_QUEUE_SIZE) 0.

(** ** The join list *)

(** [node->threadID->id] *)
Definition node_tid (a : Z) : M sched Z :=
  n ← rd_node a; t ← rd_thr (threadID n); mret (tid t).

Fixpoint existsInList_loop (fuel : nat) (id ptr : Z) : M sched Z :=
  match fuel with
  | O => raise OutOfFuel
  | S fuel =>
      if ptr =? 0 then mret 0
      else
        i ← node_tid ptr;
        if i =? id then mret 1
        else n ← rd_node ptr; existsInList_loop fuel id (next n)
  end.

Definition existsInList (thread : Z) : M sched Z :=
  t ← rd_thr thread;
  fuel ← walk_bound;
  ptr ← gets joinList;
  existsInList_loop fuel (tid t) ptr.

Definition insertToList (newNode : Z) : M sched unit :=
  h ← gets joinList;
  _ ← upd_node newNode (with_next h);
  modify (set_joinList newNode).

Fixpoint removeFromList_loop (fuel : nat) (id prev ptr : Z) : M sched Z :=
  match fuel with
  | O => raise OutOfFuel
  | S fuel =>
      if ptr =? 0 then mret 0
      else
        i ← node_tid ptr;
        n ← rd_node ptr;
        if i =? id then
          _ ← (if prev =? 0 then modify (set_joinList (next n))
               else upd_node prev (with_next (next n)));
          _ ← upd_node ptr (with_next 0);
          mret ptr
        else removeFromList_loop fuel id ptr (next n)
  end.

Definition removeFromList (thread : Z) : M sched Z :=
  t ← rd_thr thread;
  fuel ← walk_bound;
  ptr ← gets joinList;
  removeFromList_loop fuel (tid t) 0 ptr.

(** ** The thread records *)

Definition with_tnext (a : Z) (t : thread) : thread :=
  Thread (tid t) (isDead t) (exitArg t) (pageNum t) a.
Definition with_dead (t : thread) : thread :=
  Thread (tid t) 1 (exitArg t) (pageNum t) (tnext t).
Definition with_exitArg (v : Z) (t : thread) : thread :=
  Thread (tid t) (isDead t) v (pageNum t) (tnext t).
Definition with_pageNum (n : Z) (t : thread) : thread :=
  Thread (tid t) (isDead t) (exitArg t) n (tnext t).

Definition addThread (thread : Z) : M sched unit :=
  h ← gets threads;
  _ ← upd_thr thread (with_tnext h);
  modify (set_threads thread).

(** The first record of the list with identifier [id], 0 when there is none. *)
Fixpoint find_thread (fuel : nat) (id ptr : Z) : M sched Z :=
  match fuel with
  | O => raise OutOfFuel
  | S fuel =>
      if ptr =? 0 then mret 0
      else
        t ← rd_thr ptr;
        if tid t =? id then mret ptr else find_thread fuel id (tnext t)
  end.

Definition search_threads (id : Z) : M sched Z :=
  fuel ← thread_bound;
  ptr ← gets threads;
  find_thread fuel id ptr.

Definition threadDied (thread : Z) : M sched unit :=
  t ← rd_thr thread;
  ptr ← search_threads (tid t);
  if ptr =? 0 then mret tt else upd_thr ptr with_dead.

Definition existsInThreadList (thread : Z) : M sched Z :=
  t ← rd_thr thread;
  ptr ← search_threads (tid t);
  mret (if ptr =? 0 then 0 else 1).
