(* ===== verification/Sched.v ===== *)
(** * The scheduler of [my_pthread/my_pthread.c]

    Threads, priorities, joins and the entry points of the library.  A call of
    [swapcontext] ends a computation: [schedule] returns the pair of nodes it
    switches between, and a thread that is resumed continues where its own
    call stopped, which for [my_pthread_join] is [join_resume].  The calls into
    the allocator act on its own state [al], with the running thread's record
    as what it sees of the scheduler.

    Parameters: the page size, what uninitialised stack memory holds, the size
    of [ucontext_t], and the values [clock] returns. *)

From Stdlib Require Import Floats.SpecFloat.
From S2P Require Import Prelude CMem BlockWord Timer MyAlloc Queue.

Definition STACK_SIZE : Z := 18192.

(** [sizeof] of the structures the library allocates. *)
Definition sizeof_scheduler : Z := 136.
Definition sizeof_queue : Z := 24.
Definition sizeof_itimerval : Z := 32.
Definition sizeof_list : Z := 8.
Definition sizeof_thread : Z := 32.
Definition sizeof_node : Z := 64.

(** [(double) z] *)
Definition to_double (z : Z) : spec_float := binary_normalize 53 1024 z 0 false.

(** [(double)(currTime - timeCreated) / CLOCKS_PER_SEC] *)
Definition run_time (currTime created : Z) : spec_float :=
  SFdiv 53 1024 (to_double (currTime - created)) (to_double CLOCKS_PER_SEC).

(** What [my_pthread_join] does before it may have to wait. *)
Inductive joined :=
  | NoThread                                    (* returns 1 *)
  | WasDead (arg : Z)                           (* returns 0 *)
  | MustWait (ptr : Z) (switch : option (Z * Z)).

Section scheduler.
Context (PAGESIZE : Z) (stack : itimerval) (sizeof_ucontext : Z).

(** ** Calls into the allocator *)

Definition running (s : sched) : option (Z * Z) :=
  if started s then
    match nodes s !! current s with
    | Some n => match thrs s !! threadID n with
                | Some t => Some (tid t, pageNum t)
                | None => Some (0, 0)
                end
    | None => Some (0, 0)
    end
  else None.

(** The page number of the running thread, as the allocator left it. *)
Definition store_pageNum (t : option (Z * Z)) (s : sched) : sched :=
  match t, nodes s !! current s with
  | Some (_, n), Some nd => set_thrs (alter (with_pageNum n) (threadID nd)) s
  | _, _ => s
  end.

Definition alloc_call {A} (m : M astate A) : M sched A := fun s =>
  match m (set_thr (running s) (al s)) with
  | Ok (a, x) => Ok (a, store_pageNum (thr x) (set_al x s))
  | Fault e => Fault e
  | Exit c => Exit c
  end.

(** An allocation whose result is used without a check. *)
Definition need (region size : Z) : M sched Z :=
  p ← alloc_call (myallocate PAGESIZE stack region size LIBRARYREQ);
  if p =? 0 then raise NullDeref else mret p.

(** The region exists after the first request. *)
Definition lib_need : Z -> M sched Z := need 0.

(** ** The timer *)

Definition on_timer (f : timers -> timers) : M sched unit :=
  modify (fun s => set_al (set_tim (f (tim (al s))) (al s)) s).
Definition pause_s : M sched unit := on_timer (pause_timer stack).
Definition unpause_s : M sched unit := on_timer unpause_timer.

(** [for (i = 0; i < RUN_QUEUE_SIZE; i++) if (scd->runQ[i] == NULL) ...]: a
    queue that was not created yet is a NULL pointer. *)
Fixpoint isQempty_loop (n i : nat) : M sched Z :=
  match n with
  | O => _ ← unpause_s; mret 0
  | S n =>
      q ← gets (fun s => runQ s !! i);
      match q with
      | None => _ ← unpause_s; mret 1
      | Some _ => isQempty_loop n (S i)
      end
  end.

Definition isQempty : M sched Z :=
  _ ← pause_s;
  isQempty_loop (Z.to_nat RUN_QUEUE_SIZE) 0.

(** ** Nodes *)

Definition createNode (context thread clock : Z) : M sched Z :=
  a ← lib_need sizeof_node;
  _ ← modify (set_nodes
        (<[a := Node thread context 0 clock (S754_zero false) NEUTRAL 0 0]>));
  mret a.

(** ** Maintenance *)

(** [for (ptr = deQ(runQ[i + 1]); ptr != NULL; ptr = deQ(runQ[i + 1]))], with
    the number of nodes moved. *)
Fixpoint collect_loop (fuel : nat) (i currTime count : Z) : M sched Z :=
  match fuel with
  | O => raise OutOfFuel
  | S fuel =>
      ptr ← deQ (RunQ (i + 1));
      if ptr =? 0 then mret count
      else
        n ← rd_node ptr;
        _ ← upd_node ptr (with_runtime (run_time currTime (timeCreated n)));
        _ ← insertByTime (PromotionQ i) ptr;
        collect_loop fuel i currTime (count + 1)
  end.

Fixpoint collect_all (n : nat) (i currTime : Z) : M sched (list Z) :=
  match n with
  | O => mret []
  | S n =>
      fuel ← walk_bound;
      c ← collect_loop fuel i currTime 0;
      cs ← collect_all n (i + 1) currTime;
      mret (c :: cs)
  end.

(** [n] nodes of promotion queue [i] go to run queue [dst]. *)
Fixpoint promote (n : nat) (i dst : Z) : M sched unit :=
  match n with
  | O => mret tt
  | S n =>
      ptr ← deQ (PromotionQ i);
      _ ← (if negb (ptr =? 0) then enQ (RunQ dst) ptr else mret tt);
      promote n i dst
  end.

(** [for (j = i + 2; j > 0; j--)] *)
Fixpoint promote_levels (j : nat) (i count : Z) : M sched unit :=
  match j with
  | O => mret tt
  | S j' =>
      let share := Z.quot count (i + 2) in
      _ ← (if 1 <? Z.of_nat j then promote (Z.to_nat share) i (Z.of_nat j - 1)
           else promote (Z.to_nat (count - share * (i + 1))) i (Z.of_nat j - 1));
      promote_levels j' i count
  end.

Fixpoint promote_all (counts : list Z) (i : Z) : M sched unit :=
  match counts with
  | [] => mret tt
  | c :: counts =>
      _ ← promote_levels (Z.to_nat (i + 2)) i c;
      promote_all counts (i + 1)
  end.

(** The loops that empty the lower queues and deal their threads out. *)
Definition maintenance_body (clock : Z) : M sched unit :=
  counts ← collect_all (Z.to_nat (RUN_QUEUE_SIZE - 1)) 0 clock;
  promote_all counts 0.

Definition maintenance (clock : Z) : M sched unit :=
  arr ← lib_need ((RUN_QUEUE_SIZE - 1) * 4);
  _ ← maintenance_body clock;
  alloc_call (mydeallocate PAGESIZE stack arr LIBRARYREQ).

(** ** [schedule] *)

(** The threads that wait for [id] go back to their run queues. *)
Fixpoint wake_loop (fuel : nat) (id jptr : Z) : M sched unit :=
  match fuel with
  | O => raise OutOfFuel
  | S fuel =>
      if jptr =? 0 then mret tt
      else
        n ← rd_node jptr;
        j ← rd_thr (joinee n);
        if tid j =? id then
          returnToQ ← removeFromList (threadID n);
          r ← rd_node returnToQ;
          _ ← enQ (RunQ (priority r)) returnToQ;
          h ← gets joinList;
          wake_loop fuel id h
        else wake_loop fuel id (next n)
  end.

(** Every round removes a node from the list or moves along it. *)
Definition wake_bound : M sched nat := gets (fun s =>
  (S (size (nodes s)) * S (size (nodes s)))%nat).

Definition requeue : M sched unit :=
  c ← gets current;
  n ← rd_node c;
  match status n with
  | YIELDING =>
      _ ← enQ (RunQ (priority n)) c;
      upd_node c (with_status NEUTRAL)
  | EXITING =>
      _ ← threadDied (threadID n);
      t ← rd_thr (threadID n);
      fuel ← wake_bound;
      h ← gets joinList;
      _ ← wake_loop fuel (tid t) h;
      alloc_call (freePages PAGESIZE)
  | JOINING => insertToList c
  | NEUTRAL => demoteNode c
  end.

Definition count_cycle (clock : Z) : M sched unit :=
  _ ← modify (fun s => set_cycles (cycles s + 1) s);
  c ← gets cycles;
  if 100 <? c then _ ← modify (set_cycles 0); maintenance clock else mret tt.

(** The result is the pair of nodes of a [swapcontext]. *)
Definition dispatch : M sched (option (Z * Z)) :=
  justRun ← gets current;
  nextNode ← getNextNode;
  if nextNode =? 0 then mret None
  else
    _ ← modify (set_current nextNode);
    n ← rd_node nextNode;
    _ ← on_timer (start_quantum (priority n));
    i ← node_tid nextNode;
    j ← node_tid justRun;
    if negb (i =? j) then
      _ ← alloc_call (protectAllPages PAGESIZE j);
      mret (Some (justRun, nextNode))
    else mret None.

Definition schedule (clock : Z) : M sched (option (Z * Z)) :=
  _ ← pause_s;
  _ ← count_cycle clock;
  _ ← requeue;
  dispatch.

Definition timerHandler (clock : Z) : M sched (option (Z * Z)) :=
  _ ← on_timer handler_reset;
  schedule clock.

Definition terminationHandler (clock : Z) : M sched (option (Z * Z)) :=
  _ ← pause_s;
  c ← gets current;
  _ ← upd_node c (with_status EXITING);
  _ ← unpause_s;
  schedule clock.

(** ** Start of the library *)

Fixpoint alloc_queues (n : nat) (i region : Z) : M sched unit :=
  match n with
  | O => mret tt
  | S n =>
      _ ← need region sizeof_queue;
      _ ← modify (fun s => set_runQ (runQ s ++ [Queue 0 0 i]) s);
      _ ← (if i <? RUN_QUEUE_SIZE - 1 then
             _ ← need region sizeof_queue;
             modify (fun s => set_promotionQ (promotionQ s ++ [Queue 0 0 i]) s)
           else mret tt);
      alloc_queues n (i + 1) region
  end.

Definition initialize (region clock : Z) : M sched unit :=
  _ ← need region sizeof_scheduler;
  _ ← modify (fun s => Sched true (nodes s) (thrs s) [] [] 0 (joinList s) (threads s)
                         (threadNum s) (cycles s) (al s));
  _ ← alloc_queues (Z.to_nat RUN_QUEUE_SIZE) 0 region;
  _ ← need region sizeof_itimerval;
  _ ← need region sizeof_list;
  _ ← modify (set_joinList 0);
  _ ← need region sizeof_list;
  _ ← modify (set_threads 0);
  _ ← modify (set_threadNum 2);
  _ ← need region sizeof_ucontext;
  _ ← need region STACK_SIZE;
  _ ← modify (set_cycles 0);
  mainCxt ← need region sizeof_ucontext;
  mainthread ← need region sizeof_thread;
  _ ← modify (fun s => set_thrs
        (<[mainthread := Thread 1 0 0 (mainPageNum (al s)) 0]>) s);
  mainNode ← createNode mainCxt mainthread clock;
  _ ← modify (set_current mainNode);
  modify (fun s => set_al (AState (amem (al s)) (memory (al s)) (firstMalloc (al s))
     (rootBlock (al s)) (rootBlockD (al s)) (userSpace (al s)) (mainPageNum (al s))
     (pages (al s)) (diskPages (al s)) (swp (al s)) (prot (al s)) (thr (al s)) true
     (let t := set_usec (scd_timer (tim (al s))) (QUANTA_TIME * 1000) in Timers t t)
     (aout (al s))) s).

(** ** The interface of the library *)

(** [thread] is the caller's record; [context] is the new context. *)
Definition my_pthread_create (region thread clock : Z) : M sched Z :=
  st ← gets started;
  _ ← when (negb st) (initialize region clock);
  _ ← pause_s;
  newCxt ← alloc_call (myallocate PAGESIZE stack region sizeof_ucontext LIBRARYREQ);
  if newCxt =? 0 then _ ← unpause_s; mret 1
  else
    sp ← alloc_call (myallocate PAGESIZE stack region STACK_SIZE LIBRARYREQ);
    if sp =? 0 then _ ← unpause_s; mret 1
    else if thread =? 0 then raise NullDeref
    else
      n ← gets threadNum;
      _ ← modify (set_threadNum (n + 1));
      _ ← modify (set_thrs (<[thread := Thread n 0 0 0 0]>));
      _ ← addThread thread;
      newNode ← createNode newCxt thread clock;
      _ ← enQ (RunQ 0) newNode;
      _ ← unpause_s;
      mret 0.

Definition my_pthread_yield (clock : Z) : M sched (option (Z * Z)) :=
  st ← gets started;
  if negb st then mret None
  else
    _ ← pause_s;
    c ← gets current;
    _ ← upd_node c (with_status YIELDING);
    _ ← unpause_s;
    schedule clock.

Definition my_pthread_exit (value_ptr clock : Z) : M sched (option (Z * Z)) :=
  st ← gets started;
  if negb st then mret None
  else
    _ ← pause_s;
    c ← gets current;
    _ ← upd_node c (with_status EXITING);
    n ← rd_node c;
    _ ← upd_thr (threadID n) (with_exitArg value_ptr);
    _ ← unpause_s;
    schedule clock.

(** [my_pthread_join] of the thread with identifier [id], up to the call of
    [schedule] when the thread has not died. *)
Definition my_pthread_join (id clock : Z) : M sched joined :=
  st ← gets started;
  if negb st then mret NoThread
  else
    _ ← pause_s;
    ptr ← search_threads id;
    if ptr =? 0 then _ ← unpause_s; mret NoThread
    else
      t ← rd_thr ptr;
      if isDead t =? 1 then _ ← unpause_s; mret (WasDead (exitArg t))
      else
        c ← gets current;
        _ ← upd_node c (with_status JOINING);
        _ ← upd_node c (with_joinee ptr);
        _ ← unpause_s;
        sw ← schedule clock;
        mret (MustWait ptr sw).

(** The rest of [my_pthread_join] once the caller runs again: the value it
    stores for the caller. *)
Definition join_resume (ptr : Z) : M sched Z :=
  _ ← pause_s;
  t ← rd_thr ptr;
  _ ← unpause_s;
  mret (exitArg t).
End scheduler.
