(* ===== verification/QueueSpec.v ===== *)
(** * The run queues and the join list as lists

    [rep s L] says that the linked structures of the state [s] are the lists
    [L]: a list of nodes for every run queue, for every promotion queue and for
    the join list, no node in two of them.  Every operation of [Queue] is shown
    to be the list operation it implements. *)

From Stdlib Require Import Floats.SpecFloat.
From S2P Require Import Prelude Chain MyAlloc Queue.

(** ** The lists of nodes *)

Notation linked_to := (chain next).

Definition linked (ns : gmap Z node) (a : Z) (l : list Z) : Prop := linked_to ns a l 0.

(** ** The layout of a state *)

Inductive place := PRun (i : nat) | PProm (i : nat) | PJoin.

#[export] Instance place_eq_dec : EqDecision place.
Proof. solve_decision. Defined.

#[export] Instance qref_eq_dec : EqDecision qref.
Proof. solve_decision. Defined.

Definition lists : Type := place -> list Z.

Definition upd (L : lists) (p : place) (l : list Z) : lists :=
  fun p' => if decide (p' = p) then l else L p'.

Lemma upd_same L p l : upd L p l p = l.
Proof. unfold upd. by rewrite decide_True. Qed.
Lemma upd_other L p l p' : p' <> p -> upd L p l p' = L p'.
Proof. intros H. unfold upd. by rewrite decide_False. Qed.

Definition qplace (q : qref) : place :=
  match q with RunQ i => PRun (Z.to_nat i) | PromotionQ i => PProm (Z.to_nat i) end.
Definition qlevel (q : qref) : Z := match q with RunQ i | PromotionQ i => i end.
Definition valid_ref (q : qref) : Prop :=
  match q with RunQ i => 0 <= i < 5 | PromotionQ i => 0 <= i < 4 end.

Definition queue_of (s : sched) (q : qref) : option queue :=
  match q with
  | RunQ i => runQ s !! Z.to_nat i
  | PromotionQ i => promotionQ s !! Z.to_nat i
  end.

Definition is_queue (ns : gmap Z node) (q : queue) (l : list Z) : Prop :=
  linked ns (head q) l /\ (l = [] \/ last l = Some (rear q)).

(** Node [x] is in no list. *)
Definition loose (L : lists) (x : Z) : Prop := forall p, x ∉ L p.

Record rep (s : sched) (L : lists) : Prop := Rep {
  rep_q q : valid_ref q ->
    exists v, queue_of s q = Some v /\ is_queue (nodes s) v (L (qplace q)) /\
      priorityLevel v = qlevel q;
  rep_join : linked (nodes s) (joinList s) (L PJoin);
  rep_nodup p : NoDup (L p);
  rep_disj p p' y : y ∈ L p -> y ∈ L p' -> p = p'
}.

(** What the queue operations leave alone. *)
Definition same_rest (s s' : sched) : Prop :=
  started s' = started s /\ thrs s' = thrs s /\ current s' = current s /\
  threads s' = threads s /\ threadNum s' = threadNum s /\ cycles s' = cycles s /\ al s' = al s.

(** The nodes are the same but for their links. *)
Definition same_nodes (ns ns' : gmap Z node) : Prop :=
  forall y, with_next 0 <$> ns' !! y = with_next 0 <$> ns !! y.

#[export] Instance same_rest_trans : Transitive same_rest.
Proof. unfold same_rest. intros a b c. naive_solver congruence. Qed.
#[export] Instance same_rest_refl : Reflexive same_rest.
Proof. by intros a. Qed.
#[export] Instance same_nodes_trans : Transitive same_nodes.
Proof. intros a b c H1 H2 y. by rewrite H2. Qed.
#[export] Instance same_nodes_refl : Reflexive same_nodes.
Proof. by intros a y. Qed.

Lemma same_nodes_insert ns x n n' :
  ns !! x = Some n -> with_next 0 n' = with_next 0 n -> same_nodes ns (<[x := n']> ns).
Proof.
  intros E H y. destruct (decide (y = x)) as [->|Hne].
  - by rewrite lookup_insert_eq, E; cbn; rewrite H.
  - by rewrite lookup_insert_ne.
Qed.

(** ** Running the accesses *)

Lemma rd_node_ok s a n : nodes s !! a = Some n -> a <> 0 -> rd_node a s = Ok (n, s).
Proof.
  intros E Ha. unfold rd_node, lift, cell. rewrite (Zeqb_f a 0) by done. by rewrite E.
Qed.

Lemma upd_node_ok s a n f :
  nodes s !! a = Some n -> a <> 0 -> upd_node a f s = Ok (tt, set_nodes (<[a := f n]>) s).
Proof.
  intros E Ha. unfold upd_node. erewrite bind_ok_l by (by apply rd_node_ok). done.
Qed.

Lemma rd_queue_ok s q v : valid_ref q -> queue_of s q = Some v -> rd_queue q s = Ok (v, s).
Proof.
  intros Hv E. destruct q as [i|i]; cbn [valid_ref queue_of rd_queue] in *;
    unfold lift, index; rewrite (Zltb_f i 0) by lia; by rewrite E.
Qed.

(** The state with queue [q] replaced. *)
Definition queue_set (q : qref) (v : queue) (s : sched) : sched :=
  match q with
  | RunQ i => set_runQ (<[Z.to_nat i := v]> (runQ s)) s
  | PromotionQ i => set_promotionQ (<[Z.to_nat i := v]> (promotionQ s)) s
  end.

Lemma wr_queue_ok q v s : wr_queue q v s = Ok (tt, queue_set q v s).
Proof. by destruct q. Qed.

Lemma queue_set_fields q v s :
  nodes (queue_set q v s) = nodes s /\ joinList (queue_set q v s) = joinList s /\
  same_rest s (queue_set q v s).
Proof. by destruct q. Qed.

Lemma qplace_inj q q' : valid_ref q -> valid_ref q' -> qplace q = qplace q' -> q = q'.
Proof.
  destruct q as [i|i], q' as [j|j]; cbn; intros Hi Hj E; try done; injection E; intros E';
    f_equal; apply (f_equal Z.of_nat) in E'; rewrite !Z2Nat.id in E' by lia; done.
Qed.

Lemma queue_of_set q v s q' w :
  valid_ref q -> valid_ref q' -> queue_of s q = Some w ->
  queue_of (queue_set q v s) q' = if decide (q' = q) then Some v else queue_of s q'.
Proof.
  intros Hv Hv' E. destruct (decide (q' = q)) as [->|Hne].
  - destruct q as [i|i]; cbn [queue_of queue_set runQ promotionQ set_runQ set_promotionQ] in *;
      apply list_lookup_insert_eq; by eapply lookup_lt_Some.
  - destruct q as [i|i], q' as [j|j];
      cbn [queue_of queue_set runQ promotionQ set_runQ set_promotionQ valid_ref] in *; try done;
      apply list_lookup_insert_ne; intros E'; apply Hne; f_equal;
      apply (f_equal Z.of_nat) in E'; rewrite !Z2Nat.id in E' by lia; done.
Qed.

(** A queue replaced by itself. *)
Lemma queue_of_same q v s q' :
  queue_of s q = Some v -> queue_of (queue_set q v s) q' = queue_of s q'.
Proof.
  destruct q as [i|i], q' as [j|j]; try done; cbn; intros E; by rewrite list_insert_id.
Qed.

Lemma queue_of_nodes f s q : queue_of (set_nodes f s) q = queue_of s q.
Proof. by destruct q. Qed.

(** The representation after one list changed: its own queue is given, the
    others are framed. *)
Lemma rep_change s s' L q l v w :
  rep s L -> valid_ref q -> queue_of s q = Some w ->
  (forall q', valid_ref q' ->
     queue_of s' q' = if decide (q' = q) then Some v else queue_of s q') ->
  joinList s' = joinList s -> priorityLevel v = qlevel q ->
  is_queue (nodes s') v l -> NoDup l ->
  (forall y, y ∈ l -> y ∈ L (qplace q) \/ loose L y) ->
  (forall y n, y ∉ L (qplace q) -> ~ loose L y ->
     nodes s !! y = Some n -> exists n', nodes s' !! y = Some n' /\ next n' = next n) ->
  rep s' (upd L (qplace q) l).
Proof.
  intros Hr Hv Hq Hqs Hj Hlv Hl Hnd Hsub Hf.
  assert (forall p a, p <> qplace q -> linked (nodes s) a (L p) -> linked (nodes s') a (L p)) as Hlk.
  { intros p a Hp. apply chain_frame. intros y n Hy. apply Hf.
    - intros Hy'. apply Hp. by eapply rep_disj.
    - intros Hlo. by apply (Hlo p). }
  split.
  - intros q' Hv'. destruct (decide (q' = q)) as [->|Hne].
    + exists v. rewrite Hqs, decide_True, upd_same by done. done.
    + destruct (rep_q _ _ Hr q' Hv') as (v' & E & [Hl1 Hl2] & Hlv').
      assert (qplace q' <> qplace q) as Hp by (intros E'; by apply Hne, qplace_inj).
      exists v'. rewrite Hqs, decide_False, upd_other by done.
      split; [done|]. split; [|done]. split; [by apply Hlk|done].
  - assert (PJoin <> qplace q) as Hp by (by destruct q).
    rewrite Hj, upd_other by done. apply Hlk; [done|]. apply Hr.
  - intros p. unfold upd. destruct (decide (p = qplace q)); [done|apply Hr].
  - assert (forall p y, p <> qplace q -> y ∈ l -> y ∈ L p -> False) as Hno.
    { intros p y Hp Hy Hy'. destruct (Hsub y Hy) as [Hy2|Hlo]; [|by apply (Hlo p)].
      apply Hp. by eapply rep_disj. }
    intros p p' y. unfold upd. destruct (decide (p = qplace q)) as [->|Hp],
      (decide (p' = qplace q)) as [->|Hp']; intros Hy Hy'; try done.
    + exfalso. by eapply (Hno p').
    + exfalso. by eapply (Hno p).
    + by eapply rep_disj.
Qed.

(** ** What the nodes hold, apart from their links *)

Definition data (s : sched) : gmap Z node := with_next 0 <$> nodes s.

Lemma data_lookup s y d :
  data s !! y = Some d <-> exists n, nodes s !! y = Some n /\ d = with_next 0 n.
Proof.
  unfold data. rewrite lookup_fmap, fmap_Some. naive_solver.
Qed.

Lemma data_some s y n : nodes s !! y = Some n -> data s !! y = Some (with_next 0 n).
Proof. intros E. apply data_lookup. eauto. Qed.

(** A write of a link is not seen; any other write is the same on the data. *)
Lemma data_upd s x n f :
  nodes s !! x = Some n ->
  (forall m, with_next 0 (f m) = with_next 0 (f (with_next 0 m))) ->
  data (set_nodes (<[x := f n]>) s) = alter (fun d => with_next 0 (f d)) x (data s).
Proof.
  intros E Hf. unfold data, set_nodes; cbn [nodes]. apply map_eq. intros y.
  rewrite lookup_fmap. destruct (decide (y = x)) as [->|Hne].
  - rewrite lookup_insert_eq, lookup_alter_eq, lookup_fmap, E. cbn. by rewrite Hf.
  - by rewrite lookup_insert_ne, lookup_alter_ne, lookup_fmap.
Qed.

Lemma data_alter s x n f :
  nodes s !! x = Some n -> (forall m, with_next 0 (f m) = f (with_next 0 m)) ->
  data (set_nodes (<[x := f n]>) s) = alter f x (data s).
Proof.
  intros E Hf. rewrite (data_upd s x n f); [|done|intros m; by rewrite !Hf].
  apply map_eq. intros y. destruct (decide (y = x)) as [->|Hne].
  - rewrite !lookup_alter_eq, (data_some s x n E). cbn. by rewrite Hf.
  - by rewrite !lookup_alter_ne.
Qed.

Lemma data_next s x n a :
  nodes s !! x = Some n -> data (set_nodes (<[x := with_next a n]>) s) = data s.
Proof.
  intros E. rewrite (data_upd s x n (with_next a)) by done. apply map_eq. intros y.
  destruct (decide (y = x)) as [->|Hne].
  - rewrite lookup_alter_eq. unfold data. by rewrite lookup_fmap, E.
  - by rewrite lookup_alter_ne.
Qed.

Lemma data_queue_set q v s : data (queue_set q v s) = data s.
Proof. by destruct q. Qed.

Lemma rep_queue s L q :
  rep s L -> valid_ref q ->
  exists v, queue_of s q = Some v /\ rd_queue q s = Ok (v, s) /\
    is_queue (nodes s) v (L (qplace q)) /\ priorityLevel v = qlevel q.
Proof.
  intros Hr Hv. destruct (rep_q _ _ Hr q Hv) as (v & E & H & Hl).
  exists v. split; [done|]. split; [by apply rd_queue_ok|done].
Qed.

(** Membership in a changed layout. *)
Lemma elem_upd L p l p' y :
  y ∈ upd L p l p' <-> (p' = p /\ y ∈ l) \/ (p' <> p /\ y ∈ L p').
Proof. unfold upd. destruct (decide (p' = p)); naive_solver. Qed.

(** A write that keeps the link does not move a node. *)
Lemma rep_upd s L x n n' :
  nodes s !! x = Some n -> next n' = next n -> rep s L -> rep (set_nodes (<[x := n']>) s) L.
Proof.
  intros En Hn [H1 H2 H3 H4].
  assert (forall (l : list Z) y m, y ∈ l -> nodes s !! y = Some m ->
    exists m', <[x := n']> (nodes s) !! y = Some m' /\ next m' = next m) as Hf.
  { intros l y m _ Em. destruct (decide (y = x)) as [->|Hne].
    - rewrite lookup_insert_eq. eexists. split; [done|]. congruence.
    - rewrite lookup_insert_ne by done. eauto. }
  split; [| |done|done].
  - intros q Hv. destruct (H1 q Hv) as (w & Eq & [Hl Hlast] & Hlv). exists w.
    rewrite queue_of_nodes. split; [done|]. split; [|done]. split; [|done].
    eapply chain_frame; [apply Hf|exact Hl].
  - eapply chain_frame; [apply Hf|exact H2].
Qed.

(** ** [deQ] *)

Lemma deQ_empty s L q :
  rep s L -> valid_ref q -> L (qplace q) = [] -> deQ q s = Ok (0, s).
Proof.
  intros Hr Hv El. destruct (rep_queue s L q Hr Hv) as (v & Eq & Erd & [Hl _] & _).
  rewrite El in Hl. unfold deQ. mstep by exact Erd. by rewrite (chain_null _ _ _ Hl).
Qed.

Lemma deQ_spec s L q x l :
  rep s L -> valid_ref q -> L (qplace q) = x :: l ->
  exists s', deQ q s = Ok (x, s') /\ rep s' (upd L (qplace q) l) /\ data s' = data s /\
    same_rest s s'.
Proof.
  intros Hr Hv El. destruct (rep_queue s L q Hr Hv) as (v & Eq & Erd & [Hl Hlast] & Hlv).
  pose proof (rep_nodup _ _ Hr (qplace q)) as Hnd. rewrite El in *.
  pose proof Hl as (Ha & Hx & n & En & Hl'). rewrite Ha in *.
  set (v' := Queue (next n) (if next n =? 0 then 0 else rear v) (priorityLevel v)).
  set (s1 := queue_set q v' s).
  destruct (queue_set_fields q v' s) as (En1 & Ej1 & Hs1). fold s1 in En1, Ej1, Hs1.
  exists (set_nodes (<[x := with_next 0 n]>) s1). split_and!.
  - unfold deQ. mstep by exact Erd. rewrite Ha, (chain_null _ _ _ Hl).
    mstep by (by apply rd_node_ok). mstep by apply wr_queue_ok. fold v' s1.
    mstep by (apply upd_node_ok; [by rewrite En1|done]). done.
  - apply NoDup_cons in Hnd as [Hxl Hnd].
    assert (forall y m, y <> x -> nodes s !! y = Some m ->
      exists m', nodes (set_nodes (<[x := with_next 0 n]>) s1) !! y = Some m' /\ next m' = next m)
      as Hf.
    { intros y m Hne Em. exists m. cbn [set_nodes nodes]. rewrite lookup_insert_ne by done.
      by rewrite En1. }
    eapply (rep_change s _ L q l v'); try done.
    + intros q' Hv'. rewrite queue_of_nodes. by eapply queue_of_set.
    + split.
      * eapply chain_frame; [|exact Hl']. intros y m Hy. apply Hf. by intros ->.
      * destruct l as [|y l]; [by left|]. right. cbn [v' rear].
        rewrite (chain_null _ _ _ Hl'). by destruct Hlast as [?|?].
    + intros y Hy. left. rewrite El. set_solver.
    + intros y m Hy _. apply Hf. intros ->. apply Hy. rewrite El. set_solver.
  - rewrite data_next by (by rewrite En1). apply data_queue_set.
  - by etransitivity; [exact Hs1|].
Qed.

(** ** [enQ] *)

Definition is_yielding (n : node) : bool := bool_decide (status n = YIELDING).

(** What [enQ] does to the node: a node that yielded keeps its priority,
    except in an empty queue. *)
Definition enq_node (q : qref) (l : list Z) (d : node) : node :=
  if negb (bool_decide (l = [])) && is_yielding d then d else with_priority (qlevel q) d.

Lemma last_cons_some (x : Z) l : exists r, last (x :: l) = Some r.
Proof. destruct (last (x :: l)) eqn:E; [eauto|]. by apply last_None in E. Qed.

Lemma linked_single ns x n : ns !! x = Some n -> next n = 0 -> x <> 0 -> linked ns x [x].
Proof. intros E Hn Hx. split; [done|]. split; [done|]. by exists n. Qed.

(** A node appended behind the last one. *)
Lemma linked_snoc ns ns' a l r x n' :
  linked ns a l -> last l = Some r -> NoDup l -> x ∉ l -> x <> 0 ->
  ns' !! x = Some n' -> next n' = 0 ->
  (forall nr, ns !! r = Some nr -> exists nr', ns' !! r = Some nr' /\ next nr' = x) ->
  (forall y n, y ∈ l -> y <> r -> ns !! y = Some n ->
     exists n', ns' !! y = Some n' /\ next n' = next n) ->
  linked ns' a (l ++ [x]).
Proof.
  intros Hl Hlast Hnd Hxl Hx E' Hn' Hr Hf. apply chain_app. exists x.
  split; [by eapply chain_redirect|]. by eapply linked_single.
Qed.

Lemma enQ_empty s L q x n :
  rep s L -> valid_ref q -> loose L x -> nodes s !! x = Some n -> x <> 0 ->
  L (qplace q) = [] ->
  exists s', enQ q x s = Ok (tt, s') /\ rep s' (upd L (qplace q) [x]) /\
    data s' = alter (enq_node q []) x (data s) /\ same_rest s s'.
Proof.
  intros Hr Hv Hlo En Hx El. destruct (rep_queue s L q Hr Hv) as (v & Eq & Erd & [Hl _] & Hlv).
  rewrite El in Hl. set (v' := Queue x x (priorityLevel v)). set (s1 := queue_set q v' s).
  destruct (queue_set_fields q v' s) as (En1 & Ej1 & Hs1). fold s1 in En1, Ej1, Hs1.
  set (n2 := with_priority (priorityLevel v) (with_next 0 n)).
  set (s2 := set_nodes (<[x := with_next 0 n]>) s1).
  assert (nodes s2 !! x = Some (with_next 0 n)) as E2 by (cbn; apply lookup_insert_eq).
  exists (set_nodes (<[x := n2]>) s2). split_and!.
  - unfold enQ. mstep by exact Erd. rewrite (chain_null _ _ _ Hl).
    mstep by apply wr_queue_ok. fold v' s1.
    mstep by (apply upd_node_ok; [by rewrite En1|done]). fold s2.
    by rewrite (upd_node_ok s2 x (with_next 0 n)).
  - assert (forall y m, y <> x -> nodes s !! y = Some m ->
      exists m', nodes (set_nodes (<[x := n2]>) s2) !! y = Some m' /\ next m' = next m) as Hf.
    { intros y m Hne Em. exists m. cbn. rewrite !lookup_insert_ne by done.
      by rewrite En1. }
    eapply (rep_change s _ L q [x] v'); try done.
    + intros q' Hv'. by eapply queue_of_set.
    + split; [|by right]. eapply (linked_single _ x n2); [apply lookup_insert_eq|done..].
    + by apply NoDup_singleton.
    + intros y ->%list_elem_of_singleton. by right.
    + intros y m _ Hnl. apply Hf. by intros ->.
  - unfold n2. rewrite (data_upd s2 x (with_next 0 n) (with_priority (priorityLevel v))) by done.
    unfold s2. rewrite data_next by (by rewrite En1). unfold s1. rewrite data_queue_set.
    unfold enq_node. cbn [bool_decide]. rewrite Hlv. apply map_eq. intros y.
    destruct (decide (y = x)) as [->|Hne]; [|by rewrite !lookup_alter_ne].
    rewrite !lookup_alter_eq. unfold data. by rewrite lookup_fmap, En.
  - by etransitivity; [exact Hs1|].
Qed.

(** The run of [enQ] on a queue that is not empty, whose last node is [r]. *)
Lemma enQ_cons_run s q x n v r nr :
  rd_queue q s = Ok (v, s) -> head v <> 0 -> rear v = r ->
  nodes s !! r = Some nr -> r <> 0 -> r <> x -> nodes s !! x = Some n -> x <> 0 ->
  let n' := if is_yielding n then with_next 0 n
            else with_priority (priorityLevel v) (with_next 0 n) in
  let s1 := set_nodes (<[r := with_next x nr]>) s in
  let s2 := queue_set q (Queue (head v) x (priorityLevel v)) s1 in
  exists s', enQ q x s = Ok (tt, s') /\ nodes s' !! x = Some n' /\
    (forall y, y <> x -> nodes s' !! y = <[r := with_next x nr]> (nodes s) !! y) /\
    (forall q', queue_of s' q' = queue_of s2 q') /\ joinList s' = joinList s /\
    same_rest s s'.
Proof.
  intros Erd Hh Hrv Enr Hr0 Hrx En Hx n' s1 s2.
  destruct (queue_set_fields q (Queue (head v) x (priorityLevel v)) s1) as (En2 & Ej2 & Hs2).
  fold s2 in En2, Ej2, Hs2.
  assert (nodes s2 !! x = Some n) as Ex2
    by (rewrite En2; cbn; by rewrite lookup_insert_ne by done).
  set (s3 := set_nodes (<[x := with_next 0 n]>) s2).
  assert (nodes s3 !! x = Some (with_next 0 n)) as Ex3 by (cbn; apply lookup_insert_eq).
  exists (if is_yielding n then s3 else set_nodes (<[x := n']>) s3). split_and!.
  - unfold enQ. mstep by exact Erd. rewrite (Zeqb_f (head v) 0), Hrv by done.
    mstep by (by apply upd_node_ok). fold s1.
    mstep by apply wr_queue_ok. fold s2.
    mstep by (by apply upd_node_ok). fold s3.
    mstep by (by apply rd_node_ok).
    change (status (with_next 0 n)) with (status n). unfold n', is_yielding.
    destruct (bool_decide (status n = YIELDING)); [done|]. by rewrite (upd_node_ok s3 x _ _ Ex3).
  - unfold n'. destruct (is_yielding n); [done|]. cbn. apply lookup_insert_eq.
  - intros y Hne. destruct (is_yielding n); cbn;
      rewrite !lookup_insert_ne by done; by rewrite En2.
  - intros q'. by destruct (is_yielding n), q'.
  - by destruct (is_yielding n).
  - transitivity s1; [done|]. etransitivity; [exact Hs2|]. by destruct (is_yielding n).
Qed.

(** Only the link of [r] and the node [x] changed. *)
Lemma data_insert2 s s' x r nr n n' a f :
  nodes s !! r = Some nr -> nodes s !! x = Some n -> nodes s' !! x = Some n' ->
  with_next 0 n' = f (with_next 0 n) -> r <> x ->
  (forall y, y <> x -> nodes s' !! y = <[r := with_next a nr]> (nodes s) !! y) ->
  data s' = alter f x (data s).
Proof.
  intros Enr En Ex Hf Hrx Hy. apply map_eq. intros y. unfold data.
  destruct (decide (y = x)) as [->|Hne].
  - by rewrite lookup_alter_eq, !lookup_fmap, En, Ex; cbn; rewrite Hf.
  - rewrite lookup_alter_ne, !lookup_fmap, Hy by done.
    destruct (decide (y = r)) as [->|Hner].
    + by rewrite lookup_insert_eq, Enr.
    + by rewrite lookup_insert_ne.
Qed.

Lemma enQ_cons s L q x n y0 l0 :
  rep s L -> valid_ref q -> loose L x -> nodes s !! x = Some n -> x <> 0 ->
  L (qplace q) = y0 :: l0 ->
  exists s', enQ q x s = Ok (tt, s') /\ rep s' (upd L (qplace q) (L (qplace q) ++ [x])) /\
    data s' = alter (enq_node q (L (qplace q))) x (data s) /\ same_rest s s'.
Proof.
  intros Hr Hv Hlo En Hx El. destruct (rep_queue s L q Hr Hv) as (v & Eq & Erd & [Hl Hlast] & Hlv).
  destruct (last_cons_some y0 l0) as [r Er]. rewrite <- El in Er.
  destruct Hlast as [Hlast|Hlast]; [by rewrite El in Hlast|].
  assert (rear v = r) as Hrv by congruence.
  assert (r ∈ L (qplace q)) as Hrin by (apply last_Some_elem_of, Er).
  destruct (chain_lookup _ _ _ _ r Hl Hrin) as (Hr0 & nr & Enr).
  assert (r <> x) as Hrx by (intros ->; by apply (Hlo (qplace q))).
  assert (head v <> 0) as Hh
    by (pose proof (chain_null _ _ _ Hl) as Hh; rewrite El in Hh; by apply Z.eqb_neq).
  destruct (enQ_cons_run s q x n v r nr) as (s' & Eenq & Ex & Hf4 & Hq & Hj & Hsr); try done.
  exists s'. split; [done|]. split; [|split; [|done]].
  - assert (forall y m, y <> x -> y <> r -> nodes s !! y = Some m ->
      exists m', nodes s' !! y = Some m' /\ next m' = next m) as Hf.
    { intros y m Hne Hne' Em. exists m. by rewrite Hf4, lookup_insert_ne. }
    eapply (rep_change s _ L q _ (Queue (head v) x (priorityLevel v))); try done.
    + intros q' Hv'. rewrite Hq, <- (queue_of_nodes (<[r := with_next x nr]>) s q').
      eapply queue_of_set; [done|done|]. by rewrite queue_of_nodes.
    + split; [|right; apply last_snoc].
      eapply linked_snoc; [exact Hl|exact Er|apply Hr|by apply Hlo|done|exact Ex| | |].
      * by destruct (is_yielding n).
      * intros m Em. exists (with_next x nr). split; [|done].
        by rewrite Hf4, lookup_insert_eq by done.
      * intros y m Hy Hne. apply Hf; [|done]. intros ->. by apply (Hlo (qplace q)).
    + apply NoDup_app. split; [apply Hr|]. split; [|apply NoDup_singleton].
      intros y Hy ->%list_elem_of_singleton. by apply (Hlo (qplace q)).
    + intros y [?| ->%list_elem_of_singleton]%elem_of_app; [by left|by right].
    + intros y m Hy Hnl. apply Hf; [by intros ->|]. intros ->. by apply Hy.
  - eapply data_insert2; [exact Enr|exact En|exact Ex| |done|exact Hf4].
    unfold enq_node. rewrite El. change (is_yielding (with_next 0 n)) with (is_yielding n).
    cbn. rewrite <- Hlv. by destruct (is_yielding n).
Qed.

Lemma enQ_spec s L q x n :
  rep s L -> valid_ref q -> loose L x -> nodes s !! x = Some n -> x <> 0 ->
  exists s', enQ q x s = Ok (tt, s') /\ rep s' (upd L (qplace q) (L (qplace q) ++ [x])) /\
    data s' = alter (enq_node q (L (qplace q))) x (data s) /\ same_rest s s'.
Proof.
  intros. destruct (L (qplace q)) as [|y0 l0] eqn:El.
  - by eapply enQ_empty.
  - rewrite <- El. by eapply enQ_cons.
Qed.

(** ** [getNextNode] *)

(** The first run queue from level [i] on that is not empty: its level, its
    first node and the others. *)
Fixpoint next_run (n : nat) (i : Z) (L : lists) : option (Z * Z * list Z) :=
  match n with
  | O => None
  | S n =>
      match L (qplace (RunQ i)) with
      | x :: l => Some (i, x, l)
      | [] => next_run n (i + 1) L
      end
  end.

Lemma getNextNode_loop_spec n i s L :
  rep s L -> 0 <= i -> i + Z.of_nat n <= 5 ->
  match next_run n i L with
  | None => getNextNode_loop n i s = Ok (0, s)
  | Some (j, x, l) => i <= j < i + Z.of_nat n /\ L (qplace (RunQ j)) = x :: l /\
      exists s', getNextNode_loop n i s = Ok (x, s') /\
        rep s' (upd L (qplace (RunQ j)) l) /\ data s' = data s /\ same_rest s s'
  end.
Proof.
  intros Hr. revert i. induction n as [|n IH]; intros i Hi Hn; [done|].
  cbn [next_run getNextNode_loop].
  assert (valid_ref (RunQ i)) as Hv by (cbn; lia).
  destruct (rep_queue s L (RunQ i) Hr Hv) as (v & Eq & Erd & [Hl _] & _).
  destruct (L (qplace (RunQ i))) as [|x l] eqn:El.
  - specialize (IH (i + 1) ltac:(lia) ltac:(lia)).
    assert (getNextNode_loop (S n) i s = getNextNode_loop n (i + 1) s) as E.
    { cbn [getNextNode_loop]. mstep by exact Erd. by rewrite (chain_null _ _ _ Hl). }
    cbn [getNextNode_loop] in E. rewrite E.
    destruct (next_run n (i + 1) L) as [[[j x] l]|]; [|done].
    destruct IH as (? & ? & ?). split; [lia|]. done.
  - split; [lia|]. split; [done|].
    destruct (deQ_spec s L (RunQ i) x l Hr Hv El) as (s' & Ed & H).
    exists s'. split; [|done]. mstep by exact Erd. rewrite (chain_null _ _ _ Hl). exact Ed.
Qed.

Lemma getNextNode_none s L :
  rep s L -> next_run 5 0 L = None -> getNextNode s = Ok (0, s).
Proof.
  intros Hr E. pose proof (getNextNode_loop_spec 5 0 s L Hr ltac:(lia) ltac:(lia)) as H.
  by rewrite E in H.
Qed.

Lemma getNextNode_some s L j x l :
  rep s L -> next_run 5 0 L = Some (j, x, l) ->
  0 <= j < 5 /\ L (PRun (Z.to_nat j)) = x :: l /\
  exists s', getNextNode s = Ok (x, s') /\ rep s' (upd L (PRun (Z.to_nat j)) l) /\
    data s' = data s /\ same_rest s s'.
Proof.
  intros Hr E. pose proof (getNextNode_loop_spec 5 0 s L Hr ltac:(lia) ltac:(lia)) as H.
  rewrite E in H. exact H.
Qed.

(** ** [insertToList] and [removeFromList] *)

(** The representation after the join list changed. *)
Lemma rep_change_join s s' L l :
  rep s L -> (forall q, queue_of s' q = queue_of s q) ->
  linked (nodes s') (joinList s') l -> NoDup l ->
  (forall y, y ∈ l -> y ∈ L PJoin \/ loose L y) ->
  (forall y n, y ∉ L PJoin -> ~ loose L y ->
     nodes s !! y = Some n -> exists n', nodes s' !! y = Some n' /\ next n' = next n) ->
  rep s' (upd L PJoin l).
Proof.
  intros Hr Hq Hl Hnd Hsub Hf. split.
  - intros q Hv. destruct (rep_q _ _ Hr q Hv) as (v & E & [Hl1 Hl2] & Hlv).
    assert (qplace q <> PJoin) as Hp by (by destruct q).
    exists v. rewrite Hq, upd_other by done. split; [done|]. split; [|done]. split; [|done].
    eapply chain_frame; [|exact Hl1]. intros y n Hy. apply Hf.
    + intros Hy'. apply Hp. by eapply rep_disj.
    + intros Hlo. by eapply Hlo.
  - by rewrite upd_same.
  - intros p. unfold upd. destruct (decide (p = PJoin)); [done|apply Hr].
  - assert (forall p y, p <> PJoin -> y ∈ l -> y ∈ L p -> False) as Hno.
    { intros p y Hp Hy Hy'. destruct (Hsub y Hy) as [Hy2|Hlo]; [|by apply (Hlo p)].
      apply Hp. by eapply rep_disj. }
    intros p p' y. unfold upd. destruct (decide (p = PJoin)) as [->|Hp],
      (decide (p' = PJoin)) as [->|Hp']; intros Hy Hy'; try done.
    + exfalso. by eapply (Hno p').
    + exfalso. by eapply (Hno p).
    + by eapply rep_disj.
Qed.

Lemma insertToList_spec s L x n :
  rep s L -> loose L x -> nodes s !! x = Some n -> x <> 0 ->
  exists s', insertToList x s = Ok (tt, s') /\ rep s' (upd L PJoin (x :: L PJoin)) /\
    data s' = data s /\ same_rest s s'.
Proof.
  intros Hr Hlo En Hx.
  set (s1 := set_nodes (<[x := with_next (joinList s) n]>) s).
  exists (set_joinList x s1). split_and!.
  - unfold insertToList. mstep by done. mstep by (by apply upd_node_ok). done.
  - assert (forall y m, y <> x -> nodes s !! y = Some m ->
      exists m', nodes s1 !! y = Some m' /\ next m' = next m) as Hf.
    { intros y m Hne Em. exists m. cbn. by rewrite lookup_insert_ne. }
    eapply (rep_change_join s); [done|by intros []| | | |].
    + split; [done|]. split; [done|]. exists (with_next (joinList s) n).
      split; [cbn; apply lookup_insert_eq|]. cbn [next with_next].
      eapply chain_frame; [|apply Hr]. intros y m Hy. apply Hf. intros ->.
      by apply (Hlo PJoin).
    + apply NoDup_cons. split; [apply Hlo|apply Hr].
    + intros y [->|?]%elem_of_cons; [by right|by left].
    + intros y m _ Hnl. apply Hf. by intros ->.
  - unfold s1. change (data (set_nodes (<[x := with_next (joinList s) n]>) s) = data s).
    by apply data_next.
  - done.
Qed.

(** The identifier of the thread of node [y]. *)
Definition tid_of (D : gmap Z node) (T : gmap Z thread) (y : Z) : option Z :=
  d ← D !! y; if threadID d =? 0 then None else tid <$> T !! threadID d.

Lemma node_tid_ok s y i :
  tid_of (data s) (thrs s) y = Some i -> y <> 0 -> node_tid y s = Ok (i, s).
Proof.
  unfold tid_of. intros (d & (n & En & ->)%data_lookup & H)%bind_Some Hy.
  cbn [threadID with_next] in H. destruct (threadID n =? 0) eqn:E0; [done|].
  apply fmap_Some in H as (t & Et & ->). unfold node_tid. mstep by (by apply rd_node_ok).
  unfold rd_thr, cell. rewrite bind_ok_l with (a := t) (s' := s); [done|].
  by rewrite E0, Et.
Qed.

(** The links of a join list from which [y] goes, and the state that has them. *)
Definition unlink (pre : list Z) (n : node) (s : sched) : sched :=
  match last pre with
  | None => set_joinList (next n) s
  | Some p =>
      match nodes s !! p with
      | Some np => set_nodes (<[p := with_next (next n) np]>) s
      | None => s
      end
  end.

Lemma unlink_join s L pre y post n :
  rep s L -> L PJoin = pre ++ y :: post -> nodes s !! y = Some n ->
  let s' := set_nodes (<[y := with_next 0 n]>) (unlink pre n s) in
  rep s' (upd L PJoin (pre ++ post)) /\ data s' = data s /\ same_rest s s' /\
  nodes (unlink pre n s) !! y = Some n.
Proof.
  intros Hr El En. pose proof (rep_nodup _ _ Hr PJoin) as Hnd.
  pose proof (rep_join _ _ Hr) as Hl. rewrite El in Hnd, Hl.
  apply chain_app in Hl as (c & Hpre & -> & Hy & n0 & En0 & Hpost).
  replace n0 with n in * by congruence. clear n0 En0.
  apply NoDup_app in Hnd as (Hnp & Hnd & Hnq). apply NoDup_cons in Hnq as [Hyp Hnq].
  assert (y ∉ pre) as Hypre by (intros H; by apply (Hnd y H), elem_of_cons; left).
  intros s'.
  assert (NoDup (pre ++ post)) as Hnd'.
  { apply NoDup_app. split_and!; [done| |done]. intros z Hz Hz'. apply (Hnd z Hz).
    by apply elem_of_cons; right. }
  assert (forall z, z ∈ pre ++ post -> z ∈ L PJoin \/ loose L z) as Hsub.
  { intros z Hz. left. rewrite El. set_solver. }
  destruct (last pre) as [p|] eqn:Elast.
  - pose proof (last_Some_elem_of _ _ Elast) as Hp.
    destruct (chain_lookup _ _ _ _ p Hpre Hp) as (Hp0 & np & Enp).
    assert (p <> y) as Hpy by (by intros ->).
    assert (unlink pre n s = set_nodes (<[p := with_next (next n) np]>) s) as Eu
      by (unfold unlink; by rewrite Elast, Enp).
    assert (forall z, z <> y -> z <> p -> nodes s' !! z = nodes s !! z) as Hf.
    { intros z Hz1 Hz2. unfold s'. rewrite Eu. cbn. by rewrite !lookup_insert_ne. }
    assert (nodes (unlink pre n s) !! y = Some n) as Eny
      by (rewrite Eu; cbn; by rewrite lookup_insert_ne).
    split_and!; [|unfold s'; rewrite data_next by done; rewrite Eu; by apply data_next| |done].
    + eapply (rep_change_join s); [done|unfold s'; rewrite Eu; by intros []| |done|done|].
      * assert (joinList s' = joinList s) as -> by (unfold s'; by rewrite Eu).
        apply chain_app. exists (next n). split.
        -- eapply chain_redirect; [exact Hpre|exact Elast|done| |].
           ++ intros m Em. exists (with_next (next n) np). split; [|done].
              unfold s'. rewrite Eu. cbn. rewrite lookup_insert_ne by done. apply lookup_insert_eq.
           ++ intros z m Hz Hne Em. exists m. rewrite Hf; [done|by intros ->|done].
        -- eapply chain_frame; [|exact Hpost]. intros z m Hz Em. exists m.
           rewrite Hf; [done|by intros ->|]. intros ->. apply (Hnd p Hp). set_solver.
      * intros z m Hz _ Em. exists m. rewrite Hf; [done| |]; intros ->; apply Hz;
          rewrite El; set_solver.
    + unfold s'. by rewrite Eu.
  - apply last_None in Elast as ->. cbn in Hpre. clear Hpre.
    split_and!; [|unfold s'; by rewrite data_next|done|done].
    eapply (rep_change_join s); [done|by intros []| |done|done|].
    + eapply chain_frame; [|exact Hpost]. intros z m Hz Em. exists m.
      cbn. rewrite lookup_insert_ne; [done|]. by intros ->.
    + intros z m Hz _ Em. exists m. cbn. rewrite lookup_insert_ne; [done|]. intros ->.
      apply Hz. rewrite El. set_solver.
Qed.

Lemma removeFromList_loop_spec id s L y post i mid pre fuel prev ptr :
  rep s L -> L PJoin = pre ++ mid ++ y :: post ->
  prev = default 0 (last pre) -> linked_to (nodes s) ptr (mid ++ y :: post) 0 ->
  tid_of (data s) (thrs s) y = Some i -> i = id ->
  (forall z, z ∈ mid -> exists j, tid_of (data s) (thrs s) z = Some j /\ j <> id) ->
  (length mid < fuel)%nat ->
  exists s', removeFromList_loop fuel id prev ptr s = Ok (y, s') /\
    rep s' (upd L PJoin (pre ++ mid ++ post)) /\ data s' = data s /\ same_rest s s'.
Proof.
  intros Hr. revert pre fuel prev ptr.
  induction mid as [|z mid IH]; intros pre fuel prev ptr El -> Hl Ei -> Hmid Hfuel;
    (destruct fuel as [|fuel]; [cbn in Hfuel; lia|]); cbn [removeFromList_loop].
  - destruct Hl as (-> & Hy & n & En & Hpost). rewrite (Zeqb_f y 0) by done.
    destruct (unlink_join s L pre y post n Hr El En) as (Hr' & Hd & Hsr & Eny).
    eexists. split; [|by split_and!].
    mstep by (by apply node_tid_ok). mstep by (by apply rd_node_ok). rewrite Z.eqb_refl.
    rewrite bind_ok_l with (a := tt) (s' := unlink pre n s).
    { by mstep by (by apply upd_node_ok). }
    unfold unlink. destruct (last pre) as [p|] eqn:Elast; cbn [default from_option]; [|done].
    pose proof (rep_join _ _ Hr) as Hlj. rewrite El in Hlj.
    apply chain_app in Hlj as (c & Hpre & _).
    destruct (chain_lookup _ _ _ _ p Hpre (last_Some_elem_of _ _ Elast)) as (Hp0 & np & Enp).
    cbn. rewrite (Zeqb_f p 0), Enp by done. by apply upd_node_ok.
  - destruct Hl as (-> & Hz & n & En & Hl'). rewrite (Zeqb_f z 0) by done.
    destruct (Hmid z ltac:(set_solver)) as (j & Ej & Hj).
    mstep by (by apply node_tid_ok). mstep by (by apply rd_node_ok). rewrite (Zeqb_f j id) by done.
    destruct (IH (pre ++ [z]) fuel z (next n)) as (s' & H); try done.
    + by rewrite <- app_assoc.
    + by rewrite last_snoc.
    + intros w Hw. apply Hmid. set_solver.
    + cbn in Hfuel. lia.
    + exists s'. by rewrite <- app_assoc in H.
Qed.

(** ** [insertByTime] *)

Definition runtime_of (D : gmap Z node) (y : Z) : spec_float :=
  match D !! y with Some d => runtime d | None => S754_nan end.

(** A node goes before the first node with a smaller run time. *)
Fixpoint insert_at (D : gmap Z node) (x : Z) (l : list Z) : list Z :=
  match l with
  | [] => [x]
  | y :: l' =>
      if runtime_gt (runtime_of D x) (runtime_of D y) then x :: l
      else y :: insert_at D x l'
  end.

Lemma runtime_of_data s y n : nodes s !! y = Some n -> runtime_of (data s) y = runtime n.
Proof. intros E. unfold runtime_of, data. by rewrite lookup_fmap, E. Qed.

(** The layout after node [x] was put between [pre] and [suf]; the links of
    [x] and of the node before it changed, and the ends of the queue. *)
Lemma insert_rep s s' L q pre suf x n n' v v' :
  rep s L -> valid_ref q -> queue_of s q = Some v -> L (qplace q) = pre ++ suf ->
  pre ++ suf <> [] -> loose L x -> nodes s !! x = Some n -> x <> 0 ->
  (forall q', queue_of s' q' = queue_of (queue_set q v' s) q') ->
  joinList s' = joinList s -> priorityLevel v' = priorityLevel v ->
  head v' = (if pre then x else head v) -> rear v' = (if suf then x else rear v) ->
  nodes s' !! x = Some n' -> linked_to (nodes s) (next n') suf 0 ->
  (forall r nr, last pre = Some r -> nodes s !! r = Some nr ->
     exists nr', nodes s' !! r = Some nr' /\ next nr' = x) ->
  (forall y, y <> x -> last pre <> Some y -> nodes s' !! y = nodes s !! y) ->
  rep s' (upd L (qplace q) (pre ++ x :: suf)).
Proof.
  intros Hr Hv Eq El Hne Hlo En Hx Hq Hj Hpl Hh Hre Ex Hsuf Hlast Hf.
  destruct (rep_q _ _ Hr q Hv) as (v0 & Eq0 & [Hl Hlst] & Hlv).
  replace v0 with v in * by congruence. clear v0 Eq0.
  pose proof (rep_nodup _ _ Hr (qplace q)) as Hnd. rewrite El in Hl, Hlst, Hnd.
  assert (x ∉ pre ++ suf) as Hxl by (rewrite <- El; apply Hlo).
  assert (NoDup pre) as Hnp by (by apply NoDup_app in Hnd as [? _]).
  assert (forall y, y ∈ suf -> last pre <> Some y) as Hsl.
  { intros y Hy Elast. apply NoDup_app in Hnd as (_ & Hnd & _).
    by apply (Hnd y (last_Some_elem_of _ _ Elast)). }
  eapply (rep_change s _ L q _ v'); try done.
  - intros q' Hv'. rewrite Hq. by eapply queue_of_set.
  - congruence.
  - split.
    + rewrite Hh. apply chain_app in Hl as (c & Hpre & _). apply chain_app. exists x. split.
      * destruct pre as [|p pre]; [done|].
        destruct (last_cons_some p pre) as [r Er].
        eapply chain_redirect; [exact Hpre|exact Er|done| |].
        -- intros nr Enr. by apply (Hlast r nr).
        -- intros y m Hy Hyr Em. exists m. rewrite Hf; [done| |congruence].
           intros ->. apply Hxl. set_solver.
      * split; [done|]. split; [done|]. exists n'. split; [done|].
        eapply chain_frame; [|exact Hsuf]. intros y m Hy Em. exists m. rewrite Hf; auto.
        intros ->. apply Hxl. set_solver.
    + right. rewrite last_app. destruct suf as [|y suf]; [by rewrite Hre|].
      rewrite Hre. destruct Hlst as [Hlst|Hlst]; [by destruct pre|].
      rewrite last_app in Hlst. destruct (last_cons_some y suf) as [r Er].
      rewrite last_cons, Er. by rewrite Er in Hlst.
  - rewrite <- Permutation_middle. by apply NoDup_cons.
  - intros y Hy. rewrite El. destruct (decide (y = x)) as [->|Hyx]; [by right|].
    left. set_solver.
  - intros y m Hy Hnl Em. exists m. rewrite Hf; [done|by intros ->|].
    intros Elast. apply Hy. rewrite El. apply last_Some_elem_of in Elast. set_solver.
Qed.

Section insert.
Context (q : qref) (s : sched) (L : lists) (x : Z) (n : node).
Hypothesis (Hr : rep s L) (Hv : valid_ref q) (Hlo : loose L x).
Hypothesis (En : nodes s !! x = Some n) (Hx : x <> 0).

(** The end of the loop: the node goes behind the last one. *)
Lemma insertByTime_append fuel prev :
  L (qplace q) <> [] ->
  exists s', insertByTime_loop (S fuel) q x prev 0 s = Ok (tt, s') /\
    rep s' (upd L (qplace q) (L (qplace q) ++ [x])) /\ data s' = data s /\ same_rest s s'.
Proof.
  intros Hne. destruct (rep_queue s L q Hr Hv) as (v & Eq & Erd & [Hlq Hlst] & Hlv).
  destruct Hlst as [?|Hlst]; [done|].
  pose proof (last_Some_elem_of _ _ Hlst) as Hrin.
  destruct (chain_lookup _ _ _ _ (rear v) Hlq Hrin) as (Hr0 & nr & Enr).
  assert (rear v <> x) as Hrx by (intros E; apply (Hlo (qplace q)); by rewrite <- E).
  set (s1 := set_nodes (<[rear v := with_next x nr]>) s).
  set (v' := Queue (head v) x (priorityLevel v)). set (s2 := queue_set q v' s1).
  destruct (queue_set_fields q v' s1) as (En2 & Ej2 & Hs2). fold s2 in En2, Ej2, Hs2.
  assert (nodes s2 !! x = Some n) as Ex2
    by (rewrite En2; cbn; by rewrite lookup_insert_ne by done).
  exists (set_nodes (<[x := with_next 0 n]>) s2). split_and!.
  - cbn [insertByTime_loop]. rewrite Z.eqb_refl.
    mstep by exact Erd. mstep by (by apply upd_node_ok). mstep by apply wr_queue_ok.
    by apply upd_node_ok.
  - eapply (insert_rep s _ L q (L (qplace q)) [] x n (with_next 0 n) v v'); try done.
    + by rewrite app_nil_r.
    + by rewrite app_nil_r.
    + intros q'. by destruct q, q'.
    + by destruct (L (qplace q)).
    + cbn. apply lookup_insert_eq.
    + intros r mr Er Emr. exists (with_next x nr). split; [|done].
      replace r with (rear v) by congruence. cbn. rewrite lookup_insert_ne by done.
      rewrite En2. cbn. apply lookup_insert_eq.
    + intros z Hzx Hzl. cbn. rewrite lookup_insert_ne, En2 by done. cbn.
      rewrite lookup_insert_ne; [done|]. congruence.
  - rewrite data_next by done. unfold s2. rewrite data_queue_set. unfold s1. by rewrite data_next.
  - by transitivity s1.
Qed.

(** The branch that links the node in front of [y]. *)
Lemma insertByTime_before fuel pre y m suf :
  L (qplace q) = pre ++ y :: suf -> nodes s !! y = Some m -> y <> 0 ->
  linked_to (nodes s) (next m) suf 0 -> runtime_gt (runtime n) (runtime m) = true ->
  exists s', insertByTime_loop (S fuel) q x (default 0 (last pre)) y s = Ok (tt, s') /\
    rep s' (upd L (qplace q) (pre ++ x :: y :: suf)) /\ data s' = data s /\ same_rest s s'.
Proof.
  intros El Em Hy Hsuf Egt.
  destruct (rep_queue s L q Hr Hv) as (v & Eq & Erd & [Hlq Hlst] & Hlv).
  rewrite El in Hlq. apply chain_app in Hlq as (c & Hpre & _).
  set (s1 := set_nodes (<[x := with_next y n]>) s).
  assert (nodes s1 !! x = Some (with_next y n)) as Ex1 by apply lookup_insert_eq.
  assert (linked_to (nodes s) (next (with_next y n)) (y :: suf) 0) as Hl' by (cbn; eauto).
  assert (forall r, insertByTime_loop (S fuel) q x (default 0 (last pre)) y s = r <->
    (if default 0 (last pre) =? 0
     then v ← rd_queue q; wr_queue q (Queue x (rear v) (priorityLevel v))
     else upd_node (default 0 (last pre)) (with_next x)) s1 = r) as Erun.
  { intros r. cbn [insertByTime_loop]. rewrite (Zeqb_f y 0) by done.
    mstep by (by apply rd_node_ok). mstep by (by apply rd_node_ok). rewrite Egt.
    by mstep by (by apply upd_node_ok). }
  assert (data s1 = data s) as Hd1 by (unfold s1; by apply data_next).
  destruct (last pre) as [p|] eqn:Elast; cbn [default from_option] in Erun |- *.
  - pose proof (last_Some_elem_of _ _ Elast) as Hp.
    destruct (chain_lookup _ _ _ _ p Hpre Hp) as (Hp0 & np & Enp).
    assert (p <> x) as Hpx by (intros ->; apply (Hlo (qplace q)); rewrite El; set_solver).
    assert (nodes s1 !! p = Some np) as Ep1 by (cbn; by rewrite lookup_insert_ne).
    exists (set_nodes (<[p := with_next x np]>) s1). split_and!; [| |by rewrite data_next|done].
    + apply Erun. cbn. rewrite (Zeqb_f p 0) by done. by apply upd_node_ok.
    + eapply (insert_rep s _ L q pre (y :: suf) x n (with_next y n) v v); try done.
      * by destruct pre.
      * intros q'. transitivity (queue_of s q'); [by destruct q'|]. symmetry.
        by apply queue_of_same.
      * by destruct pre.
      * cbn. rewrite lookup_insert_ne by done. apply lookup_insert_eq.
      * intros r mr [= <-]%(eq_trans (eq_sym Elast)) Emr. exists (with_next x np).
        split; [|done]. cbn. apply lookup_insert_eq.
      * intros z Hzx Hzl. cbn. rewrite !lookup_insert_ne; [done|done|congruence].
  - apply last_None in Elast as ->. set (v' := Queue x (rear v) (priorityLevel v)).
    exists (queue_set q v' s1).
    destruct (queue_set_fields q v' s1) as (En2 & Ej2 & Hs2).
    split_and!; [|..|by rewrite data_queue_set|done].
    + apply Erun. cbn. mstep by (exact (rd_queue_ok s1 q v Hv (eq_trans (queue_of_nodes _ s q) Eq))).
      apply wr_queue_ok.
    + eapply (insert_rep s _ L q [] (y :: suf) x n (with_next y n) v v'); try done.
      * intros q'. by destruct q, q'.
      * by rewrite En2.
      * intros z Hzx _. rewrite En2. cbn. by rewrite lookup_insert_ne.
Qed.

Lemma insertByTime_loop_spec suf pre fuel prev ptr :
  L (qplace q) = pre ++ suf -> pre ++ suf <> [] ->
  prev = default 0 (last pre) -> linked_to (nodes s) ptr suf 0 ->
  (length suf < fuel)%nat ->
  exists s', insertByTime_loop fuel q x prev ptr s = Ok (tt, s') /\
    rep s' (upd L (qplace q) (pre ++ insert_at (data s) x suf)) /\
    data s' = data s /\ same_rest s s'.
Proof.
  revert pre fuel prev ptr.
  induction suf as [|y suf IH]; intros pre fuel prev ptr El Hne -> Hl Hfuel;
    (destruct fuel as [|fuel]; [cbn in Hfuel; lia|]); cbn [insert_at].
  - cbn in Hl. subst ptr. rewrite app_nil_r in *. rewrite <- El in *.
    by apply insertByTime_append.
  - destruct Hl as (-> & Hy & m & Em & Hsuf).
    rewrite (runtime_of_data s x n En), (runtime_of_data s y m Em).
    destruct (runtime_gt (runtime n) (runtime m)) eqn:Egt.
    + by eapply insertByTime_before.
    + destruct (IH (pre ++ [y]) fuel y (next m)) as (s' & H); try done.
      * by rewrite <- app_assoc.
      * by destruct pre.
      * by rewrite last_snoc.
      * cbn in Hfuel. lia.
      * exists s'. rewrite <- app_assoc in H. cbn [insertByTime_loop].
        rewrite (Zeqb_f y 0) by done.
        mstep by (by apply rd_node_ok). mstep by (by apply rd_node_ok). by rewrite Egt.
Qed.
End insert.

Lemma insertByTime_spec q s L x n :
  rep s L -> valid_ref q -> loose L x -> nodes s !! x = Some n -> x <> 0 ->
  exists s', insertByTime q x s = Ok (tt, s') /\
    rep s' (upd L (qplace q) (insert_at (data s) x (L (qplace q)))) /\
    data s' = data s /\ same_rest s s'.
Proof.
  intros Hr Hv Hlo En Hx. destruct (rep_queue s L q Hr Hv) as (v & Eq & Erd & [Hl Hlst] & Hlv).
  destruct (L (qplace q)) as [|y l] eqn:El.
  - set (v' := Queue x x (priorityLevel v)). set (s1 := queue_set q v' s).
    destruct (queue_set_fields q v' s) as (En1 & Ej1 & Hs1). fold s1 in En1, Ej1, Hs1.
    exists (set_nodes (<[x := with_next 0 n]>) s1). split_and!.
    + unfold insertByTime. mstep by exact Erd. rewrite (chain_null _ _ _ Hl).
      mstep by apply wr_queue_ok. fold v' s1. apply upd_node_ok; [by rewrite En1|done].
    + assert (forall y m, y <> x -> nodes s !! y = Some m ->
        exists m', nodes (set_nodes (<[x := with_next 0 n]>) s1) !! y = Some m' /\
          next m' = next m) as Hf.
      { intros y m Hne Em. exists m. cbn. by rewrite lookup_insert_ne, En1 by done. }
      eapply (rep_change s _ L q [x] v'); try done.
      * intros q' Hv'. rewrite queue_of_nodes. by eapply queue_of_set.
      * split; [|by right]. eapply linked_single; [apply lookup_insert_eq|done..].
      * by apply NoDup_singleton.
      * intros y ->%list_elem_of_singleton. by right.
      * intros y m _ Hnl. apply Hf. by intros ->.
    + rewrite data_next by (by rewrite En1). apply data_queue_set.
    + by transitivity s1.
  - rewrite <- El in Hl |- *. pose proof (chain_size _ _ _ _ Hl (rep_nodup _ _ Hr _)) as Hsz.
    destruct (insertByTime_loop_spec q s L x n Hr Hv Hlo En Hx (L (qplace q)) []
      (S (size (nodes s))) 0 (head v)) as (s' & Erun & H); try done.
    + by rewrite El.
    + lia.
    + exists s'. split; [|done]. unfold insertByTime. mstep by exact Erd.
      rewrite (chain_null _ _ _ Hl), El. by mstep by done.
Qed.
