(* ===== verification/PageSpec.v ===== *)
(** * The page loops of the allocator

    What [protectAllPages] and [freePages] do to the page tables, the
    protection of the pages and nothing else, and how a call into the allocator
    leaves the scheduler's own state alone. *)

From S2P Require Import Prelude CMem BlockWord Timer MyAlloc Queue Sched.

(** ** Loops *)

(** A loop whose body at [i] takes any state with [I i] to one with
    [I (i + 1)]. *)
Lemma for_loop_inv {St} (I : Z -> St -> Prop) (body : Z -> M St unit) n lo s :
  (forall i s, lo <= i < lo + Z.of_nat n -> I i s ->
     exists s', body i s = Ok (tt, s') /\ I (i + 1) s') ->
  I lo s -> exists s', for_loop n lo body s = Ok (tt, s') /\ I (lo + Z.of_nat n) s'.
Proof.
  revert lo s. induction n as [|n IH]; intros lo s Hb Hi.
  - exists s. split; [done|]. by replace (lo + Z.of_nat 0) with lo by lia.
  - destruct (Hb lo s ltac:(lia) Hi) as (s1 & E1 & H1).
    destruct (IH (lo + 1) s1) as (s2 & E2 & H2); [|done|].
    + intros i t Hr. apply Hb. lia.
    + exists s2. split; [cbn; by mstep by exact E1|].
      by replace (lo + Z.of_nat (S n)) with (lo + 1 + Z.of_nat n) by lia.
Qed.

Section pages.
Context (PAGESIZE : Z).
Notation NPAGES := (NPAGES PAGESIZE).

(** The page table has an entry for every page of user space. *)
Definition table_ok (a : astate) : Prop := Z.of_nat (length (pages a)) = NPAGES.

(** The entry of page [i] belongs to thread [id]. *)
Definition page_of (ps : list Z) (id i : Z) : bool :=
  match aget ps i with Some e => getPageThID e =? wrap 32 id | None => false end.

Lemma get_page_ok a i :
  table_ok a -> 0 <= i < NPAGES ->
  exists e, aget (pages a) i = Some e /\ get_page i a = Ok (e, a).
Proof.
  intros Ht Hi. unfold table_ok in Ht.
  assert (exists e, aget (pages a) i = Some e) as [e E].
  { unfold aget. rewrite (Zltb_f i 0) by lia. apply lookup_lt_is_Some. lia. }
  exists e. split; [done|]. unfold get_page. mstep by done. by rewrite E.
Qed.

(** The accessible pages after [protectAllPages id]. *)
Lemma protectAllPages_spec id a :
  table_ok a -> 0 <= NPAGES ->
  exists p, protectAllPages PAGESIZE id a = Ok (tt, set_prot p a) /\
    forall i, p i = if page_of (pages a) id i then false else prot a i.
Proof.
  intros Ht Hn.
  destruct (for_loop_inv (fun k b => exists p, b = set_prot p a /\
      forall i, p i = if (i <? k) && page_of (pages a) id i then false else prot a i)
    (fun i => e ← get_page i; if getPageThID e =? wrap 32 id then mprotect i false else mret tt)
    (Z.to_nat NPAGES) 0 a) as (s' & E & p & -> & Hp).
  - intros k b Hk (p & -> & Hp).
    destruct (get_page_ok (set_prot p a) k Ht ltac:(lia)) as (e & Ee & Eg).
    change (pages (set_prot p a)) with (pages a) in Ee.
    assert (page_of (pages a) id k = (getPageThID e =? wrap 32 id)) as Hpk
      by (unfold page_of; by rewrite Ee).
    destruct (getPageThID e =? wrap 32 id) eqn:Eo.
    + exists (set_prot (fun x => if x =? k then false else p x) a). split.
      * mstep by exact Eg. by rewrite Eo.
      * eexists. split; [done|]. intros i. cbv beta. destruct (i =? k) eqn:Eik; bprop.
        -- subst. rewrite (Zltb_t k (k + 1)), Hpk by lia. done.
        -- rewrite Hp. destruct (i <? k) eqn:Elt; bprop; btests; done.
    + exists (set_prot p a). split; [mstep by exact Eg; by rewrite Eo|].
      eexists. split; [done|]. intros i. rewrite Hp.
      destruct (decide (i = k)) as [->|Hne].
      * rewrite Hpk. btests. done.
      * destruct (i <? k) eqn:Elt; bprop; btests; done.
  - exists (prot a). split; [by destruct a|]. intros i. unfold page_of, aget.
    destruct (i <? 0) eqn:E0; [done|]. by rewrite andb_false_l.
  - exists p. split; [exact E|]. intros i. rewrite Hp.
    replace (0 + Z.of_nat (Z.to_nat NPAGES)) with NPAGES by lia.
    destruct (i <? NPAGES) eqn:Elt; bprop; [done|]. cbn.
    unfold page_of, aget. rewrite (Zltb_f i 0) by lia.
    rewrite lookup_ge_None_2; [done|]. unfold table_ok in Ht. lia.
Qed.

Lemma aget_lookup l i : 0 <= i -> aget l i = l !! Z.to_nat i.
Proof. intros. unfold aget. by rewrite (Zltb_f i 0). Qed.

Lemma aget_aset l i v l' j :
  aset l i v = Some l' ->
  length l' = length l /\ aget l' j = if j =? i then Some v else aget l j.
Proof.
  unfold aset. destruct (_ && _) eqn:E; [|done]. bprop. intros [= <-].
  rewrite length_insert. split; [done|]. unfold aget.
  destruct (j <? 0) eqn:Ej; bprop; [btests; done|].
  destruct (j =? i) eqn:Eji; bprop.
  - subst. apply list_lookup_insert_eq. lia.
  - apply list_lookup_insert_ne. lia.
Qed.

Lemma put_page_ok a i v :
  table_ok a -> 0 <= i < NPAGES ->
  exists l, put_page i v a = Ok (tt, set_pages l a) /\ length l = length (pages a) /\
    forall j, aget l j = if j =? i then Some v else aget (pages a) j.
Proof.
  intros Ht Hi. unfold table_ok in Ht.
  assert (exists l, aset (pages a) i v = Some l) as [l E].
  { unfold aset. rewrite (Zleb_t 0 i), (Zltb_t i) by lia. cbn. eauto. }
  exists l. split.
  - unfold put_page. mstep by done. rewrite E. done.
  - split; [by apply (aget_aset _ _ _ _ 0 E)|]. intros j. by apply aget_aset.
Qed.

(** [freePages] for the running thread [id]: its pages become accessible and
    free, and keep their identifiers. *)
Definition freed (ps : list Z) (id i : Z) : option Z :=
  if page_of ps id i then (fun e => setPageIsF e 1) <$> aget ps i else aget ps i.

Definition freed_upto (a : astate) (id k : Z) (b : astate) : Prop :=
  exists p ps, b = set_prot p (set_pages ps a) /\ length ps = length (pages a) /\
    (forall i, p i = if (i <? k) && page_of (pages a) id i then true else prot a i) /\
    (forall i, aget ps i = if i <? k then freed (pages a) id i else aget (pages a) i).

Lemma freed_upto_step a id k b :
  table_ok a -> 0 <= k < NPAGES -> freed_upto a id k b ->
  exists b', (e ← get_page k;
      if getPageThID e =? wrap 32 id then
        _ ← mprotect k true;
        e ← get_page k;
        put_page k (setPageIsF e 1)
      else mret tt) b = Ok (tt, b') /\ freed_upto a id (k + 1) b'.
Proof.
  intros Ht Hk (p & ps & -> & Hlen & Hp & Hps).
  set (b := set_prot p (set_pages ps a)).
  assert (table_ok b) as Hb by (unfold table_ok, b; cbn; by rewrite Hlen).
  destruct (get_page_ok b k Hb Hk) as (e & Ee & Eg).
  pose proof (Hps k) as Ek. rewrite (Zltb_f k k) in Ek by lia. cbn in Ee. rewrite Ee in Ek.
  assert (page_of (pages a) id k = (getPageThID e =? wrap 32 id)) as Hpk
    by (unfold page_of; by rewrite <- Ek).
  destruct (getPageThID e =? wrap 32 id) eqn:Eo.
  - set (b1 := set_prot (fun x => if x =? k then true else p x) b).
    destruct (put_page_ok b1 k (setPageIsF e 1) Hb Hk) as (l & El & Hl & Hlj).
    exists (set_pages l b1). split.
    + mstep by exact Eg. rewrite Eo. mstep by done. fold b1.
      unfold get_page at 1. mstep by (mstep by done; cbn; by rewrite Ee). exact El.
    + exists (fun x => if x =? k then true else p x), l. split; [done|]. split; [by rewrite Hl|]. split; intros i.
      * destruct (i =? k) eqn:Eik; bprop.
        -- subst. rewrite (Zltb_t k (k + 1)), Hpk by lia. done.
        -- rewrite Hp. destruct (i <? k) eqn:Elt; bprop; btests; done.
      * rewrite Hlj. destruct (i =? k) eqn:Eik; bprop.
        -- subst. rewrite (Zltb_t k (k + 1)) by lia. unfold freed. rewrite Hpk.
           by rewrite <- Ek.
        -- cbn. rewrite Hps. destruct (i <? k) eqn:Elt; bprop; btests; done.
  - exists b. split; [mstep by exact Eg; by rewrite Eo|].
    exists p, ps. split_and!; [done..| |]; intros i; rewrite ?Hp, ?Hps.
    + destruct (decide (i = k)) as [->|Hne]; [rewrite Hpk; btests; done|].
      destruct (i <? k) eqn:Elt; bprop; btests; done.
    + destruct (decide (i = k)) as [->|Hne].
      * btests. unfold freed. by rewrite Hpk.
      * destruct (i <? k) eqn:Elt; bprop; btests; done.
Qed.

Lemma freePages_spec a id n :
  table_ok a -> 0 <= NPAGES -> thr a = Some (id, n) ->
  exists p ps, freePages PAGESIZE a = Ok (tt, set_prot p (set_pages ps a)) /\
    length ps = length (pages a) /\
    (forall i, p i = if page_of (pages a) id i then true else prot a i) /\
    (forall i, aget ps i = freed (pages a) id i).
Proof.
  intros Ht Hn Eth. unfold freePages. mstep by done. rewrite Eth.
  assert (freed_upto a id 0 a) as H0.
  { exists (prot a), (pages a). split_and!; [by destruct a|done| |].
    - intros i. unfold page_of, aget. by destruct (i <? 0).
    - intros i. by destruct (i <? 0) eqn:E; [unfold freed, page_of, aget; rewrite E|]. }
  destruct (for_loop_inv (freed_upto a id) _ (Z.to_nat NPAGES) 0 a
    (fun k b Hk => freed_upto_step a id k b Ht ltac:(lia)) H0)
    as (s' & E & p & ps & -> & Hlen & Hp & Hps).
  replace (0 + Z.of_nat (Z.to_nat NPAGES)) with NPAGES in Hp, Hps by lia.
  assert (forall i, NPAGES <= i -> aget (pages a) i = None) as Hout.
  { intros i Hi. rewrite aget_lookup by lia. apply lookup_ge_None_2. unfold table_ok in Ht. lia. }
  exists p, ps. split; [exact E|]. split_and!; [done| |]; intros i; rewrite ?Hp, ?Hps;
    destruct (i <? NPAGES) eqn:Elt; bprop; try done.
  - unfold page_of. by rewrite Hout.
  - unfold freed, page_of. by rewrite Hout.
Qed.
End pages.
