(* ===== verification/SchedSpec.v ===== *)
(** * The abstract scheduler

    Its state is a [view]: what the nodes hold, the lists they are in, the
    thread records and the running node.  This file says when a state of the
    code has a view, what a well-formed view is and which operations it has,
    and shows that the list of threads and the loop that wakes joined threads
    do what they should. *)

From Stdlib Require Import Floats.SpecFloat.
From S2P Require Import Prelude Chain CMem BlockWord Timer MyAlloc Queue Sched QueueSpec PageSpec.

(** ** States with the same lists *)

Definition same_lists (s s' : sched) : Prop :=
  nodes s' = nodes s /\ runQ s' = runQ s /\ promotionQ s' = promotionQ s /\
  joinList s' = joinList s.

Lemma rep_same s s' L : same_lists s s' -> rep s L -> rep s' L.
Proof.
  intros (En & Eq & Ep & Ej) [H1 H2 H3 H4].
  assert (forall q, queue_of s' q = queue_of s q) as Hq by (intros []; cbn; congruence).
  split; [|congruence|done|done]. intros q Hv. rewrite Hq, En. auto.
Qed.

Lemma rep_ext s L L' : (forall p, L p = L' p) -> rep s L -> rep s L'.
Proof.
  intros HL [H1 H2 H3 H4]. split.
  - intros q. rewrite <- HL. apply H1.
  - by rewrite <- HL.
  - intros p. rewrite <- HL. apply H3.
  - intros p p' y. rewrite <- !HL. apply H4.
Qed.

Lemma data_same s s' : nodes s' = nodes s -> data s' = data s.
Proof. unfold data. by intros ->. Qed.

(** ** Views *)

(** [v_threads] is the list of the thread records. *)
Record view := View {
  v_data : gmap Z node;
  v_lists : lists;
  v_thrs : gmap Z thread;
  v_threads : list Z;
  v_current : Z
}.

(** The thread records [l], from address [a] on. *)
Notation tlinked T a l := (chain tnext T a l 0).

Record abs (s : sched) (v : view) : Prop := Abs {
  abs_rep : rep s (v_lists v);
  abs_data : data s = v_data v;
  abs_thrs : thrs s = v_thrs v;
  abs_threads : tlinked (v_thrs v) (threads s) (v_threads v) /\ NoDup (v_threads v);
  abs_current : current s = v_current v
}.

(** The identifier of the thread of node [y], as the view knows it. *)
Definition vtid (v : view) (y : Z) : option Z := tid_of (v_data v) (v_thrs v) y.

(** Every node belongs to a thread of its own and has a level; whoever waits
    has a thread to wait for. *)
Record nodes_ok (v : view) : Prop := NodesOk {
  wf_current : v_current v <> 0 /\ is_Some (v_data v !! v_current v);
  wf_tid y n : v_data v !! y = Some n -> exists i, vtid v y = Some i;
  wf_inj y y' i : vtid v y = Some i -> vtid v y' = Some i -> y = y';
  wf_priority y n : v_data v !! y = Some n -> 0 <= priority n < 5;
  wf_join y n : y ∈ v_lists v PJoin -> v_data v !! y = Some n -> status n = JOINING;
  wf_joinee y n : v_data v !! y = Some n -> status n = JOINING ->
    joinee n <> 0 /\ is_Some (v_thrs v !! joinee n)
}.

(** While a thread runs, its node is in no list. *)
Record wf (v : view) : Prop := Wf {
  wf_nodes : nodes_ok v;
  wf_loose : loose (v_lists v) (v_current v)
}.

Coercion wf_nodes : wf >-> nodes_ok.

(** ** The abstract operations *)

Definition v_enQ (i x : Z) (v : view) : view :=
  let q := RunQ i in
  let l := v_lists v (qplace q) in
  View (alter (enq_node q l) x (v_data v)) (upd (v_lists v) (qplace q) (l ++ [x]))
    (v_thrs v) (v_threads v) (v_current v).

Definition v_status (st : STATUS) (x : Z) (v : view) : view :=
  View (alter (with_status st) x (v_data v)) (v_lists v) (v_thrs v) (v_threads v) (v_current v).

Definition v_join (x : Z) (v : view) : view :=
  View (v_data v) (upd (v_lists v) PJoin (x :: v_lists v PJoin)) (v_thrs v) (v_threads v) (v_current v).

(** Node [y] waits for the thread with identifier [id]. *)
Definition waits (D : gmap Z node) (T : gmap Z thread) (id y : Z) : bool :=
  match D !! y with
  | Some n => match T !! joinee n with Some j => tid j =? id | None => false end
  | None => false
  end.

Definition level_is (D : gmap Z node) (i y : Z) : bool :=
  match D !! y with Some n => priority n =? i | None => false end.

(** The lists after the threads that wait for [id] went back to the run queues
    of their levels, in the order of the join list. *)
Definition woken (D : gmap Z node) (T : gmap Z thread) (id : Z) (L : lists) : lists :=
  fun p =>
    match p with
    | PJoin => List.filter (fun y => negb (waits D T id y)) (L PJoin)
    | PRun i => L p ++ List.filter (fun y => waits D T id y && level_is D (Z.of_nat i) y) (L PJoin)
    | PProm _ => L p
    end.

Definition v_wake (id : Z) (v : view) : view :=
  View (v_data v) (woken (v_data v) (v_thrs v) id (v_lists v)) (v_thrs v) (v_threads v) (v_current v).

(** The first record with identifier [id]. *)
Definition has_id (T : gmap Z thread) (id x : Z) : bool :=
  match T !! x with Some t => tid t =? id | None => false end.
Definition v_find (id : Z) (v : view) : option Z :=
  List.find (has_id (v_thrs v) id) (v_threads v).

Definition v_dead (id : Z) (v : view) : view :=
  match v_find id v with
  | Some x => View (v_data v) (v_lists v) (alter with_dead x (v_thrs v)) (v_threads v) (v_current v)
  | None => v
  end.

(** ** The list of threads *)

Lemma tlinked_alter T a l f x :
  (forall t, tnext (f t) = tnext t) -> tlinked T a l -> tlinked (alter f x T) a l.
Proof.
  intros Hf. apply chain_frame. intros y t _ Et. destruct (decide (y = x)) as [->|Hne].
  - exists (f t). by rewrite lookup_alter_eq, Et.
  - exists t. by rewrite lookup_alter_ne.
Qed.

Lemma find_thread_spec id s l fuel ptr :
  tlinked (thrs s) ptr l -> (length l < fuel)%nat ->
  find_thread fuel id ptr s = Ok (default 0 (List.find (has_id (thrs s) id) l), s).
Proof.
  revert fuel ptr. induction l as [|x l IH]; intros fuel ptr Hl Hfuel;
    (destruct fuel as [|fuel]; [cbn in Hfuel; lia|]); cbn [find_thread List.find].
  - cbn in Hl. by subst.
  - destruct Hl as (-> & Hx & t & Et & Hl). rewrite (Zeqb_f x 0) by done.
    assert (rd_thr x s = Ok (t, s)) as Er
      by (unfold rd_thr, cell; by rewrite (Zeqb_f x 0), Et by done).
    mstep by exact Er. unfold has_id at 1. rewrite Et.
    destruct (tid t =? id); [done|]. apply IH; [done|]. cbn in Hfuel. lia.
Qed.

Lemma search_threads_spec id s v :
  abs s v -> search_threads id s = Ok (default 0 (v_find id v), s).
Proof.
  intros [_ _ HT [Hl Hnd] _]. unfold search_threads. mstep by done. mstep by done.
  unfold v_find. rewrite <- HT in Hl |- *. apply find_thread_spec; [done|].
  pose proof (chain_size _ _ _ _ Hl Hnd). lia.
Qed.

Lemma find_nonzero T a l f x :
  tlinked T a l -> List.find f l = Some x -> x <> 0 /\ is_Some (T !! x).
Proof.
  revert a. induction l as [|y l IH]; intros a Hl E; [done|].
  destruct Hl as (-> & Hy & t & Et & Hl). cbn in E. destruct (f y); [|eauto].
  injection E as <-. eauto.
Qed.

Lemma threadDied_spec s v x t :
  abs s v -> rd_thr x s = Ok (t, s) ->
  exists s', threadDied x s = Ok (tt, s') /\ abs s' (v_dead (tid t) v) /\
    same_lists s s' /\ started s' = started s /\ cycles s' = cycles s /\ al s' = al s.
Proof.
  intros Ha Ex. unfold threadDied. pose proof (search_threads_spec (tid t) s v Ha) as Es.
  destruct Ha as [Hr HD HT [Hl Hnd] Hc]. unfold v_dead.
  destruct (v_find (tid t) v) as [y|] eqn:Ef; cbn in Es.
  - destruct (find_nonzero _ _ _ _ _ Hl Ef) as (Hy & ty & Ety).
    exists (set_thrs (<[y := with_dead ty]>) s). split.
    + mstep by exact Ex. mstep by exact Es. rewrite (Zeqb_f y 0) by done.
      unfold upd_thr, rd_thr, cell. erewrite bind_ok_l; [done|].
      by rewrite (Zeqb_f y 0), HT, Ety by done.
    + split; [|done].
      assert (thrs (set_thrs (<[y := with_dead ty]>) s) = alter with_dead y (v_thrs v)) as HT'.
      { cbn. rewrite HT. apply map_eq. intros j. destruct (decide (j = y)) as [->|Hne].
        - by rewrite lookup_insert_eq, lookup_alter_eq, Ety.
        - by rewrite lookup_insert_ne, lookup_alter_ne. }
      split; try done; [by apply (rep_same s)|]. cbn [v_thrs v_threads]. split; [|done].
      by apply tlinked_alter.
  - exists s. split; [|done]. mstep by exact Ex. by mstep by exact Es.
Qed.

(** ** [wake_loop] *)

Section wake.
Context (D : gmap Z node) (T : gmap Z thread) (id : Z).

Definition waiting (l : list Z) : nat := length (List.filter (waits D T id) l).

(** The nodes of the join list, as [wf] has them. *)
Definition join_ok (l : list Z) : Prop :=
  (forall y, y ∈ l -> exists n j i, D !! y = Some n /\ joinee n <> 0 /\ T !! joinee n = Some j /\
     0 <= priority n < 5 /\ tid_of D T y = Some i) /\
  (forall y y' i, y ∈ l -> y' ∈ l -> tid_of D T y = Some i -> tid_of D T y' = Some i -> y = y').

Lemma join_ok_remove pre y post : join_ok (pre ++ y :: post) -> join_ok (pre ++ post).
Proof.
  intros [H1 H2]. split.
  - intros z Hz. apply H1. set_solver.
  - intros z z' i Hz Hz'. apply H2; set_solver.
Qed.

Lemma filter_none {A} (f : A -> bool) l :
  (forall y, y ∈ l -> f y = false) -> List.filter f l = [].
Proof.
  induction l as [|y l IH]; intros H; [done|]. cbn. rewrite H by set_solver.
  apply IH. set_solver.
Qed.

(** One wakened thread less. *)
Lemma woken_step L pre y post i n :
  L PJoin = pre ++ y :: post -> waits D T id y = true -> D !! y = Some n -> priority n = i ->
  0 <= i -> (forall z, z ∈ pre -> waits D T id z = false) ->
  forall p, woken D T id (upd (upd L PJoin (pre ++ post)) (qplace (RunQ i))
      (L (qplace (RunQ i)) ++ [y])) p = woken D T id L p.
Proof.
  intros El Hy En Hp Hi Hpre p. unfold upd, woken. cbn [qplace].
  rewrite (decide_False (P := PJoin = PRun (Z.to_nat i))) by done.
  rewrite (decide_True (P := PJoin = PJoin)) by done. rewrite El.
  destruct p as [k|k|].
  - rewrite !List.filter_app. cbn [List.filter]. rewrite Hy.
    assert (forall k, level_is D k y = (priority n =? k)) as Hlv
      by (intros; unfold level_is; by rewrite En). rewrite Hlv.
    rewrite (filter_none _ pre) by (intros z Hz; by rewrite Hpre).
    destruct (decide (PRun k = PRun (Z.to_nat i))) as [[= ->]|Hne].
    + rewrite Z2Nat.id, Hp, Z.eqb_refl by done. cbn. by rewrite <- app_assoc.
    + rewrite decide_False by done. rewrite (Zeqb_f (priority n)); [done|].
      intros E. apply Hne. f_equal. lia.
  - by rewrite !decide_False.
  - rewrite !List.filter_app. cbn [List.filter]. by rewrite Hy.
Qed.

Lemma alter_id_at {A} (f : A -> A) (m : gmap Z A) k :
  (forall x, m !! k = Some x -> f x = x) -> alter f k m = m.
Proof.
  intros H. apply map_eq. intros j. destruct (decide (j = k)) as [->|Hne].
  - rewrite lookup_alter_eq. destruct (m !! k) eqn:E; [|done]. cbn. by rewrite H.
  - by rewrite lookup_alter_ne.
Qed.

(** [enQ] at the node's own level changes nothing in it. *)
Lemma enq_node_same q l n : priority n = qlevel q -> enq_node q l n = n.
Proof. intros E. unfold enq_node. destruct (_ && _); [done|]. destruct n; cbn in *. by subst. Qed.

(** A round that wakes the node at [y]. *)
Lemma wake_one s L pre y post n :
  rep s L -> data s = D -> thrs s = T -> L PJoin = pre ++ y :: post -> join_ok (L PJoin) ->
  nodes s !! y = Some n ->
  exists s1 s2, removeFromList (threadID n) s = Ok (y, s1) /\
    nodes s1 !! y <> None /\ data s1 = D /\ (y <> 0) /\
    (r ← rd_node y; enQ (RunQ (priority r)) y) s1 = Ok (tt, s2) /\
    rep s2 (upd (upd L PJoin (pre ++ post)) (qplace (RunQ (priority n)))
      (L (qplace (RunQ (priority n))) ++ [y])) /\ data s2 = D /\ same_rest s s2.
Proof.
  intros Hr HD HT El [H1 H2] En.
  pose proof (rep_join _ _ Hr) as Hl. pose proof (chain_size _ _ _ _ Hl (rep_nodup _ _ Hr _)) as Hsz.
  pose proof (rep_nodup _ _ Hr PJoin) as Hnd. rewrite El in Hl, Hsz, Hnd.
  assert (y ∈ L PJoin) as Hyin by (rewrite El; set_solver).
  assert (D !! y = Some (with_next 0 n)) as ED by (rewrite <- HD; unfold data; by rewrite lookup_fmap, En).
  destruct (H1 y Hyin) as (n' & j & i & ED' & _ & _ & Hp & Ei).
  replace n' with (with_next 0 n) in * by congruence. cbn [priority with_next] in Hp.
  assert (y <> 0) as Hy0 by (by destruct (chain_lookup _ _ _ _ y Hl ltac:(set_solver))).
  assert (exists t, rd_thr (threadID n) s = Ok (t, s) /\ tid t = i) as (t & Et & Hti).
  { unfold tid_of in Ei. rewrite ED in Ei. cbn in Ei.
    destruct (threadID n =? 0) eqn:E0; [done|]. apply fmap_Some in Ei as (t & Et & ->).
    exists t. unfold rd_thr, cell. by rewrite E0, HT, Et. }
  destruct (removeFromList_loop_spec i s L y post i pre [] (S (size (nodes s))) 0 (joinList s))
    as (s1 & E1 & Hr1 & Hd1 & Hs1); try done.
  - by rewrite HD, HT.
  - intros z Hz. destruct (H1 z) as (nz & jz & iz & _ & _ & _ & _ & Eiz); [rewrite El; set_solver|].
    exists iz. rewrite HD, HT. split; [done|]. intros ->.
    assert (z = y) as -> by (eapply H2; [rewrite El; set_solver|done|done|done]).
    apply NoDup_app in Hnd as (_ & Hnd & _). apply (Hnd y Hz). set_solver.
  - rewrite length_app in Hsz. lia.
  - assert (exists n1, nodes s1 !! y = Some n1 /\ with_next 0 n1 = with_next 0 n) as (n1 & En1 & Hn1).
    { rewrite <- HD, <- Hd1 in ED. apply data_lookup in ED as (n1 & ? & ?). eauto. }
    assert (priority n1 = priority n) as Hp1 by (by injection Hn1).
    cbn [app] in Hr1. pose (L1 := upd L PJoin (pre ++ post)).
    assert (loose L1 y) as Hlo.
    { intros p. unfold L1. rewrite elem_upd. intros [[-> Hin]|[Hne Hin]].
      - apply NoDup_app in Hnd as (_ & Hnd & Hnq). apply NoDup_cons in Hnq as [Hnq _].
        apply elem_of_app in Hin as [Hin|Hin]; [|done]. apply (Hnd y Hin). set_solver.
      - apply Hne. by apply (rep_disj _ _ Hr p PJoin y). }
    destruct (enQ_spec s1 L1 (RunQ (priority n)) y n1 Hr1 Hp Hlo En1 Hy0) as (s2 & E2 & Hr2 & Hd2 & Hs2).
    exists s1, s2. split_and!; try done.
    + unfold removeFromList. mstep by exact Et. mstep by done. mstep by done. rewrite Hti. exact E1.
    + by rewrite En1.
    + by rewrite Hd1.
    + mstep by (by apply rd_node_ok). by rewrite Hp1.
    + rewrite Hd2, Hd1, HD. apply alter_id_at. intros d E. rewrite ED in E. injection E as <-.
      by apply enq_node_same.
    + by etransitivity.
Qed.

Lemma joinee_waits s L y n :
  data s = D -> thrs s = T -> join_ok (L PJoin) -> y ∈ L PJoin -> nodes s !! y = Some n ->
  exists j, rd_thr (joinee n) s = Ok (j, s) /\ waits D T id y = (tid j =? id).
Proof.
  intros HD HT [H1 _] Hy En.
  assert (D !! y = Some (with_next 0 n)) as ED by (rewrite <- HD; unfold data; by rewrite lookup_fmap, En).
  destruct (H1 y Hy) as (n' & j & i & ED' & Hj & Ej & _).
  replace n' with (with_next 0 n) in * by congruence. cbn in Hj, Ej.
  exists j. split; [unfold rd_thr, cell; by rewrite (Zeqb_f (joinee n) 0), HT, Ej|].
  unfold waits. rewrite ED. cbn. by rewrite Ej.
Qed.

Lemma wake_loop_spec fuel s L pre suf ptr :
  rep s L -> data s = D -> thrs s = T -> L PJoin = pre ++ suf -> join_ok (L PJoin) ->
  (forall z, z ∈ pre -> waits D T id z = false) ->
  linked_to (nodes s) ptr suf 0 ->
  (length suf + waiting suf * S (length (L PJoin)) < fuel)%nat ->
  exists s', wake_loop fuel id ptr s = Ok (tt, s') /\ rep s' (woken D T id L) /\
    data s' = D /\ same_rest s s'.
Proof.
  revert s L pre suf ptr.
  induction fuel as [|fuel IH]; intros s L pre suf ptr Hr HD HT El Hok Hpre Hl Hfuel; [lia|].
  destruct suf as [|y suf]; cbn [wake_loop].
  - cbn in Hl. subst ptr. cbn [Z.eqb]. exists s. split_and!; [done| |done|done].
    eapply rep_ext; [|exact Hr]. rewrite app_nil_r in El. intros [k|k|]; cbn.
    + rewrite El, filter_none; [by rewrite app_nil_r|]. intros z Hz. by rewrite Hpre.
    + done.
    + symmetry. rewrite El, (List.filter_ext_in _ (fun _ => true)), List.filter_true; [done|].
      intros z Hz%list_elem_of_In. by rewrite Hpre.
  - destruct Hl as (-> & Hy & n & En & Hl). rewrite (Zeqb_f y 0) by done.
    assert (y ∈ L PJoin) as Hyin by (rewrite El; set_solver).
    destruct (joinee_waits s L y n HD HT Hok Hyin En) as (j & Ej & Ew).
    assert (D !! y = Some (with_next 0 n)) as ED
      by (rewrite <- HD; unfold data; by rewrite lookup_fmap, En).
    mstep by (by apply rd_node_ok). mstep by exact Ej.
    unfold waiting in Hfuel. cbn [List.filter] in Hfuel. rewrite Ew in Hfuel.
    destruct (tid j =? id) eqn:Eid; rewrite ?Eid in Ew, Hfuel.
    + destruct (wake_one s L pre y suf n Hr HD HT El Hok En)
        as (s1 & s2 & E1 & _ & _ & _ & E2 & Hr2 & HD2 & Hs2).
      set (L2 := upd _ _ _) in Hr2.
      assert (L2 PJoin = pre ++ suf) as EL2
        by (unfold L2; rewrite upd_other by done; apply upd_same).
      destruct (IH s2 L2 [] (pre ++ suf) (joinList s2)) as (s' & E' & Hr' & HD' & Hs').
      * done.
      * done.
      * destruct Hs2 as (_ & Et & _). by rewrite Et.
      * done.
      * rewrite EL2. rewrite El in Hok. by eapply join_ok_remove.
      * set_solver.
      * rewrite <- EL2. apply Hr2.
      * rewrite EL2. unfold waiting. rewrite List.filter_app, (filter_none _ pre) by done.
        rewrite El in Hfuel. rewrite !length_app in *. cbn [length app] in *. lia.
      * exists s'. split_and!; [| |done|by etransitivity].
        -- mstep by exact E1. apply bind_ok_inv in E2 as (r & s1' & Er & E2).
           rewrite (bind_ok_l _ _ _ _ _ Er). cbv beta. mstep by exact E2.
           mstep by done. exact E'.
        -- eapply rep_ext; [|exact Hr']. apply (woken_step L pre y suf _ _ El Ew ED); [done| |done].
           cbn. destruct Hok as [H1 _]. destruct (H1 y Hyin) as (n' & ? & ? & ED' & _ & _ & Hp & _).
           replace n' with (with_next 0 n) in Hp by congruence. cbn in Hp. lia.
    + destruct (IH s L (pre ++ [y]) suf (next n)) as (s' & H); try done.
      * by rewrite <- app_assoc.
      * intros z [Hz| ->%list_elem_of_singleton]%elem_of_app; [by apply Hpre|done].
      * cbn [length] in Hfuel. unfold waiting. lia.
      * by exists s'.
Qed.
End wake.
