(* ===== verification/SchedStep.v ===== *)
(** * One call of [schedule]

    [v_schedule] says where the running thread goes, who runs next, and which
    two contexts are exchanged; [schedule] does just that, and makes the pages
    of the thread that stops inaccessible. *)

From Stdlib Require Import Floats.SpecFloat.
From S2P Require Import Prelude Chain CMem BlockWord Timer MyAlloc Queue Sched QueueSpec PageSpec SchedSpec.

(** ** The abstract call *)

(** The level a preempted thread goes to. *)
Definition demoted (p : Z) : Z := if p <? RUN_QUEUE_SIZE - 1 then p + 1 else p.

Definition v_requeue (v : view) : view :=
  let c := v_current v in
  match v_data v !! c, vtid v c with
  | Some n, Some id =>
      match status n with
      | NEUTRAL => v_enQ (demoted (priority n)) c v
      | YIELDING => v_status NEUTRAL c (v_enQ (priority n) c v)
      | JOINING => v_join c v
      | EXITING => v_wake id (v_dead id v)
      end
  | _, _ => v
  end.

(** The first thread of the first run queue that is not empty runs next; the
    contexts are exchanged unless it is the thread that ran. *)
Definition v_dispatch (v : view) : view * option (Z * Z) :=
  match next_run 5 0 (v_lists v) with
  | None => (v, None)
  | Some (j, x, l) =>
      (View (v_data v) (upd (v_lists v) (PRun (Z.to_nat j)) l) (v_thrs v) (v_threads v) x,
       if bool_decide (vtid v x = vtid v (v_current v)) then None else Some (v_current v, x))
  end.

Definition v_schedule (v : view) : view * option (Z * Z) := v_dispatch (v_requeue v).

(** ** A thread dies *)

Lemma v_dead_data id v : v_data (v_dead id v) = v_data v.
Proof. unfold v_dead. by destruct (v_find id v). Qed.
Lemma v_dead_lists id v : v_lists (v_dead id v) = v_lists v.
Proof. unfold v_dead. by destruct (v_find id v). Qed.
Lemma v_dead_current id v : v_current (v_dead id v) = v_current v.
Proof. unfold v_dead. by destruct (v_find id v). Qed.

Lemma v_dead_thrs id v x :
  (tid <$> v_thrs (v_dead id v) !! x) = (tid <$> v_thrs v !! x).
Proof.
  unfold v_dead. destruct (v_find id v) as [y|]; [|done]. cbn.
  destruct (decide (x = y)) as [->|Hne]; [|by rewrite lookup_alter_ne].
  rewrite lookup_alter_eq. by destruct (v_thrs v !! y).
Qed.

Lemma vtid_dead id v y : vtid (v_dead id v) y = vtid v y.
Proof.
  unfold vtid, tid_of. rewrite v_dead_data. destruct (v_data v !! y) as [d|]; [|done].
  cbn. by rewrite v_dead_thrs.
Qed.

Lemma nodes_ok_dead id v : nodes_ok v -> nodes_ok (v_dead id v).
Proof.
  intros [H2 H3 H4 H5 H6 H7]. split.
  - by rewrite v_dead_data, v_dead_current.
  - intros y n. rewrite v_dead_data, vtid_dead. apply H3.
  - intros y y' i. rewrite !vtid_dead. apply H4.
  - intros y n. rewrite v_dead_data. apply H5.
  - intros y n. rewrite v_dead_data, v_dead_lists. apply H6.
  - intros y n. rewrite v_dead_data. intros En Es.
    destruct (H7 y n En Es) as [Hj [t Et]]. split; [done|].
    apply fmap_is_Some with (f := tid). rewrite v_dead_thrs, Et. eauto.
Qed.

(** Every thread that waits for [id] is woken. *)
Lemma wake_loop_fuel id s v fuel :
  abs s v -> nodes_ok v -> (S (size (nodes s)) * S (size (nodes s)) <= fuel)%nat ->
  exists s', wake_loop fuel id (joinList s) s = Ok (tt, s') /\
    abs s' (v_wake id v) /\ same_rest s s'.
Proof.
  intros [Hr HD HT Hl Hc] Hwf Hfuel. pose proof (rep_join _ _ Hr) as Hj.
  pose proof (chain_size _ _ _ _ Hj (rep_nodup _ _ Hr _)) as Hsz.
  assert (waiting (v_data v) (v_thrs v) id (v_lists v PJoin) <= length (v_lists v PJoin))%nat as Hw
    by apply List.filter_length_le.
  assert (join_ok (v_data v) (v_thrs v) (v_lists v PJoin)) as Hok.
  { split; [|intros y y' i _ _; apply (wf_inj _ Hwf)]. intros y Hy.
    destruct (chain_lookup _ _ _ _ y Hj Hy) as (_ & n & En).
    assert (v_data v !! y = Some (with_next 0 n)) as ED
      by (rewrite <- HD; unfold data; by rewrite lookup_fmap, En).
    destruct (wf_joinee _ Hwf y _ ED (wf_join _ Hwf y _ Hy ED)) as (Hj0 & t & Et).
    destruct (wf_tid _ Hwf y _ ED) as (i & Ei).
    exists (with_next 0 n), t, i. split_and!; try done; by apply (wf_priority _ Hwf y). }
  destruct (wake_loop_spec (v_data v) (v_thrs v) id
    fuel s (v_lists v) [] (v_lists v PJoin) (joinList s))
    as (s' & E & Hr' & HD' & Hs'); try done.
  - set_solver.
  - nia.
  - exists s'. split; [done|]. split; [|done]. destruct Hs' as (_ & Et & Ec & Eth & _).
    split; [done|done|by rewrite Et|by rewrite Eth|by rewrite Ec].
Qed.

Lemma wake_loop_all id s v :
  abs s v -> nodes_ok v ->
  exists s', wake_loop (S (size (nodes s)) * S (size (nodes s))) id (joinList s) s = Ok (tt, s') /\
    abs s' (v_wake id v) /\ same_rest s s'.
Proof. intros Ha Hok. by apply wake_loop_fuel. Qed.

Section schedule.
Context (PAGESIZE : Z) (stack : itimerval) (sizeof_ucontext : Z).
Notation NPAGES := (NPAGES PAGESIZE).
Notation table_ok := (table_ok PAGESIZE).

(** ** The state around the lists *)

(** The library has started and the page table is complete. *)
Record ready (s : sched) : Prop := Ready {
  ready_started : started s = true;
  ready_table : table_ok (al s);
  ready_pages : 0 <= NPAGES
}.

Lemma ready_same s s' : started s' = started s -> al s' = al s -> ready s -> ready s'.
Proof. intros E1 E2 [H1 H2 H3]. split; [congruence| |done]. by rewrite E2. Qed.

Lemma abs_set_al s v a : abs s v -> abs (set_al a s) v.
Proof. intros [H1 H2 H3 H4 H5]. split; try done. by apply (rep_same s). Qed.

Lemma vtid_some s v y i n :
  abs s v -> vtid v y = Some i -> nodes s !! y = Some n ->
  exists t, thrs s !! threadID n = Some t /\ threadID n <> 0 /\ tid t = i.
Proof.
  intros [_ HD HT _ _] Hi En. unfold vtid, tid_of in Hi. rewrite <- HD, <- HT in Hi.
  unfold data in Hi. rewrite lookup_fmap, En in Hi. cbn in Hi.
  destruct (threadID n =? 0) eqn:E0; [done|]. bprop.
  apply fmap_Some in Hi as (t & Et & ->). eauto.
Qed.

(** A node of the view is a node of the state. *)
Lemma abs_node s v y d :
  abs s v -> v_data v !! y = Some d -> exists n, nodes s !! y = Some n /\ d = with_next 0 n.
Proof. intros [_ HD _ _ _]. rewrite <- HD. apply data_lookup. Qed.

(** A call into the allocator that keeps the running thread's record. *)
Lemma alloc_call_keep {A} (m : M astate A) s n t r a :
  started s = true -> nodes s !! current s = Some n -> thrs s !! threadID n = Some t ->
  m (set_thr (Some (tid t, pageNum t)) (al s)) = Ok (r, a) ->
  thr a = Some (tid t, pageNum t) ->
  alloc_call m s = Ok (r, set_al a s).
Proof.
  intros Es En Et Em Ea. unfold alloc_call, running. rewrite Es, En, Et, Em. f_equal. f_equal.
  rewrite Ea. unfold store_pageNum. cbn. rewrite En. unfold set_thrs. cbn.
  rewrite alter_id_at; [done|]. intros t' Et'. rewrite Et in Et'. injection Et' as <-. by destruct t.
Qed.

Lemma on_timer_ok f s : on_timer f s = Ok (tt, set_al (set_tim (f (tim (al s))) (al s)) s).
Proof. done. Qed.

(** The view after operations on the lists and the nodes. *)
Lemma abs_lists s s' v D L :
  abs s v -> rep s' L -> data s' = D -> same_rest s s' ->
  abs s' (View D L (v_thrs v) (v_threads v) (v_current v)).
Proof.
  intros [Hr HD HT Hl Hc] Hr' HD' (_ & Et & Ec & Eth & _). split; try done.
  - by rewrite Et.
  - cbn. by rewrite Eth.
  - by rewrite Ec.
Qed.

(** ** [requeue] *)

Section requeue.
Context (s : sched) (v : view) (n : node).
Hypothesis (Ha : abs s v) (Hwf : wf v) (En : nodes s !! v_current v = Some n).

Lemma read_current {A} (f : Z -> node -> M sched A) :
  (c ← gets current; n ← rd_node c; f c n) s = f (v_current v) n s.
Proof.
  mstep by done. rewrite (abs_current _ _ Ha).
  by mstep by (apply rd_node_ok; [exact En|apply Hwf]).
Qed.

Lemma current_data : v_data v !! v_current v = Some (with_next 0 n).
Proof. rewrite <- (abs_data _ _ Ha). unfold data. by rewrite lookup_fmap, En. Qed.

(** [enQ] of the running node. *)
Lemma enQ_current i :
  0 <= i < 5 ->
  exists s', enQ (RunQ i) (v_current v) s = Ok (tt, s') /\
    abs s' (v_enQ i (v_current v) v) /\ same_rest s s'.
Proof.
  intros Hi.
  destruct (enQ_spec s (v_lists v) (RunQ i) (v_current v) n (abs_rep _ _ Ha) Hi
    (wf_loose _ Hwf) En (proj1 (wf_current _ Hwf))) as (s' & E & Hr' & HD' & Hs).
  exists s'. split; [done|]. split; [|done]. eapply abs_lists; [exact Ha|exact Hr'| |exact Hs].
  by rewrite HD', (abs_data _ _ Ha).
Qed.

Lemma requeue_neutral :
  status n = NEUTRAL ->
  exists s', requeue PAGESIZE s = Ok (tt, s') /\
    abs s' (v_enQ (demoted (priority n)) (v_current v) v) /\ same_rest s s'.
Proof.
  intros Est. pose proof (wf_priority _ Hwf _ _ current_data) as Hp. cbn in Hp.
  destruct (enQ_current (demoted (priority n))) as (s' & E & H).
  { unfold demoted, RUN_QUEUE_SIZE. bcase; lia. }
  exists s'. split; [|done]. unfold requeue. rewrite read_current, Est.
  unfold demoteNode. mstep by (apply rd_node_ok; [done|apply Hwf]). exact E.
Qed.

Lemma requeue_joining :
  status n = JOINING ->
  exists s', requeue PAGESIZE s = Ok (tt, s') /\ abs s' (v_join (v_current v) v) /\ same_rest s s'.
Proof.
  intros Est.
  destruct (insertToList_spec s (v_lists v) (v_current v) n (abs_rep _ _ Ha) (wf_loose _ Hwf) En
    (proj1 (wf_current _ Hwf))) as (s' & E & Hr' & HD' & Hs).
  exists s'. split; [unfold requeue; rewrite read_current, Est; exact E|].
  split; [|done]. eapply abs_lists; [exact Ha|exact Hr'| |exact Hs]. by rewrite HD', (abs_data _ _ Ha).
Qed.

Lemma requeue_yielding :
  status n = YIELDING ->
  exists s', requeue PAGESIZE s = Ok (tt, s') /\
    abs s' (v_status NEUTRAL (v_current v) (v_enQ (priority n) (v_current v) v)) /\ same_rest s s'.
Proof.
  intros Est. pose proof (wf_priority _ Hwf _ _ current_data) as Hp. cbn in Hp.
  destruct (enQ_current (priority n) Hp) as (s1 & E & Ha1 & Hs1).
  destruct (abs_node s1 _ (v_current v) (enq_node (RunQ (priority n))
    (v_lists v (qplace (RunQ (priority n)))) (with_next 0 n)) Ha1) as (n1 & En1 & _).
  { cbn [v_data v_enQ]. by rewrite lookup_alter_eq, current_data. }
  exists (set_nodes (<[v_current v := with_status NEUTRAL n1]>) s1). split_and!.
  - unfold requeue. rewrite read_current, Est. mstep by exact E.
    apply upd_node_ok; [done|apply Hwf].
  - destruct Ha1 as [Hr1 HD1 HT1 Hl1 Hc1]. split; try done.
    + by apply (rep_upd s1 _ _ n1).
    + rewrite (data_upd s1 _ n1) by done. rewrite HD1. cbn [v_status v_data].
      apply map_eq. intros y. destruct (decide (y = v_current v)) as [->|Hne].
      * rewrite !lookup_alter_eq. by rewrite <- HD1; unfold data; rewrite lookup_fmap, En1.
      * by rewrite !lookup_alter_ne.
  - done.
Qed.

(** The thread is dead, the threads that wait for it run again, its pages are
    free. *)
Lemma requeue_exiting i :
  status n = EXITING -> vtid v (v_current v) = Some i -> ready s ->
  exists s', requeue PAGESIZE s = Ok (tt, s') /\ abs s' (v_wake i (v_dead i v)) /\
    ready s' /\ cycles s' = cycles s /\
    (exists p ps, al s' = set_prot p (set_pages ps (set_thr (thr (al s')) (al s))) /\
       forall k, aget ps k = freed (pages (al s)) i k).
Proof.
  intros Est Ei Hrdy.
  destruct (vtid_some s v _ i n Ha Ei En) as (t & Et & Hth & Hti).
  assert (rd_thr (threadID n) s = Ok (t, s)) as Ert
    by (unfold rd_thr, cell; by rewrite (Zeqb_f (threadID n) 0), Et by done).
  destruct (threadDied_spec s v _ t Ha Ert) as (s1 & E1 & Ha1 & Hsl & Est1 & Ecy1 & Eal1).
  rewrite Hti in Ha1. pose proof (nodes_ok_dead i v Hwf) as Hwf1.
  assert (nodes s1 !! v_current v = Some n) as En1 by (destruct Hsl as [-> _]; done).
  assert (vtid (v_dead i v) (v_current v) = Some i) as Ei1 by (by rewrite vtid_dead).
  destruct (vtid_some s1 _ _ i n Ha1 Ei1 En1) as (t1 & Et1 & _ & Hti1).
  destruct (wake_loop_all i s1 _ Ha1 Hwf1) as (s2 & E2 & Ha2 & Hs2).
  pose proof Hs2 as (Est2 & HT2 & Hc2 & _ & _ & Ecy2 & Eal2).
  destruct (abs_node s2 _ (v_current v) (with_next 0 n) Ha2) as (n2 & En2 & Hn2).
  { cbn [v_wake v_data]. rewrite v_dead_data. apply current_data. }
  assert (threadID n2 = threadID n) as Hth2 by (by injection Hn2).
  assert (current s2 = v_current v) as Ec2.
  { rewrite Hc2, (abs_current _ _ Ha1). apply v_dead_current. }
  destruct Hrdy as [Hst Htab Hpg].
  set (a2 := set_thr (Some (tid t1, pageNum t1)) (al s2)).
  assert (pages a2 = pages (al s)) as Epg by (cbn; by rewrite Eal2, Eal1).
  destruct (freePages_spec PAGESIZE a2 i (pageNum t1)) as (p & ps & Ef & Hlen & _ & Hps).
  { unfold PageSpec.table_ok. by rewrite Epg. }
  { done. }
  { cbn. by rewrite Hti1. }
  exists (set_al (set_prot p (set_pages ps a2)) s2). split_and!.
  - unfold requeue. rewrite read_current, Est. mstep by exact E1.
    mstep by (unfold rd_thr, cell; rewrite (Zeqb_f (threadID n) 0), Et1 by done; done).
    rewrite Hti1. unfold wake_bound. mstep by done. mstep by done. mstep by exact E2.
    apply (alloc_call_keep _ s2 n2 t1); [congruence|by rewrite Ec2| |exact Ef|done].
    by rewrite HT2, Hth2.
  - apply abs_set_al, Ha2.
  - split; [cbn; congruence| |done]. unfold PageSpec.table_ok in *. cbn in *. congruence.
  - cbn. congruence.
  - exists p, ps. split; [cbn; unfold a2; by rewrite Eal2, Eal1|]. intros k. by rewrite Hps, Epg.
Qed.
End requeue.
End schedule.
