(* ===== verification/ScheduleSpec.v ===== *)
(** * [schedule] implements its specification

    The abstract call keeps every thread, [schedule] implements it, and the
    timer and the pages are set for the thread that runs next. *)

From Stdlib Require Import Floats.SpecFloat.
From S2P Require Import Prelude Chain CMem BlockWord Timer MyAlloc Queue Sched QueueSpec PageSpec SchedSpec SchedStep.

(** ** The abstract call and well-formedness *)

(** A change of one node that keeps its thread and a level.  Its state may
    change when nobody finds it in the join list. *)
Lemma nodes_ok_alter f x v :
  (forall n, threadID (f n) = threadID n) ->
  (forall n, v_data v !! x = Some n -> 0 <= priority (f n) < 5) ->
  (forall n, v_data v !! x = Some n ->
     (status (f n) = status n /\ joinee (f n) = joinee n) \/
     (x ∉ v_lists v PJoin /\
      (status (f n) = JOINING -> joinee (f n) <> 0 /\ is_Some (v_thrs v !! joinee (f n))))) ->
  nodes_ok v ->
  nodes_ok (View (alter f x (v_data v)) (v_lists v) (v_thrs v) (v_threads v) (v_current v)).
Proof.
  intros Hf Hp Hs [H2 H3 H4 H5 H6 H7].
  set (w := View _ _ _ _ _).
  assert (forall y, vtid w y = vtid v y) as Ht.
  { intros y. unfold vtid, tid_of, w. cbn [v_data v_thrs].
    destruct (decide (y = x)) as [->|Hne]; [|by rewrite lookup_alter_ne].
    rewrite lookup_alter_eq. destruct (v_data v !! x) as [n|]; [|done]. cbn. by rewrite Hf. }
  assert (forall y n, v_data w !! y = Some n -> exists m, v_data v !! y = Some m /\
    (n = m \/ (y = x /\ n = f m))) as Hd.
  { intros y n. unfold w. cbn [v_data]. destruct (decide (y = x)) as [->|Hne].
    - rewrite lookup_alter_eq. intros (m & ? & ->)%fmap_Some. eauto.
    - rewrite lookup_alter_ne by done. eauto. }
  split.
  - split; [apply H2|]. destruct H2 as [_ [n En]]. unfold w. cbn [v_data v_current].
    destruct (decide (v_current v = x)) as [E|Hne].
    + rewrite E in *. rewrite lookup_alter_eq, En. eauto.
    + rewrite lookup_alter_ne by done. eauto.
  - intros y n (m & Em & _)%Hd. rewrite Ht. eauto.
  - intros y y' i. rewrite !Ht. apply H4.
  - intros y n (m & Em & [->|[-> ->]])%Hd; eauto.
  - intros y n Hy (m & Em & [->|[-> ->]])%Hd; [eauto|].
    destruct (Hs m Em) as [[-> _]|[Hn _]]; [eauto|done].
  - intros y n (m & Em & [->|[-> ->]])%Hd; [eauto|].
    destruct (Hs m Em) as [[Es Ej]|[_ Hj]]; [|done]. rewrite Ej, Es. intros E. by apply (H7 x m Em).
Qed.

(** Other lists with the same, or fewer, nodes that wait. *)
Lemma nodes_ok_lists L x v :
  x <> 0 /\ is_Some (v_data v !! x) ->
  (forall y n, y ∈ L PJoin -> v_data v !! y = Some n -> status n = JOINING) ->
  nodes_ok v -> nodes_ok (View (v_data v) L (v_thrs v) (v_threads v) x).
Proof. intros Hx Hj [H2 H3 H4 H5 H6 H7]. split; done. Qed.

Lemma nodes_ok_enQ i x v : 0 <= i < 5 -> nodes_ok v -> nodes_ok (v_enQ i x v).
Proof.
  intros Hi Hv. set (l := v_lists v (qplace (RunQ i))).
  assert (nodes_ok (View (alter (enq_node (RunQ i) l) x (v_data v)) (v_lists v) (v_thrs v)
    (v_threads v) (v_current v))) as H.
  { apply nodes_ok_alter; [| | |done]; intros n; unfold enq_node; destruct (_ && _); auto;
      intros En; cbn; auto. by apply (wf_priority _ Hv x). }
  apply (nodes_ok_lists (upd (v_lists v) (qplace (RunQ i)) (l ++ [x])) (v_current v)) in H; [exact H|apply (wf_current _ H)|].
  cbn [v_data]. intros y n Hy. apply (wf_join _ H). cbn [v_lists].
  by rewrite upd_other in Hy.
Qed.

Lemma enq_status q l n : status (enq_node q l n) = status n.
Proof. unfold enq_node. by destruct (_ && _). Qed.
Lemma enq_thread q l n : threadID (enq_node q l n) = threadID n.
Proof. unfold enq_node. by destruct (_ && _). Qed.

Lemma elem_filter {A} (f : A -> bool) (l : list A) y :
  y ∈ List.filter f l <-> y ∈ l /\ f y = true.
Proof. rewrite !list_elem_of_In. apply List.filter_In. Qed.

Lemma woken_join D T id L y : y ∈ woken D T id L PJoin -> y ∈ L PJoin.
Proof. cbn. by intros [? _]%elem_filter. Qed.

Lemma demoted_level p : 0 <= p < 5 -> 0 <= demoted p < 5.
Proof. intros. unfold demoted, RUN_QUEUE_SIZE. bcase; lia. Qed.

(** The running thread's node, its identifier and its next place. *)
Lemma v_requeue_ok v : wf v -> nodes_ok (v_requeue v).
Proof.
  intros Hwf. unfold v_requeue. destruct (wf_current _ Hwf) as [Hc [n En]].
  rewrite En. destruct (wf_tid _ Hwf _ _ En) as [i Ei]. rewrite Ei.
  pose proof (wf_priority _ Hwf _ _ En) as Hp.
  destruct (status n) eqn:Est.
  - apply nodes_ok_enQ; [by apply demoted_level|apply Hwf].
  - pose proof (nodes_ok_enQ (priority n) (v_current v) v Hp Hwf) as H.
    apply nodes_ok_alter; [done| | |done].
    + intros m Em. cbn. apply (wf_priority _ H _ _ Em).
    + intros m Em. right. split; [|done]. cbn. rewrite upd_other by done. apply (wf_loose _ Hwf).
  - pose proof (nodes_ok_dead i v Hwf) as H. apply nodes_ok_lists; [apply (wf_current _ H)| |done].
    intros y m Hy%woken_join. by apply (wf_join _ H).
  - apply nodes_ok_lists; [apply (wf_current _ Hwf)| |apply Hwf].
    intros y m. rewrite upd_same. intros [->|Hy]%elem_of_cons; [congruence|].
    by apply (wf_join _ Hwf).
Qed.

(** ** Nobody is lost *)

(** Node [y] runs, or is in one of the lists. *)
Definition held (v : view) (y : Z) : Prop := exists p, y ∈ v_lists v p.
Definition scheduled (v : view) (y : Z) : Prop := y = v_current v \/ held v y.

Lemma held_snoc L p x y :
  (exists p', y ∈ upd L p (L p ++ [x]) p') <-> y = x \/ exists p', y ∈ L p'.
Proof.
  split.
  - intros [p' [[-> Hy]|[_ Hy]]%elem_upd]; [|eauto]. set_solver.
  - intros [->|[p' Hy]]; [exists p; rewrite upd_same; set_solver|].
    exists p'. apply elem_upd. destruct (decide (p' = p)) as [->|?]; [left|by right].
    split; [done|]. apply elem_of_app. by left.
Qed.

(** The wakened threads are in the run queues. *)
Lemma held_woken D T id L y :
  (forall z n, z ∈ L PJoin -> D !! z = Some n -> 0 <= priority n) ->
  (exists p, y ∈ woken D T id L p) <-> (exists p, y ∈ L p).
Proof.
  intros Hp. split.
  - intros [[i|i|] Hy]; cbn in Hy; [|eauto|].
    + apply elem_of_app in Hy as [Hy|Hy]; [eauto|]. exists PJoin.
      by apply elem_filter in Hy as [Hy _].
    + exists PJoin. by apply elem_filter in Hy as [Hy _].
  - intros [p Hy]. destruct (decide (p = PJoin)) as [->|Hne].
    + destruct (waits D T id y) eqn:Ew.
      * unfold waits in Ew. destruct (D !! y) as [n|] eqn:En; [|done].
        exists (PRun (Z.to_nat (priority n))). cbn. apply elem_of_app. right.
        apply elem_filter. split; [done|].
        unfold waits, level_is. rewrite En, Ew. cbn. rewrite Z2Nat.id by eauto.
        apply Z.eqb_refl.
      * exists PJoin. cbn. apply elem_filter. by rewrite Ew.
    + exists p. destruct p as [i|i|]; cbn; [|done|done]. apply elem_of_app. by left.
Qed.

Definition exiting (v : view) : bool :=
  match v_data v !! v_current v with
  | Some n => bool_decide (status n = EXITING)
  | None => false
  end.

Lemma held_requeue v y :
  wf v -> held (v_requeue v) y <-> held v y \/ (y = v_current v /\ exiting v = false).
Proof.
  intros Hwf. unfold held, v_requeue, exiting. destruct (wf_current _ Hwf) as [Hc [n En]].
  rewrite En. destruct (wf_tid _ Hwf _ _ En) as [i Ei]. rewrite Ei.
  destruct (status n) eqn:Est; cbn [v_enQ v_status v_join v_wake v_lists].
  - rewrite held_snoc. naive_solver.
  - rewrite held_snoc. naive_solver.
  - rewrite held_woken; [rewrite v_dead_lists; naive_solver|].
    intros z m _ Em. rewrite v_dead_data in Em. apply (wf_priority _ Hwf z m Em).
  - split.
    + intros [p [[-> [->|Hy]%elem_of_cons]|[_ Hy]]%elem_upd]; naive_solver.
    + intros [[p Hy]|[-> _]].
      * exists p. apply elem_upd. destruct (decide (p = PJoin)) as [->|?]; [left|by right].
        split; [done|]. apply elem_of_cons. by right.
      * exists PJoin. rewrite upd_same. set_solver.
Qed.

(** The thread that runs next leaves its queue. *)
Lemma next_run_head n i L j x l :
  next_run n i L = Some (j, x, l) -> L (PRun (Z.to_nat j)) = x :: l /\ i <= j < i + Z.of_nat n.
Proof.
  revert i. induction n as [|n IH]; intros i E; [done|]. cbn [next_run] in E.
  destruct (L (qplace (RunQ i))) as [|z m] eqn:El.
  - apply IH in E as [? ?]. split; [done|lia].
  - injection E as <- <- <-. split; [exact El|lia].
Qed.

Lemma dispatch_ok s v :
  abs s v -> nodes_ok v -> next_run 5 0 (v_lists v) <> None ->
  wf (fst (v_dispatch v)) /\ forall y, scheduled (fst (v_dispatch v)) y <-> held v y.
Proof.
  intros [Hr HD _ _ _] Hok Hne. unfold v_dispatch.
  destruct (next_run 5 0 (v_lists v)) as [[[j x] l]|] eqn:E; [|done]. cbn [fst].
  apply next_run_head in E as [El Hj].
  pose proof (rep_nodup _ _ Hr (PRun (Z.to_nat j))) as Hnd. rewrite El in Hnd.
  apply NoDup_cons in Hnd as [Hxl Hnd].
  destruct (rep_q _ _ Hr (RunQ j)) as (q & _ & [Hl _] & _); [cbn; lia|].
  cbn [qplace] in Hl. rewrite El in Hl. destruct Hl as (_ & Hx & n & En & _).
  assert (x ∈ v_lists v (PRun (Z.to_nat j))) as Hxin by (rewrite El; set_solver).
  assert (forall p, x ∈ upd (v_lists v) (PRun (Z.to_nat j)) l p -> False) as Hlo.
  { intros p [[-> Hy]|[Hp Hy]]%elem_upd; [done|]. apply Hp. by apply (rep_disj _ _ Hr _ _ x). }
  split.
  - split; [|done]. apply nodes_ok_lists; [| |done].
    + split; [done|]. rewrite <- HD. apply data_some in En. eauto.
    + intros y m Hy. rewrite upd_other in Hy by done. by apply (wf_join _ Hok).
  - intros y. unfold scheduled, held. cbn [v_current v_lists]. split.
    + intros [->|[p [[-> Hy]|[_ Hy]]%elem_upd]]; [eauto| |eauto].
      exists (PRun (Z.to_nat j)). rewrite El. set_solver.
    + intros [p Hy]. destruct (decide (y = x)) as [->|Hyx]; [by left|]. right. exists p.
      apply elem_upd. destruct (decide (p = PRun (Z.to_nat j))) as [->|?]; [|by right].
      left. rewrite El in Hy. set_solver.
Qed.

(** ** The refinement *)

Section refinement.
Context (PAGESIZE : Z) (stack : itimerval) (sizeof_ucontext : Z).
Notation ready := (ready PAGESIZE).

(** The timer runs for the quantum of node [x]. *)
Definition quantum_of (v : view) (x : Z) (t : itimerval) : Prop :=
  exists n, v_data v !! x = Some n /\
    it_value_usec t = QUANTA_TIME * 1000 * (priority n + 1).

(** No page of the thread of node [x] can be accessed. *)
Definition pages_closed (v : view) (x : Z) (a : astate) : Prop :=
  forall i k, vtid v x = Some i -> page_of (pages a) i k = true -> prot a k = false.

Lemma vtid_node_tid s v y n :
  abs s v -> nodes_ok v -> v_data v !! y = Some n -> y <> 0 ->
  exists i, vtid v y = Some i /\ node_tid y s = Ok (i, s).
Proof.
  intros [_ HD HT _ _] Hok En Hy. destruct (wf_tid _ Hok y n En) as [i Ei].
  exists i. split; [done|]. apply node_tid_ok; [|done]. unfold vtid in Ei. by rewrite HD, HT.
Qed.

(** The end of [dispatch]: the pages of the thread that ran are closed. *)
Lemma switch_spec s v y i k x n :
  abs s v -> nodes_ok v -> ready s -> v_current v = x -> v_data v !! x = Some n ->
  vtid v y = Some k ->
  exists s', (if negb (i =? k) then
       _ ← alloc_call (protectAllPages PAGESIZE k); mret (Some (y, x))
     else mret None : M sched (option (Z * Z))) s =
       Ok (if i =? k then None else Some (y, x), s') /\
    abs s' v /\ ready s' /\ cycles s' = cycles s /\ tim (al s') = tim (al s) /\
    (i <> k -> pages_closed v y (al s')).
Proof.
  intros Ha Hok Hrdy Hx En Ek. destruct (i =? k) eqn:Eik; bprop; cbn [negb].
  - exists s. split_and!; done.
  - destruct (abs_node s v x n Ha En) as (m & Em & _).
    destruct (wf_tid _ Hok x n En) as [j Ej].
    destruct (vtid_some s v x j m Ha Ej Em) as (t & Et & _ & Htj).
    pose proof Hrdy as [Hst Htab Hpg].
    set (a := set_thr (Some (tid t, pageNum t)) (al s)).
    destruct (protectAllPages_spec PAGESIZE k a Htab Hpg) as (p & Ep & Hp).
    exists (set_al (set_prot p a) s). split_and!; try done.
    + erewrite bind_ok_l; [done|]. apply (alloc_call_keep _ s m t); try done.
      by rewrite (abs_current _ _ Ha), Hx.
    + by apply abs_set_al.
    + intros _ i' k' Hi' Hk'. rewrite Ek in Hi'. injection Hi' as <-. cbn in Hk' |- *.
      rewrite Hp. cbn. by rewrite Hk'.
Qed.

Lemma dispatch_spec s v :
  abs s v -> nodes_ok v -> ready s ->
  exists s', dispatch PAGESIZE s = Ok (snd (v_dispatch v), s') /\
    abs s' (fst (v_dispatch v)) /\ ready s' /\ cycles s' = cycles s /\
    (next_run 5 0 (v_lists v) <> None ->
       quantum_of v (v_current (fst (v_dispatch v))) (itimer (tim (al s')))) /\
    (snd (v_dispatch v) <> None -> pages_closed v (v_current v) (al s')).
Proof.
  intros Ha Hok Hrdy. pose proof Ha as [Hr HD HT Hl Hc]. unfold v_dispatch.
  destruct (next_run 5 0 (v_lists v)) as [[[j x] l]|] eqn:E; cbn [fst snd].
  2:{ exists s. split_and!; try done. unfold dispatch. mstep by done.
      by mstep by (by apply (getNextNode_none s (v_lists v))). }
  destruct (getNextNode_some s (v_lists v) j x l Hr E) as (Hj & El & s1 & E1 & Hr1 & HD1 & Hs1).
  set (L1 := upd (v_lists v) (PRun (Z.to_nat j)) l) in *.
  set (v1 := View (v_data v) L1 (v_thrs v) (v_threads v) x).
  destruct (rep_q _ _ Hr (RunQ j) Hj) as (q & _ & [Hlq _] & _). cbn [qplace] in Hlq.
  rewrite El in Hlq. destruct Hlq as (_ & Hx & n0 & En0 & _). apply data_some in En0.
  rewrite HD in En0.
  pose proof (abs_lists s s1 v (v_data v) L1 Ha Hr1 (eq_trans HD1 HD) Hs1) as Ha1.
  destruct (abs_node s1 _ x _ Ha1 En0) as (n & En & Hn).
  set (s2 := set_current x s1).
  set (s3 := set_al (set_tim (start_quantum (priority n) (tim (al s2))) (al s2)) s2).
  assert (abs s3 v1) as Ha3.
  { destruct Ha1 as [H1 H2 H3 H4 H5]. split; try done. by apply (rep_same s1). }
  assert (nodes_ok v1) as Hok1.
  { apply nodes_ok_lists; [by split; eauto| |done]. intros y m.
    unfold L1. rewrite upd_other by done. apply (wf_join _ Hok). }
  destruct Hs1 as (Est1 & _ & _ & _ & _ & Ecy1 & Eal1).
  assert (ready s3) as Hrdy3.
  { destruct Hrdy as [H1 H2 H3]. split; [cbn; congruence| |done].
    unfold PageSpec.table_ok in *. cbn. by rewrite Eal1. }
  destruct (wf_current _ Hok) as [Hc0 [nc Enc]].
  destruct (vtid_node_tid s3 v1 x _ Ha3 Hok1 En0 Hx) as (i & Ei & Eti).
  destruct (vtid_node_tid s3 v1 (v_current v) nc Ha3 Hok1 Enc Hc0) as (k & Ek & Etk).
  destruct (switch_spec s3 v1 (v_current v) i k x _ Ha3 Hok1 Hrdy3 eq_refl En0 Ek)
    as (s' & E' & Ha' & Hrdy' & Ecy' & Et' & Hcl).
  change (vtid v1) with (vtid v) in *.
  assert (bool_decide (vtid v x = vtid v (v_current v)) = (i =? k)) as ->.
  { rewrite Ei, Ek. destruct (i =? k) eqn:Eik; bprop.
    - apply bool_decide_true. congruence.
    - apply bool_decide_false. congruence. }
  exists s'. split_and!; try done.
  - unfold dispatch. mstep by done. mstep by exact E1. rewrite (Zeqb_f x 0), Hc by done.
    mstep by done. fold s2. mstep by (by apply rd_node_ok). mstep by apply on_timer_ok. fold s3.
    mstep by exact Eti. mstep by exact Etk. exact E'.
  - rewrite Ecy'. exact Ecy1.
  - intros _. exists (with_next 0 n0). split; [done|]. rewrite Et'. cbn.
    assert (priority n = priority n0) as -> by (by injection Hn). done.
  - destruct (i =? k) eqn:Eik; bprop; [done|]. intros _. by apply Hcl.
Qed.
End refinement.

(** The call moves threads; it does not rename them. *)
Lemma vtid_requeue v y : vtid (v_requeue v) y = vtid v y.
Proof.
  unfold v_requeue. destruct (v_data v !! v_current v) as [n|] eqn:En; [|done].
  destruct (vtid v (v_current v)) as [i|]; [|done].
  assert (forall f L, (forall d, threadID (f d) = threadID d) ->
    vtid (View (alter f (v_current v) (v_data v)) L (v_thrs v) (v_threads v) (v_current v)) y =
    vtid v y) as H.
  { intros f L Hf. unfold vtid, tid_of. cbn [v_data v_thrs].
    destruct (decide (y = v_current v)) as [->|Hne]; [|by rewrite lookup_alter_ne].
    rewrite lookup_alter_eq, En. cbn. by rewrite Hf. }
  destruct (status n); [| |apply vtid_dead|done].
  - apply H. apply enq_thread.
  - unfold v_status, v_enQ. cbn [v_data v_lists v_thrs v_threads v_current].
    rewrite <- (H (enq_node (RunQ (priority n)) (v_lists v (qplace (RunQ (priority n)))))
      (v_lists v)) by apply enq_thread.
    unfold vtid, tid_of. cbn [v_data v_thrs].
    destruct (decide (y = v_current v)) as [->|Hne]; [|by rewrite !lookup_alter_ne].
    rewrite !lookup_alter_eq, En. done.
Qed.

Lemma dispatch_data v : v_data (fst (v_dispatch v)) = v_data v.
Proof. unfold v_dispatch. by destruct (next_run _ _ _) as [[[j x] l]|]. Qed.

Lemma requeue_current v : v_current (v_requeue v) = v_current v.
Proof.
  unfold v_requeue.
  destruct (v_data v !! v_current v) as [n|], (vtid v (v_current v)); try done.
  destruct (status n); try done. apply v_dead_current.
Qed.

Section calls.
Context (PAGESIZE : Z) (stack : itimerval).
Notation ready := (ready PAGESIZE).

Lemma requeue_spec s v :
  abs s v -> wf v -> ready s ->
  exists s', requeue PAGESIZE s = Ok (tt, s') /\ abs s' (v_requeue v) /\ ready s' /\
    cycles s' = cycles s.
Proof.
  intros Ha Hwf Hrdy. destruct (wf_current _ Hwf) as [Hc [d Ed]].
  destruct (abs_node s v _ d Ha Ed) as (n & En & ->).
  destruct (wf_tid _ Hwf _ _ Ed) as [i Ei]. unfold v_requeue. rewrite Ed, Ei.
  cbn [status with_next priority].
  assert (forall s', same_rest s s' -> ready s' /\ cycles s' = cycles s) as Hrest.
  { intros s' (E1 & _ & _ & _ & _ & Ecy & Eal). split; [by apply (ready_same _ s)|done]. }
  destruct (status n) eqn:Est.
  - destruct (requeue_neutral PAGESIZE s v n Ha Hwf En Est) as (s' & E & Ha' & Hs). exists s'. naive_solver.
  - destruct (requeue_yielding PAGESIZE s v n Ha Hwf En Est) as (s' & E & Ha' & Hs). exists s'. naive_solver.
  - destruct (requeue_exiting PAGESIZE s v n Ha Hwf En i Est Ei Hrdy) as (s' & E & Ha' & Hr & Hcy & _).
    exists s'. done.
  - destruct (requeue_joining PAGESIZE s v n Ha Hwf En Est) as (s' & E & Ha' & Hs). exists s'. naive_solver.
Qed.

(** A call of [schedule] outside the rounds of maintenance. *)
Lemma schedule_run s v clock :
  abs s v -> wf v -> ready s -> 0 <= cycles s < 100 ->
  exists s', schedule PAGESIZE stack clock s = Ok (snd (v_schedule v), s') /\
    abs s' (fst (v_schedule v)) /\ ready s' /\ cycles s' = cycles s + 1 /\
    (next_run 5 0 (v_lists (v_requeue v)) <> None ->
       quantum_of (fst (v_schedule v)) (v_current (fst (v_schedule v))) (itimer (tim (al s')))) /\
    (snd (v_schedule v) <> None -> pages_closed v (v_current v) (al s')).
Proof.
  intros Ha Hwf Hrdy Hcy.
  set (s1 := set_al (set_tim (pause_timer stack (tim (al s))) (al s)) s).
  set (s2 := set_cycles (cycles s + 1) s1).
  assert (abs s2 v) as Ha2.
  { apply (abs_set_al _ _ (al s1)) in Ha. destruct Ha as [H1 H2 H3 H4 H5].
    split; try done. by apply (rep_same s1). }
  assert (ready s2) as Hrdy2 by (destruct Hrdy as [H1 H2 H3]; by split).
  destruct (requeue_spec s2 v Ha2 Hwf Hrdy2) as (s3 & E3 & Ha3 & Hrdy3 & Ecy3).
  destruct (dispatch_spec PAGESIZE s3 _ Ha3 (v_requeue_ok v Hwf) Hrdy3)
    as (s' & E & Ha' & Hrdy' & Ecy' & Hq & Hp).
  rewrite requeue_current in Hp.
  exists s'. split; [|split_and!; [done|done|by rewrite Ecy', Ecy3| |]].
  - unfold schedule. mstep by done. fold s1.
    mstep by (unfold count_cycle; mstep by done; mstep by done; cbn;
      rewrite (Zltb_f 100) by lia; done).
    mstep by exact E3. exact E.
  - intros Hne. destruct (Hq Hne) as (n & En & Ht). exists n. unfold v_schedule.
    by rewrite dispatch_data.
  - intros Hne i k. rewrite <- (vtid_requeue v). by apply Hp.
Qed.
End calls.

(** C6: [schedule] does what [v_schedule] says: a preempted thread goes to the
    next lower run queue, one that yielded to the queue of its level with its
    status reset, one that joins to the join list, and an exiting one is marked
    dead while those that wait for it return to the queues of their levels;
    then the first thread of the first queue that is not empty becomes the
    running one, and its context is exchanged with that of the thread that
    stops.  This is a call outside the rounds of [maintenance] ([cycles < 100]);
    the hundred and first call runs one first ([MaintSpec]). *)
Theorem schedule_refines PAGESIZE stack clock s v :
  abs s v -> wf v -> ready PAGESIZE s -> 0 <= cycles s < 100 ->
  exists s', schedule PAGESIZE stack clock s = Ok (snd (v_schedule v), s') /\
    abs s' (fst (v_schedule v)) /\ ready PAGESIZE s' /\ cycles s' = cycles s + 1.
Proof.
  intros Ha Hwf Hr Hc.
  destruct (schedule_run PAGESIZE stack s v clock Ha Hwf Hr Hc) as (s' & H1 & H2 & H3 & H4 & _).
  by exists s'.
Qed.

(** C14: No thread is lost or scheduled twice: after a call of [schedule] that
    finds a thread to run, outside the rounds of [maintenance] ([cycles < 100]), the nodes that run or are in a list are those that
    were before, the exiting one apart; every node is in one place, and the
    state is again one in which [schedule] can be called. *)
Theorem schedule_keeps_threads PAGESIZE stack clock s v :
  abs s v -> wf v -> ready PAGESIZE s -> 0 <= cycles s < 100 ->
  next_run 5 0 (v_lists (v_requeue v)) <> None ->
  exists sw s' v', schedule PAGESIZE stack clock s = Ok (sw, s') /\ abs s' v' /\ wf v' /\
    forall y, scheduled v' y <->
      scheduled v y /\ ~ (y = v_current v /\ exiting v = true).
Proof.
  intros Ha Hwf Hr Hc Hne.
  destruct (schedule_run PAGESIZE stack s v clock Ha Hwf Hr Hc) as (s' & H1 & H2 & _).
  assert (exists s0, abs s0 (v_requeue v)) as [s0 Ha0].
  { destruct (requeue_spec PAGESIZE s v Ha Hwf Hr) as (s0 & _ & H & _). eauto. }
  destruct (dispatch_ok s0 _ Ha0 (v_requeue_ok v Hwf) Hne) as [Hwf' Hs].
  exists (snd (v_schedule v)), s', (fst (v_schedule v)). split; [done|]. split; [done|].
  split; [done|]. intros y. unfold v_schedule. rewrite Hs, (held_requeue v y Hwf).
  assert (held v (v_current v) -> False) as Hlo by (intros [p Hp]; by apply (wf_loose _ Hwf p)).
  unfold scheduled. split.
  - intros [H|[-> E]]; [|rewrite E; by split; [left|intros []]].
    split; [by right|]. intros [-> _]. by apply Hlo.
  - intros [[->|H] Hex]; [right|by left]. split; [done|].
    destruct (exiting v); [by destruct Hex|done].
Qed.

(** The thread that runs next has a quantum of 100 ms for every level from
    the first to its own, and when another thread ran before, none of the pages
    of that thread can be accessed any more. *)
Theorem schedule_quantum PAGESIZE stack clock s v :
  abs s v -> wf v -> ready PAGESIZE s -> 0 <= cycles s < 100 ->
  next_run 5 0 (v_lists (v_requeue v)) <> None ->
  exists sw s', schedule PAGESIZE stack clock s = Ok (sw, s') /\
    quantum_of (fst (v_schedule v)) (current s') (itimer (tim (al s'))) /\
    (sw <> None -> pages_closed v (current s) (al s')).
Proof.
  intros Ha Hwf Hr Hc Hne.
  destruct (schedule_run PAGESIZE stack s v clock Ha Hwf Hr Hc) as (s' & H1 & H2 & _ & _ & H3 & H4).
  exists (snd (v_schedule v)), s'. split; [done|]. rewrite (abs_current _ _ Ha).
  split; [|done]. rewrite (abs_current _ _ H2). by apply H3.
Qed.

(** ** An instance *)

(** The main thread runs, a second one is in the first queue. *)
Definition demo_node (thread : Z) : node :=
  Node thread 0 0 0 (S754_zero false) NEUTRAL 0 0.
Definition demo_al : astate :=
  AState (fun _ => 0) 0 false 0 0 (200 * 4096) 0 (replicate 1848 1) (replicate 4096 1)
    (fun _ => 0) (fun _ => false) None false (Timers no_timer no_timer) [].
Definition demo : sched :=
  Sched true (<[100 := demo_node 10]> {[200 := demo_node 20]})
    (<[10 := Thread 1 0 0 0 0]> {[20 := Thread 2 0 0 0 0]})
    [Queue 200 200 0; Queue 0 0 1; Queue 0 0 2; Queue 0 0 3; Queue 0 0 4]
    [Queue 0 0 0; Queue 0 0 1; Queue 0 0 2; Queue 0 0 3] 100 0 20 3 0 demo_al.
Definition demo_lists : lists := fun p => if decide (p = PRun 0) then [200] else [].
Definition demo_view : view := View (data demo) demo_lists (thrs demo) [20] 100.

Lemma demo_nodes y n : data demo !! y = Some n ->
  (y = 100 /\ n = demo_node 10) \/ (y = 200 /\ n = demo_node 20).
Proof.
  unfold data. rewrite lookup_fmap. intros (m & Em & ->)%fmap_Some. cbn [nodes demo] in Em.
  apply lookup_insert_Some in Em as [[<- <-]|[_ Em]]; [by left|].
  apply lookup_singleton_Some in Em as [<- <-]. by right.
Qed.

Lemma demo_elem p y : y ∈ demo_lists p -> p = PRun 0 /\ y = 200.
Proof. unfold demo_lists. destruct (decide (p = PRun 0)); set_solver. Qed.

Lemma demo_rep : rep demo demo_lists.
Proof.
  split.
  - assert (forall l, is_queue (nodes demo) (Queue 0 0 l) []) as He by (intros; split; [done|by left]).
    intros [i|i] Hi; cbn in Hi.
    + assert (i = 0 \/ i = 1 \/ i = 2 \/ i = 3 \/ i = 4) as [->|[->|[->|[->| ->]]]] by lia;
        eexists; (split; [reflexivity|]); (split; [|reflexivity]); [|apply He..].
      split; [|by right]. split; [done|]. split; [done|]. exists (demo_node 20). by split.
    + assert (i = 0 \/ i = 1 \/ i = 2 \/ i = 3) as [->|[->|[->| ->]]] by lia;
        eexists; (split; [reflexivity|]); (split; [|reflexivity]); apply He.
  - done.
  - intros p. unfold demo_lists. destruct (decide _); [apply NoDup_singleton|by apply NoDup_nil_2].
  - intros p p' y [-> _]%demo_elem [-> _]%demo_elem. done.
Qed.

Lemma demo_abs : abs demo demo_view.
Proof.
  split; [apply demo_rep|done|done| |done]. split; [|apply NoDup_singleton].
  split; [done|]. split; [done|]. by exists (Thread 2 0 0 0 0).
Qed.

Lemma demo_wf : wf demo_view.
Proof.
  split; [split|].
  - split; [done|]. exists (demo_node 10). by vm_compute.
  - intros y n [[-> ->]|[-> ->]]%demo_nodes; [exists 1|exists 2]; by vm_compute.
  - intros y y' i Hy Hy'.
    assert (forall z, vtid demo_view z = Some i -> is_Some (data demo !! z)) as Hs.
    { intros z. unfold vtid, tid_of. intros (d & E & _)%bind_Some. eauto. }
    destruct (Hs y Hy) as [n En], (Hs y' Hy') as [n' En'].
    destruct (demo_nodes y n En) as [[-> _]|[-> _]], (demo_nodes y' n' En') as [[-> _]|[-> _]];
      try done; vm_compute in Hy, Hy'; congruence.
  - intros y n [[-> ->]|[-> ->]]%demo_nodes; cbn; lia.
  - intros y n [? _]%demo_elem. done.
  - intros y n [[-> ->]|[-> ->]]%demo_nodes; done.
  - intros p [_ ?]%demo_elem. done.
Qed.

Lemma demo_ready : ready 4096 demo.
Proof. split; [done|vm_compute; done|vm_compute; done]. Qed.

Lemma schedule_refines_witness :
  exists s', schedule 4096 no_timer 7 demo = Ok (snd (v_schedule demo_view), s') /\
    abs s' (fst (v_schedule demo_view)) /\ ready 4096 s' /\ cycles s' = cycles demo + 1.
Proof.
  apply schedule_refines; [exact demo_abs|exact demo_wf|exact demo_ready|cbn; lia].
Defined.

Lemma schedule_keeps_threads_witness :
  exists sw s' v', schedule 4096 no_timer 7 demo = Ok (sw, s') /\ abs s' v' /\ wf v' /\
    forall y, scheduled v' y <->
      scheduled demo_view y /\ ~ (y = v_current demo_view /\ exiting demo_view = true).
Proof.
  apply schedule_keeps_threads; [exact demo_abs|exact demo_wf|exact demo_ready|cbn; lia|].
  intros E. vm_compute in E. discriminate.
Defined.

Lemma schedule_quantum_witness :
  exists sw s', schedule 4096 no_timer 7 demo = Ok (sw, s') /\
    quantum_of (fst (v_schedule demo_view)) (current s') (itimer (tim (al s'))) /\
    (sw <> None -> pages_closed demo_view (current demo) (al s')).
Proof.
  apply schedule_quantum; [exact demo_abs|exact demo_wf|exact demo_ready|cbn; lia|].
  intros E. vm_compute in E. discriminate.
Defined.

(** ** The loop that wakes joined threads ends *)

(** C40: When a thread dies, the loop over the join list ends although it starts
    again from the head for every thread it wakes: the square of the number of
    nodes is enough steps, whatever the list, and the threads that waited for
    the dead one are then in the run queues of their levels. *)
Theorem wake_terminates id s v fuel :
  abs s v -> nodes_ok v -> (S (size (nodes s)) * S (size (nodes s)) <= fuel)%nat ->
  exists s', wake_loop fuel id (joinList s) s = Ok (tt, s') /\ abs s' (v_wake id v).
Proof.
  intros Ha Hok Hf. destruct (wake_loop_fuel id s v fuel Ha Hok Hf) as (s' & E & Ha' & _).
  by exists s'.
Qed.

(** The main thread waits for the second one, which runs. *)
Definition demo_join : sched :=
  Sched true (<[100 := Node 10 0 0 0 (S754_zero false) JOINING 20 0]> {[200 := demo_node 20]})
    (<[10 := Thread 1 0 0 0 0]> {[20 := Thread 2 0 0 0 0]})
    [Queue 0 0 0; Queue 0 0 1; Queue 0 0 2; Queue 0 0 3; Queue 0 0 4]
    [Queue 0 0 0; Queue 0 0 1; Queue 0 0 2; Queue 0 0 3] 200 100 20 3 0 demo_al.
Definition demo_join_view : view :=
  View (data demo_join) (fun p => if decide (p = PJoin) then [100] else []) (thrs demo_join) [20] 200.

Lemma demo_join_nodes y n : data demo_join !! y = Some n ->
  (y = 100 /\ n = Node 10 0 0 0 (S754_zero false) JOINING 20 0) \/ (y = 200 /\ n = demo_node 20).
Proof.
  unfold data. rewrite lookup_fmap. intros (m & Em & ->)%fmap_Some. cbn [nodes demo_join] in Em.
  apply lookup_insert_Some in Em as [[<- <-]|[_ Em]]; [by left|].
  apply lookup_singleton_Some in Em as [<- <-]. by right.
Qed.

Lemma demo_join_abs : abs demo_join demo_join_view.
Proof.
  split; [split|done|done| |done].
  - assert (forall l, is_queue (nodes demo_join) (Queue 0 0 l) []) as He by (intros; split; [done|by left]).
    intros [i|i] Hi; cbn in Hi.
    + assert (i = 0 \/ i = 1 \/ i = 2 \/ i = 3 \/ i = 4) as [->|[->|[->|[->| ->]]]] by lia;
        eexists; (split; [reflexivity|]); (split; [apply He|reflexivity]).
    + assert (i = 0 \/ i = 1 \/ i = 2 \/ i = 3) as [->|[->|[->| ->]]] by lia;
        eexists; (split; [reflexivity|]); (split; [apply He|reflexivity]).
  - split; [done|]. split; [done|]. eexists. by split.
  - intros p. cbn. destruct (decide _); [apply NoDup_singleton|by apply NoDup_nil_2].
  - intros p p' y. cbn. do 2 destruct (decide _); set_solver.
  - split; [|apply NoDup_singleton]. split; [done|]. split; [done|]. by exists (Thread 2 0 0 0 0).
Qed.

Lemma demo_join_ok : nodes_ok demo_join_view.
Proof.
  split.
  - split; [done|]. exists (demo_node 20). by vm_compute.
  - intros y n [[-> ->]|[-> ->]]%demo_join_nodes; [exists 1|exists 2]; by vm_compute.
  - intros y y' i Hy Hy'.
    assert (forall z, vtid demo_join_view z = Some i -> is_Some (data demo_join !! z)) as Hs.
    { intros z. unfold vtid, tid_of. intros (d & E & _)%bind_Some. eauto. }
    destruct (Hs y Hy) as [n En], (Hs y' Hy') as [n' En'].
    destruct (demo_join_nodes y n En) as [[-> _]|[-> _]],
      (demo_join_nodes y' n' En') as [[-> _]|[-> _]]; try done; vm_compute in Hy, Hy'; congruence.
  - intros y n [[-> ->]|[-> ->]]%demo_join_nodes; cbn; lia.
  - intros y n Hy [[-> ->]|[-> ->]]%demo_join_nodes; [done|]. cbn in Hy.
    apply list_elem_of_singleton in Hy. done.
  - intros y n [[-> ->]|[-> ->]]%demo_join_nodes; [|done]. intros _. cbn. split; [done|].
    by exists (Thread 2 0 0 0 0).
Qed.

Lemma wake_terminates_witness :
  exists s', wake_loop 9 2 100 demo_join = Ok (tt, s') /\ abs s' (v_wake 2 demo_join_view).
Proof.
  apply (wake_terminates 2 demo_join demo_join_view 9 demo_join_abs demo_join_ok). by vm_compute; lia.
Defined.
