(* ===== verification/MaintSpec.v ===== *)
(** * Maintenance of the run queues

    Every hundred calls of [schedule] the threads of the lower run queues are
    sorted by the time since their creation and shared out among the queues
    above.  The two loops of [maintenance] are shown to compute [maintained],
    which keeps every thread; the order in which they share the threads out is
    stated as it is: the longest-lived threads stay lowest. *)

From Stdlib Require Import Floats.SpecFloat Sorted.
From S2P Require Import Prelude Chain CMem BlockWord Timer MyAlloc Queue Sched QueueSpec PageSpec SchedSpec SchedStep ScheduleSpec.

(** ** Sorting by run time *)

Definition age (t : Z) (d : node) : node := with_runtime (run_time t (timeCreated d)) d.

(** The nodes [l] with their run times at [t]. *)
Definition aged (t : Z) (D : gmap Z node) (l : list Z) : gmap Z node :=
  foldl (fun D x => alter (age t) x D) D l.

Definition by_time (D : gmap Z node) (acc l : list Z) : list Z :=
  foldl (fun acc x => insert_at D x acc) acc l.

Lemma aged_other t D l y : y ∉ l -> aged t D l !! y = D !! y.
Proof.
  revert D. induction l as [|x l IH]; intros D Hy; [done|]. cbn.
  fold (aged t (alter (age t) x D) l). rewrite IH by set_solver.
  apply lookup_alter_ne. set_solver.
Qed.

Lemma insert_at_ext D D' x l :
  (forall y, y ∈ x :: l -> runtime_of D y = runtime_of D' y) ->
  insert_at D x l = insert_at D' x l.
Proof.
  induction l as [|y l IH]; intros H; [done|]. cbn.
  rewrite (H x), (H y), IH by set_solver. done.
Qed.

Lemma insert_at_perm D x l : insert_at D x l ≡ₚ x :: l.
Proof.
  induction l as [|y l IH]; [done|]. cbn. destruct (runtime_gt _ _); [done|].
  rewrite IH. apply Permutation_swap.
Qed.

Lemma by_time_perm D acc l : by_time D acc l ≡ₚ acc ++ l.
Proof.
  revert acc. induction l as [|x l IH]; intros acc; [by rewrite app_nil_r|]. cbn.
  fold (by_time D (insert_at D x acc) l). rewrite IH, insert_at_perm. cbn.
  by rewrite Permutation_middle.
Qed.

Lemma by_time_ext D D' acc l :
  (forall y, y ∈ acc ++ l -> runtime_of D y = runtime_of D' y) ->
  by_time D acc l = by_time D' acc l.
Proof.
  revert acc. induction l as [|x l IH]; intros acc H; [done|]. cbn.
  rewrite (insert_at_ext D D') by set_solver. apply IH. intros y. rewrite insert_at_perm.
  set_solver.
Qed.

(** Nobody is followed by a thread with a larger run time. *)
Definition older_first (D : gmap Z node) (x y : Z) : Prop :=
  runtime_gt (runtime_of D y) (runtime_of D x) = false.

Lemma SFcompare_antisym x y : SFcompare y x = option_map CompOpp (SFcompare x y).
Proof.
  destruct x as [[]|[]| |[] mx ex], y as [[]|[]| |[] my ey]; try done; cbn;
    rewrite (Z.compare_antisym ex ey); change (Pos.compare_cont Eq) with Pos.compare;
    rewrite (Pos.compare_antisym mx my); by destruct (ex ?= ey), (mx ?= my)%positive.
Qed.

Lemma runtime_gt_asym x y : runtime_gt x y = true -> runtime_gt y x = false.
Proof.
  unfold runtime_gt, SFltb. rewrite (SFcompare_antisym x y).
  by destruct (SFcompare x y) as [[]|].
Qed.

Lemma insert_at_sorted D x l :
  Sorted (older_first D) l -> Sorted (older_first D) (insert_at D x l).
Proof.
  induction l as [|y l IH]; intros Hs; cbn; [by repeat constructor|].
  destruct (runtime_gt (runtime_of D x) (runtime_of D y)) eqn:E.
  - constructor; [done|]. constructor. by apply runtime_gt_asym.
  - apply Sorted_inv in Hs as [Hs Hh]. constructor; [by apply IH|].
    destruct l as [|z l]; cbn; [by constructor|].
    destruct (runtime_gt (runtime_of D x) (runtime_of D z)); constructor; [done|].
    by apply HdRel_inv in Hh.
Qed.

Lemma by_time_sorted D acc l :
  Sorted (older_first D) acc -> Sorted (older_first D) (by_time D acc l).
Proof.
  revert acc. induction l as [|x l IH]; intros acc Hs; [done|]. cbn.
  apply IH. by apply insert_at_sorted.
Qed.

(** ** The first loop *)

Section maintenance.
Context (t : Z).

Lemma collect_loop_spec i l fuel s L count :
  rep s L -> 0 <= i < 4 -> L (qplace (RunQ (i + 1))) = l -> (length l < fuel)%nat ->
  exists s', collect_loop fuel i t count s = Ok (count + Z.of_nat (length l), s') /\
    rep s' (upd (upd L (qplace (RunQ (i + 1))) []) (qplace (PromotionQ i))
      (by_time (data s') (L (qplace (PromotionQ i))) l)) /\
    data s' = aged t (data s) l /\ same_rest s s'.
Proof.
  intros Hr Hi. revert fuel s L count Hr.
  induction l as [|x l IH]; intros fuel s L count Hr El Hfuel;
    (destruct fuel as [|fuel]; [cbn in Hfuel; lia|]); cbn [collect_loop];
    assert (valid_ref (RunQ (i + 1))) as Hv by (cbn; lia).
  - exists s. split; [|split; [|done]].
    + mstep by (by apply (deQ_empty s L)). cbn. by rewrite Z.add_0_r.
    + cbn. eapply rep_ext; [|exact Hr]. intros p. unfold upd. repeat case_decide; by subst.
  - destruct (deQ_spec s L _ x l Hr Hv El) as (s1 & E1 & Hr1 & Hd1 & Hs1).
    set (L1 := upd L (qplace (RunQ (i + 1))) l) in *.
    destruct (rep_q _ _ Hr _ Hv) as (q & _ & [Hlq _] & _). rewrite El in Hlq.
    destruct Hlq as (_ & Hx & n0 & En0 & _). apply data_some in En0. rewrite <- Hd1 in En0.
    apply data_lookup in En0 as (n & En & _).
    pose proof (rep_nodup _ _ Hr (qplace (RunQ (i + 1)))) as Hnd. rewrite El in Hnd.
    apply NoDup_cons in Hnd as [Hxl Hnd].
    assert (x ∈ L (qplace (RunQ (i + 1)))) as Hxin by (rewrite El; set_solver).
    assert (loose L1 x) as Hlo.
    { intros p [[-> Hy]|[Hp Hy]]%elem_upd; [done|]. apply Hp. by apply (rep_disj _ _ Hr _ _ x). }
    set (n' := with_runtime (run_time t (timeCreated n)) n).
    set (s2 := set_nodes (<[x := n']>) s1).
    assert (rep s2 L1) as Hr2 by (by apply (rep_upd s1 _ _ n)).
    assert (nodes s2 !! x = Some n') as En2 by apply lookup_insert_eq.
    destruct (insertByTime_spec (PromotionQ i) s2 L1 x n' Hr2 Hi Hlo En2 Hx)
      as (s3 & E3 & Hr3 & Hd3 & Hs3).
    assert (data s3 = alter (age t) x (data s)) as Hd3'.
    { rewrite Hd3. unfold s2. rewrite <- Hd1. by apply (data_alter s1 x n (age t)). }
    set (L3 := upd L1 (qplace (PromotionQ i)) _) in Hr3.
    assert (L3 (qplace (RunQ (i + 1))) = l) as El3
      by (unfold L3; rewrite upd_other by done; apply upd_same).
    destruct (IH fuel s3 L3 (count + 1) Hr3 El3) as (s' & E' & Hr' & Hd' & Hs').
    { cbn in Hfuel. lia. }
    assert (data s' = aged t (data s) (x :: l)) as Hd by (by rewrite Hd', Hd3').
    exists s'. split_and!; [| |done|].
    + mstep by exact E1. rewrite (Zeqb_f x 0) by done. mstep by (by apply rd_node_ok).
      mstep by (by apply upd_node_ok). fold n' s2. mstep by exact E3. rewrite E'.
      f_equal. f_equal. cbn [length]. lia.
    + assert (insert_at (data s2) x (L (qplace (PromotionQ i))) =
        insert_at (data s') x (L (qplace (PromotionQ i)))) as Eins.
      { apply insert_at_ext. intros y Hy. unfold runtime_of. rewrite Hd', Hd3.
        rewrite aged_other; [done|]. intros Hyl. apply elem_of_cons in Hy as [->|Hy]; [done|].
        assert (y ∈ L (qplace (RunQ (i + 1)))) as Hy2 by (rewrite El; set_solver).
        by pose proof (rep_disj _ _ Hr _ _ _ Hy Hy2). }
      eapply rep_ext; [|exact Hr']. intros p. unfold L3, L1. unfold upd.
      repeat case_decide; try done. by rewrite Eins.
    + etransitivity; [exact Hs1|]. by etransitivity; [|exact Hs'].
Qed.
End maintenance.

(** ** All the lower queues *)

Section collect.
Context (t : Z).

(** The nodes of the run queues [i + 1 .. i + n]. *)
Fixpoint lower (n : nat) (i : Z) (L : lists) : list Z :=
  match n with
  | O => []
  | S n => L (qplace (RunQ (i + 1))) ++ lower n (i + 1) L
  end.

Lemma aged_app D l l' : aged t D (l ++ l') = aged t (aged t D l) l'.
Proof. apply foldl_app. Qed.

Definition in_range (i : Z) (n : nat) (k : nat) : bool :=
  (i <=? Z.of_nat k) && (Z.of_nat k <? i + Z.of_nat n).

Lemma in_range_0 i k : in_range i 0 k = false.
Proof.
  unfold in_range. destruct (i <=? Z.of_nat k) eqn:E; bprop; [|done]. cbn.
  apply Zltb_f. lia.
Qed.

Lemma in_range_S i n k :
  in_range i (S n) k = (Z.of_nat k =? i) || in_range (i + 1) n k.
Proof.
  unfold in_range. destruct (Z.of_nat k =? i) eqn:E; bprop.
  - btests. done.
  - cbn. destruct (i <=? Z.of_nat k) eqn:E1; bprop; [|by rewrite (Zleb_f (i + 1)) by lia].
    rewrite (Zleb_t (i + 1)) by lia. cbn.
    destruct (Z.of_nat k <? i + Z.of_nat (S n)) eqn:E2; bprop;
      [rewrite Zltb_t by lia|rewrite Zltb_f by lia]; done.
Qed.

(** The lists after the queues were emptied into the promotion queues. *)
Definition collected (n : nat) (i : Z) (D : gmap Z node) (L : lists) : lists := fun p =>
  match p with
  | PRun k => if in_range (i + 1) n k then [] else L p
  | PProm k =>
      if in_range i n k then by_time D (L p) (L (PRun (S k))) else L p
  | PJoin => L p
  end.

Fixpoint counts (n : nat) (i : Z) (L : lists) : list Z :=
  match n with
  | O => []
  | S n => Z.of_nat (length (L (qplace (RunQ (i + 1))))) :: counts n (i + 1) L
  end.

Lemma lower_ext n i L L' :
  (forall k, i < k -> L (qplace (RunQ k)) = L' (qplace (RunQ k))) -> 0 <= i ->
  lower n i L = lower n i L' /\ counts n i L = counts n i L'.
Proof.
  revert i. induction n as [|n IH]; intros i H Hi; [done|]. cbn [lower counts].
  rewrite (H (i + 1)) by lia. destruct (IH (i + 1)) as [-> ->]; [|lia|done].
  intros k Hk. apply H. lia.
Qed.

Lemma lower_elem n i L y :
  0 <= i -> y ∈ lower n i L ->
  exists k, i < k <= i + Z.of_nat n /\ y ∈ L (qplace (RunQ k)).
Proof.
  revert i. induction n as [|n IH]; intros i Hi Hy; [by apply elem_of_nil in Hy|].
  apply elem_of_app in Hy as [Hy|Hy]; [exists (i + 1); split; [lia|done]|].
  destruct (IH (i + 1)) as (k & Hk & Hyk); [lia|done|]. exists k. split; [lia|done].
Qed.

(** The first queue's order does not depend on the later queues. *)
Lemma by_time_lower n i s L D acc :
  rep s L -> 0 <= i -> i + 1 + Z.of_nat n < 5 -> acc = L (qplace (PromotionQ i)) ->
  by_time D acc (L (qplace (RunQ (i + 1)))) =
  by_time (aged t D (lower n (i + 1) L)) acc (L (qplace (RunQ (i + 1)))).
Proof.
  intros Hr Hi Hn ->. apply by_time_ext. intros y Hy. unfold runtime_of.
  rewrite aged_other; [done|]. intros (k & Hk & Hyk)%lower_elem; [|lia].
  apply elem_of_app in Hy as [Hy|Hy].
  - by pose proof (rep_disj _ _ Hr _ _ _ Hy Hyk).
  - pose proof (rep_disj _ _ Hr _ _ _ Hy Hyk) as E. cbn in E. injection E. lia.
Qed.

(** The lists after the first of the queues, and after the others. *)
Lemma collected_step n i D D1 L p :
  0 <= i ->
  by_time D1 (L (qplace (PromotionQ i))) (L (qplace (RunQ (i + 1)))) =
    by_time D (L (qplace (PromotionQ i))) (L (qplace (RunQ (i + 1)))) ->
  collected n (i + 1) D (upd (upd L (qplace (RunQ (i + 1))) []) (qplace (PromotionQ i))
    (by_time D1 (L (qplace (PromotionQ i))) (L (qplace (RunQ (i + 1)))))) p =
  collected (S n) i D L p.
Proof.
  intros Hi Eby. rewrite Eby. unfold collected. cbn [qplace].
  assert (forall k, in_range (i + 1) n k = true -> Z.of_nat k <> i) as Hr.
  { intros k Hk. unfold in_range in Hk. bprop. lia. }
  assert (forall k, k <> Z.to_nat i -> upd (upd L (PRun (Z.to_nat (i + 1))) []) (PProm (Z.to_nat i))
    (by_time D (L (PProm (Z.to_nat i))) (L (PRun (Z.to_nat (i + 1))))) (PRun (S k)) = L (PRun (S k)))
    as Hrun.
  { intros k Hk. rewrite !upd_other; [done| |done]. intros [= E]. lia. }
  destruct p as [k|k|]; [| |by rewrite !upd_other].
  - rewrite in_range_S. destruct (in_range (i + 1 + 1) n k); [by rewrite orb_true_r|].
    rewrite orb_false_r, upd_other by done. destruct (Z.of_nat k =? i + 1) eqn:E; bprop.
    + replace k with (Z.to_nat (i + 1)) by lia. apply upd_same.
    + rewrite upd_other; [done|]. intros [= ->]. lia.
  - rewrite in_range_S. destruct (decide (k = Z.to_nat i)) as [->|Hk].
    + rewrite Z2Nat.id, Z.eqb_refl by lia. cbn [orb].
      destruct (in_range (i + 1) n (Z.to_nat i)) eqn:E; [apply Hr in E; lia|].
      rewrite upd_same. do 3 f_equal. lia.
    + rewrite (Zeqb_f (Z.of_nat k) i) by lia. cbn [orb]. rewrite Hrun by done.
      rewrite (upd_other _ (PProm (Z.to_nat i))) by congruence. by rewrite upd_other.
Qed.

Lemma collect_all_spec n i s L :
  rep s L -> 0 <= i -> i + Z.of_nat n <= 4 ->
  exists s', collect_all n i t s = Ok (counts n i L, s') /\
    rep s' (collected n i (data s') L) /\
    data s' = aged t (data s) (lower n i L) /\ same_rest s s'.
Proof.
  revert i s L. induction n as [|n IH]; intros i s L Hr Hi Hn.
  - exists s. split_and!; [done| |done|done]. eapply rep_ext; [|exact Hr].
    intros [k|k|]; unfold collected; by rewrite ?in_range_0.
  - assert (valid_ref (RunQ (i + 1))) as Hv by (cbn; lia).
    destruct (rep_queue s L _ Hr Hv) as (q & _ & _ & [Hlq _] & _).
    pose proof (chain_size _ _ _ _ Hlq (rep_nodup _ _ Hr _)) as Hsz.
    destruct (collect_loop_spec t i _ (S (size (nodes s))) s L 0 Hr ltac:(lia) eq_refl)
      as (s1 & E1 & Hr1 & Hd1 & Hs1); [lia|].
    set (L1 := upd _ _ _) in Hr1.
    assert (forall k, 0 <= k -> k <> i + 1 -> L1 (qplace (RunQ k)) = L (qplace (RunQ k))) as HL1.
    { intros k Hk0 Hk. unfold L1. rewrite !upd_other; [done|..|done].
      cbn. intros E. apply Hk. injection E. lia. }
    destruct (IH (i + 1) s1 L1 Hr1) as (s' & E' & Hr' & Hd' & Hs'); [lia..|].
    destruct (lower_ext n (i + 1) L1 L) as [El Ec]; [|lia|].
    { intros k Hk. apply HL1; lia. }
    rewrite El, Hd1, <- aged_app in Hd'. rewrite Ec in E'.
    exists s'. split_and!; [| |done|by etransitivity].
    + cbn [collect_all]. mstep by done. mstep by exact E1. by mstep by exact E'.
    + eapply rep_ext; [|exact Hr'].
      assert (by_time (data s1) (L (qplace (PromotionQ i))) (L (qplace (RunQ (i + 1)))) =
        by_time (data s') (L (qplace (PromotionQ i))) (L (qplace (RunQ (i + 1))))) as Eby.
      { rewrite Hd', aged_app, <- Hd1. eapply by_time_lower; [exact Hr|lia|lia|done]. }
      intros p. by apply collected_step.
Qed.
End collect.

(** ** The second loop *)

Definition reprio (dst : Z) (D : gmap Z node) (l : list Z) : gmap Z node :=
  foldl (fun D x => alter (with_priority dst) x D) D l.

Definition no_yield (D : gmap Z node) (l : list Z) : Prop :=
  forall y d, y ∈ l -> D !! y = Some d -> status d <> YIELDING.

Lemma reprio_lookup dst D l y :
  NoDup l -> reprio dst D l !! y =
    if bool_decide (y ∈ l) then with_priority dst <$> D !! y else D !! y.
Proof.
  revert D. induction l as [|x l IH]; intros D Hnd; [done|].
  apply NoDup_cons in Hnd as [Hx Hnd]. cbn. fold (reprio dst (alter (with_priority dst) x D) l).
  rewrite IH by done. destruct (decide (y = x)) as [->|Hne].
  - rewrite bool_decide_false, bool_decide_true, lookup_alter_eq by set_solver. done.
  - rewrite lookup_alter_ne by done. case_bool_decide; case_bool_decide; set_solver.
Qed.

Lemma no_yield_alter D x f l :
  (forall d, status (f d) = status d) -> no_yield D l -> no_yield (alter f x D) l.
Proof.
  intros Hf Hn y d Hy Ed. destruct (decide (y = x)) as [->|Hne].
  - rewrite lookup_alter_eq in Ed. apply fmap_Some in Ed as (d' & Ed & ->). rewrite Hf. eauto.
  - rewrite lookup_alter_ne in Ed by done. eauto.
Qed.

Lemma no_yield_reprio dst D l l' : no_yield D l' -> no_yield (reprio dst D l) l'.
Proof.
  revert D. induction l as [|x l IH]; intros D H; [done|]. cbn. apply IH.
  by apply no_yield_alter.
Qed.

Lemma no_yield_sub D l l' : (forall y, y ∈ l' -> y ∈ l) -> no_yield D l -> no_yield D l'.
Proof. intros Hs H y d Hy. apply H. auto. Qed.

Lemma promote_spec l1 i dst s L l2 :
  rep s L -> 0 <= i < 4 -> 0 <= dst < 5 -> L (qplace (PromotionQ i)) = l1 ++ l2 ->
  no_yield (data s) l1 ->
  exists s', promote (length l1) i dst s = Ok (tt, s') /\
    rep s' (upd (upd L (qplace (PromotionQ i)) l2) (qplace (RunQ dst))
      (L (qplace (RunQ dst)) ++ l1)) /\
    data s' = reprio dst (data s) l1 /\ same_rest s s'.
Proof.
  intros Hr Hi Hdst. revert s L Hr. induction l1 as [|x l1 IH]; intros s L Hr El Hny.
  - exists s. split_and!; [done| |done|done]. eapply rep_ext; [|exact Hr].
    intros p. rewrite app_nil_r. unfold upd. repeat case_decide; by subst.
  - cbn [length promote].
    destruct (deQ_spec s L (PromotionQ i) x (l1 ++ l2) Hr Hi El) as (s1 & E1 & Hr1 & Hd1 & Hs1).
    set (L1 := upd L (qplace (PromotionQ i)) (l1 ++ l2)) in *.
    destruct (rep_q _ _ Hr (PromotionQ i) Hi) as (q & _ & [Hlq _] & _). rewrite El in Hlq.
    destruct Hlq as (_ & Hx & n0 & En0 & _). apply data_some in En0. rewrite <- Hd1 in En0.
    pose proof En0 as (n & En & _)%data_lookup.
    pose proof (rep_nodup _ _ Hr (qplace (PromotionQ i))) as Hnd. rewrite El in Hnd.
    apply NoDup_cons in Hnd as [Hxl Hnd].
    assert (loose L1 x) as Hlo.
    { intros p [[-> Hy]|[Hp Hy]]%elem_upd; [done|]. apply Hp.
      apply (rep_disj _ _ Hr _ _ x); [done|]. rewrite El. set_solver. }
    destruct (enQ_spec s1 L1 (RunQ dst) x n Hr1 Hdst Hlo En Hx) as (s2 & E2 & Hr2 & Hd2 & Hs2).
    assert (L1 (qplace (RunQ dst)) = L (qplace (RunQ dst))) as EL1 by (by apply upd_other).
    rewrite EL1 in Hr2.
    assert (data s2 = alter (with_priority dst) x (data s)) as Hd.
    { rewrite Hd2, Hd1. rewrite Hd1 in En0. apply map_eq. intros y.
      destruct (decide (y = x)) as [->|Hne]; [|by rewrite !lookup_alter_ne].
      rewrite !lookup_alter_eq, En0. cbn. f_equal. unfold enq_node, is_yielding.
      rewrite (bool_decide_false (status _ = _)) by (apply (Hny x); [set_solver|done]).
      by rewrite andb_false_r. }
    set (L2 := upd L1 (qplace (RunQ dst)) (L (qplace (RunQ dst)) ++ [x])) in *.
    destruct (IH s2 L2 Hr2) as (s' & E' & Hr' & Hd' & Hs').
    { unfold L2. rewrite upd_other by done. apply upd_same. }
    { rewrite Hd. apply no_yield_alter; [done|]. eapply no_yield_sub; [|exact Hny]. set_solver. }
    exists s'. split_and!.
    + mstep by exact E1. rewrite (Zeqb_f x 0) by done. cbn [negb]. mstep by exact E2. exact E'.
    + eapply rep_ext; [|exact Hr']. intros p.
      assert (L2 (qplace (RunQ dst)) = L (qplace (RunQ dst)) ++ [x]) as EL2 by apply upd_same.
      rewrite EL2, <- app_assoc. unfold L2, L1, upd. repeat case_decide; done.
    + by rewrite Hd', Hd.
    + etransitivity; [exact Hs1|]. by etransitivity.
Qed.

(** What each level gets of a list shared out over the levels [j - 1 .. 0]:
    [share] nodes for every level, the rest for level 0. *)
Fixpoint parts (j share : nat) (l : list Z) (k : nat) : list Z :=
  match j with
  | O => []
  | S j' =>
      let now := match j' with O => l | S _ => take share l end in
      (if Nat.eqb k j' then now else []) ++ parts j' share (drop share l) k
  end.

Fixpoint reparts (j share : nat) (l : list Z) (D : gmap Z node) : gmap Z node :=
  match j with
  | O => D
  | S j' =>
      let now := match j' with O => l | S _ => take share l end in
      reparts j' share (drop share l) (reprio (Z.of_nat j') D now)
  end.

(** The lists after [now] moved from the [i]th promotion queue to level [j]. *)
Definition moved (i j : nat) (now rest : list Z) (L : place -> list Z) : place -> list Z :=
  upd (upd L (PProm i) rest) (PRun j) (L (PRun j) ++ now).

Lemma moved_run i j now rest L k :
  moved i j now rest L (PRun k) = L (PRun k) ++ (if Nat.eqb k j then now else []).
Proof.
  unfold moved. destruct (Nat.eqb_spec k j) as [->|Hne]; [apply upd_same|].
  rewrite app_nil_r, !upd_other; [done|done|congruence].
Qed.

Lemma moved_prom i j now rest L k :
  moved i j now rest L (PProm k) = if Nat.eqb k i then rest else L (PProm k).
Proof.
  unfold moved. rewrite upd_other by done.
  destruct (Nat.eqb_spec k i) as [->|Hne]; [apply upd_same|]. rewrite upd_other; [done|congruence].
Qed.

Lemma promote_levels_spec j i c s L l share :
  rep s L -> 0 <= i < 4 -> L (qplace (PromotionQ i)) = l -> no_yield (data s) l ->
  Z.quot c (i + 2) = Z.of_nat share -> (1 <= j <= Z.to_nat (i + 2))%nat ->
  Z.of_nat (length l) = c - Z.of_nat share * (i + 2 - Z.of_nat j) ->
  (share * j <= length l)%nat ->
  exists s', promote_levels j i c s = Ok (tt, s') /\
    rep s' (fun p => match p with
      | PRun k => L p ++ parts j share l k
      | PProm k => if Nat.eqb k (Z.to_nat i) then [] else L p
      | PJoin => L p
      end) /\
    data s' = reparts j share l (data s) /\ same_rest s s'.
Proof.
  intros Hr Hi El Hny Hsh Hj Hlen Hle. revert s L l Hr El Hny Hj Hlen Hle.
  induction j as [|j IH]; intros s L l Hr El Hny Hj Hlen Hle; [lia|].
  cbn [promote_levels parts reparts]. rewrite Hsh.
  set (now := match j with O => l | S _ => take share l end).
  assert (exists rest, l = now ++ rest /\ rest = (match j with O => [] | S _ => drop share l end))
    as (rest & Hl & Erest).
  { unfold now. destruct j; [exists []; by rewrite app_nil_r|]. eexists. split; [|done].
    by rewrite take_drop. }
  assert (promote (length now) i (Z.of_nat (S j) - 1) =
    (if 1 <? Z.of_nat (S j) then promote (Z.to_nat (Z.of_nat share)) i (Z.of_nat (S j) - 1)
     else promote (Z.to_nat (c - Z.of_nat share * (i + 1))) i (Z.of_nat (S j) - 1))) as <-.
  { unfold now. destruct j as [|j].
    - rewrite Zltb_f by lia. f_equal. lia.
    - rewrite Zltb_t by lia. rewrite length_take. f_equal. nia. }
  destruct (promote_spec now i (Z.of_nat (S j) - 1) s L rest Hr Hi) as (s1 & E1 & Hr1 & Hd1 & Hs1).
  { lia. }
  { by rewrite El. }
  { eapply no_yield_sub; [|exact Hny]. rewrite Hl. set_solver. }
  replace (Z.of_nat (S j) - 1) with (Z.of_nat j) in * by lia.
  set (L1 := moved (Z.to_nat i) j now rest L).
  assert (rep s1 L1) as Hr1' by (unfold L1, moved; cbn [qplace] in Hr1; by rewrite Nat2Z.id in Hr1).
  clear Hr1. rename Hr1' into Hr1.
  pose proof (moved_run (Z.to_nat i) j now rest L) as HL1.
  pose proof (moved_prom (Z.to_nat i) j now rest L) as HL1p.
  destruct j as [|j].
  - exists s1. split_and!; [| | |done].
    + by mstep by exact E1.
    + eapply rep_ext; [|exact Hr1]. intros [k|k|]; cbn [parts].
      * unfold L1. by rewrite HL1, app_nil_r.
      * unfold L1. by rewrite HL1p, Erest.
      * unfold L1, moved. by rewrite !upd_other.
    + cbn [reparts]. rewrite Hd1. done.
  - destruct (IH s1 L1 rest Hr1) as (s' & E' & Hr' & Hd' & Hs').
    + change (L1 (PProm (Z.to_nat i)) = rest). by rewrite HL1p, Nat.eqb_refl.
    + rewrite Hd1. apply no_yield_reprio. eapply no_yield_sub; [|exact Hny]. rewrite Hl. set_solver.
    + lia.
    + rewrite Erest, length_drop. lia.
    + rewrite Erest, length_drop. lia.
    + exists s'. rewrite Erest in Hd', Hr'. split_and!; [| | |by etransitivity].
      * by mstep by exact E1.
      * eapply rep_ext; [|exact Hr']. intros [k|k|]; cbv beta iota.
        -- by rewrite HL1, <- app_assoc.
        -- rewrite HL1p. by destruct (Nat.eqb k (Z.to_nat i)).
        -- unfold L1, moved. by rewrite !upd_other.
      * by rewrite Hd', Hd1.
Qed.

(** What every run queue gets from the promotion queues [i .. i + n - 1]. *)
Definition share_of (i : Z) (l : list Z) : nat := (length l / Z.to_nat (i + 2))%nat.

Fixpoint shared (n : nat) (i : Z) (L : lists) (k : nat) : list Z :=
  match n with
  | O => []
  | S n =>
      let l := L (qplace (PromotionQ i)) in
      parts (Z.to_nat (i + 2)) (share_of i l) l k ++ shared n (i + 1) L k
  end.

Fixpoint reshared (n : nat) (i : Z) (L : lists) (D : gmap Z node) : gmap Z node :=
  match n with
  | O => D
  | S n =>
      let l := L (qplace (PromotionQ i)) in
      reshared n (i + 1) L (reparts (Z.to_nat (i + 2)) (share_of i l) l D)
  end.

Fixpoint lengths (n : nat) (i : Z) (L : lists) : list Z :=
  match n with
  | O => []
  | S n => Z.of_nat (length (L (qplace (PromotionQ i)))) :: lengths n (i + 1) L
  end.

Definition promoted (n : nat) (i : Z) (L : lists) : lists := fun p =>
  match p with
  | PRun k => L p ++ shared n i L k
  | PProm k => if in_range i n k then [] else L p
  | PJoin => L p
  end.

Lemma no_yield_reparts D j share l l' : no_yield D l' -> no_yield (reparts j share l D) l'.
Proof.
  revert l D. induction j as [|j IH]; intros l D H; [done|]. cbn. apply IH.
  by apply no_yield_reprio.
Qed.

Lemma shared_ext n i L L' :
  0 <= i -> (forall k, i <= k -> L (qplace (PromotionQ k)) = L' (qplace (PromotionQ k))) ->
  (forall k, shared n i L k = shared n i L' k) /\
  (forall D, reshared n i L D = reshared n i L' D) /\ lengths n i L = lengths n i L'.
Proof.
  revert i. induction n as [|n IH]; intros i Hi H; [done|]. cbn [shared reshared lengths].
  rewrite (H i) by lia. destruct (IH (i + 1)) as (E1 & E2 & E3); [lia|auto with lia|].
  split_and!; [intros k; by rewrite E1|intros D; by rewrite E2|by rewrite E3].
Qed.

Lemma promote_all_spec n i s L :
  rep s L -> 0 <= i -> i + Z.of_nat n <= 4 ->
  (forall k, no_yield (data s) (L (PProm k))) ->
  exists s', promote_all (lengths n i L) i s = Ok (tt, s') /\ rep s' (promoted n i L) /\
    data s' = reshared n i L (data s) /\ same_rest s s'.
Proof.
  revert i s L. induction n as [|n IH]; intros i s L Hr Hi Hn Hny.
  - exists s. split_and!; [done| |done|done]. eapply rep_ext; [|exact Hr].
    intros [k|k|]; cbn; [by rewrite app_nil_r|by rewrite in_range_0|done].
  - cbn [lengths promote_all reshared]. set (l := L (qplace (PromotionQ i))).
    assert (Z.quot (Z.of_nat (length l)) (i + 2) = Z.of_nat (share_of i l)) as Hq.
    { unfold share_of. rewrite Nat2Z.inj_div, Z2Nat.id by lia. apply Z.quot_div_nonneg; lia. }
    assert (share_of i l * Z.to_nat (i + 2) <= length l)%nat as Hle.
    { unfold share_of. rewrite Nat.mul_comm. apply Nat.Div0.mul_div_le. }
    destruct (promote_levels_spec (Z.to_nat (i + 2)) i (Z.of_nat (length l)) s L l (share_of i l) Hr)
      as (s1 & E1 & Hr1 & Hd1 & Hs1); [lia|done|apply Hny|done|lia..|].
    set (L1 := fun p => _) in Hr1.
    destruct (shared_ext n (i + 1) L1 L) as (Esh & Ersh & Elen); [lia| |].
    { intros k Hk. unfold L1. cbn [qplace]. destruct (Nat.eqb_spec (Z.to_nat k) (Z.to_nat i)); [lia|done]. }
    destruct (IH (i + 1) s1 L1 Hr1) as (s' & E' & Hr' & Hd' & Hs'); [lia..| |].
    + intros k. unfold L1. rewrite Hd1. destruct (Nat.eqb k _).
      * by intros y d Hy%elem_of_nil.
      * apply no_yield_reparts, Hny.
    + rewrite Elen in E'. rewrite Ersh, Hd1 in Hd'.
      exists s'. split_and!; [by mstep by exact E1| |done|by etransitivity].
      eapply rep_ext; [|exact Hr']. intros [k|k|]; unfold promoted; [| |done].
      * rewrite Esh. unfold L1. cbn [shared]. by rewrite <- app_assoc.
      * rewrite in_range_S. unfold L1. destruct (in_range (i + 1) n k); [by rewrite orb_true_r|].
        rewrite orb_false_r. destruct (Nat.eqb_spec k (Z.to_nat i)); btests; done.
Qed.

(** ** The two loops together *)

(** The lists after [maintenance]: the lower run queues were emptied, sorted
    and shared out. *)
Definition maintained (D : gmap Z node) (L : lists) : lists :=
  promoted 4 0 (collected 4 0 D L).

Lemma collected_lengths n i D L :
  0 <= i -> (forall k, i <= Z.of_nat k < i + Z.of_nat n -> L (PProm k) = []) ->
  lengths n i (collected n i D L) = counts n i L.
Proof.
  intros Hi HL.
  assert (forall m j, i <= j -> j + Z.of_nat m <= i + Z.of_nat n ->
    lengths m j (collected n i D L) = counts m j L) as H; [|by apply H].
  induction m as [|m IH]; intros j Hj Hm; [done|]. cbn [lengths counts].
  rewrite IH by lia. f_equal. f_equal. unfold collected. cbn [qplace].
  assert (in_range i n (Z.to_nat j) = true) as ->.
  { unfold in_range. btests. done. }
  rewrite HL by lia. rewrite by_time_perm. cbn [app].
  replace (S (Z.to_nat j)) with (Z.to_nat (j + 1)) by lia. done.
Qed.

Lemma no_yield_aged t D l l' : no_yield D l' -> no_yield (aged t D l) l'.
Proof.
  revert D. induction l as [|x l IH]; intros D H; [done|]. cbn. apply IH.
  by apply no_yield_alter.
Qed.

Lemma maintenance_loops t s L :
  rep s L -> (forall k, (k < 4)%nat -> L (PProm k) = []) ->
  (forall k, no_yield (data s) (L (PRun k)) /\ no_yield (data s) (L (PProm k))) ->
  exists s', (counts ← collect_all (Z.to_nat (RUN_QUEUE_SIZE - 1)) 0 t; promote_all counts 0) s =
      Ok (tt, s') /\
    let D := aged t (data s) (lower 4 0 L) in
    rep s' (maintained D L) /\ data s' = reshared 4 0 (collected 4 0 D L) D /\ same_rest s s'.
Proof.
  intros Hr Hp Hny.
  destruct (collect_all_spec t 4 0 s L Hr) as (s1 & E1 & Hr1 & Hd1 & Hs1); [lia..|].
  destruct (promote_all_spec 4 0 s1 _ Hr1) as (s' & E' & Hr' & Hd' & Hs'); [lia..| |].
  - intros k. unfold collected. destruct (in_range 0 4 k).
    + intros y d. rewrite by_time_perm, elem_of_app. rewrite Hd1. intros [Hy|Hy].
      * by apply (no_yield_aged t _ _ _ (proj2 (Hny k))).
      * by apply (no_yield_aged t _ _ _ (proj1 (Hny (S k)))).
    + rewrite Hd1. apply no_yield_aged, Hny.
  - rewrite collected_lengths in E'; [|lia|intros k Hk; apply Hp; lia].
    exists s'. split; [by mstep by exact E1|]. cbv zeta. rewrite <- Hd1.
    split; [exact Hr'|]. split; [done|by etransitivity].
Qed.

(** ** The parts of a list *)

Lemma parts_high j share l k : (j <= k)%nat -> parts j share l k = [].
Proof.
  revert l. induction j as [|j IH]; intros l Hk; [done|]. cbn [parts].
  destruct (Nat.eqb_spec k j); [lia|]. apply IH. lia.
Qed.

Lemma flat_map_nil {A B} (f : A -> list B) l :
  (forall x, x ∈ l -> f x = []) -> flat_map f l = [].
Proof. induction l as [|x l IH]; intros H; [done|]. cbn. rewrite H, IH; set_solver. Qed.

Lemma flat_map_ext_elem {A B} (f g : A -> list B) l :
  (forall x, x ∈ l -> f x = g x) -> flat_map f l = flat_map g l.
Proof. induction l as [|x l IH]; intros H; [done|]. cbn. rewrite H, IH; set_solver. Qed.

Lemma flat_map_app_perm {A B} (f g : A -> list B) l :
  flat_map (fun k => f k ++ g k) l ≡ₚ flat_map f l ++ flat_map g l.
Proof.
  induction l as [|x l IH]; [done|]. cbn. rewrite IH. rewrite <- !app_assoc.
  apply Permutation_app_head. rewrite !app_assoc. apply Permutation_app_tail, Permutation_app_comm.
Qed.

(** Nobody is left out. *)
Lemma parts_perm j share l n :
  (0 < j <= n)%nat -> flat_map (parts j share l) (seq 0 n) ≡ₚ l.
Proof.
  intros Hj. assert (flat_map (parts j share l) (seq 0 j) ≡ₚ l) as Hjj.
  - revert l Hj. induction j as [|j IH]; intros l Hj; [lia|].
    rewrite seq_S, flat_map_app. cbn [flat_map parts Nat.add].
    rewrite Nat.eqb_refl, app_nil_r, parts_high, app_nil_r by lia.
    rewrite (flat_map_ext_elem _ (parts j share (drop share l)))
      by (intros k Hk%list_elem_of_In%in_seq; destruct (Nat.eqb_spec k j); [lia|done]).
    destruct j as [|j]; [done|]. rewrite IH by lia.
    rewrite Permutation_app_comm. by rewrite take_drop.
  - replace n with (j + (n - j))%nat by lia. rewrite seq_app, flat_map_app, Hjj.
    rewrite flat_map_nil; [by rewrite app_nil_r|]. intros k Hk%list_elem_of_In%in_seq.
    apply parts_high. lia.
Qed.

Lemma parts_incl j share l k y : y ∈ parts j share l k -> y ∈ l.
Proof.
  revert l. induction j as [|j IH]; intros l Hy; [by apply elem_of_nil in Hy|].
  cbn in Hy. apply elem_of_app in Hy as [Hy|Hy].
  - destruct (Nat.eqb k j); [|by apply elem_of_nil in Hy].
    destruct j; [done|]. rewrite <- (take_drop share l). apply elem_of_app. by left.
  - apply IH in Hy. rewrite <- (take_drop share l). apply elem_of_app. by right.
Qed.

Lemma reparts_other j share l D y : NoDup l -> y ∉ l -> reparts j share l D !! y = D !! y.
Proof.
  revert l D. induction j as [|j IH]; intros l D Hnd Hy; [done|]. cbn [reparts].
  rewrite <- (take_drop share l) in Hnd, Hy.
  rewrite IH; [|by apply NoDup_app in Hnd as (_ & _ & ?)|set_solver].
  rewrite take_drop in Hnd, Hy. destruct j.
  - rewrite reprio_lookup by done. by rewrite bool_decide_false.
  - rewrite <- (take_drop share l) in Hnd, Hy. apply NoDup_app in Hnd as (Hnt & _ & _).
    rewrite reprio_lookup by done. rewrite bool_decide_false; [done|set_solver].
Qed.

(** Every part gets the level it goes to. *)
Lemma reparts_lookup j share l D k y :
  NoDup l -> y ∈ parts j share l k ->
  reparts j share l D !! y = with_priority (Z.of_nat k) <$> D !! y.
Proof.
  revert l D. induction j as [|j IH]; intros l D Hnd Hy; [by apply elem_of_nil in Hy|].
  cbn [reparts parts] in *. pose proof Hnd as Hnd0.
  rewrite <- (take_drop share l) in Hnd0. apply NoDup_app in Hnd0 as (Hnt & Hntd & Hndp).
  apply elem_of_app in Hy as [Hy|Hy].
  - destruct (Nat.eqb_spec k j) as [->|]; [|by apply elem_of_nil in Hy]. destruct j as [|j].
    + cbn [reparts]. rewrite reprio_lookup by done. by rewrite bool_decide_true.
    + rewrite reparts_other, reprio_lookup by auto. by rewrite bool_decide_true.
  - rewrite (IH _ _ Hndp Hy). f_equal. pose proof (parts_incl _ _ _ _ _ Hy) as Hyd.
    destruct j as [|j]; [by apply elem_of_nil in Hy|]. rewrite reprio_lookup by done.
    rewrite bool_decide_false; [done|]. intros Hyt. by apply (Hntd y).
Qed.

(** ** Properties of maintenance *)

(** The threads of run queue [i + 1], the one with the largest run time first. *)
Definition sorted_queue (t : Z) (s : sched) (L : lists) (i : nat) : list Z :=
  by_time (aged t (data s) (lower 4 0 L)) [] (L (PRun (S i))).

(** What run queue [k] gets from run queue [i + 1]: its list is cut in [i + 2]
    parts, the first one for queue [i + 1] itself and the last one, with what
    the division leaves, for queue 0. *)
Definition share_for (t : Z) (s : sched) (L : lists) (k i : nat) : list Z :=
  let q := sorted_queue t s L i in
  parts (i + 2) (length q / (i + 2))%nat q k.

(** The state in which [maintenance] is called. *)
Record idle (s : sched) (L : lists) : Prop := Idle {
  idle_rep : rep s L;
  idle_promotion k : (k < 4)%nat -> L (PProm k) = [];
  idle_yield k : no_yield (data s) (L (PRun k)) /\ no_yield (data s) (L (PProm k))
}.

Lemma collected_promotion D L i :
  (i < 4)%nat -> L (PProm i) = [] -> collected 4 0 D L (PProm i) = by_time D [] (L (PRun (S i))).
Proof.
  intros Hi E. unfold collected. rewrite E.
  assert (in_range 0 4 i = true) as -> by (unfold in_range; btests; done). done.
Qed.

Lemma maintained_run t s L k :
  idle s L -> (k < 5)%nat ->
  maintained (aged t (data s) (lower 4 0 L)) L (PRun k) =
    (if Nat.eqb k 0 then L (PRun 0) else []) ++ flat_map (share_for t s L k) (seq 0 4).
Proof.
  intros [_ Hp _] Hk. unfold maintained, promoted. f_equal.
  - unfold collected, in_range. destruct k as [|k]; [done|]. cbn [Nat.eqb]. by btests.
  - cbn [shared qplace seq flat_map]. unfold share_for, share_of, sorted_queue.
    rewrite !collected_promotion by (try apply Hp; lia). by rewrite !app_nil_r.
Qed.

(** C34: Maintenance empties the run queues below the first, sorts each of them
    by the time since the creation of its threads, longest first, and deals
    the sorted list out from its own level upwards: the longest-lived threads
    stay where they are and the youngest ones reach the first queue.  The
    promotion queues are empty again and the join list is untouched. *)
Theorem maintenance_shares t s L :
  idle s L ->
  exists s' L', maintenance_body t s = Ok (tt, s') /\ rep s' L' /\
    (forall k, (k < 5)%nat ->
       L' (PRun k) = (if Nat.eqb k 0 then L (PRun 0) else []) ++
                     flat_map (share_for t s L k) (seq 0 4)) /\
    (forall i, (i < 4)%nat ->
       Sorted (older_first (aged t (data s) (lower 4 0 L))) (sorted_queue t s L i) /\
       sorted_queue t s L i ≡ₚ L (PRun (S i)) /\ L' (PProm i) = []) /\
    L' PJoin = L PJoin.
Proof.
  intros Hid. pose proof Hid as [Hr Hp Hny].
  destruct (maintenance_loops t s L Hr Hp Hny) as (s' & E & Hr' & _).
  exists s', (maintained (aged t (data s) (lower 4 0 L)) L).
  split; [exact E|]. split; [exact Hr'|]. split; [by intros k; apply maintained_run|].
  split; [|done]. intros i Hi. split; [apply by_time_sorted; constructor|].
  split; [apply by_time_perm|]. unfold maintained, promoted.
  by assert (in_range 0 4 i = true) as -> by (unfold in_range; btests; done).
Qed.

Lemma share_perm t s L i :
  (i < 4)%nat -> flat_map (fun k => share_for t s L k i) (seq 0 5) ≡ₚ L (PRun (S i)).
Proof.
  intros Hi. unfold share_for. rewrite parts_perm by lia. apply by_time_perm.
Qed.

Lemma maintained_perm t s L :
  idle s L ->
  flat_map (fun k => maintained (aged t (data s) (lower 4 0 L)) L (PRun k)) (seq 0 5)
    ≡ₚ flat_map (fun k => L (PRun k)) (seq 0 5).
Proof.
  intros Hid.
  rewrite (flat_map_ext_elem _ (fun k => (if Nat.eqb k 0 then L (PRun 0) else []) ++
    flat_map (share_for t s L k) (seq 0 4)))
    by (intros k Hk%list_elem_of_In%in_seq; apply maintained_run; [done|lia]).
  rewrite flat_map_app_perm. cbn [seq flat_map Nat.eqb app].
  rewrite (app_nil_r (L (PRun 4))), app_nil_r. apply Permutation_app_head.
  rewrite <- (share_perm t s L 0), <- (share_perm t s L 1), <- (share_perm t s L 2),
    <- (share_perm t s L 3) by lia. cbn [seq flat_map]. rewrite !app_nil_r.
  solve_Permutation.
Qed.

(** Maintenance loses no thread and duplicates none: the run queues
    together hold the same nodes before and after. *)
Theorem maintenance_keeps_threads t s L :
  idle s L ->
  exists s' L', maintenance_body t s = Ok (tt, s') /\ rep s' L' /\
    flat_map (fun k => L' (PRun k)) (seq 0 5) ≡ₚ flat_map (fun k => L (PRun k)) (seq 0 5).
Proof.
  intros Hid. pose proof Hid as [Hr Hp Hny].
  destruct (maintenance_loops t s L Hr Hp Hny) as (s' & E & Hr' & _).
  exists s', (maintained (aged t (data s) (lower 4 0 L)) L).
  split; [exact E|]. split; [exact Hr'|by apply maintained_perm].
Qed.

Lemma demo_idle : idle demo demo_lists.
Proof.
  split; [apply demo_rep|done|]. intros k.
  by split; intros y d _ [[_ ->]|[_ ->]]%demo_nodes.
Qed.

Lemma maintenance_shares_witness :
  exists s' L', maintenance_body 9 demo = Ok (tt, s') /\ rep s' L' /\
    (forall k, (k < 5)%nat ->
       L' (PRun k) = (if Nat.eqb k 0 then demo_lists (PRun 0) else []) ++
                     flat_map (share_for 9 demo demo_lists k) (seq 0 4)) /\
    (forall i, (i < 4)%nat ->
       Sorted (older_first (aged 9 (data demo) (lower 4 0 demo_lists)))
         (sorted_queue 9 demo demo_lists i) /\
       sorted_queue 9 demo demo_lists i ≡ₚ demo_lists (PRun (S i)) /\ L' (PProm i) = []) /\
    L' PJoin = demo_lists PJoin.
Proof. apply maintenance_shares. exact demo_idle. Defined.

Lemma maintenance_keeps_threads_witness :
  exists s' L', maintenance_body 9 demo = Ok (tt, s') /\ rep s' L' /\
    flat_map (fun k => L' (PRun k)) (seq 0 5) ≡ₚ flat_map (fun k => demo_lists (PRun k)) (seq 0 5).
Proof. apply maintenance_keeps_threads. exact demo_idle. Defined.
