(* ===== verification/Fairness.v ===== *)
(** * Who runs next

    The first run queue is served in order: a thread in it runs after as many
    calls of [schedule] as there are threads in front of it, whatever the
    threads do in between. *)

From Stdlib Require Import Floats.SpecFloat.
From S2P Require Import Prelude Chain CMem BlockWord Timer MyAlloc Queue Sched QueueSpec PageSpec SchedSpec SchedStep ScheduleSpec.

(** ** The first queue *)

Lemma demoted_pos p : 0 <= p -> 0 < demoted p.
Proof. intros. unfold demoted, RUN_QUEUE_SIZE. bcase; lia. Qed.

(** A call adds threads behind those of the first queue. *)
Lemma requeue_prefix v : wf v -> v_lists v (PRun 0) `prefix_of` v_lists (v_requeue v) (PRun 0).
Proof.
  intros Hwf. unfold v_requeue. destruct (wf_current _ Hwf) as [_ [n En]]. rewrite En.
  destruct (wf_tid _ Hwf _ _ En) as [i Ei]. rewrite Ei.
  assert (forall j x, v_lists v (PRun 0) `prefix_of`
    upd (v_lists v) (PRun (Z.to_nat j)) (v_lists v (PRun (Z.to_nat j)) ++ [x]) (PRun 0)) as H.
  { intros j x. unfold upd. case_decide as E; [|done]. rewrite <- E. by exists [x]. }
  destruct (status n); cbn [v_lists v_enQ v_status v_join v_wake qplace].
  - by apply H.
  - by apply H.
  - rewrite v_dead_lists. cbn. by eexists.
  - by rewrite upd_other.
Qed.

(** The thread in front of the first queue runs, the others move up. *)
Lemma dispatch_first v x l :
  v_lists v (PRun 0) = x :: l ->
  v_current (fst (v_dispatch v)) = x /\ v_lists (fst (v_dispatch v)) (PRun 0) = l.
Proof.
  intros El. unfold v_dispatch. cbn [next_run qplace].
  change (Z.to_nat 0) with 0%nat. rewrite El. cbn.
  split; [done|apply upd_same].
Qed.

Lemma schedule_first v y k :
  wf v -> v_lists v (PRun 0) !! k = Some y ->
  match k with
  | O => v_current (fst (v_schedule v)) = y
  | S k => v_lists (fst (v_schedule v)) (PRun 0) !! k = Some y
  end.
Proof.
  intros Hwf Hk. pose proof (requeue_prefix v Hwf) as [l' El'].
  destruct (v_lists v (PRun 0)) as [|x l] eqn:El; [done|].
  destruct (dispatch_first (v_requeue v) x (l ++ l') El') as [H1 H2].
  unfold v_schedule. destruct k as [|k]; cbn in Hk.
  - by injection Hk as <-.
  - rewrite H2. by apply lookup_app_l_Some.
Qed.

(** ** Sequences of calls *)

Section rounds.
Context (PAGESIZE : Z) (stack : itimerval).
Notation ready := (ready PAGESIZE).

(** What the program may do between two calls: anything that leaves the
    running thread running, keeps the threads of the first queue in their
    places and the invariant of the scheduler. *)
Definition program_step (f : sched -> sched) : Prop :=
  forall s v, abs s v -> wf v -> ready s ->
    exists v', abs (f s) v' /\ wf v' /\ ready (f s) /\ cycles (f s) = cycles s /\
      v_lists v (PRun 0) `prefix_of` v_lists v' (PRun 0).

(** [n] times: the program goes on, and [schedule] is called. *)
Fixpoint rounds (program : nat -> sched -> sched) (clock : nat -> Z) (n : nat) (s : sched) :
    result sched :=
  match n with
  | O => Ok s
  | S n' =>
      match schedule PAGESIZE stack (clock n) (program n s) with
      | Ok (_, s') => rounds program clock n' s'
      | Fault e => Fault e
      | Exit c => Exit c
      end
  end.

(** A round, for a thread of the first queue. *)
Lemma round_first f clock s v y k :
  program_step f -> abs s v -> wf v -> ready s -> 0 <= cycles s < 100 ->
  v_lists v (PRun 0) !! k = Some y ->
  exists sw s' v', schedule PAGESIZE stack clock (f s) = Ok (sw, s') /\
    abs s' v' /\ wf v' /\ ready s' /\ cycles s' = cycles s + 1 /\
    match k with O => current s' = y | S k => v_lists v' (PRun 0) !! k = Some y end.
Proof.
  intros Hf Ha Hwf Hr Hc Hk.
  destruct (Hf s v Ha Hwf Hr) as (v1 & Ha1 & Hwf1 & Hr1 & Ecy & [l' El']).
  apply (lookup_app_l_Some _ l') in Hk. rewrite <- El' in Hk.
  assert (0 <= cycles (f s) < 100) as Hc1 by (by rewrite Ecy).
  destruct (schedule_run PAGESIZE stack (f s) v1 clock Ha1 Hwf1 Hr1 Hc1)
    as (s' & E & Ha' & Hr' & Ecy' & _).
  destruct (requeue_spec PAGESIZE (f s) v1 Ha1 Hwf1 Hr1) as (s0 & _ & Ha0 & _).
  destruct (dispatch_ok s0 (v_requeue v1) Ha0 (v_requeue_ok v1 Hwf1)) as [Hwf' _].
  { destruct (requeue_prefix v1 Hwf1) as [l El]. cbn [next_run qplace].
    change (Z.to_nat 0) with 0%nat. rewrite El. by destruct (v_lists v1 (PRun 0)). }
  exists (snd (v_schedule v1)), s', (fst (v_schedule v1)).
  split_and!; [done|done|exact Hwf'|done|by rewrite Ecy', Ecy|].
  pose proof (schedule_first v1 y k Hwf1 Hk) as H. destruct k as [|k]; [|done].
  by rewrite (abs_current _ _ Ha').
Qed.
End rounds.

(** C33: Bounded waiting: a thread with [k] threads in front of it in the first
    run queue runs after [k + 1] calls of [schedule], whatever the program does
    between the calls, unless a round of maintenance comes before. *)
Theorem first_queue_bounded_wait PAGESIZE stack program clock k s v y :
  (forall i, program_step PAGESIZE (program i)) ->
  abs s v -> wf v -> ready PAGESIZE s -> 0 <= cycles s -> cycles s + Z.of_nat k < 100 ->
  v_lists v (PRun 0) !! k = Some y ->
  exists s', rounds PAGESIZE stack program clock (S k) s = Ok s' /\ current s' = y.
Proof.
  intros Hprog. revert s v. induction k as [|k IH]; intros s v Ha Hwf Hr Hc0 Hc Hk.
  - destruct (round_first PAGESIZE stack (program 1%nat) (clock 1%nat) s v y 0 (Hprog _) Ha Hwf Hr
      ltac:(lia) Hk) as (sw & s' & v' & E & _ & _ & _ & _ & Hy).
    exists s'. split; [|done]. cbn [rounds]. by rewrite E.
  - destruct (round_first PAGESIZE stack (program (S (S k))) (clock (S (S k))) s v y (S k) (Hprog _)
      Ha Hwf Hr ltac:(lia) Hk) as (sw & s1 & v1 & E & Ha1 & Hwf1 & Hr1 & Ecy & Hy).
    destruct (IH s1 v1 Ha1 Hwf1 Hr1 ltac:(lia) ltac:(lia) Hy) as (s' & E' & H).
    exists s'. split; [|done]. cbn [rounds] in *. by rewrite E.
Qed.

Lemma first_queue_bounded_wait_witness :
  exists s', rounds 4096 no_timer (fun _ s => s) (fun _ => 0) 1 demo = Ok s' /\ current s' = 200.
Proof.
  apply (first_queue_bounded_wait 4096 no_timer (fun _ s => s) (fun _ => 0) 0 demo demo_view);
    [|exact demo_abs|exact demo_wf|exact demo_ready|cbn; lia|cbn; lia|done].
  intros _ s v Ha Hwf Hr. exists v. done.
Defined.
