(* ===== verification/Mutex.v ===== *)
(** * The mutexes of [my_pthread/my_pthread.c]

    A mutex is the caller's record; the library keeps the initialised ones in a
    linked list of its own, keyed by the identifiers it hands out.  The lock is
    a spin lock: [test_and_set] and the two writes of [my_pthread_mutex_unlock]
    are the atomic accesses between which the timer can switch threads. *)

From S2P Require Import Prelude CMem Timer MyAlloc Queue Sched.

Record mutex := Mutex { isLocked : Z; mutexID : Z; isInit : Z; mnext : Z }.

(** [mutexList] is [None] while the C pointer is NULL, else the list's head. *)
Record mstate := MState {
  mutexes : gmap Z mutex;
  mutexList : option Z;
  currMutexID : Z;
  msched : sched
}.

Definition set_mutexes f st :=
  MState (f (mutexes st)) (mutexList st) (currMutexID st) (msched st).
Definition set_mutexList h st := MState (mutexes st) h (currMutexID st) (msched st).
Definition set_currMutexID i st := MState (mutexes st) (mutexList st) i (msched st).

Definition with_locked (v : Z) (m : mutex) : mutex := Mutex v (mutexID m) (isInit m) (mnext m).
Definition with_id (v : Z) (m : mutex) : mutex := Mutex (isLocked m) v (isInit m) (mnext m).
Definition with_init (v : Z) (m : mutex) : mutex := Mutex (isLocked m) (mutexID m) v (mnext m).
Definition with_mnext (v : Z) (m : mutex) : mutex := Mutex (isLocked m) (mutexID m) (isInit m) v.

Definition rd_mutex (a : Z) : M mstate mutex := fun st => lift (cell (mutexes st) a) st.
Definition upd_mutex (a : Z) (f : mutex -> mutex) : M mstate unit :=
  m ← rd_mutex a; modify (set_mutexes (<[a := f m]>)).

(** A computation of the scheduler and its allocator. *)
Definition on_sched {A} (m : M sched A) : M mstate A := fun st =>
  match m (msched st) with
  | Ok (a, s) => Ok (a, MState (mutexes st) (mutexList st) (currMutexID st) s)
  | Fault e => Fault e
  | Exit c => Exit c
  end.

(** [mutexList->head] *)
Definition list_head : M mstate Z := fun st =>
  match mutexList st with
  | None => Fault NullDeref
  | Some h => Ok (h, st)
  end.

Definition mutex_bound : M mstate nat := gets (fun st => S (size (mutexes st))).

Definition sizeof_mutex_list : Z := 8.
Definition sizeof_mutex : Z := 24.

(** ** The list *)

Fixpoint existsInMutexList_loop (fuel : nat) (mutexToCheck ptr : Z) : M mstate Z :=
  match fuel with
  | O => raise OutOfFuel
  | S fuel =>
      if ptr =? 0 then mret 0
      else
        m ← rd_mutex ptr;
        if mutexID m =? mutexToCheck then mret 1
        else existsInMutexList_loop fuel mutexToCheck (mnext m)
  end.

Definition existsInMutexList (mutexToCheck : Z) : M mstate Z :=
  ptr ← list_head;
  fuel ← mutex_bound;
  existsInMutexList_loop fuel mutexToCheck ptr.

Definition insertToMutexList (newMutex : Z) : M mstate unit :=
  h ← list_head;
  _ ← upd_mutex newMutex (with_mnext h);
  modify (set_mutexList (Some newMutex)).

Fixpoint removeFromMutexList_loop (fuel : nat) (mID prev ptr : Z) : M mstate Z :=
  match fuel with
  | O => raise OutOfFuel
  | S fuel =>
      if ptr =? 0 then mret 0
      else
        m ← rd_mutex ptr;
        if mutexID m =? mID then
          if prev =? 0 then
            _ ← modify (set_mutexList (Some (mnext m)));
            mret ptr
          else
            _ ← upd_mutex prev (with_mnext (mnext m));
            mret ptr
        else removeFromMutexList_loop fuel mID ptr (mnext m)
  end.

Definition removeFromMutexList (mID : Z) : M mstate Z :=
  ptr ← list_head;
  fuel ← mutex_bound;
  removeFromMutexList_loop fuel mID 0 ptr.

Section mutex.
Context (PAGESIZE : Z) (stack : itimerval).

Definition initMutexList (region : Z) : M mstate unit :=
  l ← gets mutexList;
  match l with
  | Some _ => mret tt
  | None =>
      _ ← on_sched (need PAGESIZE stack region sizeof_mutex_list);
      modify (set_mutexList (Some 0))
  end.

(** The block [myallocate] returns is overwritten by the caller's pointer. *)
Definition my_pthread_mutex_init (region mutex : Z) : M mstate Z :=
  _ ← initMutexList region;
  _ ← on_sched (alloc_call (myallocate PAGESIZE stack region sizeof_mutex LIBRARYREQ));
  id ← gets currMutexID;
  if negb (fits_int (id + 1)) then raise SignedOverflow
  else
    _ ← modify (set_currMutexID (id + 1));
    _ ← upd_mutex mutex (with_id (id + 1));
    _ ← upd_mutex mutex (with_init 1);
    _ ← upd_mutex mutex (with_mnext 0);
    _ ← upd_mutex mutex (with_locked 0);
    _ ← insertToMutexList mutex;
    mret 0.
End mutex.

(** ** Locking *)

(** The guard of [my_pthread_mutex_lock]: the call returns -1. *)
Definition lock_guard (mutex : Z) : M mstate bool :=
  m ← rd_mutex mutex;
  if negb (isInit m =? 1) then
    e ← existsInMutexList (mutexID m);
    mret (negb (e =? 0))
  else mret false.

(** [__sync_lock_test_and_set(&(mutex->isLocked), 1)] *)
Definition test_and_set (mutex : Z) : M mstate Z :=
  m ← rd_mutex mutex;
  _ ← upd_mutex mutex (with_locked 1);
  mret (isLocked m).

(** [__sync_lock_release(&(mutex->isLocked), 1)]: writes 0 *)
Definition lock_release (mutex : Z) : M mstate unit := upd_mutex mutex (with_locked 0).

(** [mutex->isLocked = 0] *)
Definition lock_store (mutex : Z) : M mstate unit := upd_mutex mutex (with_locked 0).

(** A call of [my_pthread_mutex_lock] with [spins] more attempts than the first
    before the scheduler runs another thread: [None] when it still spins. *)
Fixpoint spin (spins : nat) (mutex : Z) : M mstate (option Z) :=
  old ← test_and_set mutex;
  if old =? 0 then mret (Some 0)
  else match spins with O => mret None | S n => spin n mutex end.

Definition my_pthread_mutex_lock (spins : nat) (mutex : Z) : M mstate (option Z) :=
  g ← lock_guard mutex;
  if g : bool then mret (Some (-1)) else spin spins mutex.

Definition my_pthread_mutex_unlock (mutex : Z) : M mstate Z :=
  _ ← lock_release mutex;
  _ ← lock_store mutex;
  mret 0.

Definition my_pthread_mutex_destroy (mutex : Z) : M mstate Z :=
  m ← rd_mutex mutex;
  mFromList ← removeFromMutexList (mutexID m);
  if mFromList =? 0 then mret (-1)
  else
    _ ← upd_mutex mFromList (with_locked 0);
    _ ← upd_mutex mFromList (with_mnext 0);
    _ ← upd_mutex mFromList (with_id (-1));
    _ ← upd_mutex mFromList (with_init 0);
    mret 0.
