(* ===== verification/MutexSpec.v ===== *)
(** * Mutual exclusion and the life of a mutex

    The first part runs the accesses of [my_pthread_mutex_lock] and
    [my_pthread_mutex_unlock] to one mutex as the steps of any number of
    threads.  The lock excludes as long as nothing runs between the two writes
    of an unlock; it does not when the timer strikes there.  The second part
    follows a mutex through [my_pthread_mutex_init] and
    [my_pthread_mutex_destroy]. *)

From S2P Require Import Prelude Chain CMem Timer MyAlloc WordHeap LibHeapSpec Queue Sched Mutex.

(** ** Runs of the accesses *)

Lemma rd_mutex_ok st a m : mutexes st !! a = Some m -> a <> 0 -> rd_mutex a st = Ok (m, st).
Proof. intros E Ha. unfold rd_mutex, lift, cell. by rewrite (Zeqb_f a 0), E by done. Qed.

Lemma upd_mutex_ok st a m f :
  mutexes st !! a = Some m -> a <> 0 ->
  upd_mutex a f st = Ok (tt, set_mutexes (<[a := f m]>) st).
Proof. intros E Ha. unfold upd_mutex. by mstep by (by apply rd_mutex_ok). Qed.

(** ** Threads and their steps *)

Inductive pc := Out | Spinning | Inside | Releasing.

#[export] Instance pc_eq_dec : EqDecision pc.
Proof. solve_decision. Defined.

Definition config : Type := mstate * (Z -> pc).

Definition goes (pcs : Z -> pc) (t : Z) (p : pc) : Z -> pc :=
  fun t' => if decide (t' = t) then p else pcs t'.

Section exclusion.
Context (mx : Z).

(** A thread may be switched away from between two accesses; without
    [preempt], not between the two writes of an unlock. *)
Definition allowed (preempt : bool) (pcs : Z -> pc) (t : Z) : Prop :=
  preempt = true \/ forall t', t' <> t -> pcs t' <> Releasing.

Inductive access (preempt : bool) : config -> config -> Prop :=
  | access_guard st pcs t :
      allowed preempt pcs t -> pcs t = Out -> lock_guard mx st = Ok (false, st) ->
      access preempt (st, pcs) (st, goes pcs t Spinning)
  | access_test st pcs t old st' :
      allowed preempt pcs t -> pcs t = Spinning -> test_and_set mx st = Ok (old, st') ->
      access preempt (st, pcs) (st', goes pcs t (if old =? 0 then Inside else Spinning))
  | access_release st pcs t st' :
      allowed preempt pcs t -> pcs t = Inside -> lock_release mx st = Ok (tt, st') ->
      access preempt (st, pcs) (st', goes pcs t Releasing)
  | access_store st pcs t st' :
      allowed preempt pcs t -> pcs t = Releasing -> lock_store mx st = Ok (tt, st') ->
      access preempt (st, pcs) (st', goes pcs t Out).

(** A mutex that [my_pthread_mutex_init] made, with its lock at [v]. *)
Definition lock_at (st : mstate) (v : Z) : Prop :=
  mx <> 0 /\ exists m, mutexes st !! mx = Some m /\ isInit m = 1 /\ isLocked m = v.

Lemma test_and_set_run st v :
  lock_at st v -> exists st', test_and_set mx st = Ok (v, st') /\ lock_at st' 1.
Proof.
  intros (Hx & m & Em & Hi & Hv). eexists. split.
  - unfold test_and_set. mstep by (by apply rd_mutex_ok). mstep by (by apply upd_mutex_ok).
    by rewrite Hv.
  - split; [done|]. eexists. split; [apply lookup_insert_eq|]. done.
Qed.

Lemma lock_release_run st v :
  lock_at st v -> exists st', lock_release mx st = Ok (tt, st') /\ lock_at st' 0.
Proof.
  intros (Hx & m & Em & Hi & Hv). eexists. split; [by apply upd_mutex_ok|].
  split; [done|]. eexists. split; [apply lookup_insert_eq|]. done.
Qed.

Lemma lock_guard_run st v : lock_at st v -> lock_guard mx st = Ok (false, st).
Proof.
  intros (Hx & m & Em & Hi & Hv). unfold lock_guard. mstep by (by apply rd_mutex_ok).
  by rewrite Hi.
Qed.

(** One thread at most is inside, and then the lock is set; a thread that
    releases is alone. *)
Definition exclusive (c : config) : Prop :=
  let '(st, pcs) := c in
  (exists v, lock_at st v /\ ((exists t, pcs t = Inside) -> v = 1)) /\
  (forall t t', pcs t = Inside -> pcs t' = Inside \/ pcs t' = Releasing -> t = t') /\
  (forall t t', pcs t = Releasing -> pcs t' = Releasing -> t = t').

Lemma goes_cases pcs t p t' q :
  goes pcs t p t' = q -> (t' = t /\ q = p) \/ (t' <> t /\ pcs t' = q).
Proof. unfold goes. destruct (decide (t' = t)) as [->|?]; intros <-; auto. Qed.

Lemma access_exclusive c c' : access false c c' -> exclusive c -> exclusive c'.
Proof.
  intros Hstep.
  destruct Hstep as [st pcs t [?|Hal] Hpc _|st pcs t old st' [?|Hal] Hpc E
    |st pcs t st' [?|Hal] Hpc E|st pcs t st' [?|Hal] Hpc E]; try done;
    intros ((v & Hv & Hin) & Hu & Hrel).
  - split_and!.
    + exists v. split; [done|]. intros (t' & [[-> ?]|[_ ?]]%goes_cases); [done|]. eauto.
    + intros t1 t2 [[-> ?]|[_ ?]]%goes_cases; [done|].
      intros [[[-> ?]|[_ ?]]%goes_cases|[[-> ?]|[_ ?]]%goes_cases]; try done; eauto.
    + intros t1 t2 [[-> ?]|[_ ?]]%goes_cases; [done|]. intros [[-> ?]|[_ ?]]%goes_cases; eauto; done.
  - destruct (test_and_set_run st v Hv) as (st1 & E1 & H1). rewrite E in E1. injection E1 as -> ->.
    assert (forall t', pcs t' <> Releasing) as Hnr.
    { intros t' Ht'. destruct (decide (t' = t)) as [->|Hne]; [congruence|]. by apply (Hal t'). }
    split_and!.
    + by exists 1.
    + intros t1 t2 H2 [H3|H3].
      * apply goes_cases in H2 as [[-> H2]|[Hne H2]], H3 as [[-> H3]|[Hne' H3]]; try done; [| |by eauto].
        -- destruct (v =? 0) eqn:Ev; [|done]. bprop. assert (v = 1) by eauto. lia.
        -- destruct (v =? 0) eqn:Ev; [|done]. bprop. assert (v = 1) by eauto. lia.
      * apply goes_cases in H3 as [[-> H3]|[_ H3]]; [by destruct (v =? 0)|]. by destruct (Hnr t2).
    + intros t1 t2 [[-> H2]|[_ H2]]%goes_cases; [by destruct (v =? 0)|]. by destruct (Hnr t1).
  - destruct (lock_release_run st v Hv) as (st1 & E1 & H1). rewrite E in E1. injection E1 as ->.
    split_and!.
    + exists 0. split; [done|]. intros (t' & [[-> ?]|[Hne H2]]%goes_cases); [done|].
      destruct Hne. symmetry. by apply (Hu t t'); [|left].
    + intros t1 t2 [[-> ?]|[Hne H2]]%goes_cases; [done|]. destruct Hne.
      symmetry. by apply (Hu t t1); [|left].
    + intros t1 t2 [[-> _]|[Hne H2]]%goes_cases [[-> _]|[Hne' H3]]%goes_cases; try done.
      * exfalso. apply Hne'. symmetry. by apply (Hu t t2); [|right].
      * exfalso. apply Hne. symmetry. by apply (Hu t t1); [|right].
      * by apply Hrel.
  - destruct (lock_release_run st v Hv) as (st1 & E1 & H1).
    unfold lock_store in E. unfold lock_release in E1. rewrite E in E1. injection E1 as ->.
    split_and!.
    + exists 0. split; [done|]. intros (t' & [[-> ?]|[Hne H2]]%goes_cases); [done|].
      destruct Hne. by apply (Hu t' t); [|right].
    + intros t1 t2 [[-> ?]|[Hne H2]]%goes_cases; [done|]. destruct Hne.
      by apply (Hu t1 t); [|right].
    + intros t1 t2 [[-> ?]|[Hne H2]]%goes_cases; [done|]. destruct Hne. by apply Hrel.
Qed.
End exclusion.

(** C15: Mutual exclusion: however the accesses of any number of threads to an
    initialised mutex interleave, two threads are never both between
    [my_pthread_mutex_lock] and [my_pthread_mutex_unlock], provided that no
    thread runs between the two writes of another's unlock. *)
Theorem mutex_exclusion mx st st' pcs t t' :
  lock_at mx st 0 -> rtc (access mx false) (st, fun _ => Out) (st', pcs) ->
  pcs t = Inside -> pcs t' = Inside -> t = t'.
Proof.
  intros Hl Hrun Ht Ht'.
  assert (exclusive mx (st', pcs)) as (_ & Hu & _).
  { assert (exclusive mx (st, fun _ => Out)) as H0.
    { split_and!; [|done..]. exists 0. split; [done|]. by intros []. }
    remember (st', pcs) as c' eqn:Ec. clear Ec. induction Hrun; [done|].
    apply IHHrun. by eapply access_exclusive. }
  apply Hu; auto.
Qed.

(** ** The two writes of an unlock *)

Section race.
Context (mx : Z).

Lemma race_enter st v pcs t :
  lock_at mx st v -> pcs t = Out -> access mx true (st, pcs) (st, goes pcs t Spinning).
Proof. intros Hl Hp. apply access_guard; [by left|done|by eapply lock_guard_run]. Qed.

Lemma race_acquire st pcs t :
  lock_at mx st 0 -> pcs t = Spinning ->
  exists st', access mx true (st, pcs) (st', goes pcs t Inside) /\ lock_at mx st' 1.
Proof.
  intros Hl Hp. destruct (test_and_set_run mx st 0 Hl) as (st' & E & Hl').
  exists st'. split; [|done]. by apply (access_test mx true st pcs t 0); [left|..].
Qed.

(** A thread that is outside gets the free lock. *)
Lemma race_lock st pcs t :
  lock_at mx st 0 -> pcs t = Out ->
  exists st', rtc (access mx true) (st, pcs) (st', goes (goes pcs t Spinning) t Inside) /\
    lock_at mx st' 1.
Proof.
  intros Hl Hp.
  destruct (race_acquire st (goes pcs t Spinning) t Hl) as (st' & H & Hl').
  { unfold goes. by rewrite decide_True. }
  exists st'. split; [|done]. eapply rtc_l; [by eapply race_enter|]. by apply rtc_once.
Qed.
End race.

(** C37: [my_pthread_mutex_unlock] writes the lock twice.  When the timer
    strikes between the two writes, a second thread can lock the mutex, the
    second write opens it again, and a third thread gets in too: two threads
    are inside. *)
Theorem unlock_not_atomic mx st :
  lock_at mx st 0 ->
  exists st' pcs, rtc (access mx true) (st, fun _ => Out) (st', pcs) /\
    pcs 2 = Inside /\ pcs 3 = Inside.
Proof.
  intros H0.
  destruct (race_lock mx st (fun _ => Out) 1 H0 eq_refl) as (st1 & S1 & H1).
  destruct (lock_release_run mx st1 1 H1) as (st2 & E2 & H2).
  set (p1 := goes (goes _ 1 Spinning) 1 Inside) in S1.
  assert (access mx true (st1, p1) (st2, goes p1 1 Releasing)) as S2
    by (apply access_release; [by left|done|done]).
  destruct (race_lock mx st2 (goes p1 1 Releasing) 2 H2 eq_refl) as (st3 & S3 & H3).
  set (p3 := goes (goes _ 2 Spinning) 2 Inside) in S3.
  destruct (lock_release_run mx st3 1 H3) as (st4 & E4 & H4).
  assert (access mx true (st3, p3) (st4, goes p3 1 Out)) as S4
    by (apply access_store; [by left|done|exact E4]).
  destruct (race_lock mx st4 (goes p3 1 Out) 3 H4 eq_refl) as (st5 & S5 & _).
  exists st5, (goes (goes (goes p3 1 Out) 3 Spinning) 3 Inside).
  split; [|split; reflexivity].
  etransitivity; [exact S1|]. eapply rtc_l; [exact S2|].
  etransitivity; [exact S3|]. eapply rtc_l; [exact S4|]. exact S5.
Qed.

(** ** The list of the library *)

Notation mlinked := (chain mnext).

(** The initialised mutexes [l]: linked, each with an identifier of its own
    among those handed out. *)
Record mrep (st : mstate) (l : list Z) : Prop := MRep {
  mrep_list : exists h, mutexList st = Some h /\ mlinked (mutexes st) h l 0;
  mrep_nodup : NoDup l;
  mrep_entry x m : x ∈ l -> mutexes st !! x = Some m ->
    isInit m = 1 /\ 0 < mutexID m <= currMutexID st;
  mrep_inj x y m m' : x ∈ l -> y ∈ l -> mutexes st !! x = Some m -> mutexes st !! y = Some m' ->
    mutexID m = mutexID m' -> x = y
}.


(** Only mutex [a] changed, and the head of the list. *)
Definition changes (a : Z) (st st' : mstate) : Prop :=
  forall y, y <> a -> mutexes st' !! y = mutexes st !! y.

Section life.
Context (PAGESIZE : Z) (stack : itimerval) (region : Z).

(** The allocator has room for the structure [my_pthread_mutex_init] asks
    for and then forgets. *)
Definition init_allocates (s : sched) : Prop :=
  is_ok (alloc_call (myallocate PAGESIZE stack region sizeof_mutex LIBRARYREQ) s) = true.

Lemma init_run st h a m :
  mutexList st = Some h -> init_allocates (msched st) -> mutexes st !! a = Some m -> a <> 0 ->
  fits_int (currMutexID st + 1) = true ->
  exists st', my_pthread_mutex_init PAGESIZE stack region a st = Ok (0, st') /\
    mutexes st' !! a = Some (Mutex 0 (currMutexID st + 1) 1 h) /\ changes a st st' /\
    mutexList st' = Some a /\ currMutexID st' = currMutexID st + 1.
Proof.
  intros El Hal Em Ha Hfit. unfold init_allocates in Hal.
  destruct (alloc_call _ (msched st)) as [[p s1]|e|c] eqn:Eal; [|done..].
  set (st1 := MState (mutexes st) (mutexList st) (currMutexID st) s1).
  set (id := currMutexID st + 1) in *.
  set (st2 := set_currMutexID id st1).
  set (st3 := set_mutexes (<[a := with_id id m]>) st2).
  set (st4 := set_mutexes (<[a := with_init 1 (with_id id m)]>) st3).
  set (st5 := set_mutexes (<[a := with_mnext 0 (with_init 1 (with_id id m))]>) st4).
  set (st6 := set_mutexes (<[a := with_locked 0 (with_mnext 0 (with_init 1 (with_id id m)))]>) st5).
  exists (set_mutexList (Some a) (set_mutexes (<[a := Mutex 0 id 1 h]>) st6)). split_and!.
  - unfold my_pthread_mutex_init.
    mstep by (unfold initMutexList; mstep by done; by rewrite El).
    mstep by (unfold on_sched; rewrite Eal; done). fold st1. mstep by done.
    change (currMutexID st1 + 1) with id. rewrite Hfit. cbn [negb]. mstep by done. fold st2.
    mstep by (by apply (upd_mutex_ok st2 a m)). fold st3.
    mstep by (apply upd_mutex_ok; [apply lookup_insert_eq|done]). fold st4.
    mstep by (apply upd_mutex_ok; [apply lookup_insert_eq|done]). fold st5.
    mstep by (apply upd_mutex_ok; [apply lookup_insert_eq|done]). fold st6.
    assert (list_head st6 = Ok (h, st6)) as Eh by (unfold list_head; cbn; by rewrite El).
    mstep by (unfold insertToMutexList; mstep by exact Eh;
      mstep by (apply upd_mutex_ok; [apply lookup_insert_eq|done]); done). done.
  - cbn. apply lookup_insert_eq.
  - intros y Hy. cbn. by rewrite !lookup_insert_ne.
  - done.
  - done.
Qed.
End life.

(** [my_pthread_mutex_init] makes the caller's mutex an unlocked one with a
    fresh identifier and puts it in front of the library's list; the other
    mutexes stay as they are. *)
Theorem mutex_init_correct PAGESIZE stack region st l a m :
  mrep st l -> a ∉ l -> mutexes st !! a = Some m -> a <> 0 ->
  fits_int (currMutexID st + 1) = true -> 0 <= currMutexID st ->
  init_allocates PAGESIZE stack region (msched st) ->
  exists st', my_pthread_mutex_init PAGESIZE stack region a st = Ok (0, st') /\
    mrep st' (a :: l) /\ lock_at a st' 0 /\ changes a st st' /\
    (forall x mx, x ∈ l -> mutexes st !! x = Some mx -> mutexID mx <> currMutexID st').
Proof.
  intros [(h & El & Hl) Hnd Hent Hinj] Hal Em Ha Hfit Hid Hreg.
  destruct (init_run PAGESIZE stack region st h a m El Hreg Em Ha Hfit)
    as (st' & E & Ea & Hch & El' & Eid).
  assert (forall x mx, x ∈ l -> mutexes st' !! x = Some mx -> mutexes st !! x = Some mx) as Hback
    by (intros x mx Hx; rewrite Hch; [done|by intros ->]).
  exists st'. split_and!; [done| | |done|].
  - split.
    + exists a. split; [done|]. split; [done|]. split; [done|].
      eexists. split; [exact Ea|]. cbn [mnext]. eapply chain_frame; [|exact Hl].
      intros y my Hy Ey. exists my. rewrite Hch; [done|by intros ->].
    + by apply NoDup_cons.
    + intros x mx [->|Hx]%elem_of_cons Ex.
      * rewrite Ea in Ex. injection Ex as <-. cbn. lia.
      * destruct (Hent x mx Hx (Hback _ _ Hx Ex)). split; [done|]. lia.
    + intros x y mx my [->|Hx]%elem_of_cons [->|Hy]%elem_of_cons Ex Ey He; try done.
      * rewrite Ea in Ex. injection Ex as <-. cbn in He.
        destruct (Hent y my Hy (Hback _ _ Hy Ey)). lia.
      * rewrite Ea in Ey. injection Ey as <-. cbn in He.
        destruct (Hent x mx Hx (Hback _ _ Hx Ex)). lia.
      * apply (Hinj x y mx my); auto.
  - split; [done|]. by eexists.
  - intros x mx Hx Ex. destruct (Hent x mx Hx Ex). lia.
Qed.

(** ** Destruction *)

Definition mdata (st : mstate) : gmap Z mutex := with_mnext 0 <$> mutexes st.

Lemma mdata_lookup st y d :
  mdata st !! y = Some d <-> exists m, mutexes st !! y = Some m /\ d = with_mnext 0 m.
Proof. unfold mdata. rewrite lookup_fmap, fmap_Some. naive_solver. Qed.

(** The walks over the list when no mutex has the identifier. *)
Definition no_id (st : mstate) (id : Z) (l : list Z) : Prop :=
  forall x m, x ∈ l -> mutexes st !! x = Some m -> mutexID m <> id.

Lemma exists_absent st id l fuel ptr :
  mlinked (mutexes st) ptr l 0 -> no_id st id l -> (length l < fuel)%nat ->
  existsInMutexList_loop fuel id ptr st = Ok (0, st).
Proof.
  revert fuel ptr. induction l as [|x l IH]; intros fuel ptr Hl Hno Hf;
    (destruct fuel as [|fuel]; [cbn in Hf; lia|]); cbn [existsInMutexList_loop].
  - cbn in Hl. by subst.
  - destruct Hl as (-> & Hx & m & Em & Hl). rewrite (Zeqb_f x 0) by done.
    mstep by (by apply rd_mutex_ok). rewrite (Zeqb_f (mutexID m)) by (apply (Hno x); set_solver).
    apply IH; [done| |cbn in Hf; lia]. intros y my Hy. apply Hno. set_solver.
Qed.

Lemma remove_absent st id l fuel prev ptr :
  mlinked (mutexes st) ptr l 0 -> no_id st id l -> (length l < fuel)%nat ->
  removeFromMutexList_loop fuel id prev ptr st = Ok (0, st).
Proof.
  revert fuel prev ptr. induction l as [|x l IH]; intros fuel prev ptr Hl Hno Hf;
    (destruct fuel as [|fuel]; [cbn in Hf; lia|]); cbn [removeFromMutexList_loop].
  - cbn in Hl. by subst.
  - destruct Hl as (-> & Hx & m & Em & Hl). rewrite (Zeqb_f x 0) by done.
    mstep by (by apply rd_mutex_ok). rewrite (Zeqb_f (mutexID m)) by (apply (Hno x); set_solver).
    apply IH; [done| |cbn in Hf; lia]. intros y my Hy. apply Hno. set_solver.
Qed.

(** The state without the mutex that follows [pre]. *)
Definition munlink (pre : list Z) (m : mutex) (st : mstate) : mstate :=
  match last pre with
  | None => set_mutexList (Some (mnext m)) st
  | Some p =>
      match mutexes st !! p with
      | Some mp => set_mutexes (<[p := with_mnext (mnext m) mp]>) st
      | None => st
      end
  end.

Lemma munlink_list st h pre a post m :
  mutexList st = Some h -> mlinked (mutexes st) h (pre ++ a :: post) 0 ->
  NoDup (pre ++ a :: post) -> mutexes st !! a = Some m ->
  let st' := munlink pre m st in
  (exists h', mutexList st' = Some h' /\ mlinked (mutexes st') h' (pre ++ post) 0) /\
  mdata st' = mdata st /\ mutexes st' !! a = Some m /\ currMutexID st' = currMutexID st.
Proof.
  intros El Hl Hnd Em. apply chain_app in Hl as (c & Hpre & -> & Ha & m0 & Em0 & Hpost).
  replace m0 with m in * by congruence. clear m0 Em0.
  apply NoDup_app in Hnd as (Hnp & Hnd & Hnq). apply NoDup_cons in Hnq as [Hap Hnq].
  unfold munlink. destruct (last pre) as [p|] eqn:Elast.
  - pose proof (last_Some_elem_of _ _ Elast) as Hp.
    destruct (chain_lookup _ _ _ _ p Hpre Hp) as (Hp0 & mp & Emp). rewrite Emp.
    assert (p <> a) as Hpa by (intros ->; apply (Hnd a Hp); set_solver).
    assert (p ∉ post) as Hpp by (intros H; apply (Hnd p Hp); set_solver).
    split_and!; [| |cbn; by rewrite lookup_insert_ne|done].
    + exists h. split; [done|]. apply chain_app. exists (mnext m). split.
      * eapply chain_redirect; [exact Hpre|exact Elast|done| |]; cbn.
        -- intros mr _. eexists. split; [apply lookup_insert_eq|done].
        -- intros y my _ Hy Ey. exists my. by rewrite lookup_insert_ne.
      * eapply chain_frame; [|exact Hpost]. intros y my Hy Ey. exists my. cbn.
        rewrite lookup_insert_ne; [done|]. by intros ->.
    + unfold mdata. cbn. rewrite fmap_insert. apply insert_id. by rewrite lookup_fmap, Emp.
  - apply last_None in Elast as ->. split_and!; [|done..]. exists (mnext m). by split.
Qed.

Lemma remove_loop st id a m post mid pre fuel prev ptr :
  mlinked (mutexes st) ptr (mid ++ a :: post) 0 -> mutexes st !! a = Some m -> mutexID m = id ->
  no_id st id mid -> prev = default 0 (last pre) ->
  (forall p, last pre = Some p -> p <> 0 /\ is_Some (mutexes st !! p)) ->
  (forall x, x ∈ mid -> x <> 0) ->
  (length mid < fuel)%nat ->
  removeFromMutexList_loop fuel id prev ptr st = Ok (a, munlink (pre ++ mid) m st).
Proof.
  intros Hl Em Hid. revert pre fuel prev ptr Hl.
  induction mid as [|x mid IH]; intros pre fuel prev ptr Hl Hno -> Hpre Hmid Hf;
    (destruct fuel as [|fuel]; [cbn in Hf; lia|]); cbn [removeFromMutexList_loop].
  - destruct Hl as (-> & Ha & m0 & Em0 & _). replace m0 with m in * by congruence.
    rewrite (Zeqb_f a 0) by done. mstep by (by apply rd_mutex_ok). rewrite Hid, Z.eqb_refl.
    rewrite app_nil_r. unfold munlink. destruct (last pre) as [p|] eqn:Elast; cbn.
    + destruct (Hpre p eq_refl) as [Hp [mp Emp]]. rewrite (Zeqb_f p 0), Emp by done.
      by mstep by (by apply upd_mutex_ok).
    + by mstep by done.
  - destruct Hl as (-> & Hx & mx & Ex & Hl). rewrite (Zeqb_f x 0) by done.
    mstep by (by apply rd_mutex_ok). rewrite (Zeqb_f (mutexID mx)) by (apply (Hno x); set_solver).
    replace (pre ++ x :: mid) with ((pre ++ [x]) ++ mid) by (by rewrite <- app_assoc).
    apply IH; [done| |by rewrite last_snoc| | |cbn in Hf; lia].
    + intros y my Hy. apply Hno. set_solver.
    + intros p. rewrite last_snoc. intros [= <-]. eauto.
    + intros y Hy. apply Hmid. set_solver.
Qed.

Lemma remove_run st l1 a l2 m :
  mrep st (l1 ++ a :: l2) -> mutexes st !! a = Some m ->
  removeFromMutexList (mutexID m) st = Ok (a, munlink l1 m st) /\ a <> 0.
Proof.
  intros [(h & El & Hl) Hnd Hent Hinj] Em.
  pose proof (chain_size _ _ _ _ Hl Hnd) as Hsz. rewrite length_app in Hsz.
  assert (forall x, x ∈ l1 ++ a :: l2 -> x <> 0) as Hnz
    by (intros x Hx; by destruct (chain_lookup _ _ _ _ x Hl Hx)).
  split; [|apply Hnz; set_solver].
  unfold removeFromMutexList, list_head. rewrite bind_ok_l with (a := h) (s' := st) by (by rewrite El).
  mstep by done.
  rewrite (remove_loop st (mutexID m) a m l2 l1 [] _ 0 h); [done|done|done|done| |done|done| |lia].
  - intros x mx Hx Ex He. apply NoDup_app in Hnd as (_ & Hnd & _).
    apply (Hnd x Hx). apply elem_of_cons. left.
    apply (Hinj x a mx m); [set_solver|set_solver|done|done|done].
  - intros x Hx. apply Hnz. set_solver.
Qed.

Lemma destroy_run st l1 a l2 m :
  mrep st (l1 ++ a :: l2) -> mutexes st !! a = Some m ->
  exists st', my_pthread_mutex_destroy a st = Ok (0, st') /\
    mrep st' (l1 ++ l2) /\ mutexes st' !! a = Some (Mutex 0 (-1) 0 0) /\
    (forall y, y <> a -> mdata st' !! y = mdata st !! y).
Proof.
  intros Hrep Em. destruct (remove_run st l1 a l2 m Hrep Em) as [Erm Ha].
  pose proof Hrep as [(h & El & Hl) Hnd Hent Hinj].
  destruct (munlink_list st h l1 a l2 m El Hl Hnd Em) as ((h' & El' & Hl') & Hd & Em1 & Eid).
  set (st1 := munlink l1 m st) in *.
  set (st2 := set_mutexes (<[a := with_locked 0 m]>) st1).
  set (st3 := set_mutexes (<[a := with_mnext 0 (with_locked 0 m)]>) st2).
  set (st4 := set_mutexes (<[a := with_id (-1) (with_mnext 0 (with_locked 0 m))]>) st3).
  set (st5 := set_mutexes (<[a := Mutex 0 (-1) 0 0]>) st4).
  assert (forall y, y <> a -> mutexes st5 !! y = mutexes st1 !! y) as Hch
    by (intros y Hy; cbn; by rewrite !lookup_insert_ne).
  assert (forall y, y <> a -> mdata st5 !! y = mdata st !! y) as Hmd.
  { intros y Hy. rewrite <- Hd. unfold mdata. by rewrite !lookup_fmap, Hch. }
  apply NoDup_app in Hnd as (Hn1 & Hn12 & Hn2). apply NoDup_cons in Hn2 as [Hn2a Hn2].
  assert (a ∉ l1 ++ l2) as Hal.
  { intros [H|H]%elem_of_app; [|done]. apply (Hn12 a H). set_solver. }
  assert (forall x mx, x ∈ l1 ++ l2 -> mutexes st5 !! x = Some mx ->
    exists m0, mutexes st !! x = Some m0 /\ with_mnext 0 mx = with_mnext 0 m0) as Hback.
  { intros x mx Hx Ex. assert (x <> a) as Hxa by (by intros ->).
    assert (mdata st !! x = Some (with_mnext 0 mx)) as E
      by (rewrite <- Hmd by done; apply mdata_lookup; eauto).
    apply mdata_lookup in E as (m0 & ? & ?). eauto. }
  exists st5. split_and!; [|split| |exact Hmd].
  - unfold my_pthread_mutex_destroy. mstep by (by apply rd_mutex_ok). mstep by exact Erm.
    rewrite (Zeqb_f a 0) by done.
    mstep by (by apply (upd_mutex_ok st1 a m)). fold st2.
    mstep by (apply upd_mutex_ok; [apply lookup_insert_eq|done]). fold st3.
    mstep by (apply upd_mutex_ok; [apply lookup_insert_eq|done]). fold st4.
    mstep by (apply upd_mutex_ok; [apply lookup_insert_eq|done]). done.
  - exists h'. split; [done|]. eapply chain_frame; [|exact Hl']. intros y my Hy Ey.
    exists my. rewrite Hch; [done|by intros ->].
  - apply NoDup_app. split_and!; [done| |done]. intros x Hx Hx'. apply (Hn12 x Hx). set_solver.
  - intros x mx Hx Ex. destruct (Hback x mx Hx Ex) as (m0 & E0 & He).
    destruct (Hent x m0) as [H1 H2]; [set_solver|done|]. injection He as _ -> ->.
    split; [done|]. cbn. rewrite Eid. done.
  - intros x y mx my Hx Hy Ex Ey He.
    destruct (Hback x mx Hx Ex) as (m1 & E1 & He1), (Hback y my Hy Ey) as (m2 & E2 & He2).
    apply (Hinj x y m1 m2); [set_solver|set_solver|done|done|]. injection He1. injection He2. congruence.
  - cbn. apply lookup_insert_eq.
Qed.

Lemma no_id_neg st l : mrep st l -> no_id st (-1) l.
Proof. intros [_ _ Hent _] x m Hx Em. destruct (Hent x m Hx Em). lia. Qed.

(** [my_pthread_mutex_destroy] takes an initialised mutex off the library's
    list, clears it and leaves the others as they are; a second call for it
    returns -1. *)
Theorem mutex_destroy_correct st l1 a l2 :
  mrep st (l1 ++ a :: l2) ->
  exists st', my_pthread_mutex_destroy a st = Ok (0, st') /\ mrep st' (l1 ++ l2) /\
    (forall y, y <> a -> mdata st' !! y = mdata st !! y) /\
    my_pthread_mutex_destroy a st' = Ok (-1, st').
Proof.
  intros Hrep. pose proof (mrep_list _ _ Hrep) as (h & _ & Hl).
  destruct (chain_lookup _ _ _ _ a Hl) as (Ha & m & Em); [set_solver|].
  destruct (destroy_run st l1 a l2 m Hrep Em) as (st' & E & Hrep' & Ea & Hmd).
  exists st'. split_and!; [done..|].
  pose proof (mrep_list _ _ Hrep') as (h' & El' & Hl').
  pose proof (chain_size _ _ _ _ Hl' (mrep_nodup _ _ Hrep')) as Hsz.
  unfold my_pthread_mutex_destroy. mstep by (by apply rd_mutex_ok). cbn [mutexID].
  mstep by (unfold removeFromMutexList, list_head;
    rewrite bind_ok_l with (a := h') (s' := st') by (by rewrite El'); mstep by done;
    apply (remove_absent _ _ _ _ _ _ Hl'); [by apply no_id_neg|lia]). done.
Qed.

(** A destroyed mutex can still be locked: the guard of
    [my_pthread_mutex_lock] refuses a mutex that is not initialised only when
    its identifier is in the list, and the identifier of a destroyed one never
    is. *)
Theorem destroyed_mutex_locks st l1 a l2 spins :
  mrep st (l1 ++ a :: l2) ->
  exists st' st'', my_pthread_mutex_destroy a st = Ok (0, st') /\
    my_pthread_mutex_lock spins a st' = Ok (Some 0, st'') /\
    mutexes st'' !! a = Some (Mutex 1 (-1) 0 0).
Proof.
  intros Hrep. pose proof (mrep_list _ _ Hrep) as (h & _ & Hl).
  destruct (chain_lookup _ _ _ _ a Hl) as (Ha & m & Em); [set_solver|].
  destruct (destroy_run st l1 a l2 m Hrep Em) as (st' & E & Hrep' & Ea & _).
  pose proof (mrep_list _ _ Hrep') as (h' & El' & Hl').
  pose proof (chain_size _ _ _ _ Hl' (mrep_nodup _ _ Hrep')) as Hsz.
  exists st', (set_mutexes (<[a := Mutex 1 (-1) 0 0]>) st'). split; [done|]. split.
  - unfold my_pthread_mutex_lock, lock_guard.
    rewrite bind_ok_l with (a := false) (s' := st').
    + assert (test_and_set a st' = Ok (0, set_mutexes (<[a := Mutex 1 (-1) 0 0]>) st')) as Et.
      { unfold test_and_set. mstep by (by apply rd_mutex_ok).
        by mstep by (by apply upd_mutex_ok). }
      by destruct spins; cbn [spin]; mstep by exact Et.
    + mstep by (by apply rd_mutex_ok). cbn.
      mstep by (unfold existsInMutexList, list_head;
        rewrite bind_ok_l with (a := h') (s' := st') by (by rewrite El'); mstep by done;
        apply (exists_absent _ _ _ _ _ Hl'); [by apply no_id_neg|lia]). done.
  - cbn. apply lookup_insert_eq.
Qed.

(** ** An instance *)

(** Two initialised mutexes, at 100 and 200, and one that is not, at 300, in a
    program that has not created a thread. *)
Definition demo_sched : sched := Sched false ∅ ∅ [] [] 0 0 0 0 0 before_init.
Definition demo_mutexes : mstate :=
  MState (<[100 := Mutex 0 2 1 200]> (<[200 := Mutex 0 1 1 0]> {[300 := Mutex 7 7 7 7]}))
    (Some 100) 2 demo_sched.

Lemma demo_mutex_at x m : x ∈ [100; 200] -> mutexes demo_mutexes !! x = Some m ->
  (x = 100 /\ m = Mutex 0 2 1 200) \/ (x = 200 /\ m = Mutex 0 1 1 0).
Proof.
  intros [->|[->|[]%elem_of_nil]%elem_of_cons]%elem_of_cons E; vm_compute in E;
    injection E as <-; auto.
Qed.

Lemma demo_mrep : mrep demo_mutexes [100; 200].
Proof.
  split.
  - exists 100. split; [done|]. split; [done|]. split; [done|]. exists (Mutex 0 2 1 200).
    split; [done|]. split; [done|]. split; [done|]. by exists (Mutex 0 1 1 0).
  - apply NoDup_cons. split; [set_solver|apply NoDup_singleton].
  - intros x m Hx Em. destruct (demo_mutex_at x m Hx Em) as [[_ ->]|[_ ->]]; cbn; lia.
  - intros x y m m' Hx Hy Ex Ey.
    destruct (demo_mutex_at x m Hx Ex) as [[-> ->]|[-> ->]],
      (demo_mutex_at y m' Hy Ey) as [[-> ->]|[-> ->]]; done.
Qed.

Lemma demo_lock : lock_at 100 demo_mutexes 0.
Proof. split; [done|]. by exists (Mutex 0 2 1 200). Qed.

(** Thread 1 locks the mutex. *)
Lemma demo_locked :
  exists st', rtc (access 100 false) (demo_mutexes, fun _ => Out)
    (st', goes (goes (fun _ => Out) 1 Spinning) 1 Inside).
Proof.
  destruct (test_and_set_run 100 demo_mutexes 0 demo_lock) as (st' & E & _). exists st'.
  eapply rtc_l; [|apply rtc_once].
  - apply (access_guard 100 false _ _ 1); [by right|done|by eapply lock_guard_run, demo_lock].
  - apply (access_test 100 false _ _ 1 0); [|done|exact E]. right. intros t' Ht'.
    unfold goes. by rewrite decide_False.
Qed.

Lemma mutex_exclusion_witness :
  exists st' pcs, rtc (access 100 false) (demo_mutexes, fun _ => Out) (st', pcs) /\
    pcs 1 = Inside /\ forall t, pcs t = Inside -> t = 1.
Proof.
  destruct demo_locked as [st' Hrun].
  exists st', (goes (goes (fun _ => Out) 1 Spinning) 1 Inside).
  split; [exact Hrun|]. split; [reflexivity|]. intros t Ht.
  apply (mutex_exclusion 100 demo_mutexes st' _ t 1 demo_lock Hrun Ht). reflexivity.
Defined.

Lemma unlock_not_atomic_witness :
  exists st' pcs, rtc (access 100 true) (demo_mutexes, fun _ => Out) (st', pcs) /\
    pcs 2 = Inside /\ pcs 3 = Inside.
Proof. apply unlock_not_atomic. exact demo_lock. Defined.

Lemma mutex_init_correct_witness :
  exists st', my_pthread_mutex_init 4096 no_timer 4096 300 demo_mutexes = Ok (0, st') /\
    mrep st' [300; 100; 200] /\ lock_at 300 st' 0 /\ changes 300 demo_mutexes st' /\
    (forall x mx, x ∈ [100; 200] -> mutexes demo_mutexes !! x = Some mx ->
       mutexID mx <> currMutexID st').
Proof.
  apply (mutex_init_correct 4096 no_timer 4096 demo_mutexes [100; 200] 300 (Mutex 7 7 7 7) demo_mrep);
    [set_solver|done|done|done|done|]. vm_compute. reflexivity.
Defined.

Lemma mutex_destroy_correct_witness :
  exists st', my_pthread_mutex_destroy 200 demo_mutexes = Ok (0, st') /\ mrep st' [100] /\
    (forall y, y <> 200 -> mdata st' !! y = mdata demo_mutexes !! y) /\
    my_pthread_mutex_destroy 200 st' = Ok (-1, st').
Proof. apply (mutex_destroy_correct demo_mutexes [100] 200 [] demo_mrep). Defined.

Lemma destroyed_mutex_locks_witness :
  exists st' st'', my_pthread_mutex_destroy 100 demo_mutexes = Ok (0, st') /\
    my_pthread_mutex_lock 3 100 st' = Ok (Some 0, st'') /\
    mutexes st'' !! 100 = Some (Mutex 1 (-1) 0 0).
Proof. apply (destroyed_mutex_locks demo_mutexes [] 100 [200] 3 demo_mrep). Defined.
