(* ===== verification/PagingSpec.v ===== *)
(** * Page faults

    [pageSwap] and [swapToMemFromDisk] exchange two pages with their entries,
    and [sigHandler] brings the page of the running thread that belongs at the
    address of the fault, from another place in memory or from the swap file,
    or ends the process. *)

From S2P Require Import Prelude CMem BlockWord Timer MyAlloc PageSpec.

Section paging.
Context (PAGESIZE : Z) (stack : itimerval).
Notation NPAGES := (NPAGES PAGESIZE).
Notation NDISK := (NDISK PAGESIZE).
Notation page_addr := (page_addr PAGESIZE).

(** How the region is divided. *)
Record geometry (s : astate) : Prop := Geometry {
  geo_page : 0 < PAGESIZE;
  geo_whole : MAX_MEMORY mod PAGESIZE = 0;
  geo_user : userSpace s = memory s + LIBPAGES * PAGESIZE;
  geo_table : table_ok PAGESIZE s;
  geo_disk : Z.of_nat (length (diskPages s)) = NDISK
}.

(** The content of page [i] of user space, and of page [i] of the swap file. *)
Definition page_byte (s : astate) (i k : Z) : Z := amem s (page_addr s i + k).
Definition swap_byte (s : astate) (i k : Z) : Z := swp s (PAGESIZE * i + k).

(** ** Two pages are disjoint *)

Lemma page_apart i j k l :
  0 < PAGESIZE -> i <> j -> 0 <= k < PAGESIZE -> 0 <= l < PAGESIZE ->
  PAGESIZE * i + k <> PAGESIZE * j + l.
Proof. intros HP Hij Hk Hl E. apply Hij. nia. Qed.

Lemma page_out i j k :
  0 < PAGESIZE -> i <> j -> 0 <= k < PAGESIZE ->
  PAGESIZE * i + k < PAGESIZE * j \/ PAGESIZE * j + PAGESIZE <= PAGESIZE * i + k.
Proof. intros HP Hij Hk. destruct (Z.lt_gt_cases i j) as [H _]. destruct (H Hij); [left|right]; nia. Qed.

Lemma blit_page m b u i j k :
  0 < PAGESIZE -> 0 <= k < PAGESIZE ->
  blit m (u + PAGESIZE * i) PAGESIZE b (u + PAGESIZE * j + k) =
  if j =? i then b k else m (u + PAGESIZE * j + k).
Proof.
  intros HP Hk. destruct (j =? i) eqn:E; bprop.
  - subst. by apply blit_in.
  - apply blit_out. pose proof (page_out j i k HP E Hk). lia.
Qed.

(** ** [pageSwap] *)

Lemma in_user_ok i s : 0 <= i < NPAGES -> in_user PAGESIZE i s = Ok (tt, s).
Proof. intros Hi. unfold in_user. by rewrite (Zleb_t 0 i), (Zltb_t i) by lia. Qed.

Lemma read_page_ok i s :
  0 <= i < NPAGES -> read_page PAGESIZE i s = Ok (slice (amem s) (page_addr s i), s).
Proof. intros Hi. unfold read_page. by mstep by (by apply in_user_ok). Qed.

Lemma write_page_ok i b s :
  0 <= i < NPAGES ->
  write_page PAGESIZE i b s = Ok (tt, set_amem (blit (amem s) (page_addr s i) PAGESIZE b) s).
Proof. intros Hi. unfold write_page. by mstep by (by apply in_user_ok). Qed.

(** Pages [i] and [j] exchanged, content and entries; both closed. *)
Record swapped (i j : Z) (s s' : astate) : Prop := Swapped {
  sw_pages k : aget (pages s') k =
    if k =? i then aget (pages s) j else if k =? j then aget (pages s) i else aget (pages s) k;
  sw_length : length (pages s') = length (pages s);
  sw_bytes k x : 0 <= x < PAGESIZE -> page_byte s' k x =
    if k =? i then page_byte s j x else if k =? j then page_byte s i x else page_byte s k x;
  sw_prot k : prot s' k = if (k =? i) || (k =? j) then false else prot s k;
  sw_rest : userSpace s' = userSpace s /\ memory s' = memory s /\ thr s' = thr s /\
    timerSet s' = timerSet s /\ tim s' = tim s /\ diskPages s' = diskPages s /\ swp s' = swp s
}.

Lemma pageSwap_spec i j s :
  geometry s -> 0 <= i < NPAGES -> 0 <= j < NPAGES -> i <> j ->
  exists s', pageSwap PAGESIZE i j s = Ok (tt, s') /\ swapped i j s s'.
Proof.
  intros [HP _ _ Ht _] Hi Hj Hij. unfold pageSwap. rewrite (Zeqb_f i j) by done.
  mstep by done. mstep by done.
  match goal with |- context [_ ?st = Ok _] => set (s1 := st) end.
  mstep by (by apply read_page_ok). mstep by (by apply read_page_ok).
  mstep by (by apply write_page_ok).
  match goal with |- context [set_amem ?m s1] => set (m2 := m); set (s2 := set_amem m2 s1) end.
  mstep by (by apply write_page_ok).
  match goal with |- context [set_amem ?m s2] => set (m3 := m); set (s3 := set_amem m3 s2) end.
  assert (table_ok PAGESIZE s3) as Ht3 by exact Ht.
  destruct (get_page_ok PAGESIZE s3 j Ht3 Hj) as (ej & Ej & Gj).
  destruct (get_page_ok PAGESIZE s3 i Ht3 Hi) as (ei & Ei & Gi).
  mstep by exact Gj. mstep by exact Gi.
  destruct (put_page_ok PAGESIZE s3 j ei Ht3 Hj) as (l4 & E4 & Hl4 & H4).
  mstep by exact E4. set (s4 := set_pages l4 s3).
  assert (table_ok PAGESIZE s4) as Ht4 by (unfold table_ok in *; cbn; by rewrite Hl4).
  destruct (put_page_ok PAGESIZE s4 i ej Ht4 Hi) as (l5 & E5 & Hl5 & H5).
  mstep by exact E5. mstep by done.
  eexists. split; [reflexivity|]. cbn in Ej, Ei. split; cbn [pages prot userSpace memory thr
    timerSet tim diskPages swp set_prot set_pages].
  - intros k. rewrite H5. destruct (k =? i) eqn:Ek; [by rewrite Ej|].
    change (pages s4) with l4. rewrite H4. by destruct (k =? j); [rewrite Ei|].
  - rewrite Hl5. exact Hl4.
  - intros k x Hx. unfold page_byte, MyAlloc.page_addr. cbn [userSpace amem set_prot set_pages].
    change (amem s4) with m3. unfold m3. change (amem s2) with m2. unfold MyAlloc.page_addr.
    change (userSpace s4) with (userSpace s). change (userSpace s2) with (userSpace s).
    rewrite blit_page by done. unfold slice, MyAlloc.page_addr.
    destruct (k =? i); [done|]. unfold m2, MyAlloc.page_addr.
    change (userSpace s1) with (userSpace s). rewrite blit_page by done. by destruct (k =? j).
  - intros k. destruct (k =? i) eqn:Eki, (k =? j) eqn:Ekj; cbn; rewrite ?Eki, ?Ekj; done.
  - done.
Qed.

(** ** [swapToMemFromDisk] *)

Lemma get_disk_ok s d :
  Z.of_nat (length (diskPages s)) = NDISK -> 0 <= d < NDISK ->
  exists e, aget (diskPages s) d = Some e /\ get_disk d s = Ok (e, s).
Proof.
  intros Hl Hd.
  assert (exists e, aget (diskPages s) d = Some e) as [e E].
  { unfold aget. rewrite (Zltb_f d 0) by lia. apply lookup_lt_is_Some. lia. }
  exists e. split; [done|]. unfold get_disk. mstep by done. by rewrite E.
Qed.

Lemma put_disk_ok s d v :
  Z.of_nat (length (diskPages s)) = NDISK -> 0 <= d < NDISK ->
  exists l, put_disk d v s = Ok (tt, set_diskPages l s) /\
    length l = length (diskPages s) /\
    forall k, aget l k = if k =? d then Some v else aget (diskPages s) k.
Proof.
  intros Hl Hd.
  assert (exists l, aset (diskPages s) d v = Some l) as [l E].
  { unfold aset. rewrite (Zleb_t 0 d), (Zltb_t d) by lia. cbn. eauto. }
  exists l. split.
  - unfold put_disk. mstep by done. by rewrite E.
  - split; [by apply (aget_aset _ _ _ _ 0 E)|]. intros k. by apply aget_aset.
Qed.

(** Page [i] of user space and page [d] of the swap file exchanged. *)
Record loaded (i d : Z) (s s' : astate) : Prop := Loaded {
  ld_pages k : aget (pages s') k = if k =? i then aget (diskPages s) d else aget (pages s) k;
  ld_disk k : aget (diskPages s') k = if k =? d then aget (pages s) i else aget (diskPages s) k;
  ld_bytes k x : 0 <= x < PAGESIZE ->
    page_byte s' k x = if k =? i then swap_byte s d x else page_byte s k x;
  ld_swap k x : 0 <= x < PAGESIZE ->
    swap_byte s' k x = if k =? d then page_byte s i x else swap_byte s k x;
  ld_prot k : prot s' k = if k =? i then false else prot s k;
  ld_rest : userSpace s' = userSpace s /\ memory s' = memory s /\ thr s' = thr s /\
    timerSet s' = timerSet s
}.

Lemma swapToMemFromDisk_spec i d s :
  geometry s -> thr s <> None -> 0 <= i < NPAGES -> 0 <= d < NDISK ->
  exists s', swapToMemFromDisk PAGESIZE stack i d s = Ok (tt, s') /\ loaded i d s s'.
Proof.
  intros [HP _ _ Ht Hdl] Hthr Hi Hd. unfold swapToMemFromDisk.
  destruct (thr s) as [id|] eqn:Eth; [|done]. clear Hthr.
  set (s1 := set_tim (pause_timer stack (tim s)) s).
  mstep by (unfold pause; rewrite Eth; done). fold s1.
  mstep by done. mstep by done.
  match goal with |- context [_ ?st = Ok _] => set (s2 := st) end.
  mstep by (by apply read_page_ok). mstep by (by apply write_page_ok).
  match goal with |- context [set_amem ?m s2] => set (m3 := m); set (s3 := set_amem m3 s2) end.
  mstep by done.
  match goal with |- context [set_swp ?f s3] => set (f4 := f); set (s4 := set_swp f4 s3) end.
  destruct (get_disk_ok s4 d Hdl Hd) as (ed & Ed & Gd).
  destruct (get_page_ok PAGESIZE s4 i Ht Hi) as (ei & Ei & Gi).
  mstep by exact Gd. mstep by exact Gi.
  destruct (put_disk_ok s4 d ei Hdl Hd) as (l5 & E5 & Hl5 & H5).
  mstep by exact E5. set (s5 := set_diskPages l5 s4).
  destruct (put_page_ok PAGESIZE s5 i ed Ht Hi) as (l6 & E6 & Hl6 & H6).
  mstep by exact E6. mstep by done.
  eexists. split; [unfold unpause; cbn; rewrite Eth; reflexivity|].
  cbn in Ed, Ei. split; cbn [pages prot userSpace memory thr timerSet diskPages set_prot set_pages
    set_tim].
  - intros k. rewrite H6. by destruct (k =? i); [rewrite Ed|].
  - intros k. change (diskPages s5) with l5. rewrite H5. by destruct (k =? d); [rewrite Ei|].
  - intros k x Hx. unfold page_byte, MyAlloc.page_addr. cbn [userSpace amem set_prot set_pages set_tim].
    change (amem s5) with m3. unfold m3, MyAlloc.page_addr.
    change (userSpace s5) with (userSpace s). change (userSpace s2) with (userSpace s).
    rewrite blit_page by done. by destruct (k =? i).
  - intros k x Hx. unfold swap_byte. cbn [swp set_prot set_pages set_tim].
    change (swp s5) with f4. unfold f4.
    pose proof (blit_page (swp s3) (slice (amem s2) (page_addr s2 i)) 0 d k x HP Hx) as H.
    rewrite !Z.add_0_l in H. rewrite H. by destruct (k =? d).
  - intros k. by destruct (k =? i).
  - by rewrite Eth.
Qed.

(** ** [sigHandler] *)

Lemma find_index_some P l b i :
  find_index P l b = Some i ->
  b <= i < b + Z.of_nat (length l) /\ exists e, l !! Z.to_nat (i - b) = Some e /\ P i e = true.
Proof.
  revert b. induction l as [|e l IH]; intros b E; [done|]. cbn in E.
  destruct (P b e) eqn:Ep.
  - injection E as <-. split; [cbn; lia|]. exists e. by rewrite Z.sub_diag.
  - apply IH in E as (Hi & e' & El & Hp). split; [cbn; lia|]. exists e'. split; [|done].
    replace (Z.to_nat (i - b)) with (S (Z.to_nat (i - (b + 1)))) by lia. done.
Qed.

(** The page of user space an address lies in. *)
Definition page_index (s : astate) (addr : Z) : Z := (addr - userSpace s) / PAGESIZE.

Definition in_userspace (s : astate) (addr : Z) : Prop :=
  userSpace s <= addr < memory s + MAX_MEMORY.

(** The places where the handler looks for the page of thread [id]. *)
Definition memory_place (s : astate) (id addr : Z) : option Z :=
  find_index (fun _ e => owned_by id (page_index s addr) e) (pages s) 0.
Definition swap_place (s : astate) (id addr : Z) : option Z :=
  find_index (fun _ e => (getPageIsF e =? 0) && owned_by id (page_index s addr) e)
    (diskPages s) 0.

Lemma page_index_range s addr :
  geometry s -> in_userspace s addr -> 0 <= page_index s addr < NPAGES.
Proof.
  intros [HP Hw Hu _ _] [Ha1 Ha2]. unfold page_index, MyAlloc.NPAGES.
  assert (MAX_MEMORY = PAGESIZE * (MAX_MEMORY / PAGESIZE)) as Em
    by (pose proof (Z.div_mod MAX_MEMORY PAGESIZE ltac:(lia)); lia).
  split; [apply Z.div_pos; lia|].
  apply Z.div_lt_upper_bound; [lia|]. nia.
Qed.

Lemma handler_index s addr :
  geometry s -> in_userspace s addr ->
  Z.quot (swrap 32 (addr - userSpace s)) PAGESIZE = page_index s addr.
Proof.
  intros [HP Hw Hu _ _] [Ha1 Ha2]. assert (0 < LIBPAGES * PAGESIZE) by (unfold LIBPAGES; lia).
  rewrite swrap_small by (unfold MAX_MEMORY in *; cbn; lia).
  unfold page_index. apply Z.quot_div_nonneg; lia.
Qed.

Lemma pause_if_set_ok s :
  thr s <> None -> exists t, pause_if_set stack s = Ok (tt, set_tim t s).
Proof.
  intros Ht. unfold pause_if_set. rewrite bind_ok_l with (a := timerSet s) (s' := s) by done.
  unfold when, pause. destruct (timerSet s); [|exists (tim s); by destruct s].
  destruct (thr s); [by eexists|done].
Qed.

Lemma unpause_if_set_ok s :
  thr s <> None -> exists t, unpause_if_set s = Ok (tt, set_tim t s).
Proof.
  intros Ht. unfold unpause_if_set. rewrite bind_ok_l with (a := timerSet s) (s' := s) by done.
  unfold when, unpause. destruct (timerSet s); [|exists (tim s); by destruct s].
  destruct (thr s); [by eexists|done].
Qed.

(** The search of the handler, after its checks. *)
Lemma sigHandler_search s addr id n :
  geometry s -> in_userspace s addr -> thr s = Some (id, n) ->
  exists t, let s1 := set_tim t s in let index := page_index s addr in
    sigHandler PAGESIZE stack addr s =
    match memory_place s id addr with
    | Some i =>
        (_ ← (if i =? index then mret tt else pageSwap PAGESIZE index i);
         _ ← mprotect index true; unpause_if_set) s1
    | None =>
        match swap_place s id addr with
        | Some i =>
            (_ ← swapToMemFromDisk PAGESIZE stack index i;
             _ ← mprotect index true; unpause_if_set) s1
        | None => Exit 1
        end
    end.
Proof.
  intros Hg Ha Eth. destruct (pause_if_set_ok s) as [t Et]; [by rewrite Eth|].
  exists t. cbv zeta. unfold sigHandler. mstep by exact Et. set (s1 := set_tim t s).
  mstep by done. pose proof Hg as [HP _ Hu _ _]. pose proof Ha as [Ha1 Ha2].
  assert (0 < LIBPAGES * PAGESIZE) by (unfold LIBPAGES; lia).
  change (memory s1) with (memory s). change (userSpace s1) with (userSpace s).
  rewrite (Zltb_f (memory s + MAX_MEMORY) addr), (Zltb_f addr (memory s)),
    (Zltb_f addr (userSpace s)) by lia. cbn [orb andb].
  change (thr s1) with (thr s). rewrite Eth, handler_index by done.
  unfold memory_place, swap_place. change (pages s1) with (pages s).
  change (diskPages s1) with (diskPages s).
  destruct (find_index _ (pages s) 0) as [i|]; [done|].
  by destruct (find_index _ (diskPages s) 0) as [i|].
Qed.

(** What the handler guarantees of the page at [index]: it can be accessed,
    belongs there, and holds what [content] says. *)
Definition brought (id : Z) (addr : Z) (content : Z -> Z) (s s' : astate) : Prop :=
  let index := page_index s addr in
  prot s' index = true /\
  (exists e, aget (pages s') index = Some e /\ owned_by id index e = true) /\
  (forall x, 0 <= x < PAGESIZE -> page_byte s' index x = content x).

Lemma geometry_tim t s : geometry s -> geometry (set_tim t s).
Proof. intros [H1 H2 H3 H4 H5]. by split. Qed.

Lemma finish_fault index s :
  thr s <> None ->
  exists t, (_ ← mprotect index true; unpause_if_set) s =
    Ok (tt, set_tim t (set_prot (fun x => if x =? index then true else prot s x) s)).
Proof.
  intros Ht. set (s1 := set_prot (fun x => if x =? index then true else prot s x) s).
  destruct (unpause_if_set_ok s1) as [t Et]; [done|]. exists t. by mstep by done.
Qed.

Lemma memory_fault s addr id n i :
  geometry s -> in_userspace s addr -> thr s = Some (id, n) ->
  memory_place s id addr = Some i ->
  exists s', sigHandler PAGESIZE stack addr s = Ok (tt, s') /\
    brought id addr (page_byte s i) s s' /\
    (forall k x, 0 <= x < PAGESIZE -> page_byte s' k x =
       page_byte s (if k =? page_index s addr then i else if k =? i then page_index s addr else k) x) /\
    (forall k, aget (pages s') k =
       aget (pages s) (if k =? page_index s addr then i else if k =? i then page_index s addr else k)) /\
    (forall k, k <> page_index s addr -> prot s' k = true -> prot s k = true).
Proof.
  intros Hg Ha Eth Ei. pose proof (page_index_range s addr Hg Ha) as Hix.
  destruct (sigHandler_search s addr id n Hg Ha Eth) as (t & E). cbv zeta in E. rewrite Ei in E.
  set (ix := page_index s addr) in *. set (s1 := set_tim t s) in *.
  unfold memory_place in Ei. apply find_index_some in Ei as (Hi & e & Ee & Ho).
  rewrite Z.sub_0_r in Ee. pose proof (geo_table _ Hg) as Ht. unfold table_ok in Ht.
  assert (aget (pages s) i = Some e) as Eg by (by rewrite aget_lookup by lia).
  assert (exists s2, (if i =? ix then mret tt else pageSwap PAGESIZE ix i) s1 = Ok (tt, s2) /\
    (forall k, aget (pages s2) k =
       aget (pages s) (if k =? ix then i else if k =? i then ix else k)) /\
    (forall k x, 0 <= x < PAGESIZE -> page_byte s2 k x =
       page_byte s (if k =? ix then i else if k =? i then ix else k) x) /\
    (forall k, prot s2 k = true -> prot s k = true) /\ thr s2 <> None) as (s2 & E2 & Hpg & Hby & Hpr & Hth).
  { destruct (i =? ix) eqn:Eii; bprop.
    - exists s1. subst i. split; [done|]. split_and!; try done.
      + intros k. by destruct (k =? ix) eqn:Ek; bprop; subst.
      + intros k x _. by destruct (k =? ix) eqn:Ek; bprop; subst.
      + change (thr s1) with (thr s). by rewrite Eth.
    - destruct (pageSwap_spec ix i s1 (geometry_tim t s Hg) Hix) as (s2 & E2 & [Hp _ Hb Hpr Hrest]);
        [lia|done|].
      exists s2. split; [done|]. split_and!.
      + intros k. rewrite Hp. by destruct (k =? ix), (k =? i).
      + intros k x Hx. rewrite Hb by done. by destruct (k =? ix), (k =? i).
      + intros k. rewrite Hpr. by destruct (_ || _).
      + destruct Hrest as (_ & _ & -> & _). change (thr s1) with (thr s). by rewrite Eth. }
  destruct (finish_fault ix s2 Hth) as [t' E'].
  eexists. split; [rewrite E; mstep by exact E2; exact E'|].
  split_and!; [split_and!| | |].
  - cbn. by rewrite Z.eqb_refl.
  - exists e. split; [|done]. cbn. rewrite Hpg. fold ix. by rewrite Z.eqb_refl.
  - intros x Hx. fold ix. unfold page_byte in *. cbn. specialize (Hby ix x Hx).
    rewrite Z.eqb_refl in Hby. exact Hby.
  - intros k x Hx. exact (Hby k x Hx).
  - intros k. exact (Hpg k).
  - intros k Hk. cbn. rewrite (Zeqb_f k ix) by done. apply Hpr.
Qed.

Lemma swap_fault s addr id n d :
  geometry s -> in_userspace s addr -> thr s = Some (id, n) ->
  memory_place s id addr = None -> swap_place s id addr = Some d ->
  exists s', sigHandler PAGESIZE stack addr s = Ok (tt, s') /\
    brought id addr (swap_byte s d) s s' /\
    (forall x, 0 <= x < PAGESIZE -> swap_byte s' d x = page_byte s (page_index s addr) x) /\
    aget (diskPages s') d = aget (pages s) (page_index s addr) /\
    (forall k x, 0 <= x < PAGESIZE ->
       (k <> page_index s addr -> page_byte s' k x = page_byte s k x) /\
       (k <> d -> swap_byte s' k x = swap_byte s k x)).
Proof.
  intros Hg Ha Eth Em Ed. pose proof (page_index_range s addr Hg Ha) as Hix.
  destruct (sigHandler_search s addr id n Hg Ha Eth) as (t & E). cbv zeta in E.
  rewrite Em, Ed in E.
  set (ix := page_index s addr) in *. set (s1 := set_tim t s) in *.
  unfold swap_place in Ed. apply find_index_some in Ed as (Hd & e & Ee & Ho).
  rewrite Z.sub_0_r in Ee. apply andb_true_iff in Ho as [_ Ho].
  pose proof (geo_disk _ Hg) as Hdl.
  assert (aget (diskPages s) d = Some e) as Eg by (by rewrite aget_lookup by lia).
  destruct (swapToMemFromDisk_spec ix d s1 (geometry_tim t s Hg)) as (s2 & E2 & [Hp Hdp Hb Hs Hpr Hrest]);
    [change (thr s1) with (thr s); by rewrite Eth|done|lia|].
  assert (thr s2 <> None) as Hth.
  { destruct Hrest as (_ & _ & -> & _). change (thr s1) with (thr s). by rewrite Eth. }
  destruct (finish_fault ix s2 Hth) as [t' E'].
  eexists. split; [rewrite E; mstep by exact E2; exact E'|].
  split_and!; [split_and!| | |].
  - cbn. by rewrite Z.eqb_refl.
  - exists e. split; [|done]. cbn. rewrite Hp. fold ix. by rewrite Z.eqb_refl.
  - intros x Hx. specialize (Hb ix x Hx). rewrite Z.eqb_refl in Hb. exact Hb.
  - intros x Hx. specialize (Hs d x Hx). rewrite Z.eqb_refl in Hs. exact Hs.
  - cbn. rewrite Hdp. by rewrite Z.eqb_refl.
  - intros k x Hx. split; intros Hk.
    + specialize (Hb k x Hx). rewrite (Zeqb_f k ix) in Hb by done. exact Hb.
    + specialize (Hs k x Hx). rewrite (Zeqb_f k d) in Hs by done. exact Hs.
Qed.
End paging.

(** C29: A fault on a page that is elsewhere in memory: the handler exchanges
    the page of the running thread that belongs at the address with whatever
    is there, entries included, makes it accessible, and opens no other page. *)
Theorem fault_in_memory PAGESIZE stack s addr id n i :
  geometry PAGESIZE s -> in_userspace s addr -> thr s = Some (id, n) ->
  memory_place PAGESIZE s id addr = Some i ->
  exists s', sigHandler PAGESIZE stack addr s = Ok (tt, s') /\
    brought PAGESIZE id addr (page_byte PAGESIZE s i) s s' /\
    (forall k x, 0 <= x < PAGESIZE -> page_byte PAGESIZE s' k x =
       page_byte PAGESIZE s (if k =? page_index PAGESIZE s addr then i
         else if k =? i then page_index PAGESIZE s addr else k) x) /\
    (forall k, aget (pages s') k =
       aget (pages s) (if k =? page_index PAGESIZE s addr then i
         else if k =? i then page_index PAGESIZE s addr else k)) /\
    (forall k, k <> page_index PAGESIZE s addr -> prot s' k = true -> prot s k = true).
Proof. intros. by eapply memory_fault. Qed.

(** C30: A fault on a page that is in the swap file: the handler reads it to the
    place where it belongs, writes the page that was there to the same place
    of the file, exchanges the two entries, and changes no other page. *)
Theorem fault_in_swap PAGESIZE stack s addr id n d :
  geometry PAGESIZE s -> in_userspace s addr -> thr s = Some (id, n) ->
  memory_place PAGESIZE s id addr = None -> swap_place PAGESIZE s id addr = Some d ->
  exists s', sigHandler PAGESIZE stack addr s = Ok (tt, s') /\
    brought PAGESIZE id addr (swap_byte PAGESIZE s d) s s' /\
    (forall x, 0 <= x < PAGESIZE ->
       swap_byte PAGESIZE s' d x = page_byte PAGESIZE s (page_index PAGESIZE s addr) x) /\
    aget (diskPages s') d = aget (pages s) (page_index PAGESIZE s addr) /\
    (forall k x, 0 <= x < PAGESIZE ->
       (k <> page_index PAGESIZE s addr -> page_byte PAGESIZE s' k x = page_byte PAGESIZE s k x) /\
       (k <> d -> swap_byte PAGESIZE s' k x = swap_byte PAGESIZE s k x)).
Proof. intros. by eapply swap_fault. Qed.

(** C38: A fault on a page the running thread does not own, in memory or in the
    swap file, ends the process, and so does one in the library's pages. *)
Theorem fault_refused PAGESIZE stack s addr id n :
  geometry PAGESIZE s -> thr s = Some (id, n) ->
  (in_userspace s addr /\ memory_place PAGESIZE s id addr = None /\
     swap_place PAGESIZE s id addr = None) \/
  memory s <= addr < userSpace s \/ addr < memory s \/ memory s + MAX_MEMORY < addr ->
  sigHandler PAGESIZE stack addr s = Exit 1.
Proof.
  intros Hg Eth [(Ha & Em & Ed)|Hout].
  - destruct (sigHandler_search PAGESIZE stack s addr id n Hg Ha Eth) as (t & E). cbv zeta in E.
    by rewrite Em, Ed in E.
  - destruct (pause_if_set_ok stack s) as [t Et]; [by rewrite Eth|].
    unfold sigHandler. mstep by exact Et. set (s1 := set_tim t s). mstep by done.
    change (memory s1) with (memory s). change (userSpace s1) with (userSpace s).
    destruct (_ || _) eqn:E1; [done|].
    assert ((addr <? userSpace s) && (memory s <=? addr) = true) as ->; [|done].
    bprop. apply andb_true_iff. split; [apply Z.ltb_lt|apply Z.leb_le]; lia.
Qed.

(** ** An instance *)

(** Thread 2 runs; its pages 0 and 5 are at places 3 of memory and 7 of the
    swap file. *)
Definition demo_entry (id pgid : Z) : Z := setPageIsF (setPageThID (setPagePgID 0 pgid) id) 0.
Definition demo_pages : astate :=
  AState (fun a => a) 4096 false 0 0 (4096 + 200 * 4096) 0
    (<[3%nat := demo_entry 2 0]> (replicate 1848 1)) (<[7%nat := demo_entry 2 5]> (replicate 4096 1))
    (fun a => a) (fun _ => false) (Some (2, 6)) true (Timers no_timer no_timer) [].

Lemma demo_geometry : geometry 4096 demo_pages.
Proof. split; [lia|done|done|vm_compute; done|vm_compute; done]. Qed.

Lemma fault_in_memory_witness :
  exists s', sigHandler 4096 no_timer (4096 + 200 * 4096 + 8) demo_pages = Ok (tt, s') /\
    brought 4096 2 (4096 + 200 * 4096 + 8) (page_byte 4096 demo_pages 3) demo_pages s'.
Proof.
  destruct (fault_in_memory 4096 no_timer demo_pages (4096 + 200 * 4096 + 8) 2 6 3)
    as (s' & H1 & H2 & _); [exact demo_geometry|split; vm_compute; done|done|vm_compute; done|].
  exists s'. split; [exact H1|exact H2].
Defined.

Lemma fault_in_swap_witness :
  exists s', sigHandler 4096 no_timer (4096 + 205 * 4096) demo_pages = Ok (tt, s') /\
    brought 4096 2 (4096 + 205 * 4096) (swap_byte 4096 demo_pages 7) demo_pages s'.
Proof.
  destruct (fault_in_swap 4096 no_timer demo_pages (4096 + 205 * 4096) 2 6 7)
    as (s' & H1 & H2 & _); [exact demo_geometry|split; vm_compute; done|done|vm_compute; done
    |vm_compute; done|].
  exists s'. split; [exact H1|exact H2].
Defined.

Lemma fault_refused_witness :
  sigHandler 4096 no_timer (4096 + 201 * 4096) demo_pages = Exit 1 /\
  sigHandler 4096 no_timer 5000 demo_pages = Exit 1.
Proof.
  split; apply (fault_refused 4096 no_timer demo_pages _ 2 6); [exact demo_geometry|done| |
    exact demo_geometry|done|].
  - left. split; [split; vm_compute; done|]. split; vm_compute; done.
  - right. left. split; vm_compute; done.
Defined.
