(* ===== verification/ThreadHeap.v ===== *)
(** * The pages of a thread

    The state of a thread's own heap: its pages lie at the start of user space,
    in order, and hold segments with packed headers.  What [alignPages],
    [moveToFreeSpace] and [initializePage] do to that state. *)

From S2P Require Import Prelude CMem SegHeap FirstFit BlockWord Timer MyAlloc WordHeap PageSpec PagingSpec.

(** ** Places of pages *)

(** The entry at [k] says that the page there is page [k] of thread [id]. *)
Definition placed (ps : list Z) (id k : Z) : bool :=
  match aget ps k with Some e => owned_by id k e | None => false end.

(** Page [k] of thread [id] is in its place and in use. *)
Definition mine (ps : list Z) (id k : Z) : Prop :=
  exists e, aget ps k = Some e /\ owned_by id k e = true /\ is_free_entry e = false.

(** No page of thread [id] in the swap file is at the index where it belongs in
    memory, so [alignPages] moves nothing. *)
Definition settled (ds : list Z) (id : Z) : Prop :=
  forall d e, aget ds d = Some e -> getPageIsF e = 0 -> owned_by id d e = false.

Lemma mine_placed ps id k : mine ps id k -> placed ps id k = true.
Proof. intros (e & E & Ho & _). unfold placed. by rewrite E. Qed.

Lemma owned_by_spec id k e :
  owned_by id k e = true <-> getPageThID e = id /\ getPagePgID e = k.
Proof. unfold owned_by. rewrite andb_true_iff, !Z.eqb_eq. done. Qed.

Lemma aget_insert l i v k :
  0 <= i < Z.of_nat (length l) ->
  aget (<[Z.to_nat i := v]> l) k = if k =? i then Some v else aget l k.
Proof.
  intros Hi. unfold aget. destruct (k <? 0) eqn:Ek; bprop; [btests; done|].
  destruct (k =? i) eqn:Eki; bprop.
  - subst. apply list_lookup_insert_eq. lia.
  - apply list_lookup_insert_ne. lia.
Qed.

Lemma aget_range l k e : aget l k = Some e -> 0 <= k < Z.of_nat (length l).
Proof.
  unfold aget. destruct (k <? 0) eqn:E; [done|]. bprop.
  intros ?%lookup_lt_Some. lia.
Qed.

(** ** The search for a free page *)

Lemma find_index_none P l b i e :
  find_index P l b = None -> l !! i = Some e -> P (b + Z.of_nat i) e = false.
Proof.
  revert b i. induction l as [|e' l IH]; intros b i E; [done|]. cbn in E.
  destruct (P b e') eqn:Ep; [done|]. destruct i as [|i]; cbn.
  - intros [= ->]. by rewrite Z.add_0_r.
  - intros El. replace (b + Z.of_nat (S i)) with (b + 1 + Z.of_nat i) by lia. by apply IH.
Qed.

(** The search stops at the first hit. *)
Lemma find_index_first P l b i j e :
  find_index P l b = Some i -> l !! j = Some e -> b + Z.of_nat j < i ->
  P (b + Z.of_nat j) e = false.
Proof.
  revert b j. induction l as [|e' l IH]; intros b j E; [done|]. cbn in E.
  destruct (P b e') eqn:Ep.
  - injection E as <-. lia.
  - destruct j as [|j]; cbn.
    + intros [= ->] _. by rewrite Z.add_0_r.
    + intros El Hj. replace (b + Z.of_nat (S j)) with (b + 1 + Z.of_nat j) by lia.
      apply IH; [done..|lia].
Qed.

Lemma find_index_head P l b e : l !! 0%nat = Some e -> P b e = true -> find_index P l b = Some b.
Proof. destruct l as [|e' l]; [done|]. cbn. intros [= ->] ->. done. Qed.

Lemma find_index_count P l b :
  0 < count_if P l -> exists i, find_index (fun _ e => P e) l b = Some i.
Proof.
  revert b. induction l as [|e l IH]; intros b H; cbn in *; [lia|].
  destruct (P e); [by eexists|]. apply IH. lia.
Qed.

Lemma count_if_insert P l i v e :
  l !! i = Some e ->
  count_if P (<[i := v]> l) =
  count_if P l - (if P e then 1 else 0) + (if P v then 1 else 0).
Proof.
  revert i. induction l as [|e' l IH]; intros i; [done|].
  destruct i as [|i].
  - intros [= ->]. cbn. lia.
  - intros E. change (<[S i := v]> (e' :: l)) with (e' :: <[i := v]> l). cbn [count_if].
    rewrite (IH i E). lia.
Qed.

Lemma count_if_bounds P l : 0 <= count_if P l <= Z.of_nat (length l).
Proof. induction l as [|e l IH]; cbn; [lia|]. destruct (P e); lia. Qed.

(** When the first [n] entries do not count. *)
Lemma count_if_after P l n :
  (n <= length l)%nat ->
  (forall i e, (i < n)%nat -> l !! i = Some e -> P e = false) ->
  count_if P l <= Z.of_nat (length l) - Z.of_nat n.
Proof.
  revert n. induction l as [|e l IH]; intros n Hn H; cbn in *; [lia|].
  destruct n as [|n].
  - pose proof (count_if_bounds P l). destruct (P e); lia.
  - rewrite (H 0%nat e) by (done || lia). specialize (IH n ltac:(lia)).
    enough (count_if P l <= Z.of_nat (length l) - Z.of_nat n) by lia.
    apply IH. intros i e' Hi. apply (H (S i)). lia.
Qed.

Section pages.
Context (PAGESIZE : Z) (stack : itimerval).
Notation NPAGES := (NPAGES PAGESIZE).
Notation NDISK := (NDISK PAGESIZE).
Notation geometry := (geometry PAGESIZE).
Notation page_addr := (page_addr PAGESIZE).

Lemma current_thread_ok s id n : thr s = Some (id, n) -> current_thread s = Ok (id, s).
Proof. intros E. unfold current_thread. mstep by done. by rewrite E. Qed.

Lemma next_page_ok s id n : thr s = Some (id, n) -> next_page s = Ok (n, s).
Proof. intros E. unfold next_page, gets. by rewrite E. Qed.

(** ** [alignPages] *)

(** The pages [alignPages] leaves accessible. *)
Definition opened (s : astate) (id k : Z) : bool := placed (pages s) id k || prot s k.

(** The first loop: no page moves. *)
Lemma align_open s id :
  geometry s ->
  exists p, for_loop (Z.to_nat NPAGES) 0 (fun i => e ← get_page i;
       if (getPageThID e =? id) && (i =? getPagePgID e) then
         let realIndex := getPagePgID e in
         _ ← pageSwap PAGESIZE i realIndex; mprotect realIndex true
       else mret tt) s = Ok (tt, set_prot p s) /\ forall k, p k = opened s id k.
Proof.
  intros [HP _ _ Ht Hd].
  assert (0 <= NPAGES) as HN by (unfold table_ok in Ht; lia).
  edestruct (for_loop_inv (fun k b => exists p, b = set_prot p s /\
      forall i, p i = if i <? k then opened s id i else prot s i)) as (s1 & E1 & p & -> & Hp).
  3: { exists p. split; [exact E1|]. intros k. rewrite Hp, Z.add_0_l, Z2Nat.id by lia.
       destruct (k <? NPAGES) eqn:Ek; bprop; [done|]. unfold opened, placed.
       destruct (aget (pages s) k) as [e|] eqn:Ee; [|done].
       apply aget_range in Ee. unfold table_ok in Ht. lia. }
  - intros k b Hk (p & -> & Hp).
    destruct (get_page_ok PAGESIZE (set_prot p s) k Ht ltac:(lia)) as (e & Ee & Eg).
    cbn [pages set_prot] in Ee.
    assert (placed (pages s) id k = (getPageThID e =? id) && (k =? getPagePgID e)) as Ho
      by (unfold placed, owned_by; by rewrite Ee, (Z.eqb_sym k)).
    mstep by exact Eg. rewrite <- Ho. destruct (placed (pages s) id k) eqn:Epl.
    + symmetry in Ho. bprop. cbv zeta.
      replace (getPagePgID e) with k by done. unfold pageSwap. rewrite Z.eqb_refl.
      eexists. split; [by mstep by done|]. eexists. split; [done|]. intros i. cbv beta.
      cbn [prot set_prot]. unfold opened. destruct (decide (i = k)) as [->|].
      * rewrite Epl. by btests.
      * rewrite Hp. destruct (i <? k) eqn:?; bprop; btests; done.
    + eexists. split; [done|]. eexists. split; [done|]. intros i. rewrite Hp. unfold opened.
      destruct (decide (i = k)) as [->|]; [rewrite Epl; by btests|].
      destruct (i <? k) eqn:?; bprop; btests; done.
  - exists (prot s). split; [by destruct s|]. intros i. unfold opened, placed, aget.
    destruct (i <? 0) eqn:Ei; [done|]. done.
Qed.

Lemma alignPages_spec s id n :
  geometry s -> thr s = Some (id, n) -> settled (diskPages s) id ->
  exists p, alignPages PAGESIZE stack s = Ok (tt, set_prot p s) /\
    forall k, p k = opened s id k.
Proof.
  intros Hg Eth Hs. unfold alignPages. mstep by (by eapply current_thread_ok).
  destruct (align_open s id Hg) as (p & E1 & Hp). mstep by exact E1. clear E1.
  pose proof Hg as [_ _ _ _ Hd]. assert (0 <= NDISK) as HD by lia.
  destruct (for_loop_inv (fun _ b => b = set_prot p s)
    (fun i => e ← get_disk i;
       if getPageIsF e =? 0 then
         if (getPageThID e =? id) && (i =? getPagePgID e) then
           let realIndex := getPagePgID e in
           _ ← swapToMemFromDisk PAGESIZE stack i realIndex; mprotect realIndex true
         else mret tt
       else mret tt) (Z.to_nat NDISK) 0 (set_prot p s)) as (s2 & E2 & ->); [|done|].
  - intros k b Hk ->.
    destruct (get_disk_ok PAGESIZE (set_prot p s) k Hd ltac:(lia)) as (e & Ee & Eg).
    eexists. split; [|done]. mstep by exact Eg. bcase; [|done].
    specialize (Hs k e Ee ltac:(done)). unfold owned_by in Hs.
    by rewrite (Z.eqb_sym k), Hs.
  - exists p. by split.
Qed.
(** ** Room at an index *)

Definition free_place (ps : list Z) : option Z := find_index (fun _ e => is_free_entry e) ps 0.

(** The entries after the page at [index], whose entry is [e], moved to [i]. *)
Definition vacated_pages (ps : list Z) (index i e : Z) : list Z :=
  <[Z.to_nat index := setPageIsF e 1]> (<[Z.to_nat i := e]> ps).

Definition vacated (s : astate) (index i e : Z) : astate :=
  if i =? index then s
  else
    set_prot (fun k => if k =? i then false else if k =? index then true else prot s k)
      (set_amem (blit (amem s) (page_addr s i) PAGESIZE (slice (amem s) (page_addr s index)))
         (set_pages (vacated_pages (pages s) index i e) s)).

Lemma free_place_some ps i :
  free_place ps = Some i ->
  0 <= i < Z.of_nat (length ps) /\ exists e, aget ps i = Some e /\ is_free_entry e = true.
Proof.
  intros H. apply find_index_some in H as (Hi & e & Ee & Hf). rewrite Z.sub_0_r in Ee.
  split; [lia|]. exists e. by rewrite aget_lookup by lia.
Qed.

Lemma get_page_at s i e : aget (pages s) i = Some e -> get_page i s = Ok (e, s).
Proof. intros E. unfold get_page. mstep by done. by rewrite E. Qed.

Lemma put_page_at s i v :
  table_ok PAGESIZE s -> 0 <= i < NPAGES ->
  put_page i v s = Ok (tt, set_pages (<[Z.to_nat i := v]> (pages s)) s).
Proof.
  intros Ht Hi. unfold put_page, table_ok in *. mstep by done. unfold aset. by btests.
Qed.

Lemma page_bytes_open s i x :
  geometry s -> 0 < memory s -> 0 <= i < NPAGES -> prot s i = true ->
  page_addr s i <= x < page_addr s i + PAGESIZE -> open_byte PAGESIZE s x.
Proof.
  intros [HP Hw Hu _ _] H0 Hi Hp Hx. unfold MyAlloc.page_addr in *.
  assert (0 < LIBPAGES * PAGESIZE) by (unfold LIBPAGES; lia).
  assert (MAX_MEMORY = PAGESIZE * (MAX_MEMORY / PAGESIZE)) as Em
    by (pose proof (Z.div_mod MAX_MEMORY PAGESIZE ltac:(lia)); lia).
  unfold MyAlloc.NPAGES in Hi.
  split; [nia|]. right. split; [nia|].
  replace ((x - userSpace s) / PAGESIZE) with i; [done|].
  apply (Z.div_unique_pos _ _ _ (x - userSpace s - PAGESIZE * i)); lia.
Qed.

Lemma moveToFreeSpace_spec s index i e :
  geometry s -> 0 < memory s -> aget (pages s) index = Some e ->
  free_place (pages s) = Some i -> (i = index \/ prot s i = true) ->
  moveToFreeSpace PAGESIZE stack index s = Ok (true, vacated s index i e).
Proof.
  intros Hg H0 He Hf Hp. pose proof Hg as [HP _ _ Ht _].
  destruct (free_place_some _ _ Hf) as (Hi & _). pose proof (aget_range _ _ _ He) as Hix.
  unfold table_ok in Ht. rewrite Ht in Hi, Hix.
  unfold moveToFreeSpace, vacated. unfold free_place in Hf. mstep by done. rewrite Hf.
  destruct (i =? index) eqn:Ei; bprop; [done|]. destruct Hp as [Hp|Hp]; [done|].
  mstep by done. set (s1 := set_prot _ s).
  mstep by (by apply get_page_at). mstep by (by apply put_page_at).
  set (s2 := set_pages _ s1). mstep by (by apply read_page_ok). mstep by done.
  assert (geometry s2) as Hg2.
  { destruct Hg. split; try done. unfold table_ok in *. cbn. by rewrite length_insert. }
  assert (prot s2 i = true) as Hp2 by (cbn; by rewrite Zeqb_f).
  mstep by (apply touch_open, (page_bytes_open s2 i);
            [done..|unfold MyAlloc.page_addr; cbn; lia]).
  mstep by (by apply write_page_ok). set (s3 := set_amem _ s2).
  assert (aget (pages s3) index = Some e) as He3.
  { cbn. rewrite aget_insert by lia. by rewrite (Zeqb_f index i) by lia. }
  mstep by (by apply get_page_at).
  mstep by (apply put_page_at; [apply Hg2|done]).
  by mstep by done.
Qed.

Lemma makeRoom_spec s index i e :
  geometry s -> 0 < memory s -> aget (pages s) index = Some e ->
  free_place (pages s) = Some i -> (i = index \/ prot s i = true) ->
  makeRoom PAGESIZE stack index s = Ok (true, vacated s index i e).
Proof. intros. unfold makeRoom. by mstep by (by apply moveToFreeSpace_spec). Qed.
(** ** A thread with pages *)

(** The running thread [id] has its [n] pages in place. *)
Record pages_ok (s : astate) (id n : Z) : Prop := PagesOk {
  po_geometry : geometry s;
  po_memory : 0 < memory s;
  po_thread : thr s = Some (id, n);
  po_id : 0 < id < 256;
  po_count : 0 <= n <= NPAGES;
  po_mine k : 0 <= k < n -> mine (pages s) id k
}.

(** Every free page is accessible. *)
Definition free_open (s : astate) : Prop :=
  forall k e, aget (pages s) k = Some e -> is_free_entry e = true -> prot s k = true.

Definition free_pages (s : astate) : Z := count_if is_free_entry (pages s).

Definition free_disk (s : astate) : Z := count_if is_free_entry (diskPages s).

(** The entry of page [n] of thread [id], over the entry [e]. *)
Definition entry_of (e id n : Z) : Z := setPageIsF (setPageThID (setPagePgID e n) id) 0.

Lemma entry_of_spec e id n :
  0 <= id < 256 -> 0 <= n < 2 ^ 16 ->
  owned_by id n (entry_of e id n) = true /\ is_free_entry (entry_of e id n) = false.
Proof.
  intros Hid Hn. unfold entry_of, owned_by, is_free_entry.
  destruct (setPagePgID_spec e n Hn) as (P1 & _ & _).
  destruct (setPageThID_spec (setPagePgID e n) id Hid) as (T1 & T2 & _).
  destruct (setPageIsF_spec (setPageThID (setPagePgID e n) id) 0 ltac:(lia)) as (F1 & F2 & F3).
  by rewrite F1, F2, F3, T1, T2, P1, !Z.eqb_refl.
Qed.

(** From [s] to [s'] the thread gets the pages [n] to [n' - 1].  The bytes of
    its pages stay, except the header at [lb]; the pages of the other threads
    stay, possibly at another place. *)
Record grown (lb : Z) (s s' : astate) (id n n' : Z) : Prop := Grown {
  gr_ok : pages_ok s' id n';
  gr_free_open : free_open s';
  gr_free : free_pages s' = free_pages s - (n' - n);
  gr_mem x : x < userSpace s + PAGESIZE * n -> outside 4 lb x -> amem s' x = amem s x;
  gr_prot k : 0 <= k < n -> prot s' k = prot s k;
  gr_new k : n <= k < n' -> prot s' k = true;
  gr_others j e : aget (pages s) j = Some e -> is_free_entry e = false -> n <= j ->
    exists j', n' <= j' /\ aget (pages s') j' = Some e /\
      forall x, 0 <= x < PAGESIZE -> page_byte PAGESIZE s' j' x = page_byte PAGESIZE s j x;
  gr_origin j' e : aget (pages s') j' = Some e -> n' <= j' ->
    exists j, n <= j /\ aget (pages s) j = Some e /\
      forall x, 0 <= x < PAGESIZE -> page_byte PAGESIZE s' j' x = page_byte PAGESIZE s j x;
  gr_shape : s' = set_thr (Some (id, n'))
    (set_pages (pages s') (set_amem (amem s') (set_prot (prot s') s)))
}.

Lemma grown_refl lb s id n : pages_ok s id n -> free_open s -> grown lb s s id n n.
Proof.
  intros Hk Hf. split; try done.
  - lia.
  - intros k Hk'. lia.
  - intros j e Ee _ Hj. by exists j.
  - intros j e Ee Hj. by exists j.
  - destruct Hk as [_ _ E _ _ _]. destruct s; cbn in *. by rewrite <- E.
Qed.

Lemma grown_trans lb lb' s1 s2 s3 id n1 n2 n3 :
  0 <= n1 -> n1 <= n2 <= n3 ->
  (forall x, x < userSpace s1 + PAGESIZE * n1 -> outside 4 lb x -> outside 4 lb' x) ->
  grown lb s1 s2 id n1 n2 -> grown lb' s2 s3 id n2 n3 ->
  grown lb s1 s3 id n1 n3.
Proof.
  intros H0 Hn Hlb [A1 A2 A3 A4 A5 A6 A7 A9 A8] [B1 B2 B3 B4 B5 B6 B7 B9 B8].
  assert (userSpace s2 = userSpace s1) as Hu by (by rewrite A8).
  assert (0 < PAGESIZE) as HP by apply B1. split; try done.
  - lia.
  - intros x Hx Ho. rewrite B4, A4; try done; [rewrite Hu; nia|auto].
  - intros k Hk. rewrite B5, A5; [done|lia..].
  - intros k Hk. destruct (Z.lt_ge_cases k n2) as [Hlt|Hge]; [|apply B6; lia].
    rewrite B5; [apply A6|]; lia.
  - intros j e Ee Hf Hj. destruct (A7 j e Ee Hf Hj) as (j2 & Hj2 & E2 & H2).
    destruct (B7 j2 e E2 Hf Hj2) as (j3 & Hj3 & E3 & H3).
    exists j3. split_and!; [done..|]. intros x Hx. by rewrite H3, H2.
  - intros j e Ee Hj. destruct (B9 j e Ee Hj) as (j2 & Hj2 & E2 & H2).
    destruct (A9 j2 e E2 Hj2) as (j3 & Hj3 & E3 & H3).
    exists j3. split_and!; [done..|]. intros x Hx. by rewrite H2, H3.
  - rewrite B8, A8. done.
Qed.
(** ** One more page *)

Section grow.
Context (Hps : 1024 <= PAGESIZE <= 32768).

Lemma npages_small : NPAGES <= 8192.
Proof.
  unfold MyAlloc.NPAGES, MAX_MEMORY, LIBPAGES.
  enough (8388608 / PAGESIZE <= 8192) by lia. apply Z.div_le_upper_bound; lia.
Qed.

Lemma initializePage_later s id n e :
  table_ok PAGESIZE s -> thr s = Some (id, n) -> 0 < id < 256 -> 0 < n < NPAGES ->
  aget (pages s) n = Some e ->
  initializePage PAGESIZE stack n s =
  Ok (tt, set_thr (Some (id, n + 1))
        (set_pages (<[Z.to_nat n := entry_of e id n]> (pages s)) s)).
Proof.
  intros Ht Eth Hid Hn Ee. pose proof npages_small.
  unfold initializePage. mstep by (by apply get_page_at).
  set (s1 := set_thr (Some (id, n + 1)) s).
  mstep by (unfold next_page_id; rewrite Eth; reflexivity). fold s1.
  mstep by (by apply (current_thread_ok s1 id (n + 1))). cbv zeta.
  rewrite !wrap_small by lia.
  change (setPageIsF (setPageThID (setPagePgID e n) id) 0) with (entry_of e id n).
  destruct (entry_of_spec e id n) as (Ho & _); [lia..|].
  apply owned_by_spec in Ho as [_ Ho]. rewrite Ho. rewrite (Zeqb_f n 0) by lia.
  mstep by done. rewrite put_page_at; [done|exact Ht|lia].
Qed.

Lemma own_not_free s id n k e :
  pages_ok s id n -> 0 <= k < n -> aget (pages s) k = Some e -> is_free_entry e = false.
Proof. intros Hk Hr Ee. destruct (po_mine _ _ _ Hk k Hr) as (e' & Ee' & _ & Hf). congruence. Qed.

Lemma free_pages_room s id n : pages_ok s id n -> free_pages s <= NPAGES - n.
Proof.
  intros Hk. pose proof (geo_table _ _ (po_geometry _ _ _ Hk)) as Ht. unfold table_ok in Ht.
  pose proof (po_count _ _ _ Hk).
  unfold free_pages. rewrite <- Ht. rewrite <- (Z2Nat.id n) by lia.
  apply count_if_after; [lia|]. intros i e Hi Ee.
  apply (own_not_free s id n (Z.of_nat i)); [done|lia|]. by rewrite aget_lookup, Nat2Z.id by lia.
Qed.

(** The first free page is [n] or lies behind it, and then [n] is in use. *)
Lemma free_place_after s id n i e :
  pages_ok s id n -> free_place (pages s) = Some i -> aget (pages s) n = Some e ->
  i = n \/ (n < i /\ is_free_entry e = false).
Proof.
  intros Hk Hf Ee. destruct (free_place_some _ _ Hf) as (Hi & ei & Ei & Hfi).
  destruct (Z.lt_trichotomy i n) as [Hlt|[->|Hgt]]; [|by left|right].
  - rewrite (own_not_free s id n i ei) in Hfi; [done..|lia|done].
  - split; [done|]. pose proof (aget_range _ _ _ Ee) as Hn.
    rewrite aget_lookup in Ee by lia.
    apply (find_index_first _ _ _ _ _ _ Hf Ee). lia.
Qed.
Lemma vacated_rest s n i e :
  vacated s n i e = set_pages (pages (vacated s n i e)) (set_amem (amem (vacated s n i e))
    (set_prot (prot (vacated s n i e)) s)).
Proof. unfold vacated. destruct (i =? n); by destruct s. Qed.

Lemma vacated_geometry s n i e : geometry s -> geometry (vacated s n i e).
Proof.
  intros []. unfold vacated. destruct (i =? n); [by split|]. split; try done.
  unfold table_ok in *. cbn. unfold vacated_pages. by rewrite !length_insert.
Qed.

Lemma vacated_prot s n i e k :
  prot (vacated s n i e) k =
  if i =? n then prot s k else if k =? i then false else if k =? n then true else prot s k.
Proof. unfold vacated. by destruct (i =? n). Qed.

(** The bytes of the pages: page [n] is copied to [i]. *)
Lemma vacated_bytes s n i e j x :
  0 < PAGESIZE -> 0 <= x < PAGESIZE ->
  page_byte PAGESIZE (vacated s n i e) j x = page_byte PAGESIZE s (if j =? i then n else j) x.
Proof.
  intros HP Hx. unfold vacated. destruct (i =? n) eqn:Ein; bprop.
  - subst. by destruct (j =? n) eqn:E; bprop; subst.
  - unfold page_byte, MyAlloc.page_addr. cbn [amem userSpace set_prot set_amem set_pages].
    rewrite blit_page by done. by destruct (j =? i).
Qed.

Lemma vacated_below s n i e x :
  i = n \/ n < i -> x < userSpace s + PAGESIZE * n -> 0 < PAGESIZE ->
  amem (vacated s n i e) x = amem s x.
Proof.
  intros Hi Hx HP. unfold vacated. destruct (i =? n) eqn:Ein; bprop; [done|].
  apply blit_out. unfold MyAlloc.page_addr. nia.
Qed.

Lemma pages_ok_grow s id n e' ps m p :
  pages_ok s id n -> n < NPAGES -> length ps = length (pages s) ->
  aget ps n = Some (entry_of e' id n) ->
  (forall k, 0 <= k < n -> aget ps k = aget (pages s) k) ->
  pages_ok (set_thr (Some (id, n + 1)) (set_pages ps (set_amem m (set_prot p s)))) id (n + 1).
Proof.
  intros [Hg H0 Hth Hid Hn Hm] Hlt Hlen Hnew Hold. pose proof npages_small.
  destruct (entry_of_spec e' id n) as (Ho & Hnf); [lia..|].
  split; try done; [|lia|].
  - destruct Hg. split; try done. unfold table_ok in *. cbn. by rewrite Hlen.
  - intros k Hk. cbn [pages set_thr set_pages]. unfold mine.
    destruct (decide (k = n)) as [->|]; [rewrite Hnew; eauto|].
    rewrite Hold by lia. apply Hm. lia.
Qed.

(** Page [n] can be given to thread [id]: its entry [e] goes to the free page
    [i] and leaves [e'] behind. *)
Record room (s : astate) (id n i e e' : Z) : Prop := Room {
  rm_ok : pages_ok s id n;
  rm_less : n < NPAGES;
  rm_free : free_place (pages s) = Some i;
  rm_entry : aget (pages s) n = Some e;
  rm_left : aget (pages (vacated s n i e)) n = Some e';
  rm_make : makeRoom PAGESIZE stack n s = Ok (true, vacated s n i e)
}.

(** The state once the thread has the page. *)
Definition taken (s : astate) (id n i e e' : Z) : astate :=
  set_thr (Some (id, n + 1))
    (set_pages (<[Z.to_nat n := entry_of e' id n]> (pages (vacated s n i e))) (vacated s n i e)).

Lemma room_exists s id n :
  pages_ok s id n -> free_open s -> 0 < free_pages s -> exists i e e', room s id n i e e'.
Proof.
  intros Hk Hfo Hfree. pose proof (free_pages_room s id n Hk) as Hroom.
  pose proof Hk as [Hg H0 _ _ Hn _]. pose proof (geo_table _ _ Hg) as Ht.
  destruct (find_index_count _ (pages s) 0 Hfree) as (i & Hf).
  change (free_place (pages s) = Some i) in Hf.
  destruct (get_page_ok PAGESIZE s n Ht ltac:(lia)) as (e & Ee & _).
  destruct (free_place_some _ _ Hf) as (Hi & ei & Ei & Hfi).
  pose proof (makeRoom_spec s n i e Hg H0 Ee Hf (or_intror (Hfo i ei Ei Hfi))) as E1.
  assert (exists e', aget (pages (vacated s n i e)) n = Some e') as [e' Ee'].
  { unfold vacated. destruct (i =? n); [by exists e|]. exists (setPageIsF e 1).
    unfold table_ok in Ht. cbn. unfold vacated_pages.
    rewrite aget_insert by (rewrite length_insert; lia). by rewrite Z.eqb_refl. }
  exists i, e, e'. by split; [|lia|..].
Qed.

Section room.
Context (s : astate) (id n i e e' : Z) (Hr : room s id n i e e').

Lemma room_place : i = n \/ (n < i /\ is_free_entry e = false).
Proof. destruct Hr. by eapply free_place_after. Qed.

Lemma room_range : 0 <= n < NPAGES /\ 0 <= i < NPAGES /\ n < 2 ^ 16 /\
  Z.of_nat (length (pages s)) = NPAGES.
Proof.
  destruct Hr as [Hk Hn Hf _ _ _]. pose proof npages_small. pose proof (po_count _ _ _ Hk).
  pose proof (geo_table _ _ (po_geometry _ _ _ Hk)) as Ht. unfold table_ok in Ht.
  destruct (free_place_some _ _ Hf) as (Hi & _). lia.
Qed.

Lemma new_entry : owned_by id n (entry_of e' id n) = true /\ is_free_entry (entry_of e' id n) = false.
Proof.
  pose proof (po_id _ _ _ (rm_ok _ _ _ _ _ _ Hr)). pose proof room_range.
  apply entry_of_spec; lia.
Qed.

(** The page table: the new entry at [n], the old one at [i]. *)
Lemma taken_table :
  pages (taken s id n i e e') = <[Z.to_nat n := entry_of e' id n]> (<[Z.to_nat i := e]> (pages s)).
Proof.
  pose proof room_range. pose proof (rm_entry _ _ _ _ _ _ Hr) as Ee.
  rewrite aget_lookup in Ee by lia.
  cbn [pages taken set_thr set_pages]. unfold vacated. destruct (i =? n) eqn:Ein; bprop.
  - subst i. by rewrite list_insert_insert_eq.
  - cbn [pages set_prot set_amem set_pages]. unfold vacated_pages.
    by rewrite list_insert_insert_eq.
Qed.

Lemma taken_lookup k :
  aget (pages (taken s id n i e e')) k =
  if k =? n then Some (entry_of e' id n) else if k =? i then Some e else aget (pages s) k.
Proof.
  pose proof room_range. rewrite taken_table, aget_insert by (rewrite length_insert; lia).
  destruct (k =? n); [done|]. by rewrite aget_insert by lia.
Qed.

Lemma taken_prot k :
  prot (taken s id n i e e') k =
  if i =? n then prot s k else if k =? i then false else if k =? n then true else prot s k.
Proof. cbn [prot taken set_thr set_pages]. apply vacated_prot. Qed.

(** A free page is used up. *)
Lemma taken_count : free_pages (taken s id n i e e') = free_pages s - 1.
Proof.
  unfold free_pages. rewrite taken_table. destruct new_entry as [_ He'].
  pose proof room_place as Hin. pose proof room_range.
  destruct Hr as [_ _ Hf Ee _ _]. destruct (free_place_some _ _ Hf) as (_ & ei & Ei & Hfi).
  rewrite aget_lookup in Ee, Ei by lia.
  erewrite count_if_insert with (e := e).
  - rewrite (count_if_insert _ _ _ _ _ Ei), He', Hfi.
    destruct Hin as [->|[_ ->]]; [replace e with ei by congruence; rewrite Hfi|]; lia.
  - destruct Hin as [->|[? _]]; [apply list_lookup_insert_eq; lia|].
    by rewrite list_lookup_insert_ne by lia.
Qed.

Lemma taken_free_open : free_open s -> free_open (taken s id n i e e').
Proof.
  intros Hfo k ek. rewrite taken_lookup, taken_prot.
  destruct (k =? n); [intros [= <-]; by destruct new_entry as [_ ->]|].
  destruct (k =? i) eqn:Eki; bprop.
  - intros [= <-]. destruct room_place as [->|[_ ->]]; [|done]. intros Hfk.
    subst k. rewrite Z.eqb_refl. eapply Hfo; [apply Hr|done].
  - intros Ek Hfk. destruct (i =? n); by eapply Hfo.
Qed.

(** The pages of the others are kept. *)
Lemma taken_others j ej :
  aget (pages s) j = Some ej -> is_free_entry ej = false -> n <= j ->
  exists j', n + 1 <= j' /\ aget (pages (taken s id n i e e')) j' = Some ej /\
    forall x, 0 <= x < PAGESIZE ->
      page_byte PAGESIZE (taken s id n i e e') j' x = page_byte PAGESIZE s j x.
Proof.
  intros Ej Hfj Hj. exists (if j =? n then i else j).
  pose proof room_place as Hin. pose proof (rm_entry _ _ _ _ _ _ Hr) as Ee.
  destruct (free_place_some _ _ (rm_free _ _ _ _ _ _ Hr)) as (_ & ei & Ei & Hfi).
  assert (j <> i) as Hji by congruence.
  split; [destruct (j =? n) eqn:Ejn; bprop; [subst; destruct Hin; [congruence|lia]|lia]|].
  rewrite taken_lookup. split.
  - destruct (j =? n) eqn:Ejn; bprop; [|by rewrite !Zeqb_f].
    subst j. rewrite Zeqb_f, Z.eqb_refl by done. congruence.
  - intros x Hx. change (page_byte PAGESIZE (taken _ _ _ _ _ _) ?b x)
      with (page_byte PAGESIZE (vacated s n i e) b x).
    rewrite vacated_bytes by (done || lia).
    destruct (j =? n) eqn:Ejn; bprop; [subst; by rewrite Z.eqb_refl|by rewrite Zeqb_f].
Qed.

Lemma taken_origin j' ej :
  aget (pages (taken s id n i e e')) j' = Some ej -> n + 1 <= j' ->
  exists j, n <= j /\ aget (pages s) j = Some ej /\
    forall x, 0 <= x < PAGESIZE ->
      page_byte PAGESIZE (taken s id n i e e') j' x = page_byte PAGESIZE s j x.
Proof.
  intros Ej Hj. rewrite taken_lookup, Zeqb_f in Ej by lia. exists (if j' =? i then n else j').
  split; [destruct (j' =? i); lia|]. split.
  - destruct (j' =? i); [|done]. injection Ej as <-. apply Hr.
  - intros x Hx. change (page_byte PAGESIZE (taken _ _ _ _ _ _) ?b x)
      with (page_byte PAGESIZE (vacated s n i e) b x).
    by rewrite vacated_bytes by (done || lia).
Qed.

Lemma taken_grown lb : free_open s -> grown lb s (taken s id n i e e') id n (n + 1).
Proof.
  intros Hfo. pose proof room_place as Hin. pose proof room_range as Hrg.
  pose proof (vacated_rest s n i e) as Es1. split.
  - unfold taken. rewrite Es1. pose proof taken_table as Et. unfold taken in Et. cbn in Et.
    apply pages_ok_grow with (e' := e'); [apply Hr|lia|cbn [pages set_pages set_amem set_prot]| |].
    + by rewrite Et, !length_insert.
    + pose proof (taken_lookup n) as El. rewrite Z.eqb_refl in El. exact El.
    + intros k Hk. pose proof (taken_lookup k) as El. rewrite !Zeqb_f in El by lia. exact El.
  - by apply taken_free_open.
  - rewrite taken_count. lia.
  - intros x Hx _. cbn [amem taken set_thr set_pages]. apply vacated_below; [lia|done|lia].
  - intros k Hk. rewrite taken_prot, (Zeqb_f k n), (Zeqb_f k i) by lia. by destruct (i =? n).
  - intros k Hk. assert (k = n) as -> by lia. rewrite taken_prot, Z.eqb_refl.
    destruct (i =? n) eqn:Ein; bprop; [|by rewrite Zeqb_f by lia].
    destruct (free_place_some _ _ (rm_free _ _ _ _ _ _ Hr)) as (_ & ei & Ei & Hfi).
    subst. by eapply Hfo.
  - apply taken_others.
  - apply taken_origin.
  - unfold taken. rewrite Es1 at 2. done.
Qed.
End room.

Lemma give_page lb s id n :
  pages_ok s id n -> free_open s -> 0 < n -> 0 < free_pages s ->
  exists s1 s', makeRoom PAGESIZE stack n s = Ok (true, s1) /\
    initializePage PAGESIZE stack n s1 = Ok (tt, s') /\ grown lb s s' id n (n + 1).
Proof.
  intros Hk Hfo Hn Hfree. destruct (room_exists s id n Hk Hfo Hfree) as (i & e & e' & Hr).
  exists (vacated s n i e), (taken s id n i e e'). split; [apply Hr|].
  split; [|by apply taken_grown]. pose proof (vacated_rest s n i e) as Es1.
  destruct (room_range _ _ _ _ _ _ Hr) as (? & ? & _).
  apply initializePage_later; [|by rewrite Es1; apply Hk|apply Hk|lia|apply Hr].
  apply vacated_geometry, Hk.
Qed.

(** ** The pages of the thread *)

(** The thread can access its [n] pages. *)
Definition own_open (s : astate) (n : Z) : Prop := forall k, 0 <= k < n -> prot s k = true.

Lemma own_opens s id n :
  pages_ok s id n -> own_open s n ->
  opens PAGESIZE s (userSpace s) (userSpace s + PAGESIZE * n).
Proof.
  intros [Hg H0 _ _ Hn _] Ho x Hx. set (k := (x - userSpace s) / PAGESIZE).
  pose proof (Z.div_mod (x - userSpace s) PAGESIZE ltac:(lia)) as Hd. fold k in Hd.
  pose proof (Z.mod_pos_bound (x - userSpace s) PAGESIZE ltac:(lia)).
  assert (0 <= k < n) by nia.
  apply (page_bytes_open s k); [done|done|lia|by apply Ho|unfold MyAlloc.page_addr; lia].
Qed.

(** The word at [lb] lies in the thread's pages. *)
Definition own_word (s : astate) (n lb : Z) : Prop :=
  userSpace s <= lb /\ lb + 4 <= userSpace s + PAGESIZE * n.

Lemma own_word_open s id n lb :
  pages_ok s id n -> own_open s n -> own_word s n lb -> open_word PAGESIZE s lb.
Proof.
  intros Hk Ho Hw. pose proof (own_opens s id n Hk Ho) as Hop. unfold own_word in Hw.
  pose proof (po_memory _ _ _ Hk). pose proof (geo_user _ _ (po_geometry _ _ _ Hk)).
  split; [unfold LIBPAGES in *; lia|]. intros x Hx. apply Hop. lia.
Qed.

Lemma grown_user lb s s' id n n' : grown lb s s' id n n' -> userSpace s' = userSpace s.
Proof. intros H. by rewrite (gr_shape _ _ _ _ _ _ H). Qed.

Lemma pages_ok_amem s id n m : pages_ok s id n -> pages_ok (set_amem m s) id n.
Proof. intros [[] ? ? ? ? ?]. by split. Qed.

(** Bytes of the new pages, and the header at [lb'], are written. *)
Lemma grown_amem lb lb' s s' id n n' m :
  0 <= n <= n' -> grown lb s s' id n n' ->
  (forall x, x < userSpace s + PAGESIZE * n -> outside 4 lb' x -> outside 4 lb x /\ m x = amem s' x) ->
  (forall x, userSpace s + PAGESIZE * n' <= x -> m x = amem s' x) ->
  grown lb' s (set_amem m s') id n n'.
Proof.
  intros Hn H Hm1 Hm2. pose proof (grown_user _ _ _ _ _ _ H) as Hu.
  destruct H as [A1 A2 A3 A4 A5 A6 A7 A9 A8].
  assert (forall j x, n' <= j -> 0 <= x < PAGESIZE ->
    page_byte PAGESIZE (set_amem m s') j x = page_byte PAGESIZE s' j x) as Hpb.
  { intros j x Hj Hx. unfold page_byte, MyAlloc.page_addr. cbn [amem userSpace set_amem].
    apply Hm2. rewrite Hu. nia. }
  split; try done.
  - by apply pages_ok_amem.
  - intros x Hx Hox. cbn [amem set_amem]. destruct (Hm1 x Hx Hox) as [? ->]. by apply A4.
  - intros j e Ee Hf Hj. destruct (A7 j e Ee Hf Hj) as (j' & Hj' & Ee' & Hb).
    exists j'. split; [done|]. split; [done|]. intros x Hx. by rewrite Hpb, Hb.
  - intros j e Ee Hj. destruct (A9 j e Ee Hj) as (j' & Hj' & Ee' & Hb).
    exists j'. split; [done|]. split; [done|]. intros x Hx. by rewrite Hpb, Hb.
  - cbn [pages amem prot set_amem]. clear Hm1 Hm2 Hpb. by rewrite A8 at 1.
Qed.

(** *** The first page *)

(** The header of a free block that fills a page. *)
Definition free_block (m : mem) (bl : Z) : mem :=
  let m := put_word m bl (fun w => setBlockIsF w 1) in
  let m := put_word m bl (fun w => setBlockSize w (wrap 32 (PAGESIZE - BLOCK_SIZE))) in
  put_word m bl (fun w => setBlockIsNext w 0).

Lemma free_block_agree m bl x : outside 4 bl x -> free_block m bl x = m x.
Proof.
  intros H. unfold free_block. cbv zeta. unfold outside in *.
  by rewrite !(put_agree (fun y => y = x)) by (try done; intros y ->; lia).
Qed.

Lemma free_block_header m bl : wheader (free_block m bl) bl (Seg (PAGESIZE - 4) true) 0.
Proof.
  rewrite header_word. unfold free_block. cbv zeta.
  assert (wrap 32 (PAGESIZE - BLOCK_SIZE) = PAGESIZE - 4) as ->
    by (apply wrap_small; unfold BLOCK_SIZE; lia).
  words. eapply (setIsNext_word _ _ _ _ 0); [lia|].
  eapply (setSize_word _ _ (Seg _ true)); [lia| |reflexivity].
  eapply (setIsF_word _ _ (Seg _ _)) with (b := 1); [lia|apply word_any].
Qed.

Lemma initializePage_first s id e :
  geometry s -> 0 < memory s -> thr s = Some (id, 0) -> 0 < id < 256 -> 0 < NPAGES ->
  aget (pages s) 0 = Some e ->
  initializePage PAGESIZE stack 0 s =
  Ok (tt, set_amem (free_block (amem s) (userSpace s))
        (set_prot (fun x => if x =? 0 then true else prot s x)
           (set_thr (Some (id, 0 + 1))
              (set_pages (<[Z.to_nat 0 := entry_of e id 0]> (pages s)) s)))).
Proof.
  intros Hg H0 Eth Hid Hn Ee. pose proof (geo_user _ _ Hg) as Hu.
  unfold initializePage. mstep by (by apply get_page_at).
  set (s1 := set_thr (Some (id, 0 + 1)) s).
  mstep by (unfold next_page_id; rewrite Eth; reflexivity). fold s1.
  mstep by (by apply (current_thread_ok s1 id (0 + 1))). cbv zeta.
  rewrite !wrap_small by lia.
  change (setPageIsF (setPageThID (setPagePgID e 0) id) 0) with (entry_of e id 0).
  destruct (entry_of_spec e id 0) as (Ho & _); [lia..|].
  apply owned_by_spec in Ho as [_ Ho]. rewrite Ho, Z.eqb_refl.
  set (s2 := set_prot (fun x => if x =? 0 then true else prot s x) s1).
  assert (forall m, open_word PAGESIZE (set_amem m s2) (userSpace s)) as Hop.
  { intros m. split; [unfold LIBPAGES in *; lia|]. intros x Hx.
    apply (page_bytes_open _ 0); [by destruct Hg; split|done|lia|done|].
    unfold MyAlloc.page_addr. cbn [userSpace set_amem s2 s1 set_prot set_thr]. lia. }
  erewrite bind_ok_l.
  2: { mstep by done. fold s2. mstep by done. change (userSpace s2) with (userSpace s).
    mstep by (exact (upd_word PAGESIZE stack s2 _ _ (Hop (amem s2)))).
    mstep by (exact (upd_word PAGESIZE stack (set_amem _ s2) _ _ (Hop _))).
    exact (upd_word PAGESIZE stack (set_amem _ s2) _ _ (Hop _)). }
  rewrite put_page_at; [done|apply Hg|lia].
Qed.

Lemma grown_prot lb s s' id n n' p :
  (forall k, p k = prot s' k) -> grown lb s s' id n n' -> grown lb s (set_prot p s') id n n'.
Proof.
  intros Hp [[[] ? ? ? ? ?] A2 A3 A4 A5 A6 A7 A9 A8]. split; try done.
  - intros k e Ek Hf. cbn. rewrite Hp. by eapply A2.
  - intros k Hk. cbn. rewrite Hp. by apply A5.
  - intros k Hk. cbn. rewrite Hp. by apply A6.
  - cbn [pages amem prot set_prot]. by rewrite A8 at 1.
Qed.

(** A thread without pages gets its first one, with a free block. *)
Lemma give_first_page s id e0 :
  pages_ok s id 0 -> free_open s -> 0 < free_pages s ->
  aget (pages s) 0 = Some e0 -> getPageThID e0 <> id ->
  exists s1 s', makeRoom PAGESIZE stack 0 s = Ok (true, s1) /\
    initializePage PAGESIZE stack 0 s1 = Ok (tt, s') /\
    grown (userSpace s) s s' id 0 1 /\ chain (amem s') (userSpace s) [Seg (PAGESIZE - 4) true] /\
    (forall k, placed (pages s') id k = true ->
       prot s' k = true \/ (placed (pages s) id k = true /\ prot s' k = prot s k)).
Proof.
  intros Hk Hfo Hfree Ee0 Hne. destruct (room_exists s id 0 Hk Hfo Hfree) as (i & e & e' & Hr).
  pose proof (vacated_rest s 0 i e) as Es1.
  destruct (room_range _ _ _ _ _ _ Hr) as (? & ? & ? & _).
  pose proof Hk as [Hg Hmem Hth Hid _ _].
  assert (e = e0) as -> by (pose proof (rm_entry _ _ _ _ _ _ Hr); congruence).
  assert (userSpace (vacated s 0 i e0) = userSpace s) as Hu by (by rewrite Es1).
  set (p := fun x => if x =? 0 then true else prot (vacated s 0 i e0) x).
  pose proof (taken_grown _ _ _ _ _ _ Hr (userSpace s) Hfo) as Hgr.
  assert (forall k, p k = prot (taken s id 0 i e0 e') k) as Hp.
  { intros k. unfold p. destruct (k =? 0) eqn:Ek; bprop; [|done].
    subst. symmetry. apply (gr_new _ _ _ _ _ _ Hgr). lia. }
  exists (vacated s 0 i e0),
    (set_amem (free_block (amem (vacated s 0 i e0)) (userSpace s))
      (set_prot p (taken s id 0 i e0 e'))).
  split; [apply Hr|]. split; [|split; [|split]].
  - rewrite (initializePage_first _ id e');
      [|by apply vacated_geometry|by rewrite Es1|by rewrite Es1|done|lia|apply Hr].
    rewrite Hu. reflexivity.
  - eapply grown_amem; [lia|by apply grown_prot| |]; intros x Hx.
    + intros Ho. split; [done|]. by apply free_block_agree.
    + apply free_block_agree. right. lia.
  - split; [|done]. apply free_block_header.
  - intros k Hpk. cbn [pages prot set_amem set_prot] in *. rewrite Hp, taken_prot.
    unfold placed in *. rewrite (taken_lookup _ _ _ _ _ _ Hr) in Hpk.
    destruct (k =? 0) eqn:Ek; bprop.
    { left. destruct (i =? 0) eqn:Ei; bprop.
      - destruct (free_place_some _ _ (rm_free _ _ _ _ _ _ Hr)) as (_ & ei & Ei' & Hfi).
        subst. by eapply Hfo.
      - by rewrite Zeqb_f by lia. }
    destruct (k =? i) eqn:Eki; bprop.
    + apply owned_by_spec in Hpk. tauto.
    + right. split; [done|]. by destruct (i =? 0).
Qed.
End grow.
End pages.
