(* ===== verification/Growth.v ===== *)
(** * How the heap of a thread grows

    [gatherPages] gives a thread one page after the other.  Where the room for
    a page comes from, a free page of memory or the swap file, is behind the
    interface [Growth]; what the request does with the pages is proved against
    it. *)

From S2P Require Import Prelude CMem SegHeap FirstFit BlockWord Timer MyAlloc WordHeap PageSpec PagingSpec ThreadHeap.

Section growth.
Context (PAGESIZE : Z) (stack : itimerval).

Notation NPAGES := (NPAGES PAGESIZE).
Notation pages_ok := (pages_ok PAGESIZE).
Notation own_word := (own_word PAGESIZE).

(** [G lb s s' id n n']: from [s] to [s'] thread [id] got the pages [n] to
    [n' - 1], and below them at most the header at [lb] was written.
    [enough s id n k]: the thread can get [k] more pages. *)
Class Growth (G : Z -> astate -> astate -> Z -> Z -> Z -> Prop)
    (enough : astate -> Z -> Z -> Z -> Prop) : Prop := {
  gw_ok lb s s' id n n' : G lb s s' id n n' -> pages_ok s' id n';
  gw_mem lb s s' id n n' x :
    G lb s s' id n n' -> x < userSpace s + PAGESIZE * n -> outside 4 lb x -> amem s' x = amem s x;
  gw_prot lb s s' id n n' k : G lb s s' id n n' -> 0 <= k < n -> prot s' k = prot s k;
  gw_new lb s s' id n n' k : G lb s s' id n n' -> n <= k < n' -> prot s' k = true;
  gw_user lb s s' id n n' : G lb s s' id n n' -> userSpace s' = userSpace s;
  gw_refl lb s id n k : pages_ok s id n -> enough s id n k -> G lb s s id n n;
  gw_trans lb lb' s1 s2 s3 id n1 n2 n3 :
    0 <= n1 -> n1 <= n2 <= n3 ->
    (forall x, x < userSpace s1 + PAGESIZE * n1 -> outside 4 lb x -> outside 4 lb' x) ->
    G lb s1 s2 id n1 n2 -> G lb' s2 s3 id n2 n3 -> G lb s1 s3 id n1 n3;
  gw_amem lb lb' s s' id n n' m :
    0 <= n <= n' -> G lb s s' id n n' ->
    (forall x, x < userSpace s + PAGESIZE * n -> outside 4 lb' x -> outside 4 lb x /\ m x = amem s' x) ->
    (forall x, userSpace s + PAGESIZE * n' <= x -> m x = amem s' x) ->
    G lb' s (set_amem m s') id n n';
  gw_enough_amem m s id n k : enough s id n k -> enough (set_amem m s) id n k;
  gw_room s id n k : pages_ok s id n -> 0 <= k -> enough s id n k -> n + k <= NPAGES;
  gw_give lb s id n k :
    pages_ok s id n -> 0 < n -> 0 < k -> enough s id n k ->
    exists s1 s', makeRoom PAGESIZE stack n s = Ok (true, s1) /\
      initializePage PAGESIZE stack n s1 = Ok (tt, s') /\ G lb s s' id n (n + 1) /\
      enough s' id (n + 1) (k - 1)
}.

(** ** [gatherPages] *)

(** The word [w'] is the header [w] with [d] more bytes. *)
Definition longer (w w' d : Z) : Prop :=
  getBlockSize w' = getBlockSize w + d /\ getBlockIsF w' = getBlockIsF w /\
  getBlockIsNext w' = getBlockIsNext w.

Section gather.
Context (Hps : 1024 <= PAGESIZE <= 32768).
Context {G : Z -> astate -> astate -> Z -> Z -> Z -> Prop}.
Context {enough : astate -> Z -> Z -> Z -> Prop} {HG : Growth G enough}.

Lemma gw_open lb s s' id n n' : G lb s s' id n n' -> own_open s n -> own_open s' n'.
Proof.
  intros H Ho k Hk. destruct (Z.lt_ge_cases k n).
  - rewrite (gw_prot _ _ _ _ _ _ _ H) by lia. apply Ho. lia.
  - apply (gw_new _ _ _ _ _ _ _ H). lia.
Qed.

(** The header at [lb] is updated once the pages are there. *)
Lemma gw_header lb s s' id n n' f :
  0 <= n <= n' -> own_word s n lb ->
  G (userSpace s + PAGESIZE * n) s s' id n n' ->
  G lb s (set_amem (put_word (amem s') lb f) s') id n n'.
Proof.
  intros Hn Hw H. unfold ThreadHeap.own_word in Hw. eapply gw_amem; [done|exact H| |]; intros x Hx.
  - intros Ho. split; [left; lia|]. by apply (put_agree (outside 4 lb)).
  - apply (put_agree (outside 4 lb)); [done|]. right. nia.
Qed.

Lemma gatherPages_spec lb id k : forall s n r,
  pages_ok s id n -> own_open s n -> 0 < n -> own_word s n lb ->
  0 <= r -> enough s id n (Z.of_nat k + r) ->
  getBlockSize (load 4 (amem s) lb) + PAGESIZE * Z.of_nat k < 2 ^ 24 ->
  exists s', gatherPages PAGESIZE stack k lb s = Ok (tt, s') /\
    G lb s s' id n (n + Z.of_nat k) /\ enough s' id (n + Z.of_nat k) r /\
    longer (load 4 (amem s) lb) (load 4 (amem s') lb) (PAGESIZE * Z.of_nat k).
Proof.
  induction k as [|k IH]; intros s n r Hk Hop Hn Hw Hr He Hsz.
  { exists s. split; [done|]. rewrite Z.add_0_r, Z.mul_0_r. split; [by eapply gw_refl|].
    split; [done|]. split; [lia|done]. }
  destruct (gw_give (userSpace s + PAGESIZE * n) s id n (Z.of_nat (S k) + r) Hk Hn ltac:(lia) He)
    as (s1 & s2 & E1 & E2 & Hg & He2).
  set (f := fun w => setBlockSize w (wrap 32 (getBlockSize w + PAGESIZE))).
  set (s3 := set_amem (put_word (amem s2) lb f) s2).
  pose proof (gw_header lb s s2 id n (n + 1) f ltac:(lia) Hw Hg) as Hg3. fold s3 in Hg3.
  pose proof (gw_user _ _ _ _ _ _ Hg) as Hu.
  assert (own_word s2 (n + 1) lb) as Hw2 by (unfold ThreadHeap.own_word in *; rewrite Hu; nia).
  assert (load 4 (amem s2) lb = load 4 (amem s) lb) as El.
  { apply load_ext. intros x Hx. unfold ThreadHeap.own_word in Hw.
    apply (gw_mem _ _ _ _ _ _ _ Hg); [lia|]. left. lia. }
  assert (longer (load 4 (amem s) lb) (load 4 (amem s3) lb) PAGESIZE) as (L1 & L2 & L3).
  { cbn [amem set_amem s3]. unfold f. words. rewrite El.
    destruct (get_bounds (load 4 (amem s) lb)) as [? _]. rewrite wrap_small by lia.
    destruct (setBlockSize_spec (load 4 (amem s) lb) (getBlockSize (load 4 (amem s) lb) + PAGESIZE))
      as (? & ? & ?); [lia|]. done. }
  destruct (IH s3 (n + 1) r) as (s' & E' & Hg' & He' & L1' & L2' & L3');
    [by eapply gw_ok|by apply (gw_open _ _ _ _ _ _ Hg3)|lia|exact Hw2|done| |lia|].
  { apply gw_enough_amem. by replace (Z.of_nat k + r) with (Z.of_nat (S k) + r - 1) by lia. }
  replace (n + Z.of_nat (S k)) with (n + 1 + Z.of_nat k) by lia.
  exists s'. split; [|split; [|split; [done|]]].
  - cbn [gatherPages]. mstep by (eapply next_page_ok, Hk). mstep by exact E1.
    cbn [negb]. mstep by exact E2. mstep by (apply upd_word, (own_word_open _ Hps s2 id (n + 1));
      [by eapply gw_ok|by apply (gw_open _ _ _ _ _ _ Hg)|done]).
    exact E'.
  - eapply gw_trans; [| | |exact Hg3|exact Hg']; [lia|lia|done].
  - split; [lia|]. split; congruence.
Qed.
End gather.

(** ** Growth into free pages of memory *)

Definition enough_free (s : astate) (id n k : Z) : Prop := free_open s /\ k <= free_pages s.

#[global] Instance grown_growth :
  1024 <= PAGESIZE <= 32768 -> Growth (grown PAGESIZE) enough_free.
Proof.
  intros Hps. split.
  - intros. eapply gr_ok; eassumption.
  - intros. by eapply gr_mem.
  - intros. by eapply gr_prot.
  - intros. by eapply gr_new.
  - intros. by eapply grown_user.
  - intros lb s id n k Hk [Hf _]. by apply grown_refl.
  - intros. by eapply grown_trans.
  - intros. by eapply grown_amem.
  - done.
  - intros s id n k Hk _ [_ Hf]. pose proof (free_pages_room PAGESIZE s id n Hk). lia.
  - intros lb s id n k Hk Hn Hk0 [Hfo Hf].
    destruct (give_page PAGESIZE stack Hps lb s id n Hk Hfo Hn ltac:(lia)) as (s1 & s' & E1 & E2 & Hg).
    exists s1, s'. split_and!; try done. split; [apply Hg|]. rewrite (gr_free _ _ _ _ _ _ _ Hg). lia.
Qed.
End growth.
