(* ===== verification/Evict.v ===== *)
(** * Growth into the swap file

    When no page of memory is free the page in the way of a new one goes to the
    swap file.  [spilled] says what growth keeps when the room comes from memory
    as long as there is some and from the swap file then; it is the second
    instance of [Growth]. *)

From S2P Require Import Prelude CMem SegHeap FirstFit BlockWord Timer MyAlloc WordHeap PageSpec PagingSpec ThreadHeap Growth.

Section evict.
Context (PAGESIZE : Z) (stack : itimerval).

Notation geometry := (geometry PAGESIZE).
Notation page_byte := (page_byte PAGESIZE).
Notation swap_byte := (swap_byte PAGESIZE).
Notation page_addr := (page_addr PAGESIZE).
Notation pages_ok := (pages_ok PAGESIZE).
Notation NPAGES := (NPAGES PAGESIZE).

(** ** Pages moved to the swap file *)

(** The page at [index] moved to place [i] of the swap file. *)
Definition evicted (s : astate) (index i e : Z) : astate :=
  set_tim (unpause_timer (pause_timer stack (tim s)))
    (set_pages (<[Z.to_nat index := setPageIsF e 1]> (pages s))
      (set_swp (blit (swp s) (PAGESIZE * i) PAGESIZE (slice (amem s) (page_addr s index)))
        (set_diskPages (<[Z.to_nat i := e]> (diskPages s))
          (set_prot (fun x => if x =? index then true else prot s x) s)))).

Lemma moveToDiskSpace_spec s index i e t :
  geometry s -> thr s = Some t -> aget (pages s) index = Some e ->
  free_place (diskPages s) = Some i ->
  moveToDiskSpace PAGESIZE stack index s = Ok (true, evicted s index i e).
Proof.
  intros [HP _ _ Ht Hd] Eth Ee Hf. pose proof (aget_range _ _ _ Ee) as Hix.
  unfold table_ok in Ht. rewrite Ht in Hix.
  destruct (free_place_some _ _ Hf) as (Hi & _).
  unfold moveToDiskSpace. mstep by (unfold pause; rewrite Eth; reflexivity).
  set (s0 := set_tim _ s). mstep by done. change (diskPages s0) with (diskPages s).
  unfold free_place in Hf. rewrite Hf. mstep by done. set (s1 := set_prot _ s0).
  mstep by (by apply get_page_at).
  mstep by (unfold put_disk; mstep by done; unfold aset;
    rewrite (Zleb_t 0 i), (Zltb_t i) by (cbn; lia); reflexivity).
  set (s2 := set_diskPages _ s1). mstep by (by apply read_page_ok). mstep by done.
  set (s3 := set_swp _ s2). mstep by (by apply get_page_at).
  mstep by (by apply (put_page_at PAGESIZE)). set (s4 := set_pages _ s3).
  mstep by (unfold unpause; cbn [thr s4 s3 s2 s1 s0 set_pages set_swp set_diskPages set_prot set_tim];
    rewrite Eth; reflexivity).
  reflexivity.
Qed.

Lemma evicted_pages s index i e k :
  0 <= index < Z.of_nat (length (pages s)) ->
  aget (pages (evicted s index i e)) k = if k =? index then Some (setPageIsF e 1) else aget (pages s) k.
Proof. apply aget_insert. Qed.

Lemma evicted_disk s index i e d :
  0 <= i < Z.of_nat (length (diskPages s)) ->
  aget (diskPages (evicted s index i e)) d = if d =? i then Some e else aget (diskPages s) d.
Proof. apply aget_insert. Qed.

Lemma evicted_swap s index i e d x :
  0 < PAGESIZE -> 0 <= x < PAGESIZE ->
  swap_byte (evicted s index i e) d x = if d =? i then page_byte s index x else swap_byte s d x.
Proof.
  intros HP Hx. unfold PagingSpec.swap_byte. cbn [swp evicted set_tim set_pages set_swp].
  pose proof (blit_page PAGESIZE (swp s) (slice (amem s) (page_addr s index)) 0 i d x HP Hx) as H.
  rewrite !Z.add_0_l in H. rewrite H. by destruct (d =? i).
Qed.

Lemma evicted_geometry s index i e : geometry s -> geometry (evicted s index i e).
Proof.
  intros [H1 H2 H3 H4 H5]. split; try done.
  - unfold table_ok in *. cbn. by rewrite length_insert.
  - cbn. by rewrite length_insert.
Qed.

Lemma no_free_place ps index e :
  find_index (fun _ e => is_free_entry e) ps 0 = None -> aget ps index = Some e -> is_free_entry e = false.
Proof.
  intros Hn Ee. pose proof (aget_range _ _ _ Ee) as Hi. rewrite aget_lookup in Ee by lia.
  by apply (find_index_none (fun _ e => is_free_entry e) ps 0 (Z.to_nat index)).
Qed.

(** ** What growth keeps *)

(** The page with entry [e] and bytes [f], in memory and in the swap file. *)
Definition in_memory (s : astate) (j e : Z) (f : Z -> Z) : Prop :=
  aget (pages s) j = Some e /\ forall x, 0 <= x < PAGESIZE -> page_byte s j x = f x.

Definition in_swap (s : astate) (d e : Z) (f : Z -> Z) : Prop :=
  aget (diskPages s) d = Some e /\ forall x, 0 <= x < PAGESIZE -> swap_byte s d x = f x.

(** No page from [n] on is a page of thread [id]. *)
Definition others_only (s : astate) (id n : Z) : Prop :=
  forall j e, aget (pages s) j = Some e -> is_free_entry e = false -> n <= j -> getPageThID e <> id.

(** A pause and its end, inside another pause. *)
Definition repaused (t : timers) : timers := Timers (itimer t) (itimer t).

(** From [s] to [s'] the thread gets the pages [n] to [n' - 1]: free pages of
    memory first, then room from the swap file.  The pages of the other threads
    stay, in memory or in the swap file. *)
Record spilled (lb : Z) (s s' : astate) (id n n' : Z) : Prop := Spilled {
  sp_ok : pages_ok s' id n';
  sp_open : free_open s';
  sp_only : others_only s' id n';
  sp_free : free_pages s' = Z.max 0 (free_pages s - (n' - n));
  sp_free_disk : free_disk s' = free_disk s - Z.max 0 (n' - n - free_pages s);
  sp_mem x : x < userSpace s + PAGESIZE * n -> outside 4 lb x -> amem s' x = amem s x;
  sp_prot k : 0 <= k < n -> prot s' k = prot s k;
  sp_new k : n <= k < n' -> prot s' k = true;
  sp_kept j e : aget (pages s) j = Some e -> is_free_entry e = false -> n <= j ->
    (exists j', n' <= j' /\ in_memory s' j' e (page_byte s j)) \/
    (exists d, in_swap s' d e (page_byte s j));
  sp_swap d e : aget (diskPages s) d = Some e -> is_free_entry e = false ->
    in_swap s' d e (swap_byte s d);
  sp_from d e : aget (diskPages s') d = Some e -> is_free_entry e = false ->
    aget (diskPages s) d = Some e \/ exists j, n <= j /\ aget (pages s) j = Some e;
  sp_origin j' e : aget (pages s') j' = Some e -> n' <= j' ->
    exists j, n <= j /\ aget (pages s) j = Some e;
  sp_tim : tim s' = if n' - n <=? free_pages s then tim s else repaused (tim s);
  sp_shape : s' = set_thr (Some (id, n')) (set_tim (tim s') (set_pages (pages s')
    (set_diskPages (diskPages s') (set_swp (swp s') (set_amem (amem s') (set_prot (prot s') s))))))
}.

Definition enough_room (s : astate) (id n k : Z) : Prop :=
  free_open s /\ others_only s id n /\ n + k <= NPAGES /\ k <= free_pages s + free_disk s.

Lemma free_counts s : 0 <= free_pages s /\ 0 <= free_disk s.
Proof. split; apply count_if_bounds. Qed.

Lemma grown_spilled lb s s' id n n' :
  pages_ok s id n -> others_only s id n -> n <= n' -> n' - n <= free_pages s ->
  grown PAGESIZE lb s s' id n n' -> spilled lb s s' id n n'.
Proof.
  intros Hk Ho Hn Hf [A1 A2 A3 A4 A5 A6 A7 A9 A8]. destruct (free_counts s).
  assert (diskPages s' = diskPages s /\ swp s' = swp s /\ tim s' = tim s) as (Ed & Es & Et)
    by (by rewrite A8).
  split; try done.
  - intros j e Ej Hu Hj. destruct (A9 j e Ej Hj) as (j0 & Hj0 & Ej0 & _). by apply (Ho j0 e).
  - lia.
  - unfold free_disk in *. rewrite Ed. lia.
  - intros j e Ej Hu Hj. left. destruct (A7 j e Ej Hu Hj) as (j' & Hj' & Hm). by exists j'.
  - intros d e Ed' Hu. split; [by rewrite Ed|]. intros x _. unfold PagingSpec.swap_byte. by rewrite Es.
  - intros d e. rewrite Ed. by left.
  - intros j' e Ej Hj. destruct (A9 j' e Ej Hj) as (j & ? & ? & _). by exists j.
  - by rewrite Et, Zleb_t by lia.
  - rewrite Ed, Es, Et. rewrite A8 at 1. by destruct s.
Qed.

Lemma spilled_refl lb s id n k : pages_ok s id n -> enough_room s id n k -> spilled lb s s id n n.
Proof.
  intros Hk (Hf & Ho & _ & _). destruct (free_counts s).
  apply grown_spilled; [done|done|lia|lia|]. by apply grown_refl.
Qed.

Lemma spilled_user lb s s' id n n' : spilled lb s s' id n n' -> userSpace s' = userSpace s.
Proof. intros H. by rewrite (sp_shape _ _ _ _ _ _ H). Qed.

(** A page that is kept twice is kept. *)
Lemma kept_trans lb s2 s3 id n2 n3 e f :
  spilled lb s2 s3 id n2 n3 -> is_free_entry e = false ->
  (exists j, n2 <= j /\ in_memory s2 j e f) \/ (exists d, in_swap s2 d e f) ->
  (exists j, n3 <= j /\ in_memory s3 j e f) \/ (exists d, in_swap s3 d e f).
Proof.
  intros H Hu [(j & Hj & Ej & Hb)|(d & Ed & Hb)].
  - destruct (sp_kept _ _ _ _ _ _ H j e Ej Hu Hj) as [(j' & Hj' & Ej' & Hb')|(d & Ed & Hb')].
    + left. exists j'. split; [done|]. split; [done|]. intros x Hx. by rewrite Hb', Hb.
    + right. exists d. split; [done|]. intros x Hx. by rewrite Hb', Hb.
  - right. destruct (sp_swap _ _ _ _ _ _ H d e Ed Hu) as [Ed' Hb'].
    exists d. split; [done|]. intros x Hx. by rewrite Hb', Hb.
Qed.

Lemma spilled_trans lb lb' s1 s2 s3 id n1 n2 n3 :
  0 < PAGESIZE -> 0 <= n1 -> n1 <= n2 <= n3 ->
  (forall x, x < userSpace s1 + PAGESIZE * n1 -> outside 4 lb x -> outside 4 lb' x) ->
  spilled lb s1 s2 id n1 n2 -> spilled lb' s2 s3 id n2 n3 -> spilled lb s1 s3 id n1 n3.
Proof.
  intros HP H0 Hn Hlb HA HB. pose proof (spilled_user _ _ _ _ _ _ HA) as Hu.
  pose proof (sp_free _ _ _ _ _ _ HA) as Hf. pose proof (sp_free_disk _ _ _ _ _ _ HA) as Hfd.
  destruct (free_counts s1). pose proof HB as [B1 B2 B3 B4 B5 B6 B7 B8 B9 B10 B11 Bo B12 B13].
  split; try done.
  - lia.
  - lia.
  - intros x Hx Ho. rewrite B6; [|rewrite Hu; nia|by apply Hlb]. by apply HA.
  - intros k Hk. rewrite B7 by lia. by apply HA.
  - intros k Hk. destruct (Z.lt_ge_cases k n2); [|apply B8; lia].
    rewrite B7 by lia. apply HA. lia.
  - intros j e Ej Hue Hj. eapply kept_trans; [exact HB|done|]. by apply HA.
  - intros d e Ed Hue. destruct (sp_swap _ _ _ _ _ _ HA d e Ed Hue) as [Ed2 Hb2].
    destruct (B10 d e Ed2 Hue) as [Ed3 Hb3]. split; [done|]. intros x Hx. by rewrite Hb3, Hb2.
  - intros d e Ed Hue. destruct (B11 d e Ed Hue) as [Ed2|(j & Hj & Ej)].
    + by apply HA.
    + right. by apply (sp_origin _ _ _ _ _ _ HA j).
  - intros j' e Ej Hj. destruct (Bo j' e Ej Hj) as (j & Hj2 & Ej2).
    by apply (sp_origin _ _ _ _ _ _ HA j).
  - rewrite B12, (sp_tim _ _ _ _ _ _ HA), Hf. unfold repaused.
    destruct (n3 - n1 <=? _) eqn:E13, (n2 - n1 <=? _) eqn:E12, 
      (n3 - n2 <=? Z.max 0 (free_pages s1 - (n2 - n1))) eqn:E23; bprop; done || lia.
  - rewrite B13 at 1. rewrite (sp_shape _ _ _ _ _ _ HA) at 1. done.
Qed.

Lemma spilled_amem lb lb' s s' id n n' m :
  0 < PAGESIZE -> 0 <= n <= n' -> spilled lb s s' id n n' ->
  (forall x, x < userSpace s + PAGESIZE * n -> outside 4 lb' x -> outside 4 lb x /\ m x = amem s' x) ->
  (forall x, userSpace s + PAGESIZE * n' <= x -> m x = amem s' x) ->
  spilled lb' s (set_amem m s') id n n'.
Proof.
  intros HP Hn H Hm1 Hm2. pose proof (spilled_user _ _ _ _ _ _ H) as Hu.
  destruct H as [A1 A2 A3 A4 A5 A6 A7 A8 A9 A10 A11 A12 A13 A14]. split; try done.
  - by apply pages_ok_amem.
  - intros x Hx Ho. cbn [amem set_amem]. destruct (Hm1 x Hx Ho) as [? ->]. by apply A6.
  - intros j e Ej Hf Hj. destruct (A9 j e Ej Hf Hj) as [(j' & Hj' & Ej' & Hb)|Hd]; [left|by right].
    exists j'. split; [done|]. split; [done|]. intros x Hx. rewrite <- Hb by done.
    unfold PagingSpec.page_byte, MyAlloc.page_addr. cbn [amem userSpace set_amem].
    apply Hm2. rewrite Hu. nia.
  - cbn [pages amem prot diskPages swp tim set_amem]. clear Hm1 Hm2. by rewrite A14 at 1.
Qed.

(** ** One page from the swap file *)

Lemma find_index_zero P l b : count_if P l = 0 -> find_index (fun _ e => P e) l b = None.
Proof.
  revert b. induction l as [|e l IH]; intros b H; cbn in *; [done|].
  pose proof (count_if_bounds P l). destruct (P e); [lia|]. apply IH. lia.
Qed.

(** The state once page [n], with the entry [e], is at place [i] of the swap
    file and the thread has its place. *)
Definition replaced (s : astate) (id n i e : Z) : astate :=
  set_thr (Some (id, n + 1))
    (set_pages (<[Z.to_nat n := entry_of (setPageIsF e 1) id n]> (pages (evicted s n i e)))
      (evicted s n i e)).

Section step.
Context (Hps : 1024 <= PAGESIZE <= 32768).
Context (s : astate) (id n i e : Z).
Context (Hk : pages_ok s id n) (Hfo : free_open s) (Ho : others_only s id n).
Context (Hn : n < NPAGES) (Hfull : free_pages s = 0).
Context (Hf : free_place (diskPages s) = Some i) (Ee : aget (pages s) n = Some e).

Lemma replaced_range : 0 <= n < Z.of_nat (length (pages s)) /\
  0 <= i < Z.of_nat (length (diskPages s)) /\ n < 2 ^ 16 /\ Z.of_nat (length (pages s)) = NPAGES.
Proof.
  destruct Hk as [[_ _ _ Ht _] _ _ _ Hc _]. pose proof (npages_small PAGESIZE Hps).
  destruct (free_place_some _ _ Hf) as (Hi & _). unfold table_ok in Ht. lia.
Qed.

Lemma full_used j ej : aget (pages s) j = Some ej -> is_free_entry ej = false.
Proof. intros Ej. eapply no_free_place; [by apply find_index_zero|exact Ej]. Qed.

Lemma replaced_pages j :
  aget (pages (replaced s id n i e)) j =
  if j =? n then Some (entry_of (setPageIsF e 1) id n) else aget (pages s) j.
Proof.
  pose proof replaced_range. cbn [pages replaced set_thr set_pages].
  rewrite aget_insert by (cbn; rewrite length_insert; lia).
  rewrite evicted_pages by lia. by destruct (j =? n).
Qed.

Lemma replaced_disk d :
  aget (diskPages (replaced s id n i e)) d = if d =? i then Some e else aget (diskPages s) d.
Proof. pose proof replaced_range. apply evicted_disk. lia. Qed.

Lemma replaced_entry : owned_by id n (entry_of (setPageIsF e 1) id n) = true /\
  is_free_entry (entry_of (setPageIsF e 1) id n) = false.
Proof. pose proof replaced_range. pose proof (po_id _ _ _ _ Hk). apply entry_of_spec; lia. Qed.

Lemma replaced_ok : pages_ok (replaced s id n i e) id (n + 1).
Proof.
  pose proof replaced_range as (? & ? & _). set (s0 := evicted s n i e).
  assert (pages_ok (set_pages (pages s) s0) id n) as Hk0.
  { destruct Hk as [Hg ? ? ? ? ?]. destruct (evicted_geometry s n i e Hg) as [? ? ? _ ?].
    split; try done. destruct Hg. by split. }
  apply (pages_ok_grow PAGESIZE Hps (set_pages (pages s) s0) id n (setPageIsF e 1)
    (pages (replaced s id n i e)) (amem s0) (prot s0) Hk0 Hn).
  - cbn. by rewrite !length_insert.
  - rewrite replaced_pages. by rewrite Z.eqb_refl.
  - intros k Hr. rewrite replaced_pages. by rewrite Zeqb_f by lia.
Qed.

Lemma replaced_counts :
  free_pages (replaced s id n i e) = 0 /\ free_disk (replaced s id n i e) = free_disk s - 1.
Proof.
  destruct replaced_range as (H1 & H2 & _). pose proof Ee as El. rewrite aget_lookup in El by lia.
  destruct (free_place_some _ _ Hf) as (_ & ei & Ei & Hfi). rewrite aget_lookup in Ei by lia.
  pose proof (full_used n e Ee) as Hu. destruct replaced_entry as [_ Hu']. unfold free_pages, free_disk.
  cbn [pages diskPages replaced evicted set_thr set_pages set_tim set_swp set_diskPages set_prot].
  rewrite list_insert_insert_eq. split.
  - rewrite (count_if_insert _ _ _ _ _ El), Hu, Hu'. unfold free_pages in Hfull. lia.
  - rewrite (count_if_insert _ _ _ _ _ Ei), Hfi, Hu. lia.
Qed.

Lemma replaced_swap d x :
  0 <= x < PAGESIZE ->
  swap_byte (replaced s id n i e) d x = if d =? i then page_byte s n x else swap_byte s d x.
Proof. intros Hx. apply (evicted_swap s n i e d x); lia. Qed.

Lemma replaced_prot k : prot (replaced s id n i e) k = if k =? n then true else prot s k.
Proof. done. Qed.

Lemma replaced_spilled lb : spilled lb s (replaced s id n i e) id n (n + 1).
Proof.
  destruct replaced_range as (H1 & H2 & _). destruct replaced_counts as [C1 C2].
  pose proof (full_used n e Ee) as Hu. destruct replaced_entry as [_ Hu'].
  destruct (free_place_some _ _ Hf) as (_ & ei & Ei & Hfi). split.
  - exact replaced_ok.
  - intros k ek. rewrite replaced_pages, replaced_prot. destruct (k =? n); [done|]. apply Hfo.
  - intros j ej. rewrite replaced_pages. intros Ej Huj Hj. rewrite Zeqb_f in Ej by lia.
    apply (Ho j ej); [done|done|lia].
  - lia.
  - lia.
  - done.
  - intros k Hr. by rewrite replaced_prot, Zeqb_f by lia.
  - intros k Hr. by rewrite replaced_prot, Zeqb_t by lia.
  - intros j ej Ej Huj Hj. destruct (decide (j = n)) as [->|Hne].
    + right. exists i. split; [rewrite replaced_disk, Z.eqb_refl; congruence|].
      intros x Hx. by rewrite replaced_swap, Z.eqb_refl by done.
    + left. exists j. split; [lia|]. split; [by rewrite replaced_pages, Zeqb_f by done|done].
  - intros d ed Ed Hud. assert (d <> i) as Hne by congruence.
    split; [by rewrite replaced_disk, Zeqb_f by done|]. intros x Hx.
    by rewrite replaced_swap, Zeqb_f by done.
  - intros d ed. rewrite replaced_disk. destruct (d =? i); [|by left]. intros [= <-] _.
    right. by exists n.
  - intros j ej. rewrite replaced_pages. intros Ej Hj. rewrite Zeqb_f in Ej by lia.
    exists j. split; [lia|done].
  - rewrite Hfull, Zleb_f by lia. done.
  - done.
Qed.

Lemma replaced_runs :
  0 < n -> makeRoom PAGESIZE stack n s = Ok (true, evicted s n i e) /\
  initializePage PAGESIZE stack n (evicted s n i e) = Ok (tt, replaced s id n i e).
Proof.
  intros H0. destruct replaced_range as (H1 & _). pose proof (po_thread _ _ _ _ Hk) as Eth.
  pose proof (po_geometry _ _ _ _ Hk) as Hg. split.
  - unfold makeRoom, moveToFreeSpace.
    mstep by (mstep by reflexivity; rewrite (find_index_zero is_free_entry _ 0 Hfull); reflexivity).
    by eapply moveToDiskSpace_spec.
  - destruct (evicted_geometry s n i e Hg) as [_ _ _ Ht _].
    apply initializePage_later; [done|done|done|apply Hk|lia|].
    rewrite evicted_pages by lia. by rewrite Z.eqb_refl.
Qed.
End step.

#[global] Instance spilled_growth :
  1024 <= PAGESIZE <= 32768 -> Growth PAGESIZE stack spilled enough_room.
Proof.
  intros Hps. split.
  - intros. eapply sp_ok; eassumption.
  - intros. by eapply sp_mem.
  - intros. by eapply sp_prot.
  - intros. by eapply sp_new.
  - intros. by eapply spilled_user.
  - intros. by eapply spilled_refl.
  - intros. eapply spilled_trans; [lia| | | |eassumption..]; done.
  - intros. eapply spilled_amem; [lia| |eassumption..]; done.
  - done.
  - intros s id n k _ _ (_ & _ & Hr & _). done.
  - intros lb s id n k Hk Hn Hk0 (Hfo & Ho & Hr & Hroom). destruct (free_counts s) as [F1 F2].
    enough (exists s1 s', makeRoom PAGESIZE stack n s = Ok (true, s1) /\
      initializePage PAGESIZE stack n s1 = Ok (tt, s') /\ spilled lb s s' id n (n + 1)) as H.
    { destruct H as (s1 & s' & E1 & E2 & Hsp). exists s1, s'. split_and!; try done.
      split; [apply Hsp|]. split; [apply Hsp|]. split; [lia|].
      rewrite (sp_free _ _ _ _ _ _ Hsp), (sp_free_disk _ _ _ _ _ _ Hsp). lia. }
    destruct (decide (0 < free_pages s)) as [Hpos|Hz].
    + destruct (give_page PAGESIZE stack Hps lb s id n Hk Hfo Hn Hpos) as (s1 & s' & E1 & E2 & Hg).
      exists s1, s'. split_and!; try done. apply grown_spilled; try done; lia.
    + assert (free_pages s = 0) as Hfull by lia.
      destruct (find_index_count is_free_entry (diskPages s) 0) as (i & Hi); [unfold free_disk in *; lia|].
      destruct (get_page_ok PAGESIZE s n (geo_table _ _ (po_geometry _ _ _ _ Hk)) ltac:(lia)) as (e & Ee & _).
      destruct (replaced_runs Hps s id n i e Hk ltac:(lia) Hfull Hi Ee Hn) as [E1 E2].
      exists (evicted s n i e), (replaced s id n i e). split_and!; try done.
      apply (replaced_spilled Hps); try done; lia.
Qed.
End evict.
