(* ===== verification/ThreadHeapSpec.v ===== *)
(** * The heap of a thread

    The requests [THREADREQ] of [myallocate] and [mydeallocate] on the pages of
    the running thread implement the segmented heap of those pages. *)

From S2P Require Import Prelude CMem SegHeap FirstFit BlockWord Timer MyAlloc WordHeap PageSpec PagingSpec ThreadHeap.

Section walk.
Context (PAGESIZE : Z) (stack : itimerval).

(** The first-fit loop passes a block that does not fit. *)
Lemma find_fit_skip s n w fuel a y nx :
  open_word PAGESIZE s a -> wheader (amem s) a y nx -> unfit 4 n y ->
  (n <= seg_size y -> w = n + 4) ->
  find_fit PAGESIZE stack (S fuel) n w a s =
  if nx =? 0 then Ok ((None, a), s) else find_fit PAGESIZE stack fuel n w nx s.
Proof.
  intros Ho (Hf & Hz & Hn) Hu Hw. cbn [hv_free hv_len hv_next word_view] in *.
  cbn [find_fit]. mstep by (by apply ld_word). cbv zeta.
  set (cont := (getNextBlock _ _ a ≫= _)).
  assert (cont s = if nx =? 0 then Ok ((None, a), s) else find_fit PAGESIZE stack fuel n w nx s)
    as Hc.
  { subst cont. mstep by (by apply getNextBlock_word). rewrite Hn. by destruct (nx =? 0). }
  clearbody cont. rewrite <- Hc. unfold w_free, w_len in *. unfold unfit in Hu.
  rewrite Hz. destruct (getBlockIsF _ =? 0) eqn:E0, (seg_size y <? n) eqn:En; cbn [orb]; try done.
  bprop. destruct (getBlockIsF _ =? 1); [|done]. specialize (Hu (eq_sym Hf)).
  by btests.
Qed.

Lemma find_fit_unfit s lo hi n w l0 x fuel a :
  0 < lo -> opens PAGESIZE s lo hi -> (n <= hi - lo -> w = n + 4) ->
  tiles (hdr:=4) (lo:=lo) (hi:=hi) a (l0 ++ [x]) -> chain (amem s) a (l0 ++ [x]) ->
  Forall (unfit 4 n) (l0 ++ [x]) -> (length (l0 ++ [x]) <= fuel)%nat ->
  find_fit PAGESIZE stack fuel n w a s = Ok ((None, a + total 4 l0), s).
Proof.
  intros Hlo Ho Hw. revert fuel a. induction l0 as [|y l0 IH]; intros fuel a Ht Hc Hu Hf;
    (destruct fuel as [|fuel]; [cbn in Hf; lia|]); cbn [app] in *;
    pose proof (tiles_cons hdr4_pos _ _ _ Ht) as ((Ha & Hb & Hz) & Ht' & Hb');
    destruct Hc as [Hh Hc]; apply Forall_cons in Hu as [Hx Hu];
    (assert (open_word PAGESIZE s a) as Hop by (split; [lia|intros; apply Ho; lia]));
    rewrite (find_fit_skip s n w fuel a _ _ Hop Hh Hx) by (unfold span in *; lia).
  - cbn. by rewrite Z.add_0_r.
  - assert (link 4 a y (l0 ++ [x]) = a + span 4 y) as -> by (by destruct l0).
    rewrite Zeqb_f by lia. rewrite IH; [by rewrite <- Z.add_assoc|done..|].
    cbn in Hf. lia.
Qed.
End walk.

(** ** The heap in a thread's pages *)

Section heap.
Context (PAGESIZE : Z) (stack : itimerval).
Context (Hps : 1024 <= PAGESIZE <= 32768).

(** The running thread [id] has [n] pages, and they hold the segments [l]. *)
Record thread_heap (s : astate) (id n : Z) (l : list seg) : Prop := ThreadHeap {
  th_pages : pages_ok PAGESIZE s id n;
  th_some : 0 < n;
  th_disk : settled (diskPages s) id;
  th_built : firstMalloc s = false;
  th_ne : l <> [];
  th_tiles : tiles (hdr:=4) (lo:=userSpace s) (hi:=userSpace s + PAGESIZE * n) (userSpace s) l;
  th_chain : chain (amem s) (userSpace s) l
}.

Lemma thread_timer s id n : pages_ok PAGESIZE s id n -> timer_ok s.
Proof. intros Hk _. by rewrite (po_thread _ _ _ _ Hk). Qed.

Lemma pages_ok_after s id n p m msgs :
  pages_ok PAGESIZE s id n -> pages_ok PAGESIZE (after (set_prot p s) m msgs) id n.
Proof. intros [[] ? ? ? ? ?]. by split. Qed.

Lemma thread_heap_after s id n l p m msgs l' :
  thread_heap s id n l -> l' <> [] ->
  tiles (hdr:=4) (lo:=userSpace s) (hi:=userSpace s + PAGESIZE * n) (userSpace s) l' ->
  chain m (userSpace s) l' -> thread_heap (after (set_prot p s) m msgs) id n l'.
Proof. intros [? ? ? ? _ _ _] ? ? ?. split; try done. by apply pages_ok_after. Qed.

Lemma user_end s n :
  geometry PAGESIZE s -> 0 < memory s -> n <= NPAGES PAGESIZE ->
  0 < userSpace s /\ PAGESIZE * n <= MAX_MEMORY /\
  userSpace s + PAGESIZE * n <= memory s + MAX_MEMORY.
Proof.
  intros [_ Hw Hu _ _] H0 Hn.
  assert (MAX_MEMORY = PAGESIZE * (MAX_MEMORY / PAGESIZE)) as Em
    by (pose proof (Z.div_mod MAX_MEMORY PAGESIZE ltac:(lia)); lia).
  unfold NPAGES, LIBPAGES in *. split_and!; nia.
Qed.

Lemma user_bounds s id n :
  pages_ok PAGESIZE s id n ->
  0 < userSpace s /\ PAGESIZE * n <= MAX_MEMORY /\
  userSpace s + PAGESIZE * n <= memory s + MAX_MEMORY.
Proof. intros [Hg H0 _ _ Hn _]. apply user_end; [done|done|lia]. Qed.

Lemma thread_heap_sizes s id n l :
  thread_heap s id n l ->
  0 < userSpace s /\ sizes_ok l /\ total 4 l = PAGESIZE * n /\
  PAGESIZE * n <= 2 ^ 24 /\ (length l <= walk_fuel)%nat /\
  userSpace s + PAGESIZE * n <= memory s + MAX_MEMORY.
Proof.
  intros [Hk _ _ _ _ (Hs & _ & Ht) _]. destruct (user_bounds _ _ _ Hk) as (? & ? & ?).
  pose proof (total_length 4 hdr4_pos l Hs). assert (MAX_MEMORY = 8388608) as E8 by done.
  split_and!; [done|done|lia|lia| |done].
  unfold walk_fuel. apply Nat2Z.inj_le. rewrite Z2Nat.id by lia. lia.
Qed.

Lemma set_prot_id s : set_prot (prot s) s = s.
Proof. by destruct s. Qed.

Lemma paused_prot p s : paused stack (set_prot p s) = set_prot p (paused stack s).
Proof. unfold paused. by destruct (timerSet s) eqn:E; cbn; rewrite E. Qed.

Lemma paused_thr s : thr (paused stack s) = thr s /\ firstMalloc (paused stack s) = firstMalloc s /\
  pages (paused stack s) = pages s /\ diskPages (paused stack s) = diskPages s /\
  prot (paused stack s) = prot s.
Proof. unfold paused. by destruct (timerSet s). Qed.

Lemma pages_ok_paused s id n : pages_ok PAGESIZE s id n -> pages_ok PAGESIZE (paused stack s) id n.
Proof. unfold paused. destruct (timerSet s); [|done]. intros [[] ? ? ? ? ?]. by split. Qed.

(** A request of a thread makes its pages accessible, provides for page 0 and
    searches. *)
Lemma thread_start s id n region size :
  pages_ok PAGESIZE s id n -> settled (diskPages s) id -> firstMalloc s = false ->
  exists p, (forall k, p k = opened s id k) /\
    myallocate PAGESIZE stack region size THREADREQ s
    = (room ← first_page_room PAGESIZE stack id;
       if negb room then mret 0 else thread_search PAGESIZE stack size)
        (paused stack (set_prot p s)).
Proof.
  intros Hk Hd Hf. pose proof (paused_thr s) as (Pt & Pf & Pp & Pd & Pr).
  pose proof (pages_ok_paused _ _ _ Hk) as Hk'.
  pose proof (po_thread _ _ _ _ Hk') as Eth.
  destruct (alignPages_spec PAGESIZE stack (paused stack s) id n) as (p & E & Hp);
    [apply Hk'|done|by rewrite Pd|].
  exists p. split; [intros k; rewrite Hp; unfold opened; by rewrite Pp, Pr|].
  unfold myallocate. mstep by (by eapply pause_paused, thread_timer). mstep by done.
  rewrite Pf, Hf. cbn [when]. mstep by done. mstep by done. rewrite Eth.
  unfold thread_allocate. mstep by (by eapply current_thread_ok).
  mstep by exact E. by rewrite paused_prot.
Qed.

Lemma thread_request s id n region size :
  pages_ok PAGESIZE s id n -> 0 < n -> settled (diskPages s) id -> firstMalloc s = false ->
  exists p, (forall k, p k = opened s id k) /\
    myallocate PAGESIZE stack region size THREADREQ s
    = thread_search PAGESIZE stack size (paused stack (set_prot p s)).
Proof.
  intros Hk Hn Hd Hf. destruct (thread_start s id n region size Hk Hd Hf) as (p & Hp & E).
  exists p. split; [done|]. rewrite E.
  rewrite (bind_ok_l _ _ _ true (paused stack (set_prot p s))); [done|].
  destruct (po_mine _ _ _ _ Hk 0 ltac:(lia)) as (e & Ee & Ho & _).
  apply owned_by_spec in Ho as [Hid _]. unfold first_page_room.
  destruct (paused_thr (set_prot p s)) as (_ & _ & Pp & _).
  mstep by (apply get_page_at; rewrite Pp; exact Ee).
  by rewrite Hid, Z.eqb_refl.
Qed.

(** The pages are accessible after [alignPages]. *)
Lemma opened_own s id n p :
  pages_ok PAGESIZE s id n -> (forall k, p k = opened s id k) -> own_open (set_prot p s) n.
Proof.
  intros Hk Hp k Hr. cbn. rewrite Hp. unfold opened.
  by rewrite (mine_placed _ _ _ (po_mine _ _ _ _ Hk k Hr)).
Qed.

Lemma paused_opens s id n p :
  pages_ok PAGESIZE s id n -> (forall k, p k = opened s id k) ->
  opens PAGESIZE (paused stack (set_prot p s)) (userSpace s) (userSpace s + PAGESIZE * n).
Proof.
  intros Hk Hp. destruct (paused_fields stack s) as (_ & Pu & _).
  rewrite paused_prot, <- Pu. apply (own_opens PAGESIZE Hps (set_prot p (paused stack s)) id).
  - destruct (pages_ok_paused _ _ _ Hk) as [[] ? ? ? ? ?]. by split.
  - intros k Hr. by apply (opened_own s id n p).
Qed.

(** A request that a block of the thread can serve. *)
Lemma thread_search_some s id n l size p q l' :
  thread_heap s id n l -> (forall k, p k = opened s id k) -> 0 <= size ->
  seg_alloc 4 size (userSpace s) l = Some (q, l') ->
  exists m', thread_search PAGESIZE stack size (paused stack (set_prot p s))
             = Ok (q + 4, after (set_prot p s) m' []) /\
    thread_heap (after (set_prot p s) m' []) id n l' /\
    agree (protected 4 (userSpace s) l) (amem s) m'.
Proof.
  intros Hh Hp Hsz Ea. pose proof Hh as [Hk _ _ _ Hne Htl Hc].
  destruct (thread_heap_sizes _ _ _ _ Hh) as (H0 & Hs & Htot & Hsp & Hlen & _).
  set (lo := userSpace s) in *. set (hi := lo + PAGESIZE * n) in *.
  assert (hi - lo <= 2 ^ 24) as Hsp' by lia.
  destruct (paused_fields stack (set_prot p s)) as (_ & Pu & Pa & _ & Pe).
  pose proof (paused_opens s id n p Hk Hp) as Hop.
  assert (size <= hi - lo -> wrap 32 (size + 4) = size + 4) as Hw
    by (intros; apply wrap_small; lia).
  pose proof (first_fit_refines (HO:=word_ops lo hi H0 Hsp')
    hdr4_pos H0 size (wrap 32 (size + 4)) walk_fuel l (amem s) lo Hsz Hw
    Htl Hne Hc Hlen) as Hff.
  rewrite Ea in Hff. destruct Hff as (m' & Eff & Hc' & Hag).
  change (amem s) with (amem (set_prot p s)) in Eff. rewrite <- Pa in Eff.
  destruct (find_fit_words PAGESIZE stack _ _ H0 Hsp' _ _ _ _ _ _ _ Hop Eff)
    as (r & last & E & Hr).
  exists m'. unfold thread_search. rewrite (bind_ok_l (gets userSpace) _ _ _ _ eq_refl).
  rewrite Pu. change (userSpace (set_prot p s)) with lo. change BLOCK_SIZE with 4.
  rewrite (bind_ok_l _ _ _ _ _ E).
  destruct (seg_alloc_bounds 4 hdr4_pos _ _ _ _ _ Hsz Hs Ea).
  destruct r as [b|]; [|lia]. assert (b = q) as -> by lia.
  rewrite Pe. mstep by (exact (unpause_after stack (set_prot p s) m' [] (thread_timer s id n Hk))).
  split; [done|]. split; [|done].
  pose proof (seg_alloc_total 4 _ _ _ _ _ Ea) as Ht'.
  eapply thread_heap_after; [done| | |done].
  - destruct l; [done|]. by destruct (seg_alloc_head 4 _ _ _ _ _ _ Ea) as (? & ? & -> & _).
  - split; [by eapply (seg_alloc_sizes 4)|]. split; [lia|]. unfold hi. rewrite Ht'. lia.
Qed.

(** The first page of the thread, by which [mydeallocate] finds its heap. *)
Lemma first_page s id n :
  pages_ok PAGESIZE s id n -> 0 < n ->
  exists e, findPage id s = Ok (e, s) /\ e <> 0 /\
    find_index (fun _ e' => getPageThID e' =? getPageThID e) (pages s) 0 = Some 0.
Proof.
  intros Hk Hn. destruct (po_mine _ _ _ _ Hk 0 ltac:(lia)) as (e & Ee & Ho & _).
  apply owned_by_spec in Ho as [Hid _]. pose proof (po_id _ _ _ _ Hk).
  assert (pages s !! 0%nat = Some e) as E0 by (by rewrite aget_lookup in Ee).
  exists e. split; [|split].
  - unfold findPage. mstep by done.
    rewrite (find_index_head _ _ _ e); [by apply get_page_at|done|by rewrite Hid, Z.eqb_refl].
  - intros ->. change (getPageThID 0) with 0 in Hid. lia.
  - apply (find_index_head _ _ _ e); [done|by rewrite Z.eqb_refl].
Qed.

Lemma thread_freeAndMerge s id n e q m' :
  pages_ok PAGESIZE s id n ->
  find_index (fun _ e' => getPageThID e' =? getPageThID e) (pages s) 0 = Some 0 ->
  freeAndMerge_loop PAGESIZE stack walk_fuel q 0 (userSpace s) s = Ok (true, set_amem m' s) ->
  freeAndMerge PAGESIZE stack q e THREADREQ s = Ok (true, set_amem m' s).
Proof.
  intros Hk Hf E. pose proof (po_memory _ _ _ _ Hk).
  pose proof (geo_user _ _ (po_geometry _ _ _ _ Hk)). unfold LIBPAGES in *.
  unfold freeAndMerge. rewrite (bind_ok_l get _ _ _ _ eq_refl). rewrite Hf.
  rewrite Z.mul_0_l, Z.mul_0_r, Z.add_0_r. rewrite Zeqb_f by lia. exact E.
Qed.

(** [freeAndMerge] and the guards of [mydeallocate], for a live block. *)
Lemma thread_deallocate_spec s id n l q x :
  thread_heap s id n l -> own_open s n -> live 4 (userSpace s) l q x ->
  q + 4 < memory s + MAX_MEMORY ->
  exists m' l',
    mydeallocate PAGESIZE stack (q + 4) THREADREQ s = Ok (tt, after s m' []) /\
    seg_free 4 q (userSpace s) l = Some l' /\
    thread_heap (after s m' []) id n l' /\ agree (protected 4 (userSpace s) l) (amem s) m'.
Proof.
  intros Hh Ho Hl Hin. pose proof Hh as [Hk Hn _ _ Hne Htl Hc].
  destruct (thread_heap_sizes _ _ _ _ Hh) as (H0 & Hs & Htot & Hsp & Hlen & _).
  set (lo := userSpace s) in *. set (hi := lo + PAGESIZE * n) in *.
  assert (hi - lo <= 2 ^ 24) as Hsp' by lia.
  destruct (paused_fields stack s) as (Pm & Pu & Pa & _ & Pe).
  pose proof (pages_ok_paused _ _ _ Hk) as Hk'.
  assert (own_open (paused stack s) n) as Ho'
    by (intros k Hr; destruct (paused_thr s) as (_ & _ & _ & _ & ->); by apply Ho).
  pose proof (own_opens PAGESIZE Hps _ _ _ Hk' Ho') as Hop.
  destruct (live_header (lo:=lo) (hi:=hi) hdr4_pos H0 _ _ _ _ _ Htl Hc Hl)
    as (Hf & Hd & Hq & Hb & Hx).
  pose proof (release_refines (HO:=word_ops lo hi H0 Hsp')
    hdr4_pos H0 walk_fuel l (amem s) lo None q Htl Hc Hne Hlen) as Hrel.
  cbn [start ocons prev_addr] in Hrel.
  assert (is_Some (seg_release 4 q lo None l)) as [l' El]
    by (by eapply (seg_release_live 4 hdr4_pos)).
  rewrite El in Hrel. destruct Hrel as (m' & Erel & Hc' & Hag & _).
  exists m', l'. rewrite <- Pa in Erel. rewrite Pu in Hop.
  apply (release_words PAGESIZE stack lo hi H0 Hsp' _ _ _ _ _ _ _ Hop (or_introl eq_refl)) in Erel.
  assert (mydeallocate PAGESIZE stack (q + 4) THREADREQ s = Ok (tt, after s m' [])) as ->.
  { destruct (first_page _ _ _ Hk' Hn) as (e & Ef & He & Efi).
    pose proof (geo_user _ _ (po_geometry _ _ _ _ Hk)) as Hu. unfold LIBPAGES in Hu.
    unfold mydeallocate. mstep by (by eapply pause_paused, thread_timer).
    unfold inMemSpace. rewrite (bind_ok_l (gets _) _ _ _ _ eq_refl). rewrite Pm.
    unfold span in Hb. fold lo in Hu. rewrite (Zleb_t (memory s)), (Zltb_t (q + 4)) by lia.
    cbn [andb negb]. change BLOCK_SIZE with 4. rewrite Z.add_simpl_r.
    mstep by (apply ld_word; split; [lia|intros y Hy; apply Hop; fold lo hi; lia]).
    rewrite Pa. change (getBlockIsF (load 4 (amem s) q) =? 1) with (w_free (amem s) q).
    cbn [hv_free word_view] in Hf. rewrite Hf.
    mstep by (by eapply current_thread_ok, Hk'). mstep by exact Ef. rewrite (Zeqb_f e 0) by done.
    mstep by (eapply thread_freeAndMerge; [exact Hk'|exact Efi|rewrite Pu; exact Erel]).
    cbn [negb when]. rewrite (bind_ok_l (mret tt) _ _ tt _ eq_refl).
    rewrite Pe. exact (unpause_after stack s m' [] (thread_timer _ _ _ Hk)). }
  destruct (seg_free_spec 4 hdr4_pos q lo l l' Hs El) as (Ht' & Hs' & _ & _).
  split; [done|]. split; [done|]. split; [|done].
  rewrite <- (set_prot_id s) at 1.
  eapply thread_heap_after; [done| | |done].
  - intros ->. cbn in Ht'. lia.
  - split; [done|]. split; [lia|]. unfold hi. fold lo. lia.
Qed.
End heap.
