(* ===== verification/HeapGrowth.v ===== *)
(** * A request that makes the heap of a thread grow

    When no block fits, [extend_heap] asks [gatherPages] for more pages: they
    lengthen a free last block, or start a new block behind a taken one.  That
    the request is then first fit on the longer heap is proved against the
    interface [Growth].  [served] is what such a request keeps when the pages
    come from memory. *)

From S2P Require Import Prelude CMem SegHeap FirstFit BlockWord Timer MyAlloc WordHeap PageSpec PagingSpec ThreadHeap Growth ThreadHeapSpec.

Section heap.
Context (PAGESIZE : Z) (stack : itimerval).
Context (Hps : 1024 <= PAGESIZE <= 32768).

Notation thread_heap := (thread_heap PAGESIZE).
Notation user_bounds := (user_bounds PAGESIZE Hps).
Notation user_end := (user_end PAGESIZE Hps).
Notation thread_heap_sizes := (thread_heap_sizes PAGESIZE Hps).
Notation thread_timer := (thread_timer PAGESIZE).
Notation th_pages := (th_pages PAGESIZE).
Notation th_some := (th_some PAGESIZE).
Notation thread_start := (thread_start PAGESIZE stack).
Notation thread_search_some := (thread_search_some PAGESIZE stack Hps).
Notation paused_opens := (paused_opens PAGESIZE stack Hps).
Notation opened_own := (opened_own PAGESIZE).
Notation pages_ok_paused := (pages_ok_paused PAGESIZE stack).
Notation paused_thr := (paused_thr stack).

(** The last block, once it is free and long enough, is split. *)
Lemma split_last s id n l0 y size :
  pages_ok PAGESIZE s id n -> own_open s n ->
  tiles (hdr:=4) (lo:=userSpace s) (hi:=userSpace s + PAGESIZE * n) (userSpace s) (l0 ++ [Seg y true]) ->
  chain (amem s) (userSpace s) (l0 ++ [Seg y true]) -> 0 <= size -> size + 4 <= y ->
  let prev := userSpace s + total 4 l0 in
  exists m', split_at PAGESIZE stack prev size (size + 4) s = Ok (tt, set_amem m' s) /\
    chain m' (userSpace s) (l0 ++ [Seg size false; Seg (y - (size + 4)) true]) /\
    agree (fun x => x < prev \/ userSpace s + PAGESIZE * n <= x) (amem s) m'.
Proof.
  intros Hk Ho (Hs & _ & Ht) Hc Hsz Hy prev. destruct (user_bounds _ _ _ Hk) as (H0 & Hm & _).
  set (lo := userSpace s) in *. set (hi := lo + PAGESIZE * n) in *.
  assert (hi - lo <= 2 ^ 24) as Hsp by (unfold MAX_MEMORY in *; lia).
  rewrite total_app in Ht. cbn [total] in Ht. unfold span in Ht; cbn in Ht.
  apply Forall_app in Hs as [Hs Hy0]. pose proof (total_nonneg 4 hdr4_pos l0 Hs).
  pose proof (chain_app_r _ _ _ _ Hc) as Hc1. fold prev in Hc1.
  assert (tiles (hdr:=4) (lo:=lo) (hi:=hi) prev [Seg y true]) as Ht1.
  { split; [done|]. split; [lia|]. cbn. unfold span; cbn. lia. }
  destruct (split_chain (HO:=word_ops lo hi H0 Hsp) hdr4_pos (amem s) prev (Seg y true) [] size
    Ht1 Hc1 eq_refl Hsz Hy) as [Hc' Hag].
  assert (forall a, lo <= a -> a + 4 <= hi -> open_word PAGESIZE s a) as Hw.
  { intros a Ha Ha'. by apply (own_word_open PAGESIZE Hps s id n). }
  exists (w_split (amem s) prev size (size + 4)). split; [|split].
  - apply split_at_words; apply Hw; lia.
  - eapply chain_replace; [exact hdr4_pos|done|done|exact Hc| |exact Hc'].
    intros x Hx. apply Hag. left. lia.
  - intros x Hx. apply Hag. unfold protected. cbn. unfold span; cbn. lia.
Qed.

(** The last header after [gatherPages]. *)
Lemma longer_header m m' a y d nx :
  0 < a -> wheader m a (Seg y true) nx -> nx = 0 -> 0 <= y ->
  longer (load 4 m a) (load 4 m' a) d -> wheader m' a (Seg (y + d) true) 0.
Proof.
  intros Ha Hh -> Hy (L1 & L2 & L3). rewrite header_word in *.
  destruct Hh as (Hf & Hz & Hn). cbn [seg_size seg_isfree] in Hz, Hf.
  unfold word_header. rewrite L1, L2, L3, Hz. split_and!; [done|done|].
  destruct (getBlockIsNext _ =? 0); [done|]. unfold BLOCK_SIZE in *. lia.
Qed.

(** *** The pages a request needs *)

(** The last block is [p]; its size counts even when it is taken. *)
Definition pages_needed (p size : Z) : Z :=
  Z.quot ((if getBlockIsF p =? 0 then 4 else 0) + (size + 4) - getBlockSize p) PAGESIZE + 1.

(** What [isEnoughPages] answers: none when there are not as many free. *)
Definition granted (s : astate) (k : Z) : Z :=
  if k <=? free_pages s + count_if is_free_entry (diskPages s) then k else 0.

Lemma swrap_wrap v : - 2 ^ 31 <= v < 2 ^ 31 -> swrap 32 (wrap 32 v) = v.
Proof.
  intros Hv. unfold swrap, wrap. rewrite Zplus_mod_idemp_l.
  rewrite Z.mod_small; lia.
Qed.

Lemma extend_heap_cases s prev size :
  open_word PAGESIZE s prev -> 0 <= size < 2 ^ 24 ->
  size + 4 <= memory s + MAX_MEMORY - (prev + 4) < 2 ^ 31 ->
  let p := load 4 (amem s) prev in let k := granted s (pages_needed p size) in
  extend_heap PAGESIZE stack size (size + 4) prev s =
  (if 0 <? k then
     if getBlockIsF p =? 0 then extend_new PAGESIZE stack size (size + 4) prev k
     else extend_last PAGESIZE stack size (size + 4) prev k
   else _ ← puts NotEnoughSpace; _ ← unpause_if_set; mret 0) s.
Proof.
  intros Ho Hsz Hroom p k. unfold extend_heap. rewrite (bind_ok_l get _ _ _ _ eq_refl).
  change BLOCK_SIZE with 4. rewrite (swrap_small 32), wrap_small by lia.
  rewrite (Zltb_f _ (size + 4)) by lia.
  do 2 (mstep by (by apply ld_word)). fold p.
  destruct (get_bounds p) as [Hp _].
  set (extra := if getBlockIsF p =? 0 then 4 else 0).
  assert (0 <= extra <= 4) as He by (unfold extra; destruct (getBlockIsF p =? 0); lia).
  rewrite (wrap_small 32 (extra + (size + 4))), swrap_wrap by lia.
  assert (isEnoughPages PAGESIZE (extra + (size + 4) - getBlockSize p) s = Ok (k, s)) as E.
  { unfold isEnoughPages. rewrite (bind_ok_l get _ _ _ _ eq_refl).
    assert (-2 ^ 25 <= Z.quot (extra + (size + 4) - getBlockSize p) PAGESIZE <= 2 ^ 25).
    { split; [apply Z.quot_le_lower_bound|apply Z.quot_le_upper_bound]; lia. }
    rewrite swrap_small by lia. done. }
  mstep by exact E. unfold extra. by destruct (0 <? k), (getBlockIsF p =? 0).
Qed.
Lemma needed_enough p size :
  (if getBlockIsF p =? 0 then 4 else 0) + (size + 4) - getBlockSize p
  < PAGESIZE * pages_needed p size.
Proof.
  unfold pages_needed. set (a := _ - getBlockSize p).
  pose proof (Z.quot_rem' a PAGESIZE). pose proof (Z.rem_bound_abs a PAGESIZE ltac:(lia)). lia.
Qed.

(** The state in which [thread_search] starts. *)
Lemma start_state s id n p :
  pages_ok PAGESIZE s id n -> free_open s -> (forall k, p k = opened s id k) ->
  let t := paused stack (set_prot p s) in
  pages_ok PAGESIZE t id n /\ free_open t /\ own_open t n.
Proof.
  intros Hk Hfo Hp. cbv zeta. rewrite paused_prot.
  destruct (paused_thr s) as (_ & _ & Pp & _ & _). split_and!.
  - destruct (pages_ok_paused _ _ _ Hk) as [[] ? ? ? ? ?]. by split.
  - intros k e. cbn [pages prot set_prot]. rewrite Pp, Hp. unfold opened. intros Ek Hf.
    rewrite (Hfo k e Ek Hf). by destruct (placed _ _ _).
  - intros k Hr. by apply (opened_own s id n p).
Qed.

Lemma paused_free_pages s p : free_pages (paused stack (set_prot p s)) = free_pages s.
Proof. unfold paused. cbn. by destruct (timerSet s). Qed.

(** The heap with [d] more bytes: they lengthen a free last block, or make a
    new block behind a taken one. *)
Definition grow_last (d : Z) (x : seg) : list seg :=
  if seg_isfree x then [Seg (seg_size x + d) true] else [x; Seg (d - 4) true].

Lemma alloc_grown n a l0 l1 y :
  Forall (unfit 4 n) (l0 ++ l1) -> 0 <= n -> n + 4 <= y ->
  seg_alloc 4 n a (l0 ++ l1 ++ [Seg y true]) =
  Some (a + total 4 (l0 ++ l1), l0 ++ l1 ++ [Seg n false; Seg (y - (n + 4)) true]).
Proof.
  intros Hu Hn Hy. rewrite !app_assoc, seg_alloc_app by done.
  cbn [seg_alloc seg_isfree seg_size negb orb]. by btests.
Qed.

(** Where the last block lies. *)
Lemma last_block s id n l0 x :
  thread_heap s id n (l0 ++ [x]) ->
  let prev := userSpace s + total 4 l0 in
  0 < userSpace s /\ sizes_ok l0 /\ 0 <= total 4 l0 /\ 0 <= seg_size x /\
  prev + 4 + seg_size x = userSpace s + PAGESIZE * n /\
  wheader (amem s) prev x 0.
Proof.
  intros Hh prev. pose proof Hh as [_ _ _ _ _ _ Hc].
  destruct (thread_heap_sizes _ _ _ _ Hh) as (H0 & Hs & Htot & _).
  rewrite total_app in Htot. cbn [total] in Htot. unfold span in Htot.
  apply Forall_app in Hs as [Hs0 Hz]. apply Forall_cons in Hz as [Hz _].
  pose proof (total_nonneg 4 hdr4_pos l0 Hs0).
  apply chain_app_r in Hc as [Hx _]. unfold prev. split_and!; try done; lia.
Qed.

(** No block fits: [extend_heap] is asked for more pages. *)
Lemma search_asks s id n l0 x size p :
  thread_heap s id n (l0 ++ [x]) -> free_open s -> (forall k, p k = opened s id k) ->
  0 <= size -> Forall (unfit 4 size) (l0 ++ [x]) ->
  let t := paused stack (set_prot p s) in
  let prev := userSpace s + total 4 l0 in
  let w := load 4 (amem s) prev in
  let k := granted s (pages_needed w size) in
  prev + 4 + (size + 4) <= memory s + MAX_MEMORY ->
  thread_search PAGESIZE stack size t =
  (if 0 <? k then
     if getBlockIsF w =? 0 then extend_new PAGESIZE stack size (size + 4) prev k
     else extend_last PAGESIZE stack size (size + 4) prev k
   else _ ← puts NotEnoughSpace; _ ← unpause_if_set; mret 0) t /\
  free_pages t = free_pages s /\ userSpace t = userSpace s /\ amem t = amem s.
Proof.
  intros Hh Hfo Hp Hsz Hu t prev w k Hfit. pose proof Hh as [Hpk Hn _ _ _ Htl Hc].
  destruct (thread_heap_sizes _ _ _ _ Hh) as (_ & _ & _ & _ & Hlen & _).
  destruct (last_block _ _ _ _ _ Hh) as (H0 & Hs0 & Ht0 & Hz & Hend & _). fold prev in Hend.
  destruct (start_state s id n p Hpk Hfo Hp) as (Hk1 & _ & Ho1). fold t in Hk1, Ho1.
  pose proof (paused_opens s id n p Hpk Hp) as Hop. fold t in Hop.
  destruct (paused_fields stack (set_prot p s)) as (Pm & Pu & Pa & _).
  destruct (paused_thr (set_prot p s)) as (_ & _ & Ppg & Pdk & _).
  change (memory t = memory s) in Pm. change (userSpace t = userSpace s) in Pu.
  change (amem t = amem s) in Pa. change (pages t = pages s) in Ppg.
  change (diskPages t = diskPages s) in Pdk.
  pose proof (geo_user _ _ (po_geometry _ _ _ _ Hpk)) as Hgu.
  unfold LIBPAGES, MAX_MEMORY in *.
  assert (wrap 32 (size + 4) = size + 4) as Hw by (apply wrap_small; lia).
  assert (find_fit PAGESIZE stack walk_fuel size (size + 4) (userSpace s) t
    = Ok ((None, prev), t)) as Eff.
  { eapply find_fit_unfit with (lo := userSpace s); try done. by rewrite Pa. }
  split; [|unfold free_pages; by rewrite Ppg]. unfold thread_search.
  rewrite (bind_ok_l (gets userSpace) _ _ _ _ eq_refl), Pu.
  change BLOCK_SIZE with 4. rewrite Hw, (bind_ok_l _ _ _ _ _ Eff).
  rewrite extend_heap_cases.
  - unfold k, granted, free_pages. by rewrite Pa, Ppg, Pdk.
  - apply (own_word_open PAGESIZE Hps t id n); [done..|]. unfold own_word. rewrite Pu. lia.
  - lia.
  - rewrite Pm. unfold MAX_MEMORY. lia.
Qed.

(** No block fits and there are enough free pages, in memory or in the swap
    file: the heap is extended. *)
Lemma search_extends s id n l0 x size p :
  thread_heap s id n (l0 ++ [x]) -> free_open s -> (forall k, p k = opened s id k) ->
  0 <= size -> Forall (unfit 4 size) (l0 ++ [x]) ->
  let t := paused stack (set_prot p s) in
  let prev := userSpace s + total 4 l0 in
  let w := load 4 (amem s) prev in
  let k := pages_needed w size in
  0 < k -> k <= free_pages s + free_disk s -> n + k <= NPAGES PAGESIZE -> prev + 4 + (size + 4) <= userSpace s + PAGESIZE * (n + k) ->
  thread_search PAGESIZE stack size t =
  (if getBlockIsF w =? 0 then extend_new PAGESIZE stack size (size + 4) prev k
   else extend_last PAGESIZE stack size (size + 4) prev k) t /\
  free_pages t = free_pages s /\ userSpace t = userSpace s /\ amem t = amem s.
Proof.
  intros Hh Hfo Hp Hsz Hu t prev w k Hk Hkf Hroom Hfit. pose proof (th_pages _ _ _ _ Hh) as Hpk.
  destruct (user_end s (n + k)) as (_ & _ & Hend'); [apply Hpk|apply Hpk|lia|].
  destruct (search_asks s id n l0 x size p Hh Hfo Hp Hsz Hu) as [E Hr]; [fold prev; lia|].
  split; [|exact Hr]. unfold t. rewrite E. fold prev w k.
  assert (granted s k = k) as -> by (unfold granted, free_disk in *; by rewrite Zleb_t by lia).
  by rewrite (Zltb_t 0 k) by lia.
Qed.

(** The request is refused. *)
Lemma search_refused s id n l0 x size p :
  thread_heap s id n (l0 ++ [x]) -> free_open s -> (forall k, p k = opened s id k) ->
  0 <= size -> Forall (unfit 4 size) (l0 ++ [x]) ->
  let prev := userSpace s + total 4 l0 in
  granted s (pages_needed (load 4 (amem s) prev) size) <= 0 ->
  prev + 4 + (size + 4) <= memory s + MAX_MEMORY ->
  thread_search PAGESIZE stack size (paused stack (set_prot p s))
  = Ok (0, after (set_prot p s) (amem s) [NotEnoughSpace]).
Proof.
  intros Hh Hfo Hp Hsz Hu prev Hg Hroom.
  destruct (search_asks s id n l0 x size p Hh Hfo Hp Hsz Hu Hroom) as (E & _ & _ & Pa).
  rewrite E. clear E. fold prev. rewrite Zltb_f by done.
  destruct (paused_fields stack (set_prot p s)) as (_ & _ & _ & _ & Pe). rewrite Pe.
  unfold puts, modify. mstep by reflexivity.
  by mstep by (exact (unpause_after stack (set_prot p s) (amem s) [NotEnoughSpace]
    (thread_timer s id n (th_pages _ _ _ _ Hh)))).
Qed.

(** The headers [extend_new] writes: a free block at [bl], linked from
    [prev]. *)
Definition new_block (m : mem) (bl prev : Z) : mem :=
  put_word (free_block PAGESIZE m bl) prev (fun w => setBlockIsNext w 1).

Lemma new_block_agree m bl prev x :
  outside 4 bl x -> outside 4 prev x -> new_block m bl prev x = m x.
Proof.
  intros H1 H2. unfold new_block. rewrite (put_agree (outside 4 prev)) by done.
  by apply free_block_agree.
Qed.

Lemma new_block_headers m prev x :
  0 < prev -> 0 <= seg_size x -> wheader m prev x 0 ->
  let bl := prev + 4 + seg_size x in
  wheader (new_block m bl prev) prev x bl /\
  wheader (new_block m bl prev) bl (Seg (PAGESIZE - 4) true) 0.
Proof.
  intros H0 Hx Hh bl. unfold new_block. split.
  - assert (wheader (free_block PAGESIZE m bl) prev x 0) as Hf.
    { eapply header_agree; [|exact Hh]. intros y Hy. apply free_block_agree. left. lia. }
    rewrite header_word in *. rewrite load_put by apply set_bounds.
    pose proof (setIsNext_word _ _ _ _ 1 ltac:(lia) Hf) as H. cbn [Z.eqb] in H.
    assert (prev + seg_size x + BLOCK_SIZE = bl) as E by (unfold bl, BLOCK_SIZE; lia).
    by rewrite E in H.
  - eapply header_agree; [|by apply free_block_header].
    apply put_agree. intros y Hy. lia.
Qed.

(** Allocated payloads lie outside the header of the last block and before the
    end of the heap. *)
Lemma payload_place s id n l0 z y :
  thread_heap s id n (l0 ++ [Seg z false]) ->
  y < userSpace s \/ taken_byte 4 (userSpace s) (l0 ++ [Seg z false]) y ->
  y < userSpace s + n * PAGESIZE /\ outside 4 (userSpace s + total 4 l0) y.
Proof.
  intros Hh Hy. destruct (last_block _ _ _ _ _ Hh) as (_ & Hs0 & Ht0 & Hz & Hend & _).
  destruct (thread_heap_sizes _ _ _ _ Hh) as (_ & Hs & Htot & _). cbn [seg_size] in *.
  destruct Hy as [Hy|Hy]; [split; [|left]; lia|].
  pose proof (taken_byte_bounds 4 hdr4_pos _ _ _ Hs Hy). split; [lia|].
  apply taken_byte_app in Hy as [Hy|(q & x & [(-> & -> & _)|[]] & Hy)].
  - pose proof (taken_byte_bounds 4 hdr4_pos _ _ _ Hs0 Hy). left. lia.
  - right. lia.
Qed.

(** *** The pages and the split, for any way to grow *)

Section extend.
Context {G : Z -> astate -> astate -> Z -> Z -> Z -> Prop}.
Context {enough : astate -> Z -> Z -> Z -> Prop} {HG : Growth PAGESIZE stack G enough}.

(** [gatherPages] and the split that follows it. *)
Lemma gather_split s id n l0 y j size :
  pages_ok PAGESIZE s id n -> own_open s n -> 0 < n ->
  tiles (hdr:=4) (lo:=userSpace s) (hi:=userSpace s + PAGESIZE * n) (userSpace s) (l0 ++ [Seg y true]) ->
  chain (amem s) (userSpace s) (l0 ++ [Seg y true]) ->
  enough s id n (Z.of_nat j) -> 0 <= size -> size + 4 <= y + PAGESIZE * Z.of_nat j ->
  let prev := userSpace s + total 4 l0 in
  exists s1 m', gatherPages PAGESIZE stack j prev s = Ok (tt, s1) /\
    split_at PAGESIZE stack prev size (size + 4) s1 = Ok (tt, set_amem m' s1) /\
    G prev s s1 id n (n + Z.of_nat j) /\
    chain m' (userSpace s)
      (l0 ++ [Seg size false; Seg (y + PAGESIZE * Z.of_nat j - (size + 4)) true]) /\
    agree (fun x => x < prev \/ userSpace s + PAGESIZE * (n + Z.of_nat j) <= x) (amem s1) m'.
Proof.
  intros Hk Ho Hn Htl Hc Hj Hsz Hy prev. pose proof Htl as (Hs & _ & Ht).
  destruct (user_bounds _ _ _ Hk) as (H0 & Hm & _).
  pose proof (gw_room PAGESIZE stack s id n (Z.of_nat j) Hk ltac:(lia) Hj) as Hroom.
  pose proof (npages_small PAGESIZE Hps).
  rewrite total_app in Ht. cbn [total] in Ht. unfold span in Ht; cbn in Ht.
  apply Forall_app in Hs as [Hs Hy0]. pose proof (total_nonneg 4 hdr4_pos l0 Hs).
  apply Forall_cons in Hy0 as [Hy0 _]. cbn in Hy0.
  pose proof (chain_app_r _ _ _ _ Hc) as [Hh _]. fold prev in Hh.
  assert (getBlockSize (load 4 (amem s) prev) = y) as Ey by (by destruct Hh as (_ & ? & _)).
  assert (y + PAGESIZE * Z.of_nat j < 2 ^ 24) as Hfit.
  { unfold NPAGES, LIBPAGES, MAX_MEMORY in *.
    pose proof (Z.mul_div_le 8388608 PAGESIZE ltac:(lia)). nia. }
  destruct (gatherPages_spec PAGESIZE stack Hps prev id j s n 0 Hk Ho Hn)
    as (s1 & E1 & Hg & _ & Hlong); [unfold own_word; lia|done|by rewrite Z.add_0_r|by rewrite Ey|].
  pose proof (gw_user PAGESIZE stack _ _ _ _ _ _ Hg) as Hu.
  assert (chain (amem s1) (userSpace s) (l0 ++ [Seg (y + PAGESIZE * Z.of_nat j) true])) as Hc1.
  { eapply chain_replace; [exact hdr4_pos|done|done|exact Hc| |].
    - intros x Hx. apply (gw_mem PAGESIZE stack _ _ _ _ _ _ _ Hg); [lia|]. left. fold prev. lia.
    - split; [|done]. eapply longer_header; [lia|exact Hh|done|done|exact Hlong]. }
  destruct (split_last s1 id (n + Z.of_nat j) l0 (y + PAGESIZE * Z.of_nat j) size)
    as (m' & E2 & Hc2 & Hag); rewrite ?Hu; try done.
  - by eapply (gw_ok PAGESIZE stack).
  - by eapply (gw_open PAGESIZE stack).
  - split; [|split; [lia|]].
    + apply Forall_app; split; [done|]. constructor; [cbn; lia|done].
    + rewrite total_app. cbn [total]. unfold span; cbn. lia.
  - rewrite Hu in *. by exists s1, m'.
Qed.

(** The steps of [extend_new] up to [gatherPages]. *)
Lemma start_block t id n l0 x k :
  pages_ok PAGESIZE t id n -> own_open t n -> 0 < n -> 0 < k -> enough t id n k ->
  sizes_ok (l0 ++ [x]) -> chain (amem t) (userSpace t) (l0 ++ [x]) ->
  total 4 (l0 ++ [x]) = PAGESIZE * n ->
  let prev := userSpace t + total 4 l0 in
  let bl := userSpace t + n * PAGESIZE in
  exists s1 s2, makeRoom PAGESIZE stack n t = Ok (true, s1) /\
    initializePage PAGESIZE stack n s1 = Ok (tt, s2) /\ userSpace s2 = userSpace t /\
    open_word PAGESIZE s2 bl /\ open_word PAGESIZE s2 prev /\
    let s3 := set_amem (new_block (amem s2) bl prev) s2 in
    G prev t s3 id n (n + 1) /\ enough s3 id (n + 1) (k - 1) /\
    chain (amem s3) (userSpace t) ((l0 ++ [x]) ++ [Seg (PAGESIZE - 4) true]).
Proof.
  intros Hk Ho Hn Hk0 He Hs Hc Ht prev bl.
  set (lb := userSpace t + PAGESIZE * n).
  destruct (gw_give PAGESIZE stack lb t id n k Hk Hn Hk0 He) as (s1 & s2 & E1 & E2 & Hg & He2).
  destruct (user_bounds _ _ _ Hk) as (H0 & _ & _).
  pose proof (gw_user PAGESIZE stack _ _ _ _ _ _ Hg) as Hu.
  pose proof (gw_open PAGESIZE stack _ _ _ _ _ _ Hg Ho) as Ho2.
  rewrite total_app in Ht. cbn [total] in Ht. unfold span in Ht.
  apply Forall_app in Hs as [Hs0 Hx]. apply Forall_cons in Hx as [Hx _].
  pose proof (total_nonneg 4 hdr4_pos l0 Hs0).
  assert (forall y, y < lb -> amem s2 y = amem t y) as Ham.
  { intros y Hy. apply (gw_mem PAGESIZE stack _ _ _ _ _ _ _ Hg); [done|]. by left. }
  exists s1, s2. split; [exact E1|]. split; [exact E2|]. split; [done|].
  split; [|split].
  1,2: apply (own_word_open PAGESIZE Hps s2 id (n + 1)); [by eapply (gw_ok PAGESIZE stack)|done|];
    unfold own_word; rewrite Hu; lia.
  cbv zeta. split; [|split; [by apply (gw_enough_amem PAGESIZE stack)|]].
  - eapply (gw_amem PAGESIZE stack); [lia|exact Hg| |].
    + intros y Hy Hp. split; [by left|]. apply new_block_agree; [left; lia|done].
    + intros y Hy. apply new_block_agree; right; lia.
  - cbn [amem set_amem]. rewrite <- app_assoc.
    pose proof (chain_app_r _ _ _ _ Hc) as [Hh _]. fold prev in Hh.
    assert (wheader (amem s2) prev x 0) as Hh2.
    { eapply header_agree; [|exact Hh]. intros y Hy. apply Ham. unfold lb. lia. }
    destruct (new_block_headers (amem s2) prev x) as [B1 B2]; [lia|done|done|].
    replace (prev + 4 + seg_size x) with bl in B1, B2 by lia.
    eapply chain_replace; [exact hdr4_pos|done|done|exact Hc| |].
    + intros y Hy. rewrite new_block_agree; [apply Ham|left|left]; unfold lb; lia.
    + fold prev. assert (prev + span 4 x = bl) as Ebl by (unfold span; lia).
      split; [|split; [|done]]; cbn [app link]; by rewrite Ebl.
Qed.

(** The steps of [extend_new]: a new block behind the last one, then the pages
    that are still needed, then the split. *)
Lemma block_split t id n l0 x k size :
  pages_ok PAGESIZE t id n -> own_open t n -> 0 < n -> 0 < k -> enough t id n k ->
  sizes_ok (l0 ++ [x]) -> chain (amem t) (userSpace t) (l0 ++ [x]) ->
  total 4 (l0 ++ [x]) = PAGESIZE * n -> 0 <= size -> size + 8 <= PAGESIZE * k ->
  let prev := userSpace t + total 4 l0 in
  let bl := userSpace t + n * PAGESIZE in
  exists s4 m', extend_new PAGESIZE stack size (size + 4) prev k t
                = (_ ← unpause_if_set; mret (bl + 4)) (set_amem m' s4) /\
    G prev t s4 id n (n + k) /\
    chain m' (userSpace t) ((l0 ++ [x]) ++ [Seg size false; Seg (PAGESIZE * k - 4 - (size + 4)) true]) /\
    agree (fun y => y < bl \/ userSpace t + PAGESIZE * (n + k) <= y) (amem s4) m'.
Proof.
  intros Hk Ho Hn Hk0 He Hs Hc Htot Hsz Hfit prev bl.
  destruct (start_block t id n l0 x k) as (s1 & s2 & E1 & E2 & Hu2 & Hbl & Hpr & Hg & He3 & Hc3);
    try done.
  fold prev bl in Hbl, Hpr, Hg, He3, Hc3. cbv zeta in Hg, He3, Hc3.
  set (s3 := set_amem (new_block (amem s2) bl prev) s2) in *.
  assert (userSpace s3 = userSpace t) as Hu3 by exact Hu2.
  destruct (gather_split s3 id (n + 1) (l0 ++ [x]) (PAGESIZE - 4) (Z.to_nat (k - 1)) size)
    as (s4 & m' & E3 & E4 & Hg4 & Hc' & Hag); rewrite ?Hu3, ?Z2Nat.id by lia.
  1-8: first [done|lia|by eapply (gw_ok PAGESIZE stack)|idtac].
  - by apply (gw_open PAGESIZE stack _ _ _ _ _ _ Hg).
  - split; [|split; [lia|]].
    + apply Forall_app; split; [done|]. constructor; [cbn; lia|done].
    + rewrite total_app, Htot. cbn [total]. unfold span; cbn. lia.
  - rewrite Hu3, Z2Nat.id in * by lia. rewrite Htot in E3, E4, Hg4, Hag.
    replace (userSpace t + PAGESIZE * n) with bl in * by lia.
    replace (n + 1 + (k - 1)) with (n + k) in Hg4, Hag by lia.
    replace (PAGESIZE - 4 + PAGESIZE * (k - 1) - (size + 4))
      with (PAGESIZE * k - 4 - (size + 4)) in Hc' by lia.
    exists s4, m'. split; [|split; [|done]].
    + unfold extend_new. mstep by (by eapply next_page_ok, Hk). mstep by exact E1.
      cbn [negb]. mstep by exact E2.
      rewrite (bind_ok_l (gets userSpace) _ _ _ _ eq_refl), Hu2. fold bl. cbv zeta.
      do 4 (mstep by (by apply upd_word)). mstep by exact E3. by mstep by exact E4.
    + eapply (gw_trans PAGESIZE stack); [| | |exact Hg|exact Hg4]; [lia|lia|].
      intros y Hy _. left. lia.
Qed.

(** The request, up to the last step, which starts the timer again: it gets the
    block at [q], and the heap will be [l'] on [n + k] pages. *)
Record extended (s t : astate) (id n k size prev : Z) (l : list seg) (q : Z) (l' : list seg)
    (s1 : astate) (m' : mem) : Prop := Extended {
  ex_run : thread_search PAGESIZE stack size t
           = (_ ← unpause_if_set; mret (q + 4)) (set_amem m' s1);
  ex_grown : G prev t s1 id n (n + k);
  ex_tiles : tiles (hdr:=4) (lo:=userSpace s) (hi:=userSpace s + PAGESIZE * (n + k)) (userSpace s) l';
  ex_chain : chain m' (userSpace s) l';
  ex_bytes x : x < userSpace s \/ taken_byte 4 (userSpace s) l x ->
    m' x = amem s1 x /\ outside 4 prev x;
  ex_rest : agree (fun x => userSpace s + PAGESIZE * (n + k) <= x) (amem s1) m'
}.

(** The request when the last block is free. *)
Lemma extend_free s id n l0 z size p :
  let prev := userSpace s + total 4 l0 in
  let k := pages_needed (load 4 (amem s) prev) size in
  let t := paused stack (set_prot p s) in
  thread_heap s id n (l0 ++ [Seg z true]) -> free_open s -> (forall k, p k = opened s id k) ->
  0 <= size -> Forall (unfit 4 size) (l0 ++ [Seg z true]) ->
  0 < k -> k <= free_pages s + free_disk s -> enough t id n k ->
  size + 4 <= z + PAGESIZE * k /\
  exists s1 m', extended s t id n k size prev (l0 ++ [Seg z true]) prev
    (l0 ++ [Seg size false; Seg (z + PAGESIZE * k - (size + 4)) true]) s1 m'.
Proof.
  intros prev k t Hh Hfo Hp Hsz Hu Hk0 Hkf He. pose proof Hh as [Hpk Hn _ _ _ Htl Hc].
  destruct (last_block _ _ _ _ _ Hh) as (H0 & Hs0 & Ht0 & Hz & Hend & Hf & Hl & _).
  fold prev in Hend, Hf, Hl. cbn [seg_size seg_isfree] in *.
  destruct (start_state s id n p Hpk Hfo Hp) as (Hk1 & _ & Ho1). fold t in Hk1, Ho1.
  cbn [hv_free hv_len word_view] in Hf, Hl. unfold w_free, w_len in Hf, Hl. bprop.
  pose proof (needed_enough (load 4 (amem s) prev) size) as Hkn. fold k in Hkn.
  rewrite Hf, Hl in Hkn. cbn [Z.eqb] in Hkn.
  assert (size + 4 <= z + PAGESIZE * k) as Hfit by lia. split; [done|].
  pose proof (gw_room PAGESIZE stack t id n k Hk1 ltac:(lia) He) as Hroom.
  destruct (search_extends s id n l0 (Seg z true) size p Hh Hfo Hp Hsz Hu) as (Es & Hft & Pu & Pa);
    fold prev k; [lia..|].
  fold t in Es, Hft, Pu, Pa. fold prev k in Es. rewrite Hf in Es. cbn [Z.eqb] in Es.
  destruct (gather_split t id n l0 z (Z.to_nat k) size) as (s1 & m' & E1 & E2 & Hg & Hc' & Hag);
    rewrite ?Pu, ?Pa, ?Z2Nat.id by lia; try done.
  rewrite Pu, Z2Nat.id in * by lia. fold prev in E1, E2, Hg, Hc', Hag.
  exists s1, m'. split; try done.
  - rewrite Es. unfold extend_last. mstep by exact E1. by mstep by exact E2.
  - split; [|split; [lia|]].
    + apply Forall_app; split; [done|]. repeat (constructor; [cbn; lia|]). constructor.
    + rewrite total_app. cbn [total]. unfold span; cbn. lia.
  - intros y Hy. assert (y < prev) as Hlt; [|by split; [apply Hag; left|left]].
    destruct Hy as [Hy|Hy]; [unfold prev; lia|].
    apply taken_byte_app in Hy as [Hy|(q & x & [(_ & -> & ?)|[]] & _)]; [|done].
    pose proof (taken_byte_bounds 4 hdr4_pos _ _ _ Hs0 Hy). unfold prev. lia.
  - eapply agree_weaken; [done|]. intros y Hy. by right.
Qed.

(** The request when the last block is taken. *)
Lemma extend_taken s id n l0 z size p :
  let prev := userSpace s + total 4 l0 in
  let w := load 4 (amem s) prev in
  let k := pages_needed w size in
  let t := paused stack (set_prot p s) in
  thread_heap s id n (l0 ++ [Seg z false]) -> free_open s -> (forall k, p k = opened s id k) ->
  0 <= size -> Forall (unfit 4 size) (l0 ++ [Seg z false]) ->
  getBlockIsF w = 0 -> size + 8 <= PAGESIZE * k ->
  0 < k -> k <= free_pages s + free_disk s -> enough t id n k ->
  exists s1 m', extended s t id n k size prev (l0 ++ [Seg z false]) (userSpace s + PAGESIZE * n)
    ((l0 ++ [Seg z false]) ++ [Seg size false; Seg (PAGESIZE * k - 4 - (size + 4)) true]) s1 m'.
Proof.
  intros prev w k t Hh Hfo Hp Hsz Hu Hw Hfit Hk0 Hkf He. pose proof Hh as [Hpk Hn _ _ _ Htl Hc].
  destruct (last_block _ _ _ _ _ Hh) as (_ & _ & _ & Hz & Hend & _).
  fold prev in Hend. cbn [seg_size] in *.
  destruct (thread_heap_sizes _ _ _ _ Hh) as (_ & Hs & Htot & _).
  destruct (start_state s id n p Hpk Hfo Hp) as (Hk1 & _ & Ho1). fold t in Hk1, Ho1.
  pose proof (gw_room PAGESIZE stack t id n k Hk1 ltac:(lia) He) as Hroom.
  destruct (search_extends s id n l0 (Seg z false) size p Hh Hfo Hp Hsz Hu) as (Es & Hft & Pu & Pa);
    fold prev w k; [lia..|].
  fold t in Es, Hft, Pu, Pa. fold prev w k in Es. rewrite Hw in Es. cbn [Z.eqb] in Es.
  destruct (block_split t id n l0 (Seg z false) k size) as (s4 & m' & E & Hg & Hc' & Hag);
    rewrite ?Pu, ?Pa, ?Hft; try done.
  rewrite Pu in *. fold prev in E, Hg.
  exists s4, m'. split; try done.
  - rewrite Es, E. by rewrite (Z.mul_comm PAGESIZE n).
  - split; [|split; [lia|]].
    + apply Forall_app; split; [done|]. repeat (constructor; [cbn; lia|]). constructor.
    + rewrite total_app, Htot. cbn [total]. unfold span; cbn. lia.
  - intros y Hy. destruct (payload_place s id n l0 z y Hh Hy) as [Hlt Hout].
    split; [apply Hag; by left|done].
  - eapply agree_weaken; [exact Hag|]. intros y Hy. by right.
Qed.

(** When no block fits, the request is first fit on the longer heap. *)
Lemma heap_extends s id n l0 x size p :
  let prev := userSpace s + total 4 l0 in
  let w := load 4 (amem s) prev in
  let k := pages_needed w size in
  let t := paused stack (set_prot p s) in
  thread_heap s id n (l0 ++ [x]) -> free_open s -> (forall k, p k = opened s id k) ->
  0 <= size -> seg_alloc 4 size (userSpace s) (l0 ++ [x]) = None ->
  (seg_isfree x = true \/ (getBlockIsF w = 0 /\ size + 8 <= PAGESIZE * k)) ->
  0 < k -> k <= free_pages s + free_disk s -> enough t id n k ->
  exists q l' s1 m',
    seg_alloc 4 size (userSpace s) (l0 ++ grow_last (PAGESIZE * k) x) = Some (q, l') /\
    l' <> [] /\ extended s t id n k size prev (l0 ++ [x]) q l' s1 m'.
Proof.
  intros prev w k t Hh Hfo Hp Hsz En Hx Hk0 Hkf He. apply (seg_alloc_none 4 hdr4_pos) in En.
  destruct x as [z [|]]; unfold grow_last; cbn [seg_isfree seg_size] in *.
  - destruct (extend_free s id n l0 z size p Hh Hfo Hp Hsz En Hk0 Hkf He) as (Hfit & s1 & m' & Hex).
    eexists _, _, s1, m'. split; [|split; [|exact Hex]]; [|by destruct l0].
    apply Forall_app in En as [Hu _].
    pose proof (alloc_grown size (userSpace s) l0 [] (z + PAGESIZE * k)) as A.
    rewrite !app_nil_r in A. by apply A.
  - destruct Hx as [?|[Hw Hfit]]; [done|].
    destruct (extend_taken s id n l0 z size p Hh Hfo Hp Hsz En Hw Hfit Hk0 Hkf He) as (s1 & m' & Hex).
    destruct (thread_heap_sizes _ _ _ _ Hh) as (_ & _ & Htot & _).
    eexists _, _, s1, m'. split; [|split; [|exact Hex]]; [|by destruct l0].
    rewrite <- Htot.
    pose proof (alloc_grown size (userSpace s) l0 [Seg z false] (PAGESIZE * k - 4) En Hsz ltac:(lia)) as A.
    rewrite <- app_assoc. exact A.
Qed.
End extend.

(** ** Requests served from memory *)

(** The timer as it was before the request. *)
Definition restarted (s : astate) : timers :=
  if timerSet s then Timers (itimer (tim s)) (itimer (tim s)) else tim s.

Lemma unpause_restarted t s1 :
  timerSet s1 = timerSet t -> tim s1 = tim (paused stack t) -> thr s1 <> None ->
  unpause_if_set s1 = Ok (tt, set_tim (restarted t) s1).
Proof.
  intros Hs Ht Hth. unfold unpause_if_set, restarted. rewrite (bind_ok_l (gets _) _ _ _ _ eq_refl), Hs.
  unfold paused in Ht. destruct (timerSet t); cbn [when].
  - unfold unpause. rewrite Ht. by destruct (thr s1).
  - rewrite <- Ht. by destruct s1.
Qed.

(** The pages of the other threads are kept, possibly at other places. *)
Definition others_kept (s s' : astate) (n n' : Z) : Prop :=
  forall j e, aget (pages s) j = Some e -> is_free_entry e = false -> n <= j ->
    exists j', n' <= j' /\ aget (pages s') j' = Some e /\
      forall x, 0 <= x < PAGESIZE -> page_byte PAGESIZE s' j' x = page_byte PAGESIZE s j x.

(** No other page appears. *)
Definition others_from (s s' : astate) (n n' : Z) : Prop :=
  forall j' e, aget (pages s') j' = Some e -> n' <= j' ->
    exists j, n <= j /\ aget (pages s) j = Some e /\
      forall x, 0 <= x < PAGESIZE -> page_byte PAGESIZE s' j' x = page_byte PAGESIZE s j x.

(** A request served with new pages: the heap holds [l'] on [n'] pages; the
    library's bytes, the allocated payloads, the pages of the other threads and
    the swap file are unchanged, nothing is printed and the timer runs as before. *)
Record served (s s' : astate) (id n n' : Z) (l l' : list seg) : Prop := Served {
  sv_heap : thread_heap s' id n' l';
  sv_bytes x : x < userSpace s \/ taken_byte 4 (userSpace s) l x -> amem s' x = amem s x;
  sv_others : others_kept s s' n n';
  sv_origin : others_from s s' n n';
  sv_free_open : free_open s';
  sv_region : userSpace s' = userSpace s /\ memory s' = memory s;
  sv_disk : diskPages s' = diskPages s /\ swp s' = swp s;
  sv_out : aout s' = aout s;
  sv_timer : tim s' = restarted s
}.

(** What a request that grew the heap leaves alone: the pages were gathered in
    [s1], then only the blocks below the heap's new end were written. *)
Lemma served_grown s id n n' l l' p lb s1 m' :
  let t := paused stack (set_prot p s) in
  let s' := set_tim (restarted s) (set_amem m' s1) in
  grown PAGESIZE lb t s1 id n n' -> thread_heap s' id n' l' ->
  agree (fun x => userSpace s + PAGESIZE * n' <= x) (amem s1) m' ->
  (forall x, x < userSpace s \/ taken_byte 4 (userSpace s) l x -> m' x = amem s x) ->
  served s s' id n n' l l'.
Proof.
  intros t s' Hg Hh Hag Hb.
  assert (userSpace t = userSpace s /\ amem t = amem s /\ pages t = pages s) as (Hut & Hat & Hpt)
    by (subst t; by rewrite paused_prot; unfold paused; destruct (timerSet s)).
  assert (userSpace s1 = userSpace s) as Hu by (by rewrite (grown_user _ _ _ _ _ _ _ Hg)).
  destruct Hg as [_ G2 _ _ _ _ G7 G9 G8].
  assert (aout s1 = aout s /\ (diskPages s1 = diskPages s /\ swp s1 = swp s) /\
    memory s1 = memory s) as (Ra & Rd & Rm).
  { rewrite G8. unfold t. rewrite paused_prot. unfold paused. by destruct (timerSet s). }
  assert (forall j x, page_byte PAGESIZE t j x = page_byte PAGESIZE s j x) as Hbt
    by (intros j x; unfold page_byte, page_addr; by rewrite Hat, Hut).
  assert (forall j x, n' <= j -> 0 <= x < PAGESIZE ->
    page_byte PAGESIZE s' j x = page_byte PAGESIZE s1 j x) as Hb1.
  { intros j x Hj Hx. unfold page_byte, page_addr. cbn [amem userSpace set_tim set_amem s'].
    apply Hag. rewrite Hu. nia. }
  split; try done.
  - intros j e Ej Hf Hj. rewrite <- Hpt in Ej. destruct (G7 j e Ej Hf Hj) as (j' & Hj' & Ej' & Hby).
    exists j'. split; [done|]. split; [done|]. intros x Hx. by rewrite Hb1, Hby, Hbt.
  - intros j e Ej Hj. destruct (G9 j e Ej Hj) as (j' & Hj' & Ej' & Hby). rewrite Hpt in Ej'.
    exists j'. split; [done|]. split; [done|]. intros x Hx. by rewrite Hb1, Hby, Hbt.
Qed.

(** The end of a request that grew the heap. *)
Lemma served_intro s id n l p lb s1 n' m' l' :
  thread_heap s id n l -> 0 <= n <= n' ->
  let t := paused stack (set_prot p s) in
  grown PAGESIZE lb t s1 id n n' -> l' <> [] ->
  tiles (hdr:=4) (lo:=userSpace s) (hi:=userSpace s + PAGESIZE * n') (userSpace s) l' ->
  chain m' (userSpace s) l' ->
  (forall x, x < userSpace s \/ taken_byte 4 (userSpace s) l x ->
     m' x = amem s1 x /\ outside 4 lb x) ->
  agree (fun x => userSpace s + PAGESIZE * n' <= x) (amem s1) m' ->
  unpause_if_set (set_amem m' s1) = Ok (tt, set_tim (restarted s) (set_amem m' s1)) /\
  served s (set_tim (restarted s) (set_amem m' s1)) id n n' l l'.
Proof.
  intros Hh Hn t Hg Hne Htl Hc Hb Hag.
  assert (userSpace t = userSpace s /\ amem t = amem s) as [Hut Hat]
    by (subst t; by rewrite paused_prot; unfold paused; destruct (timerSet s)).
  pose proof (grown_user _ _ _ _ _ _ _ Hg) as Hu. rewrite Hut in Hu.
  pose proof (thread_heap_sizes _ _ _ _ Hh) as (_ & Hs & Htot & _).
  pose proof Hg as [G1 _ _ G4 _ _ _ _ G8].
  assert (timerSet s1 = timerSet s /\ tim s1 = tim (paused stack s) /\
    diskPages s1 = diskPages s /\ firstMalloc s1 = firstMalloc s) as (Rt & Rtm & Rd & Rf).
  { rewrite G8. unfold t. rewrite paused_prot. unfold paused. by destruct (timerSet s) eqn:Ets. }
  split; [apply unpause_restarted; [done|done|cbn; by rewrite (po_thread _ _ _ _ G1)]|].
  eapply served_grown; [exact Hg| |exact Hag|].
  - split; cbn [firstMalloc diskPages userSpace amem set_tim set_amem]; rewrite ?Hu; try done.
    + destruct G1 as [[] ? ? ? ? ?]. by split.
    + pose proof (th_some _ _ _ _ Hh). lia.
    + rewrite Rd. apply Hh.
    + rewrite Rf. apply Hh.
  - intros x Hx. destruct (Hb x Hx) as [-> Ho].
    rewrite G4, Hat; [done| |done]. rewrite Hut.
    destruct Hx as [Hx|(q & y & Hq & Hx)]; [nia|].
    destruct (live_bounds 4 hdr4_pos _ _ _ _ Hs Hq) as (_ & ? & _). lia.
Qed.

(** ** The first request of a thread *)

(** A state whose timer is stopped is the paused form of one whose timer
    runs. *)
Lemma unpaused_state s t :
  timerSet t = timerSet s -> tim t = tim (paused stack s) ->
  t = paused stack (set_tim (tim s) t).
Proof.
  intros Hs Ht. unfold paused in *. cbn [timerSet set_tim]. rewrite Hs.
  destruct (timerSet s) eqn:E; destruct t; cbn in *; by rewrite Ht.
Qed.

(** The search in the heap of a new thread, which is one free page. *)
Lemma first_search s id size tau :
  thread_heap (set_tim tau s) id 1 [Seg (PAGESIZE - 4) true] ->
  s = paused stack (set_tim tau s) -> (forall k, prot s k = opened s id k) ->
  0 <= size -> size + 8 <= PAGESIZE ->
  exists m', thread_search PAGESIZE stack size s
             = Ok (userSpace s + 4, after (set_tim tau s) m' []) /\
    thread_heap (after (set_tim tau s) m' []) id 1
      [Seg size false; Seg (PAGESIZE - 4 - (size + 4)) true] /\
    agree (fun x => x < userSpace s \/ userSpace s + PAGESIZE <= x) (amem s) m'.
Proof.
  intros Hh Hs Hp Hsz Hfit. set (s0 := set_tim tau s) in *.
  destruct (thread_search_some s0 id 1 [Seg (PAGESIZE - 4) true] size (prot s0) (userSpace s)
    [Seg size false; Seg (PAGESIZE - 4 - (size + 4)) true] Hh) as (m' & E & Hh' & Hag);
    [done|done| |].
  - cbn [seg_alloc seg_isfree seg_size negb orb]. by btests.
  - rewrite set_prot_id, <- Hs in E. rewrite set_prot_id in Hh'.
    exists m'. split; [exact E|]. split; [exact Hh'|]. intros x Hx. apply Hag.
    change (userSpace s0) with (userSpace s).
    destruct Hx as [Hx|Hx]; [by left|right; left]. cbn. unfold span. cbn. lia.
Qed.

Lemma first_thread_request s id e0 region size :
  pages_ok PAGESIZE s id 0 -> free_open s -> 0 < free_pages s -> settled (diskPages s) id ->
  firstMalloc s = false -> aget (pages s) 0 = Some e0 -> getPageThID e0 <> id ->
  0 <= size -> size + 8 <= PAGESIZE ->
  exists s', myallocate PAGESIZE stack region size THREADREQ s = Ok (userSpace s + 4, s') /\
    served s s' id 0 1 [] [Seg size false; Seg (PAGESIZE - 4 - (size + 4)) true].
Proof.
  intros Hk Hfo Hfree Hd Hf Ee0 Hne Hsz Hfit.
  destruct (thread_start s id 0 region size Hk Hd Hf) as (p & Hp & E). rewrite E. clear E.
  destruct (start_state s id 0 p Hk Hfo Hp) as (Hk1 & Hfo1 & _).
  destruct (paused_fields stack (set_prot p s)) as (_ & Pu & Pa & _).
  destruct (paused_thr (set_prot p s)) as (_ & Pf & Pp & Pd & Pr).
  set (t := paused stack (set_prot p s)) in *.
  change (pages t = pages s) in Pp. change (prot t = p) in Pr.
  destruct (give_first_page PAGESIZE stack Hps t id e0) as (s1 & s2 & E1 & E2 & Hg & Hc & Hpl);
    rewrite ?Pp; try done.
  { unfold free_pages. by rewrite Pp. }
  assert (first_page_room PAGESIZE stack id t = Ok (true, s2)) as E3.
  { unfold first_page_room. mstep by (apply get_page_at; by rewrite Pp).
    rewrite Zeqb_f by done. cbn [negb]. mstep by exact E1. cbn [negb]. by mstep by exact E2. }
  rewrite (bind_ok_l _ _ _ _ _ E3). cbn [negb]. clear E1 E2 E3.
  change (userSpace t = userSpace s) in Pu. change (amem t = amem s) in Pa.
  pose proof Hg as [G1 _ _ G4 _ G6 _ _ G8].
  assert (timerSet s2 = timerSet s /\ tim s2 = tim (paused stack s) /\ aout s2 = aout s /\
    diskPages s2 = diskPages s /\ firstMalloc s2 = firstMalloc s /\ userSpace s2 = userSpace s)
    as (Rt & Rtm & Ra & Rd & Rf & Ru).
  { rewrite G8. unfold t. rewrite paused_prot.
    unfold paused. by destruct (timerSet s) eqn:Ets. }
  assert (s2 = paused stack (set_tim (tim s) s2)) as Es2 by (by apply unpaused_state).
  assert (thread_heap (set_tim (tim s) s2) id 1 [Seg (PAGESIZE - 4) true]) as Hh0.
  { split; try done; cbn [userSpace amem firstMalloc diskPages set_tim];
      rewrite ?Ru, ?Rd, ?Rf; try done.
    - destruct G1 as [[] ? ? ? ? ?]. by split.
    - split; [constructor; [cbn; lia|constructor]|]. cbn. unfold span; cbn. lia.
    - by rewrite <- Pu. }
  destruct (first_search s2 id size (tim s) Hh0) as (m' & E & Hh' & Hag); [done| |done|done|].
  - intros k. unfold opened. destruct (placed (pages s2) id k) eqn:Epl; [|done]. cbn [orb].
    destruct (Hpl k Epl) as [?|[Hpk Hpr]]; [done|].
    rewrite Hpr, Pr, Hp. unfold opened. rewrite Pp in Hpk. by rewrite Hpk.
  - rewrite Ru in E, Hag. eexists. split; [exact E|].
    assert (after (set_tim (tim s) s2) m' [] = set_tim (restarted s) (set_amem m' s2)) as Ea.
    { clear -Rt. unfold after, restarted. destruct s2. cbn in *. by rewrite Rt. }
    rewrite Ea in *. apply (served_grown s id 0 1 [] _ p _ s2 m' Hg Hh').
    + intros x Hx. apply Hag. right. lia.
    + intros x [Hx|(q & y & [] & _)]. rewrite Hag by (left; done).
      rewrite G4, Pa; [done|lia|left; lia].
Qed.

End heap.
