(* ===== verification/ThreadAlloc.v ===== *)
(** * The requests of a thread

    What [myallocate] and [mydeallocate] guarantee a thread: its requests
    implement the segmented heap of its own pages, the heap grows by whole
    pages, and the pages of the others are kept.  At the end, runs in which
    the code breaks these promises: a block that ends outside the heap, and a
    thread whose first page another one has displaced. *)

From S2P Require Import Prelude CMem SegHeap FirstFit BlockWord Timer MyAlloc WordHeap PageSpec PagingSpec ThreadHeap Growth ThreadHeapSpec HeapGrowth.

Section theorems.
Context (PAGESIZE : Z) (stack : itimerval).
Context (Hps : 1024 <= PAGESIZE <= 32768).

Notation thread_heap := (thread_heap PAGESIZE).
Notation served := (served PAGESIZE).
Notation pages_ok := (pages_ok PAGESIZE).

(** C10: [myallocate] for a thread with pages implements first-fit allocation
    on the segments of its own heap, when a block fits: the new payload lies in
    the thread's pages and overlaps no other, no allocated byte changes, the
    pages of the thread are accessible afterwards, no other page becomes so,
    and the timer runs as before. *)
Theorem thread_malloc_refines s id n l size region p l' :
  thread_heap s id n l -> 0 <= size -> seg_alloc 4 size (userSpace s) l = Some (p, l') ->
  exists o m', let s' := after (set_prot o s) m' [] in
    myallocate PAGESIZE stack region size THREADREQ s = Ok (p + 4, s') /\
    thread_heap s' id n l' /\ agree (protected 4 (userSpace s) l) (amem s) m' /\
    (forall k, o k = opened s id k) /\ own_open s' n /\
    userSpace s <= p /\ p + 4 + size <= userSpace s + PAGESIZE * n /\
    (forall x, taken_byte 4 (userSpace s) l x -> ~ (p <= x < p + 4 + size)).
Proof.
  intros Hh Hsz Ea. pose proof Hh as [Hk Hn Hd Hf _ _ _].
  destruct (thread_request PAGESIZE stack s id n region size Hk Hn Hd Hf) as (o & Ho & E).
  destruct (thread_search_some PAGESIZE stack Hps s id n l size o p l' Hh Ho Hsz Ea)
    as (m' & E' & Hh' & Hag).
  destruct (thread_heap_sizes PAGESIZE Hps _ _ _ _ Hh) as (_ & Hs & Htot & _).
  destruct (seg_alloc_bounds 4 hdr4_pos _ _ _ _ _ Hsz Hs Ea).
  exists o, m'. cbv zeta. rewrite E. split_and!; try done; try lia.
  - by apply (opened_own PAGESIZE s id).
  - intros x. by apply (seg_alloc_disjoint 4 hdr4_pos _ _ _ _ _ x Hsz Hs Ea).
Qed.

(** C18: [mydeallocate] of a block of the running thread, whose pages are in
    place and accessible, implements the release of the segment list: the block
    merges with its free neighbours, the others keep their places and bytes,
    and nothing is printed. *)
Theorem thread_free_refines s id n l q x :
  thread_heap s id n l -> own_open s n -> live 4 (userSpace s) l q x ->
  q + 4 < memory s + MAX_MEMORY ->
  exists m' l',
    mydeallocate PAGESIZE stack (q + 4) THREADREQ s = Ok (tt, after s m' []) /\
    seg_free 4 q (userSpace s) l = Some l' /\ thread_heap (after s m' []) id n l' /\
    (coalesced l -> coalesced l') /\
    (forall q' x', live 4 (userSpace s) l' q' x' <-> live 4 (userSpace s) l q' x' /\ q' <> q) /\
    agree (protected 4 (userSpace s) l) (amem s) m'.
Proof.
  intros Hh Ho Hl Hin.
  destruct (thread_deallocate_spec PAGESIZE stack Hps s id n l q x Hh Ho Hl Hin)
    as (m' & l' & E & Ef & Hh' & Hag).
  destruct (thread_heap_sizes PAGESIZE Hps _ _ _ _ Hh) as (_ & Hs & _).
  destruct (seg_free_spec 4 hdr4_pos _ _ _ _ Hs Ef) as (_ & _ & Hco & Hlv).
  by exists m', l'.
Qed.

(** C21: the first request of a thread makes room at page 0, whoever has it,
    and starts a heap of one page there: the block is its first one.  The page
    that was there is kept at another place, content and entry, and so are all
    others. *)
Theorem thread_first_request s id e0 region size :
  pages_ok s id 0 -> free_open s -> 0 < free_pages s -> settled (diskPages s) id ->
  firstMalloc s = false -> aget (pages s) 0 = Some e0 -> getPageThID e0 <> id ->
  0 <= size -> size + 8 <= PAGESIZE ->
  exists s', myallocate PAGESIZE stack region size THREADREQ s = Ok (userSpace s + 4, s') /\
    served s s' id 0 1 [] [Seg size false; Seg (PAGESIZE - 4 - (size + 4)) true].
Proof. intros. by eapply first_thread_request. Qed.

(** A request that makes the heap grow. *)
Lemma growing_request s id n l0 x size region :
  let w := load 4 (amem s) (userSpace s + total 4 l0) in
  let k := pages_needed PAGESIZE w size in
  thread_heap s id n (l0 ++ [x]) -> free_open s -> 0 <= size ->
  seg_alloc 4 size (userSpace s) (l0 ++ [x]) = None ->
  (seg_isfree x = true \/ (getBlockIsF w = 0 /\ size + 8 <= PAGESIZE * k)) ->
  0 < k <= free_pages s ->
  exists q l' s', seg_alloc 4 size (userSpace s) (l0 ++ grow_last (PAGESIZE * k) x) = Some (q, l') /\
    myallocate PAGESIZE stack region size THREADREQ s = Ok (q + 4, s') /\
    served s s' id n (n + k) (l0 ++ [x]) l'.
Proof.
  intros w k Hh Hfo Hsz En Hx Hk. pose proof Hh as [Hpk Hn Hd Hf _ _ _].
  destruct (thread_request PAGESIZE stack s id n region size Hpk Hn Hd Hf) as (p & Hp & ->).
  destruct (start_state PAGESIZE stack s id n p Hpk Hfo Hp) as (_ & Hfo1 & _).
  pose proof (count_if_bounds is_free_entry (diskPages s)).
  pose proof (grown_growth PAGESIZE stack Hps).
  destruct (heap_extends (G:=grown PAGESIZE) PAGESIZE stack Hps s id n l0 x size p Hh Hfo Hp Hsz En Hx)
    as (q & l' & s1 & m' & Ea & Hne & [E Hg Ht Hc Hb Hag]);
    fold w k; [lia|unfold free_disk; lia|split; [done|rewrite (paused_free_pages stack); lia]|].
  destruct (served_intro PAGESIZE stack Hps s id n (l0 ++ [x]) p _ s1 (n + k) m' l' Hh ltac:(lia) Hg)
    as (E2 & Hsv); [done..|].
  exists q, l', (set_tim (restarted s) (set_amem m' s1)). split; [done|]. split; [|done].
  rewrite E. by mstep by exact E2.
Qed.

(** C11: when no block fits, the heap grows by the pages the request needs,
    taken from the free ones: a free last block gets longer, a taken one is
    followed by a new block.  The request is first fit on the longer heap;
    allocated payloads keep their bytes, and the pages of the other threads
    that are in the way are kept at other places. *)
Theorem thread_malloc_grows s id n l0 x size region :
  let w := load 4 (amem s) (userSpace s + total 4 l0) in
  let k := pages_needed PAGESIZE w size in
  thread_heap s id n (l0 ++ [x]) -> free_open s -> 0 <= size ->
  seg_alloc 4 size (userSpace s) (l0 ++ [x]) = None ->
  (seg_isfree x = true \/ (getBlockIsF w = 0 /\ size + 8 <= PAGESIZE * k)) ->
  0 < k <= free_pages s ->
  exists q l' s', seg_alloc 4 size (userSpace s) (l0 ++ grow_last (PAGESIZE * k) x) = Some (q, l') /\
    myallocate PAGESIZE stack region size THREADREQ s = Ok (q + 4, s') /\
    served s s' id n (n + k) (l0 ++ [x]) l'.
Proof. apply growing_request. Qed.

(** The pages a request needs are computed from the size of the last block
    even when that block is taken: behind a taken block at least a page longer
    than the request, every request that does not fit is refused, however many
    pages are free. *)
Theorem thread_malloc_refused s id n l0 z size region :
  thread_heap s id n (l0 ++ [Seg z false]) -> free_open s -> 0 <= size ->
  seg_alloc 4 size (userSpace s) (l0 ++ [Seg z false]) = None ->
  getBlockIsF (load 4 (amem s) (userSpace s + total 4 l0)) = 0 ->
  size + 8 + PAGESIZE <= z ->
  exists o, myallocate PAGESIZE stack region size THREADREQ s
            = Ok (0, after (set_prot o s) (amem s) [NotEnoughSpace]).
Proof.
  intros Hh Hfo Hsz En Hw Hz. pose proof Hh as [Hpk Hn Hd Hf _ _ _].
  destruct (thread_request PAGESIZE stack s id n region size Hpk Hn Hd Hf) as (o & Ho & E).
  exists o. rewrite E. clear E. apply (seg_alloc_none 4 hdr4_pos) in En.
  destruct (last_block PAGESIZE Hps s id n l0 _ Hh) as (_ & _ & _ & _ & Hend & _ & Hl & _).
  cbn [hv_len word_view seg_size] in Hl, Hend. unfold w_len in Hl.
  destruct (user_bounds PAGESIZE Hps s id n Hpk) as (_ & _ & Hmax).
  apply (search_refused PAGESIZE stack Hps s id n l0 _ size o Hh Hfo Ho Hsz En); [|lia].
  unfold granted, pages_needed. rewrite Hw, Hl. cbn [Z.eqb].
  set (k := Z.quot _ _ + 1). destruct (k <=? _); [|done].
  enough (Z.quot (4 + (size + 4) - z) PAGESIZE <= -1) by (subst k; lia).
  apply Z.quot_le_upper_bound; lia.
Qed.
End theorems.

(** ** Concrete threads

    Pages of 32768 bytes, the region at 65536, 56 pages of user space.  Thread 2
    has the first [n] of them, all others are free, and all are accessible. *)

Definition demo_size : Z := 32768.
Definition demo_user : Z := 65536 + 200 * demo_size.

Definition demo_thread (n : nat) (m : mem) : astate :=
  AState m 65536 false 65536 0 demo_user 0
    (map (demo_entry 2) (seqZ 0 (Z.of_nat n)) ++ replicate (56 - n) 1) (replicate 512 1)
    (fun _ => 0) (fun _ => true) (Some (2, Z.of_nat n)) false (Timers no_timer no_timer) [].

(** A heap of one block. *)
Definition demo_block (size flag : Z) : mem :=
  store 4 (fun _ => 0) demo_user (block_word size 0 flag).

Lemma demo_size_ok : 1024 <= demo_size <= 32768.
Proof. unfold demo_size. lia. Qed.

Lemma demo_pages_ok n m : (n <= 56)%nat -> pages_ok demo_size (demo_thread n m) 2 (Z.of_nat n).
Proof.
  assert (NPAGES demo_size = 56) as HN by (vm_compute; done).
  intros Hn. split; [|done|done|done|lia|].
  - split; try done. unfold table_ok. cbn [pages demo_thread].
    rewrite length_app, length_map, length_seqZ, length_replicate. lia.
  - intros k Hk. destruct (entry_of_spec 0 2 k) as [Ho Hf]; [lia..|].
    exists (demo_entry 2 k). split; [|done]. unfold aget. rewrite Zltb_f by lia.
    cbn [pages demo_thread]. rewrite lookup_app_l by (rewrite length_map, length_seqZ; lia).
    rewrite (list_lookup_fmap (demo_entry 2)), lookup_seqZ_lt by lia. cbn. do 2 f_equal. lia.
Qed.

Lemma demo_settled n m : settled (diskPages (demo_thread n m)) 2.
Proof.
  intros d e Ed Hf. unfold aget in Ed. destruct (d <? 0); [done|].
  apply lookup_replicate in Ed as [-> _]. done.
Qed.

Lemma demo_free_open n m : free_open (demo_thread n m).
Proof. done. Qed.

Lemma demo_heap n size flag :
  (0 < n <= 56)%nat -> 0 <= size -> size = demo_size * Z.of_nat n - 4 ->
  load 4 (demo_block size flag) demo_user = block_word size 0 flag ->
  word_header (block_word size 0 flag) demo_user (Seg size (flag =? 1)) 0 ->
  thread_heap demo_size (demo_thread n (demo_block size flag)) 2 (Z.of_nat n)
    [Seg size (flag =? 1)].
Proof.
  intros Hn Hz Hsz El Hw. split; try done.
  - apply demo_pages_ok. lia.
  - lia.
  - apply demo_settled.
  - split; [constructor; [done|constructor]|]. split; [done|].
    cbn [total userSpace demo_thread]. unfold span. cbn [seg_size]. lia.
  - split; [|done]. cbn [amem userSpace demo_thread link]. rewrite header_word, El. exact Hw.
Qed.

Lemma demo_free_heap :
  thread_heap demo_size (demo_thread 1 (demo_block 32764 1)) 2 1 [Seg 32764 true].
Proof. apply (demo_heap 1 32764 1); [lia|lia|done|vm_compute; done|split_and!; vm_compute; done]. Qed.

Lemma demo_taken_heap :
  thread_heap demo_size (demo_thread 1 (demo_block 32764 0)) 2 1 [Seg 32764 false].
Proof. apply (demo_heap 1 32764 0); [lia|lia|done|vm_compute; done|split_and!; vm_compute; done]. Qed.

Lemma demo_long_heap :
  thread_heap demo_size (demo_thread 2 (demo_block 65532 0)) 2 2 [Seg 65532 false].
Proof. apply (demo_heap 2 65532 0); [lia|lia|done|vm_compute; done|split_and!; vm_compute; done]. Qed.

Lemma thread_malloc_refines_witness :
  exists o m', myallocate demo_size no_timer 0 100 THREADREQ (demo_thread 1 (demo_block 32764 1))
    = Ok (demo_user + 4, after (set_prot o (demo_thread 1 (demo_block 32764 1))) m' []).
Proof.
  destruct (thread_malloc_refines demo_size no_timer demo_size_ok _ 2 1 [Seg 32764 true] 100 0
    demo_user [Seg 100 false; Seg 32660 true] demo_free_heap ltac:(lia) eq_refl)
    as (o & m' & E & _).
  exists o, m'. exact E.
Defined.

Lemma thread_free_refines_witness :
  exists m', mydeallocate demo_size no_timer (demo_user + 4) THREADREQ
      (demo_thread 1 (demo_block 32764 0))
    = Ok (tt, after (demo_thread 1 (demo_block 32764 0)) m' []).
Proof.
  destruct (thread_free_refines demo_size no_timer demo_size_ok _ 2 1 [Seg 32764 false] demo_user
    (Seg 32764 false) demo_taken_heap (fun _ _ => eq_refl)
    (or_introl (conj eq_refl (conj eq_refl eq_refl))) ltac:(vm_compute; reflexivity))
    as (m' & l' & E & _).
  exists m'. exact E.
Defined.

Lemma thread_first_request_witness :
  exists s', myallocate demo_size no_timer 0 100 THREADREQ (demo_thread 0 (fun _ => 0))
    = Ok (demo_user + 4, s') /\
    thread_heap demo_size s' 2 1 [Seg 100 false; Seg 32660 true].
Proof.
  destruct (thread_first_request demo_size no_timer demo_size_ok (demo_thread 0 (fun _ => 0)) 2 1
    0 100 (demo_pages_ok 0 _ ltac:(lia)) (demo_free_open _ _) ltac:(vm_compute; reflexivity)
    (demo_settled _ _) eq_refl eq_refl ltac:(vm_compute; discriminate) ltac:(lia)
    ltac:(unfold demo_size; lia)) as (s' & E & Hsv).
  exists s'. split; [exact E|exact (sv_heap _ _ _ _ _ _ _ _ Hsv)].
Defined.

Lemma thread_malloc_grows_witness :
  exists q s', myallocate demo_size no_timer 0 40000 THREADREQ (demo_thread 1 (demo_block 32764 1))
    = Ok (q + 4, s').
Proof.
  destruct (thread_malloc_grows demo_size no_timer demo_size_ok
    (demo_thread 1 (demo_block 32764 1)) 2 1 [] (Seg 32764 true) 40000 0
    demo_free_heap (demo_free_open _ _) ltac:(lia) eq_refl (or_introl eq_refl)
    ltac:(vm_compute; done)) as (q & l' & s' & _ & E & _).
  exists q, s'. exact E.
Defined.

Lemma thread_malloc_refused_witness :
  exists o, myallocate demo_size no_timer 0 100 THREADREQ (demo_thread 2 (demo_block 65532 0))
    = Ok (0, after (set_prot o (demo_thread 2 (demo_block 65532 0))) (demo_block 65532 0)
               [NotEnoughSpace]) /\
    free_pages (demo_thread 2 (demo_block 65532 0)) = 54.
Proof.
  destruct (thread_malloc_refused demo_size no_timer demo_size_ok _ 2 2 [] 65532 100 0
    demo_long_heap (demo_free_open _ _) ltac:(lia) eq_refl ltac:(vm_compute; reflexivity)
    ltac:(unfold demo_size; lia)) as (o & E).
  exists o. split; [exact E|vm_compute; reflexivity].
Defined.

(** ** Runs in which the promises are broken *)

Notation malloc := (fun size => myallocate demo_size no_timer 0 size THREADREQ).
Notation free := (fun p => mydeallocate demo_size no_timer p THREADREQ).

(** What [schedule] does to the allocator: the pages of the thread that stops
    are closed, and the next one, which has [n] pages, runs. *)
Definition switch (from to n : Z) : M astate unit :=
  _ ← protectAllPages demo_size from; modify (set_thr (Some (to, n))).

(** Requests that leave a taken block of 8 bytes at the end of the page. *)
Definition overrun : M astate (Z * Z) :=
  _ ← malloc (demo_size - 16);
  _ ← malloc 8;
  c ← malloc (demo_size - 4);
  d ← malloc 100;
  mret (c, d).

(** Behind a taken last block the new pages can be too few: the header of
    the rest is written past them, in a page that belongs to nobody, and the
    next request gets its block there. *)
Theorem thread_block_overruns :
  match overrun (demo_thread 0 (fun _ => 0)) with
  | Ok ((c, d), s) =>
      c = demo_user + demo_size + 4 /\ d = demo_user + 2 * demo_size + 4 /\
      thr s = Some (2, 2) /\ placed (pages s) 2 2 = false /\ aget (pages s) 2 = Some 1 /\
      aout s = []
  | _ => False
  end.
Proof. vm_compute. done. Qed.

(** Thread 2 stores 77 in its block, thread 3 stores 88 in its own; then thread 2
    makes another request and reads its block. *)
Definition displaced : M astate (Z * Z * Z) :=
  a ← malloc 100;
  _ ← st demo_size no_timer a 77;
  _ ← switch 2 3 0;
  d ← malloc 100;
  _ ← st demo_size no_timer d 88;
  _ ← switch 3 2 1;
  _ ← malloc 50;
  v ← ld demo_size no_timer a;
  mret (a, d, v).

(** [alignPages] does not bring the first page of a thread back when
    another thread has displaced it.  The next request takes page 0 for a new
    page of the thread, whose heap is from then on a copy of the other's: the
    thread reads the other thread's bytes in its own block. *)
Theorem displaced_heap_exposed :
  match displaced (demo_thread 0 (fun _ => 0)) with
  | Ok ((a, d, v), s) => a = demo_user + 4 /\ d = a /\ v = 88 /\ aout s = []
  | _ => False
  end.
Proof. vm_compute. done. Qed.

(** Thread 2 releases a block of its second page after thread 3 displaced its
    first one. *)
Definition late_free : M astate unit :=
  _ ← malloc 100;
  _ ← malloc demo_size;
  c ← malloc 100;
  _ ← switch 2 3 0;
  _ ← malloc 100;
  _ ← switch 3 2 2;
  free c.

(** [freeAndMerge] starts at the place of the first page the table has for
    the thread, scaled once more by the size of a word: when the thread's first
    page is not at index 0 the walk starts outside its heap, and a block that
    [myallocate] returned is reported as not created by it. *)
Theorem displaced_free_fails :
  match late_free (demo_thread 0 (fun _ => 0)) with
  | Ok (_, s) => aout s = [NotCreatedUsingMalloc]
  | _ => False
  end.
Proof. vm_compute. done. Qed.
