(* ===== verification/AlignSpec.v ===== *)
(** * What [alignPages] does

    Before every request of a thread [alignPages] opens the pages of the thread
    that are in their places, and exchanges with memory those pages whose place
    in the swap file has the number of their place in memory. *)

From S2P Require Import Prelude CMem BlockWord Timer MyAlloc PageSpec PagingSpec ThreadHeap ThreadAlloc.

(** The table entries that exist tell its length. *)
Lemma aget_length l l' :
  (forall k, is_Some (aget l k) <-> is_Some (aget l' k)) -> length l = length l'.
Proof.
  intros H. assert (forall i : nat, (i < length l)%nat <-> (i < length l')%nat) as Hi.
  { intros i. rewrite <- !lookup_lt_is_Some. specialize (H (Z.of_nat i)). unfold aget in H.
    by rewrite Zltb_f, Nat2Z.id in H by lia. }
  pose proof (Hi (length l)). pose proof (Hi (length l')). lia.
Qed.

(** Place [i] of the swap file holds page [i] of thread [id]. *)
Definition same_index (s : astate) (id i : Z) : bool :=
  match aget (diskPages s) i with
  | Some e => (getPageIsF e =? 0) && owned_by id i e
  | None => false
  end.

Section align.
Context (PAGESIZE : Z) (stack : itimerval).
Notation page_byte := (page_byte PAGESIZE).
Notation swap_byte := (swap_byte PAGESIZE).

(** The pages for which [P] holds are exchanged with the same places of the swap
    file and open; those of thread [id] in their places are open too. *)
Record aligned (id : Z) (P : Z -> bool) (s s' : astate) : Prop := Aligned {
  an_pages k : aget (pages s') k = if P k then aget (diskPages s) k else aget (pages s) k;
  an_disk k : aget (diskPages s') k = if P k then aget (pages s) k else aget (diskPages s) k;
  an_bytes k x : 0 <= x < PAGESIZE ->
    page_byte s' k x = if P k then swap_byte s k x else page_byte s k x;
  an_swap k x : 0 <= x < PAGESIZE ->
    swap_byte s' k x = if P k then page_byte s k x else swap_byte s k x;
  an_prot k : prot s' k = P k || opened s id k;
  an_rest : userSpace s' = userSpace s /\ memory s' = memory s /\ thr s' = thr s /\
    timerSet s' = timerSet s
}.

Lemma aligned_geometry id P s s' :
  geometry PAGESIZE s -> (forall k, P k = true -> 0 <= k < NPAGES PAGESIZE /\ k < NDISK PAGESIZE) ->
  aligned id P s s' -> geometry PAGESIZE s'.
Proof.
  intros [HP Hm Hu Ht Hd] HPk [A1 A2 _ _ _ (Eu & Em & _)].
  assert (forall l k, 0 <= k < Z.of_nat (length l) -> is_Some (aget l k)) as Hin.
  { intros l k Hk. unfold aget. rewrite Zltb_f by lia. apply lookup_lt_is_Some. lia. }
  unfold table_ok in Ht.
  assert (forall k, P k = true -> is_Some (aget (pages s) k) /\ is_Some (aget (diskPages s) k)) as Hb.
  { intros k Hk. destruct (HPk k Hk). split; apply Hin; lia. }
  split; [done|done|congruence| |].
  - unfold table_ok. rewrite <- Ht. f_equal. apply aget_length. intros k. rewrite A1.
    destruct (P k) eqn:E; [|done]. by destruct (Hb k E).
  - rewrite <- Hd. f_equal. apply aget_length. intros k. rewrite A2.
    destruct (P k) eqn:E; [|done]. by destruct (Hb k E).
Qed.

(** One more page. *)
Lemma aligned_step id P s b b' k :
  aligned id P s b -> P k = false -> loaded PAGESIZE k k b b' ->
  aligned id (fun i => (i =? k) || P i) s (set_prot (fun x => if x =? k then true else prot b' x) b').
Proof.
  intros [A1 A2 A3 A4 A5 A6] Hk [L1 L2 L3 L4 L5 L6].
  split; cbn [pages diskPages prot userSpace memory thr timerSet set_prot].
  - intros i. rewrite L1. destruct (Z.eqb_spec i k) as [->|]; [by rewrite A2, Hk|apply A1].
  - intros i. rewrite L2. destruct (Z.eqb_spec i k) as [->|]; [by rewrite A1, Hk|apply A2].
  - intros i x Hx. specialize (L3 i x Hx). unfold PagingSpec.page_byte, page_addr in L3 |- *.
    cbn [amem userSpace set_prot]. rewrite L3.
    destruct (Z.eqb_spec i k) as [->|]; [by rewrite A4, Hk|by apply A3].
  - intros i x Hx. specialize (L4 i x Hx). unfold PagingSpec.swap_byte in L4 |- *.
    cbn [swp set_prot]. rewrite L4.
    destruct (Z.eqb_spec i k) as [->|]; [by rewrite A3, Hk|by apply A4].
  - intros i. rewrite L5. destruct (i =? k); [done|apply A5].
  - destruct L6 as (-> & -> & -> & ->). done.
Qed.

(** The second loop. *)
Lemma align_load s id p :
  geometry PAGESIZE s -> thr s <> None -> (forall k, p k = opened s id k) ->
  (forall i, same_index s id i = true -> i < NPAGES PAGESIZE) ->
  exists s', for_loop (Z.to_nat (NDISK PAGESIZE)) 0 (fun i => e ← get_disk i;
      if getPageIsF e =? 0 then
        if (getPageThID e =? id) && (i =? getPagePgID e) then
          let realIndex := getPagePgID e in
          _ ← swapToMemFromDisk PAGESIZE stack i realIndex; mprotect realIndex true
        else mret tt
      else mret tt) (set_prot p s) = Ok (tt, s') /\ aligned id (same_index s id) s s'.
Proof.
  intros Hg Eth Hp Hr. pose proof Hg as [HP _ _ Ht Hd].
  assert (0 <= NDISK PAGESIZE) as HD by lia.
  assert (forall i, same_index s id i = true -> 0 <= i < NPAGES PAGESIZE /\ i < NDISK PAGESIZE) as Hsi.
  { intros i Hi. pose proof (Hr i Hi). unfold same_index in Hi.
    destruct (aget (diskPages s) i) as [e|] eqn:Ee; [|done]. apply aget_range in Ee. lia. }
  edestruct (for_loop_inv (fun k b => aligned id (fun i => (i <? k) && same_index s id i) s b))
    as (s' & E2 & [A1 A2 A3 A4 A5 A6]).
  3: { exists s'. split; [exact E2|].
       assert (forall k, (k <? 0 + Z.of_nat (Z.to_nat (NDISK PAGESIZE))) && same_index s id k
         = same_index s id k) as Hall.
       { intros k. destruct (same_index s id k) eqn:E; [|by rewrite andb_false_r].
         destruct (Hsi k E). by rewrite Zltb_t by lia. }
       split; [intros k; by rewrite A1, Hall|intros k; by rewrite A2, Hall
         |intros k x Hx; by rewrite A3, Hall|intros k x Hx; by rewrite A4, Hall
         |intros k; by rewrite A5, Hall|done]. }
  - intros k b Hk Hb. cbv beta in *.
    assert (geometry PAGESIZE b) as Hgb.
    { eapply aligned_geometry; [exact Hg| |exact Hb]. cbv beta. intros i Hi. bprop. by apply Hsi. }
    destruct (get_disk_ok PAGESIZE b k (geo_disk _ _ Hgb) ltac:(lia)) as (e & Ee & Eg).
    mstep by exact Eg. rewrite (an_disk _ _ _ _ Hb), Z.ltb_irrefl in Ee. cbn [andb] in Ee.
    assert (forall i, i <> k -> (i <? k + 1) = (i <? k)) as Hlt
      by (intros i Hi; destruct (Z.ltb_spec i (k + 1)), (Z.ltb_spec i k); lia).
    assert (same_index s id k = (getPageIsF e =? 0) && ((getPageThID e =? id) && (k =? getPagePgID e))) as Es
      by (unfold same_index, owned_by; by rewrite Ee, (Z.eqb_sym k)).
    destruct (same_index s id k) eqn:Esk.
    + symmetry in Es. apply andb_true_iff in Es as [Ef Eo]. rewrite Ef, Eo. bprop. cbv zeta.
      replace (getPagePgID e) with k by done.
      destruct (swapToMemFromDisk_spec PAGESIZE stack k k b Hgb) as (b' & E' & Hl).
      { destruct (an_rest _ _ _ _ Hb) as (_ & _ & -> & _). exact Eth. }
      { by apply Hsi. }
      { lia. }
      eexists. split; [by mstep by exact E'|].
      pose proof (aligned_step id _ s b b' k Hb ltac:(cbv beta; by rewrite Z.ltb_irrefl) Hl) as [B1 B2 B3 B4 B5 B6].
      assert (forall i, (i =? k) || ((i <? k) && same_index s id i) = (i <? k + 1) && same_index s id i) as Heq.
      { intros i. destruct (Z.eqb_spec i k) as [->|Hne]; [by rewrite Esk, (Zltb_t k (k + 1)) by lia|]. by rewrite Hlt. }
      split; intros; rewrite <- ?Heq; auto.
    + exists b. split.
      { destruct (getPageIsF e =? 0); [|done]. cbn [andb] in Es. by rewrite <- Es. }
      destruct Hb as [B1 B2 B3 B4 B5 B6].
      assert (forall i, (i <? k + 1) && same_index s id i = (i <? k) && same_index s id i) as Heq.
      { intros i. destruct (decide (i = k)) as [->|Hne]; [by rewrite Esk, !andb_false_r|]. by rewrite Hlt. }
      split; intros; rewrite ?Heq; auto.
  - assert (forall k, (k <? 0) && same_index s id k = false) as H0.
    { intros k. destruct (same_index s id k) eqn:E; [|by rewrite andb_false_r].
      destruct (Hsi k E). by rewrite Zltb_f by lia. }
    split; intros; rewrite ?H0; done.
Qed.
(** C20: [alignPages] on a state: the pages of the running thread that are in
    their places are opened; a page of the thread whose place in the swap file
    has its own number is exchanged with the page of memory at that number,
    entry and bytes, and opened; every other entry, every other byte of memory
    and of the swap file and the protection of every other page stay as they
    are.  (A page of the thread that is elsewhere is left there.) *)
Theorem alignPages_correct s id n :
  geometry PAGESIZE s -> thr s = Some (id, n) ->
  (forall i, same_index s id i = true -> i < NPAGES PAGESIZE) ->
  exists s', alignPages PAGESIZE stack s = Ok (tt, s') /\
    (forall k, aget (pages s') k =
       if same_index s id k then aget (diskPages s) k else aget (pages s) k) /\
    (forall k, aget (diskPages s') k =
       if same_index s id k then aget (pages s) k else aget (diskPages s) k) /\
    (forall k x, 0 <= x < PAGESIZE ->
       page_byte s' k x = (if same_index s id k then swap_byte s k x else page_byte s k x) /\
       swap_byte s' k x = (if same_index s id k then page_byte s k x else swap_byte s k x)) /\
    (forall k, prot s' k = same_index s id k || placed (pages s) id k || prot s k) /\
    userSpace s' = userSpace s /\ memory s' = memory s /\ thr s' = thr s.
Proof.
  intros Hg Eth Hr. unfold alignPages. mstep by (by eapply current_thread_ok).
  destruct (align_open PAGESIZE s id Hg) as (p & E1 & Hp). mstep by exact E1.
  destruct (align_load s id p Hg) as (s' & E2 & [A1 A2 A3 A4 A5 (A6 & A7 & A8 & _)]);
    [by rewrite Eth|done|done|].
  exists s'. split; [exact E2|]. split_and!; try done; [auto|].
  intros k. rewrite A5. unfold opened. by rewrite orb_assoc.
Qed.
End align.

(** ** An instance *)

(** Thread 2 has page 0 in its place and page 1 at place 1 of the swap file;
    thread 3 has the page of memory in between. *)
Definition half_out : astate :=
  AState (fun _ => 0) 65536 false 65536 0 demo_user 0
    ([demo_entry 2 0; demo_entry 3 0] ++ replicate 54 1)
    ([1; demo_entry 2 1] ++ replicate 510 1)
    (fun x => if x =? demo_size + 5 then 77 else 0) (fun _ => false) (Some (2, 2)) false
    (Timers no_timer no_timer) [].

Lemma half_out_index i : same_index half_out 2 i = (i =? 1).
Proof.
  unfold same_index, aget. destruct (Z.ltb_spec i 0); [symmetry; apply Z.eqb_neq; lia|].
  destruct (Z.eqb_spec i 1) as [->|Hne]; [vm_compute; reflexivity|].
  destruct (diskPages half_out !! Z.to_nat i) as [e|] eqn:E; [|done]. cbn [diskPages half_out] in E.
  destruct (Z.to_nat i) as [|[|k]] eqn:Ei; [by injection E as <-|lia|].
  change (replicate 510 1 !! k = Some e) in E. apply lookup_replicate in E as [-> _]. done.
Qed.

Lemma alignPages_correct_witness :
  exists s', alignPages demo_size no_timer half_out = Ok (tt, s') /\
    aget (pages s') 1 = Some (demo_entry 2 1) /\ aget (diskPages s') 1 = Some (demo_entry 3 0) /\
    page_byte demo_size s' 1 5 = 77 /\ prot s' 0 = true /\ prot s' 1 = true /\ prot s' 2 = false.
Proof.
  destruct (alignPages_correct demo_size no_timer half_out 2 2) as (s' & E & Hp & Hd & Hb & Hpr & _).
  - split; try (vm_compute; reflexivity).
  - reflexivity.
  - intros i. rewrite half_out_index. intros Hi. bprop. subst. vm_compute. reflexivity.
  - exists s'. split; [exact E|]. rewrite Hp, Hd, !Hpr, !half_out_index.
    destruct (Hb 1 5 ltac:(unfold demo_size; lia)) as [-> _]. rewrite half_out_index.
    repeat split; vm_compute; reflexivity.
Defined.
