(* ===== verification/PageReturn.v ===== *)
(** * Pages that make way come back

    A page of a thread is moved when another thread needs its place.  When its
    owner runs again and touches it, the handler brings it back with the bytes it
    had.  The pages that go to the swap file are the subject of [FullMemory]. *)

From S2P Require Import Prelude CMem SegHeap FirstFit BlockWord Timer MyAlloc WordHeap PageSpec PagingSpec ThreadHeap Growth ThreadHeapSpec HeapGrowth ThreadAlloc.

Section return_.
Context (PAGESIZE : Z) (stack : itimerval).
Context (Hps : 1024 <= PAGESIZE <= 32768).

Notation geometry := (geometry PAGESIZE).
Notation page_byte := (page_byte PAGESIZE).
Notation swap_byte := (swap_byte PAGESIZE).
Notation brought := (brought PAGESIZE).
Notation page_index := (page_index PAGESIZE).

Lemma find_index_exists P l b i e :
  l !! i = Some e -> P (b + Z.of_nat i) e = true -> exists j, find_index P l b = Some j.
Proof.
  intros El Hp. destruct (find_index P l b) as [j|] eqn:E; [by exists j|].
  by rewrite (find_index_none _ _ _ _ _ E El) in Hp.
Qed.

(** The search of the handler finds an entry the table has. *)
Lemma place_found (P : Z -> bool) l i e :
  aget l i = Some e -> P e = true ->
  exists j e', find_index (fun _ e => P e) l 0 = Some j /\ aget l j = Some e' /\ P e' = true.
Proof.
  intros Ee Hp. pose proof (aget_range _ _ _ Ee) as Hi. rewrite aget_lookup in Ee by lia.
  destruct (find_index_exists (fun _ e => P e) l 0 _ e Ee Hp) as [j Ej].
  pose proof (find_index_some _ _ _ _ Ej) as (Hj & e' & Ee' & Hp'). rewrite Z.sub_0_r in Ee'.
  exists j, e'. by rewrite aget_lookup by lia.
Qed.

Lemma brought_ext id addr c c' s s' :
  (forall x, 0 <= x < PAGESIZE -> c x = c' x) -> brought id addr c s s' -> brought id addr c' s s'.
Proof.
  intros H (H1 & H2 & H3). split; [done|]. split; [done|]. intros x Hx. by rewrite H3, H.
Qed.

(** ** Pages moved in memory *)

(** The page of another thread that a request displaced, as the table says. *)
Lemma displaced_place s s' idB n n' l l' idA k j e :
  pages_ok PAGESIZE s idB n -> served PAGESIZE s s' idB n n' l l' -> idA <> idB ->
  aget (pages s) j = Some e -> owned_by idA k e = true -> is_free_entry e = false ->
  (forall i e', aget (pages s) i = Some e' -> owned_by idA k e' = true -> i = j) ->
  exists i, find_index (fun _ e => owned_by idA k e) (pages s') 0 = Some i /\
    forall x, 0 <= x < PAGESIZE -> page_byte s' i x = page_byte s j x.
Proof.
  intros Hk Hsv Hne Ee Ho Hf Huniq.
  assert (forall t m q e', pages_ok PAGESIZE t idB m -> aget (pages t) q = Some e' ->
    owned_by idA k e' = true -> m <= q) as Hbeyond.
  { intros t m q e' Ht Eq Hq. destruct (Z.le_gt_cases m q); [done|].
    pose proof (aget_range _ _ _ Eq).
    destruct (po_mine _ _ _ _ Ht q ltac:(lia)) as (e2 & E2 & Ho2 & _).
    apply owned_by_spec in Hq as [? _]. apply owned_by_spec in Ho2 as [? _]. congruence. }
  destruct (sv_others _ _ _ _ _ _ _ _ Hsv j e Ee Hf) as (j' & _ & Ej' & _); [by eapply Hbeyond|].
  destruct (place_found (owned_by idA k) (pages s') j' e Ej' Ho) as (i & e' & Ei & Ee' & Ho').
  exists i. split; [exact Ei|].
  destruct (sv_origin _ _ _ _ _ _ _ _ Hsv i e' Ee') as (j2 & _ & E2 & Hb).
  - apply (Hbeyond s' n' i e'); [apply (sv_heap _ _ _ _ _ _ _ _ Hsv)|done|done].
  - by rewrite (Huniq j2 e' E2 Ho') in Hb.
Qed.

(** C26: a page survives the requests of the other threads.  Thread [idB] is
    served with new pages, and the page [k] of thread [idA], wherever it was,
    may have been moved out of the way.  When [idA] runs again, whatever pages
    are accessible then, the fault on its first access to the page brings it to
    its place with the bytes it had before the request. *)
Theorem displaced_page_returns s s' idB n n' l l' idA nA k j e p addr :
  pages_ok PAGESIZE s idB n -> served PAGESIZE s s' idB n n' l l' -> idA <> idB ->
  aget (pages s) j = Some e -> owned_by idA k e = true -> is_free_entry e = false ->
  (forall i e', aget (pages s) i = Some e' -> owned_by idA k e' = true -> i = j) ->
  in_userspace s' addr -> page_index s' addr = k ->
  let s1 := set_thr (Some (idA, nA)) (set_prot p s') in
  exists s2, sigHandler PAGESIZE stack addr s1 = Ok (tt, s2) /\
    brought idA addr (page_byte s j) s1 s2.
Proof.
  intros Hk Hsv Hne Ee Ho Hf Huniq Hin Hix s1.
  destruct (displaced_place s s' idB n n' l l' idA k j e) as (i & Ei & Hb); try done.
  pose proof (po_geometry _ _ _ _ (th_pages _ _ _ _ _ (sv_heap _ _ _ _ _ _ _ _ Hsv))) as Hg.
  assert (geometry s1) as Hg1 by (by destruct Hg; split).
  destruct (memory_fault PAGESIZE stack s1 addr idA nA i Hg1 Hin eq_refl) as (s2 & E & Hbr & _).
  - unfold memory_place. change (page_index s1 addr) with (page_index s' addr). by rewrite Hix.
  - exists s2. split; [exact E|]. by eapply brought_ext.
Qed.

End return_.

(** ** Concrete instances

    Page 0 of user space is the first page of thread 2, with 77 at offset 5. *)

Definition full_page : astate := demo_thread 1 (fun x => if x =? demo_user + 5 then 77 else 0).
Definition second_thread : astate := set_thr (Some (3, 0)) full_page.

Lemma full_page_table j e :
  aget (pages full_page) j = Some e -> j = 0 /\ e = demo_entry 2 0 \/ 0 < j /\ e = 1.
Proof.
  intros Ej. pose proof (aget_range _ _ _ Ej). rewrite aget_lookup in Ej by lia.
  destruct (decide (j = 0)) as [->|]; [left; split; [done|by injection Ej]|right].
  split; [lia|]. cbn [pages full_page demo_thread] in Ej.
  change (map (demo_entry 2) (seqZ 0 (Z.of_nat 1))) with [demo_entry 2 0] in Ej.
  destruct (Z.to_nat j) as [|i] eqn:Ei; [lia|]. by apply lookup_replicate in Ej as [-> _].
Qed.

Lemma full_page_only i e : aget (pages full_page) i = Some e -> owned_by 2 0 e = true -> i = 0.
Proof. intros Ei Ho. by apply full_page_table in Ei as [[-> _]|[_ ->]]. Qed.

Lemma full_page_geometry : geometry demo_size full_page.
Proof. apply (po_geometry _ _ _ _ (demo_pages_ok 1 _ ltac:(lia))). Qed.

Lemma second_thread_ok : pages_ok demo_size second_thread 3 0.
Proof.
  destruct full_page_geometry. split; [by split|done|done|done| |intros k Hk; lia].
  vm_compute NPAGES. lia.
Qed.

Lemma disk_unused d e : aget (diskPages full_page) d = Some e -> getPageIsF e = 1.
Proof.
  intros Ed. pose proof (aget_range _ _ _ Ed). rewrite aget_lookup in Ed by lia.
  by apply lookup_replicate in Ed as [-> _].
Qed.

(** Thread 3 makes its first request, whose page takes the place of thread 2's;
    then thread 2 runs again. *)
Lemma displaced_page_returns_witness :
  exists s' s2, myallocate demo_size no_timer 0 100 THREADREQ second_thread
      = Ok (demo_user + 4, s') /\
    sigHandler demo_size no_timer (demo_user + 5)
      (set_thr (Some (2, 1)) (set_prot (fun _ => false) s')) = Ok (tt, s2) /\
    page_byte demo_size s2 0 5 = 77.
Proof.
  destruct (first_thread_request demo_size no_timer demo_size_ok second_thread 3
    (demo_entry 2 0) 0 100 second_thread_ok (fun _ _ _ _ => eq_refl)
    ltac:(vm_compute; reflexivity)
    (fun d e Ed Hf => ltac:(by rewrite (disk_unused d e Ed) in Hf)) eq_refl eq_refl
    ltac:(vm_compute; discriminate) ltac:(lia) ltac:(unfold demo_size; lia)) as (s' & E & Hsv).
  destruct (sv_region _ _ _ _ _ _ _ _ Hsv) as [Eu Em].
  assert (page_index demo_size s' (demo_user + 5) = 0) as Hix
    by (unfold page_index; rewrite Eu; reflexivity).
  destruct (displaced_page_returns demo_size no_timer second_thread s' 3 0 1 [] _ 2 1 0 0
    (demo_entry 2 0) (fun _ => false) (demo_user + 5) second_thread_ok Hsv ltac:(lia) eq_refl eq_refl
    eq_refl full_page_only ltac:(unfold in_userspace; rewrite Eu, Em; vm_compute; split; congruence)
    Hix) as (s2 & E2 & Hb).
  exists s', s2. split; [exact E|]. split; [exact E2|].
  destruct Hb as (_ & _ & Hb).
  change (page_index demo_size (set_thr _ (set_prot _ s')) (demo_user + 5))
    with (page_index demo_size s' (demo_user + 5)) in Hb. rewrite Hix in Hb.
  rewrite Hb by (unfold demo_size; lia). reflexivity.
Defined.
