(* ===== verification/FullMemory.v ===== *)
(** * Requests when memory is full

    When no page of memory is free [moveToFreeSpace] gives up and the page that
    has to make way goes to the swap file. *)

From S2P Require Import Prelude CMem SegHeap FirstFit BlockWord Timer MyAlloc WordHeap PageSpec PagingSpec ThreadHeap Growth Evict ThreadHeapSpec HeapGrowth ThreadAlloc PageReturn.

Section full.
Context (PAGESIZE : Z) (stack : itimerval).
Context (Hps : 1024 <= PAGESIZE <= 32768).

Notation geometry := (geometry PAGESIZE).
Notation page_byte := (page_byte PAGESIZE).
Notation swap_byte := (swap_byte PAGESIZE).
Notation brought := (brought PAGESIZE).
Notation page_index := (page_index PAGESIZE).
Notation page_addr := (page_addr PAGESIZE).
Notation thread_heap := (thread_heap PAGESIZE).
Notation pages_ok := (pages_ok PAGESIZE).
Notation evicted := (evicted PAGESIZE stack).
Notation evicted_disk := (evicted_disk PAGESIZE stack).
Notation evicted_pages := (evicted_pages PAGESIZE stack).
Notation evicted_swap := (evicted_swap PAGESIZE stack).
Notation evicted_geometry := (evicted_geometry PAGESIZE stack).

(** C27: a page survives its eviction.  [moveToDiskSpace] writes the page at
    [index] to the first free page of the swap file.  Whatever happens in
    memory afterwards, as long as the swap file is left alone and the page is
    not in memory, the fault of its owner reads it back with the bytes it had. *)
Theorem evicted_page_returns s index i e t idA nA k :
  geometry s -> thr s = Some t -> aget (pages s) index = Some e ->
  free_place (diskPages s) = Some i -> getPageIsF e = 0 -> owned_by idA k e = true ->
  (forall d e', aget (diskPages s) d = Some e' -> getPageIsF e' = 0 -> owned_by idA k e' = false) ->
  let s1 := evicted s index i e in
  moveToDiskSpace PAGESIZE stack index s = Ok (true, s1) /\
    forall s2 addr, geometry s2 -> thr s2 = Some (idA, nA) ->
      diskPages s2 = diskPages s1 -> swp s2 = swp s1 ->
      in_userspace s2 addr -> page_index s2 addr = k ->
      memory_place PAGESIZE s2 idA addr = None ->
      exists s3, sigHandler PAGESIZE stack addr s2 = Ok (tt, s3) /\
        brought idA addr (page_byte s index) s2 s3.
Proof.
  intros Hg Eth Ee Hf Hu Ho Hnone.
  intros s1. split; [by eapply moveToDiskSpace_spec|]. intros s2 addr Hg2 Eth2 Ed2 Es2 Hin Hix Hmem.
  destruct (free_place_some _ _ Hf) as (Hi & _).
  assert (forall d, aget (diskPages s2) d = if d =? i then Some e else aget (diskPages s) d) as Hget.
  { intros d. rewrite Ed2. by apply evicted_disk. }
  destruct (place_found (fun e => (getPageIsF e =? 0) && owned_by idA k e) (diskPages s2) i e)
    as (d & e' & Efi & Ee' & Hp); [by rewrite Hget, Z.eqb_refl|by rewrite Hu, Ho|].
  assert (d = i) as ->.
  { rewrite Hget in Ee'. destruct (d =? i) eqn:Edi; bprop; [done|].
    rewrite (Hnone d e' Ee') in * by done. done. }
  destruct (swap_fault PAGESIZE stack s2 addr idA nA i Hg2 Hin Eth2 Hmem) as (s3 & E3 & Hbr & _).
  - unfold swap_place. by rewrite Hix.
  - exists s3. split; [exact E3|]. eapply brought_ext; [|exact Hbr]. intros x Hx.
    unfold PagingSpec.swap_byte at 1. rewrite Es2. change (swap_byte (evicted s index i e) i x = page_byte s index x).
    rewrite evicted_swap by (done || apply Hg). by rewrite Z.eqb_refl.
Qed.

(** ** The first request of a thread when no page of memory is free *)

(** Page 0 after its page [e0] went to place [i] of the swap file and it became
    the first page of thread [id]. *)
Definition taken_over (s : astate) (id i e0 : Z) : astate :=
  let s1 := evicted s 0 i e0 in
  set_amem (free_block PAGESIZE (amem s1) (userSpace s1))
    (set_prot (fun x => if x =? 0 then true else prot s1 x)
      (set_thr (Some (id, 0 + 1))
        (set_pages (<[Z.to_nat 0 := entry_of (setPageIsF e0 1) id 0]> (pages s1)) s1))).

Lemma first_page_room_evicts s id e0 i :
  pages_ok s id 0 -> free_place (pages s) = None -> free_place (diskPages s) = Some i ->
  aget (pages s) 0 = Some e0 -> getPageThID e0 <> id ->
  first_page_room PAGESIZE stack id s = Ok (true, taken_over s id i e0).
Proof.
  intros [Hg Hm Eth Hid Hc _] Hfull Hf Ee Hne.
  unfold first_page_room. mstep by (by apply get_page_at).
  rewrite Zeqb_f by done. cbn [negb].
  assert (makeRoom PAGESIZE stack 0 s = Ok (true, evicted s 0 i e0)) as E1.
  { unfold makeRoom, moveToFreeSpace. unfold free_place in Hfull.
    mstep by (mstep by reflexivity; rewrite Hfull; reflexivity).
    by eapply moveToDiskSpace_spec. }
  mstep by exact E1. cbn [negb].
  pose proof (aget_range _ _ _ Ee) as H0. assert (0 < NPAGES PAGESIZE) as Hn.
  { destruct Hg as [_ _ _ Ht _]. unfold table_ok in Ht. lia. }
  mstep by (apply (initializePage_first PAGESIZE stack Hps (evicted s 0 i e0) id (setPageIsF e0 1));
    [by apply evicted_geometry|done|done|done|done|by rewrite evicted_pages]).
  reflexivity.
Qed.

Lemma taken_over_pages s id i e0 k :
  0 < Z.of_nat (length (pages s)) ->
  aget (pages (taken_over s id i e0)) k =
  if k =? 0 then Some (entry_of (setPageIsF e0 1) id 0) else aget (pages s) k.
Proof.
  intros H. transitivity (aget (<[Z.to_nat 0 := entry_of (setPageIsF e0 1) id 0]>
    (pages (evicted s 0 i e0))) k); [done|].
  rewrite aget_insert by (cbn; rewrite length_insert; lia).
  rewrite evicted_pages by lia. by destruct (k =? 0).
Qed.

(** What a request that evicted the page [e] of index 0 leaves: the page is at
    place [i] of the swap file, every other page, in memory or in the swap file,
    is where it was, the library's bytes are unchanged and nothing is printed. *)
Record evicting (s s' : astate) (i e : Z) : Prop := Evicting {
  ev_place d : aget (diskPages s') d = if d =? i then Some e else aget (diskPages s) d;
  ev_swap d x : 0 <= x < PAGESIZE ->
    swap_byte s' d x = if d =? i then page_byte s 0 x else swap_byte s d x;
  ev_pages k : k <> 0 -> aget (pages s') k = aget (pages s) k;
  ev_bytes k x : 0 < k -> 0 <= x < PAGESIZE -> page_byte s' k x = page_byte s k x;
  ev_library x : x < userSpace s -> amem s' x = amem s x;
  ev_out : aout s' = aout s
}.

(** The heap the evicted page makes room for, before the search. *)
Lemma taken_over_heap s id i e0 tau :
  pages_ok s id 0 -> settled (diskPages s) id -> firstMalloc s = false ->
  free_place (diskPages s) = Some i -> aget (pages s) 0 = Some e0 -> getPageThID e0 <> id ->
  thread_heap (set_tim tau (taken_over s id i e0)) id 1 [Seg (PAGESIZE - 4) true].
Proof.
  intros [Hg Hm Eth Hid Hc _] Hd Hf Hfd Ee Hne. pose proof (aget_range _ _ _ Ee) as H0.
  destruct (free_place_some _ _ Hfd) as (Hi & _).
  destruct (evicted_geometry s 0 i e0 Hg) as [G1 G2 G3 G4 G5].
  split; try done.
  - split; try done.
    + split; try done. unfold table_ok in *. cbn in *. by rewrite length_insert.
    + destruct Hg as [_ _ _ Ht _]. unfold table_ok in Ht. lia.
    + intros k Hk. assert (k = 0) as -> by lia.
      exists (entry_of (setPageIsF e0 1) id 0). split; [|by apply entry_of_spec; lia].
      change (aget (pages (taken_over s id i e0)) 0 = Some (entry_of (setPageIsF e0 1) id 0)).
      by rewrite taken_over_pages by lia.
  - intros d e. change (diskPages _) with (diskPages (evicted s 0 i e0)).
    rewrite evicted_disk by lia. intros Ed Hu.
    destruct (d =? i); [|by eapply Hd]. injection Ed as <-. unfold owned_by. by rewrite Zeqb_f.
  - split; [constructor; [cbn; lia|constructor]|]. cbn. unfold span; cbn. lia.
  - split; [|done]. by apply free_block_header.
Qed.

Lemma after_fields s tau m :
  let s' := after (set_tim tau s) m [] in
  pages s' = pages s /\ diskPages s' = diskPages s /\ swp s' = swp s /\
  userSpace s' = userSpace s /\ aout s' = aout s.
Proof. done. Qed.

Lemma evicting_intro s t id i e0 tau m :
  (amem t = amem s /\ pages t = pages s /\ diskPages t = diskPages s /\ swp t = swp s /\
   userSpace t = userSpace s /\ aout t = aout s) ->
  aget (pages s) 0 = Some e0 -> free_place (diskPages s) = Some i ->
  agree (fun x => x < userSpace t \/ userSpace t + PAGESIZE <= x) (amem (taken_over t id i e0)) m ->
  evicting s (after (set_tim tau (taken_over t id i e0)) m []) i e0.
Proof.
  intros (Ta & Tp & Td & Ts & Tu & To) Ee Hfd Hm.
  assert (agree (fun x => x < userSpace s \/ userSpace s + PAGESIZE <= x) (amem s) m) as Hag.
  { intros x Hx. rewrite Tu in Hm. rewrite Hm by done. rewrite <- Ta.
    apply (free_block_agree PAGESIZE (amem t) (userSpace t) x). rewrite Tu. unfold outside. lia. }
  set (s2 := taken_over t id i e0). destruct (after_fields s2 tau m) as (Sp & Sd & Ss & Su & So).
  set (s' := after _ _ _) in *. assert (amem s' = m) as Sm by done.
  destruct (free_place_some _ _ Hfd) as (Hi & _). pose proof (aget_range _ _ _ Ee) as H0.
  split.
  - intros d. rewrite Sd, <- Td. apply evicted_disk. by rewrite Td.
  - intros d x Hx. unfold PagingSpec.swap_byte at 1. rewrite Ss.
    pose proof (evicted_swap t 0 i e0 d x ltac:(lia) Hx) as H.
    unfold PagingSpec.swap_byte, PagingSpec.page_byte, MyAlloc.page_addr in *.
    rewrite Ta, Ts, Tu in H. exact H.
  - intros k Hk. rewrite Sp. unfold s2. rewrite taken_over_pages by (rewrite Tp; lia).
    by rewrite Zeqb_f, Tp.
  - intros k x Hk Hx. unfold PagingSpec.page_byte, MyAlloc.page_addr. rewrite Su.
    change (userSpace s2) with (userSpace t). rewrite Tu, Sm. apply Hag. nia.
  - intros x Hx. rewrite Sm. by apply Hag; left.
  - by rewrite So.
Qed.

(** The pages of the thread are open. *)
Lemma taken_over_open s t id i e0 k :
  pages t = pages s -> (forall k, prot t k = opened s id k) -> aget (pages s) 0 = Some e0 ->
  prot (taken_over t id i e0) k = opened (taken_over t id i e0) id k.
Proof.
  intros Ep Hp Ee. pose proof (aget_range _ _ _ Ee) as H0. unfold opened, placed.
  rewrite taken_over_pages by (rewrite Ep; lia). rewrite Ep.
  change (prot (taken_over t id i e0) k) with (if k =? 0 then true else if k =? 0 then true else prot t k).
  destruct (k =? 0); [by rewrite orb_true_r|]. rewrite Hp. unfold opened, placed.
  by destruct (aget (pages s) k) as [e|]; [destruct (owned_by _ _ e)|]; destruct (prot s k).
Qed.

(** The timer after the request: [moveToDiskSpace] pauses a timer that is paused
    already, so that its stopped value is the one that is restored. *)
Definition paused_twice (s : astate) : itimerval :=
  if timerSet s then set_usec stack 0 else itimer (tim s).

Lemma tim_paused s tau b :
  timerSet s = b -> tim s = (if b then pause_timer stack tau else tau) ->
  s = paused stack (set_tim tau s).
Proof.
  intros Hb Ht. unfold paused. change (timerSet (set_tim tau s)) with (timerSet s). rewrite Hb.
  by destruct s, b; cbn in *; subst.
Qed.

(** C28: the first request of a thread when no page of memory is free.  The page
    in the way goes to the first free place of the swap file and the thread gets
    its block at the start of the page; no other page and no byte of the library
    is touched.  But the timer is left stopped when it was running. *)
Theorem full_memory_request s id e0 i region size :
  pages_ok s id 0 -> free_place (pages s) = None -> free_place (diskPages s) = Some i ->
  settled (diskPages s) id -> firstMalloc s = false ->
  aget (pages s) 0 = Some e0 -> getPageThID e0 <> id ->
  0 <= size -> size + 8 <= PAGESIZE ->
  exists s', myallocate PAGESIZE stack region size THREADREQ s = Ok (userSpace s + 4, s') /\
    thread_heap s' id 1 [Seg size false; Seg (PAGESIZE - 4 - (size + 4)) true] /\
    evicting s s' i e0 /\ tim s' = Timers (paused_twice s) (paused_twice s).
Proof.
  intros Hk Hfull Hfd Hd Hf Ee Hne Hsz Hfit.
  destruct (thread_start PAGESIZE stack s id 0 region size Hk Hd Hf) as (p & Hp & ->).
  set (z := if timerSet s then pause_timer stack (tim s) else tim s).
  assert (paused stack (set_prot p s) = set_tim z (set_prot p s)) as ->
    by (unfold z, paused; by destruct s as [? ? ? ? ? ? ? ? ? ? ? ? [] ? ?]).
  set (t := set_tim z (set_prot p s)).
  assert (pages_ok t id 0) as Hkt by (destruct Hk as [[] ? ? ? ? ?]; by split).
  rewrite (bind_ok_l _ _ _ _ _ (first_page_room_evicts t id e0 i Hkt Hfull Hfd Ee Hne)).
  cbn [negb].
  set (tau := Timers (itimer z) (itimer z)).
  destruct (first_search PAGESIZE stack Hps (taken_over t id i e0) id size tau)
    as (m' & E & Hh & Hag); [exact (taken_over_heap t id i e0 tau Hkt Hd Hf Hfd Ee Hne)| | |done|done|].
  - apply (tim_paused _ tau (timerSet s)); [done|].
    change (tim (taken_over t id i e0)) with tau. subst tau z. by destruct (timerSet s).
  - intros k. exact (taken_over_open s t id i e0 k eq_refl Hp Ee).
  - change (userSpace (taken_over t id i e0)) with (userSpace t) in E, Hag.
    eexists. split; [exact E|]. split; [exact Hh|]. split.
    + exact (evicting_intro s t id i e0 tau m' ltac:(split_and!; reflexivity) Ee Hfd Hag).
    + unfold paused_twice. transitivity (if timerSet s then Timers (itimer tau) (itimer tau) else tau);
        [reflexivity|]. subst tau z. by destruct (timerSet s).
Qed.
End full.

(** ** Concrete instances *)

(** Another page has taken the place in memory, which holds only zeros, when
    thread 2 touches its page. *)
Definition refilled (s1 : astate) : astate :=
  set_swp (swp s1) (set_diskPages (diskPages s1)
    (set_pages (demo_entry 3 0 :: replicate 55 1) (set_amem (fun _ => 0) full_page))).

Lemma evicted_page_returns_witness :
  exists s1 s3, moveToDiskSpace demo_size no_timer 0 full_page = Ok (true, s1) /\
    sigHandler demo_size no_timer (demo_user + 5) (refilled s1) = Ok (tt, s3) /\
    page_byte demo_size s3 0 5 = 77.
Proof.
  pose proof full_page_geometry as Hg. pose proof Hg as [H1 H2 H3 H4 H5].
  destruct (evicted_page_returns demo_size no_timer full_page 0 0 (demo_entry 2 0) (2, 1) 2 1 0
    Hg eq_refl eq_refl eq_refl eq_refl eq_refl
    (fun d e' Ed' Hf => ltac:(by rewrite (disk_unused d e' Ed') in Hf))) as [E1 Hret].
  set (s1 := evicted demo_size no_timer full_page 0 0 (demo_entry 2 0)) in *.
  destruct (Hret (refilled s1) (demo_user + 5)) as (s3 & E3 & _ & _ & Hb);
    [|reflexivity|reflexivity|reflexivity|vm_compute; split; congruence|reflexivity|reflexivity|].
  - split; [exact H1|exact H2|exact H3|vm_compute; reflexivity|].
    cbn [s1 refilled evicted diskPages set_swp set_diskPages set_pages set_tim].
    rewrite length_insert. exact H5.
  - exists s1, s3. split; [exact E1|]. split; [exact E3|].
    change (page_index demo_size (refilled s1) (demo_user + 5)) with 0 in Hb.
    rewrite Hb by (unfold demo_size; lia). reflexivity.
Defined.

(** Thread 2 has all 56 pages, 77 at offset 5 of the first; the timer runs when
    thread 3 makes its first request. *)
Definition crowded : astate :=
  AState (fun x => if x =? demo_user + 5 then 77 else 0) 65536 false 65536 0 demo_user 0
    (map (demo_entry 2) (seqZ 0 56)) (replicate 512 1)
    (fun _ => 0) (fun _ => true) (Some (3, 0)) true (Timers (Itimerval 0 0 0 1000) no_timer) [].

Lemma crowded_ok : pages_ok demo_size crowded 3 0.
Proof.
  split; [split; done|done|done|done| |intros k Hk; lia]. vm_compute. split; congruence.
Qed.

Lemma full_memory_request_witness :
  exists s', myallocate demo_size no_timer 0 100 THREADREQ crowded = Ok (demo_user + 4, s') /\
    thread_heap demo_size s' 3 1 [Seg 100 false; Seg 32660 true] /\
    aget (diskPages s') 0 = Some (demo_entry 2 0) /\ swap_byte demo_size s' 0 5 = 77 /\
    armed (itimer (tim crowded)) = true /\ armed (itimer (tim s')) = false.
Proof.
  destruct (full_memory_request demo_size no_timer demo_size_ok crowded 3 (demo_entry 2 0) 0 0 100
    crowded_ok ltac:(vm_compute; reflexivity) eq_refl
    (fun d e Ed Hf => ltac:(by rewrite (disk_unused d e Ed) in Hf)) eq_refl eq_refl
    ltac:(vm_compute; discriminate) ltac:(lia) ltac:(unfold demo_size; lia))
    as (s' & E & Hh & Hev & Et).
  exists s'. split; [exact E|]. split; [exact Hh|].
  split; [rewrite (ev_place _ _ _ _ _ Hev); reflexivity|].
  split; [rewrite (ev_swap _ _ _ _ _ Hev 0 5 ltac:(unfold demo_size; lia)); reflexivity|].
  split; [reflexivity|]. rewrite Et. reflexivity.
Defined.
