(* ===== verification/SpillSpec.v ===== *)
(** * The heap of a thread grows into the swap file

    A request that needs more pages than memory has free: the pages in the way
    go to free pages of memory first and then to the swap file. *)

From S2P Require Import Prelude CMem SegHeap FirstFit BlockWord Timer MyAlloc WordHeap PageSpec PagingSpec ThreadHeap Growth Evict ThreadHeapSpec HeapGrowth ThreadAlloc FullMemory.

Section spill.
Context (PAGESIZE : Z) (stack : itimerval).
Context (Hps : 1024 <= PAGESIZE <= 32768).

Notation thread_heap := (thread_heap PAGESIZE).
Notation in_memory := (in_memory PAGESIZE).
Notation in_swap := (in_swap PAGESIZE).
Notation page_byte := (page_byte PAGESIZE).
Notation swap_byte := (swap_byte PAGESIZE).
Notation spilled := (spilled PAGESIZE).

(** The timer after a request that took [k] pages. *)
Definition last_timer (s : astate) (k : Z) : timers :=
  if k <=? free_pages s then restarted s
  else Timers (paused_twice stack s) (paused_twice stack s).

(** A request served with new pages: the heap holds [l'] on [n'] pages; the
    library's bytes and the allocated payloads are unchanged; every page of
    another thread is in memory or in the swap file, with its bytes, and every
    page of the swap file stays.  The timer is stopped when a page had to go
    there. *)
Record served_anywhere (s s' : astate) (id n n' : Z) (l l' : list seg) : Prop := ServedAnywhere {
  sw_heap : thread_heap s' id n' l';
  sw_bytes x : x < userSpace s \/ taken_byte 4 (userSpace s) l x -> amem s' x = amem s x;
  sw_others j e : aget (pages s) j = Some e -> is_free_entry e = false -> n <= j ->
    (exists j', n' <= j' /\ in_memory s' j' e (page_byte s j)) \/
    (exists d, in_swap s' d e (page_byte s j));
  sw_swap d e : aget (diskPages s) d = Some e -> is_free_entry e = false ->
    in_swap s' d e (swap_byte s d);
  sw_region : userSpace s' = userSpace s /\ memory s' = memory s;
  sw_library : rootBlock s' = rootBlock s /\ timerSet s' = timerSet s;
  sw_out : aout s' = aout s;
  sw_timer : tim s' = last_timer s (n' - n)
}.

Lemma unpause_last s s1 k :
  timerSet s1 = timerSet s -> thr s1 <> None ->
  tim s1 = (if k <=? free_pages s then tim (paused stack s) else repaused (tim (paused stack s))) ->
  unpause_if_set s1 = Ok (tt, set_tim (last_timer s k) s1).
Proof.
  intros Hs Hth Ht. unfold unpause_if_set, last_timer, restarted, paused_twice, paused, repaused in *.
  rewrite (bind_ok_l (gets _) _ _ _ _ eq_refl), Hs.
  destruct (timerSet s); cbn [when].
  - unfold unpause. rewrite Ht. by destruct (thr s1), (k <=? free_pages s).
  - rewrite <- Ht. by destruct s1.
Qed.

(** The fields of the state in which the search starts. *)
Lemma start_fields s p :
  let t := paused stack (set_prot p s) in
  userSpace t = userSpace s /\ amem t = amem s /\ pages t = pages s /\
  diskPages t = diskPages s /\ swp t = swp s /\ memory t = memory s /\ aout t = aout s /\
  timerSet t = timerSet s /\ firstMalloc t = firstMalloc s /\ tim t = tim (paused stack s) /\
  rootBlock t = rootBlock s.
Proof. cbv zeta. rewrite paused_prot. unfold paused. by destruct (timerSet s) eqn:E. Qed.

(** What is left of the last pages, once the request has them. *)
Lemma spilled_heap s id n n' l l' p lb s1 m' tau :
  let t := paused stack (set_prot p s) in
  let s' := set_tim tau (set_amem m' s1) in
  thread_heap s id n l -> n <= n' -> others_only s id n -> spilled lb t s1 id n n' -> l' <> [] ->
  tiles (hdr:=4) (lo:=userSpace s) (hi:=userSpace s + PAGESIZE * n') (userSpace s) l' ->
  chain m' (userSpace s) l' -> thread_heap s' id n' l'.
Proof.
  intros t s' Hh Hn Ho Hg Hne Htl Hc.
  destruct (start_fields s p) as (Fu & Fa & Fp & Fd & Fs & Fm & Fo & Ft & Ff & Fti & Fr).
  fold t in Fu, Fa, Fp, Fd, Fs, Fm, Fo, Ft, Ff, Fti, Fr.
  pose proof (spilled_user _ _ _ _ _ _ _ Hg) as Hu. rewrite Fu in Hu.
  pose proof Hg as [[[] ? ? ? ? ?] _ _ _ _ _ _ _ _ _ G11 _ _ G14].
  split; cbn [firstMalloc diskPages userSpace amem s' set_tim set_amem]; rewrite ?Hu; try done.
  - pose proof (th_some _ _ _ _ _ Hh). lia.
  - intros d e Ed Huse.
    assert (is_free_entry e = false) as Hue by (unfold is_free_entry; by rewrite Huse).
    destruct (G11 d e Ed Hue) as [Ed2|(j & Hj & Ej)].
    + rewrite Fd in Ed2. by apply (th_disk _ _ _ _ _ Hh).
    + rewrite Fp in Ej. unfold owned_by. by rewrite (Zeqb_f (getPageThID e)) by (by apply (Ho j e)).
  - rewrite G14. change (firstMalloc t = false). rewrite Ff. apply Hh.
Qed.

(** The end of a request that grew the heap. *)
Lemma spill_intro s id n l p lb s1 n' m' l' :
  thread_heap s id n l -> n <= n' -> others_only s id n ->
  let t := paused stack (set_prot p s) in
  spilled lb t s1 id n n' -> l' <> [] ->
  tiles (hdr:=4) (lo:=userSpace s) (hi:=userSpace s + PAGESIZE * n') (userSpace s) l' ->
  chain m' (userSpace s) l' ->
  (forall x, x < userSpace s \/ taken_byte 4 (userSpace s) l x ->
     m' x = amem s1 x /\ outside 4 lb x) ->
  agree (fun x => userSpace s + PAGESIZE * n' <= x) (amem s1) m' ->
  exists s', unpause_if_set (set_amem m' s1) = Ok (tt, s') /\ served_anywhere s s' id n n' l l'.
Proof.
  intros Hh Hn Ho t Hg Hne Htl Hc Hb Hag.
  destruct (start_fields s p) as (Fu & Fa & Fp & Fd & Fs & Fm & Fo & Ft & Ff & Fti & Fr).
  fold t in Fu, Fa, Fp, Fd, Fs, Fm, Fo, Ft, Ff, Fti, Fr.
  pose proof (spilled_user _ _ _ _ _ _ _ Hg) as Hu. rewrite Fu in Hu.
  pose proof (thread_heap_sizes PAGESIZE Hps _ _ _ _ Hh) as (_ & Hs & Htot & _).
  pose proof Hg as [G1 _ _ _ _ G6 _ _ G9 G10 _ _ G13 G14].
  assert (free_pages t = free_pages s) as Hf by (unfold free_pages; by rewrite Fp).
  assert (timerSet s1 = timerSet s /\ memory s1 = memory s /\ aout s1 = aout s /\
    rootBlock s1 = rootBlock s) as (Rt & Rm & Ra & Rr).
  { rewrite G14. cbn. by rewrite Ft, Fm, Fo, Fr. }
  exists (set_tim (last_timer s (n' - n)) (set_amem m' s1)). split.
  { apply unpause_last; cbn [timerSet thr tim set_amem]; [done|by rewrite (po_thread _ _ _ _ G1)|].
    by rewrite G13, Hf, Fti. }
  split; try done.
  - by eapply spilled_heap.
  - intros x Hx. cbn [amem set_tim set_amem]. destruct (Hb x Hx) as [-> Hout].
    rewrite G6, Fa; [done| |done]. rewrite Fu.
    destruct Hx as [Hx|(q & y & Hq & Hx)]; [pose proof (th_some _ _ _ _ _ Hh); nia|].
    destruct (live_bounds 4 hdr4_pos _ _ _ _ Hs Hq) as (_ & ? & _). lia.
  - intros j e Ej Hue Hj. rewrite <- Fp in Ej.
    assert (forall x, page_byte t j x = page_byte s j x) as Hpb
      by (intros x; unfold PagingSpec.page_byte, MyAlloc.page_addr; by rewrite Fa, Fu).
    destruct (G9 j e Ej Hue Hj) as [(j' & Hj' & Ej' & Hby)|(d & Ed & Hby)]; [left|right].
    + exists j'. split; [done|]. split; [done|]. intros x Hx. rewrite <- Hpb, <- Hby by done.
      unfold PagingSpec.page_byte, MyAlloc.page_addr. cbn [amem userSpace set_tim set_amem].
      apply Hag. rewrite Hu. nia.
    + exists d. split; [done|]. intros x Hx. by rewrite <- Hpb, <- Hby by done.
  - intros d e Ed Hue. rewrite <- Fd in Ed. destruct (G10 d e Ed Hue) as [Ed' Hby].
    split; [done|]. intros x Hx. etransitivity; [by apply Hby|].
    unfold PagingSpec.swap_byte. by rewrite Fs.
Qed.

(** A request that makes the heap grow, into the swap file if it must. *)
Lemma spilling_request s id n l0 x size region :
  let w := load 4 (amem s) (userSpace s + total 4 l0) in
  let k := pages_needed PAGESIZE w size in
  thread_heap s id n (l0 ++ [x]) -> free_open s -> others_only s id n -> 0 <= size ->
  seg_alloc 4 size (userSpace s) (l0 ++ [x]) = None ->
  (seg_isfree x = true \/ (getBlockIsF w = 0 /\ size + 8 <= PAGESIZE * k)) ->
  0 < k -> n + k <= NPAGES PAGESIZE -> k <= free_pages s + free_disk s ->
  exists q l' s', seg_alloc 4 size (userSpace s) (l0 ++ grow_last (PAGESIZE * k) x) = Some (q, l') /\
    myallocate PAGESIZE stack region size THREADREQ s = Ok (q + 4, s') /\
    served_anywhere s s' id n (n + k) (l0 ++ [x]) l'.
Proof.
  intros w k Hh Hfo Ho Hsz En Hx Hk Hr Hf. pose proof Hh as [Hpk Hn Hd Hfm _ _ _].
  destruct (thread_request PAGESIZE stack s id n region size Hpk Hn Hd Hfm) as (p & Hp & ->).
  destruct (start_state PAGESIZE stack s id n p Hpk Hfo Hp) as (_ & Hfo1 & _).
  destruct (start_fields s p) as (_ & _ & Fp & Fd & _).
  pose proof (spilled_growth PAGESIZE stack Hps).
  destruct (heap_extends (G:=spilled) PAGESIZE stack Hps s id n l0 x size p Hh Hfo Hp Hsz En Hx)
    as (q & l' & s1 & m' & Ea & Hne & [E Hg Ht Hc Hb Hag]); fold w k; [lia|lia| |].
  { unfold enough_room, others_only, free_pages, free_disk in *. by rewrite Fp, Fd. }
  destruct (spill_intro s id n (l0 ++ [x]) p _ s1 (n + k) m' l' Hh ltac:(lia) Ho Hg)
    as (s' & E2 & Hsv); [done..|].
  exists q, l', s'. split; [done|]. split; [|done]. rewrite E. by mstep by exact E2.
Qed.

(** C12: the heap of a thread grows even when memory has not as many free pages as
    the request needs, as long as there are enough together with the swap file.
    The request is first fit on the longer heap and allocated payloads keep their
    bytes; the pages of other threads in the way go to free pages of memory, then
    to the swap file, and none is lost. *)
Theorem thread_malloc_spills s id n l0 x size region :
  let w := load 4 (amem s) (userSpace s + total 4 l0) in
  let k := pages_needed PAGESIZE w size in
  thread_heap s id n (l0 ++ [x]) -> free_open s -> others_only s id n -> 0 <= size ->
  seg_alloc 4 size (userSpace s) (l0 ++ [x]) = None ->
  (seg_isfree x = true \/ (getBlockIsF w = 0 /\ size + 8 <= PAGESIZE * k)) ->
  0 < k -> n + k <= NPAGES PAGESIZE -> k <= free_pages s + free_disk s ->
  exists q l' s', seg_alloc 4 size (userSpace s) (l0 ++ grow_last (PAGESIZE * k) x) = Some (q, l') /\
    myallocate PAGESIZE stack region size THREADREQ s = Ok (q + 4, s') /\
    served_anywhere s s' id n (n + k) (l0 ++ [x]) l'.
Proof. apply spilling_request. Qed.

(** Page [NPAGES] does not exist: with no page of memory free, room for it is
    looked for in the swap file, and its entry is read behind the table. *)
Lemma makeRoom_overruns t th :
  table_ok PAGESIZE t -> thr t = Some th -> free_pages t = 0 -> 0 < free_disk t ->
  makeRoom PAGESIZE stack (NPAGES PAGESIZE) t = Fault OutOfBounds.
Proof.
  intros Ht Eth Hf Hd. destruct (find_index_count is_free_entry (diskPages t) 0 Hd) as (i & Hi).
  unfold makeRoom, moveToFreeSpace.
  mstep by (mstep by reflexivity; rewrite (find_index_zero is_free_entry _ 0 Hf); reflexivity).
  unfold moveToDiskSpace. mstep by (unfold pause; rewrite Eth; reflexivity).
  mstep by reflexivity. change (diskPages (set_tim _ t)) with (diskPages t). rewrite Hi.
  mstep by reflexivity. apply bind_fault_l. unfold get_page. mstep by reflexivity.
  cbn [pages set_prot set_tim]. destruct (aget (pages t) (NPAGES PAGESIZE)) as [e|] eqn:E; [|done].
  apply aget_range in E. unfold table_ok in Ht. lia.
Qed.

(** C23: the end of memory.  When a thread has all pages of memory, its last block
    is taken and no block fits, a request of at most the size of that block passes
    the check of the room that is left, which counts from the header of the block;
    the page the request asks for does not exist, and its entry is read behind
    the end of the page table. *)
Theorem memory_end_overruns s id l0 z size region :
  thread_heap s id (NPAGES PAGESIZE) (l0 ++ [Seg z false]) -> 0 <= size ->
  seg_alloc 4 size (userSpace s) (l0 ++ [Seg z false]) = None ->
  getBlockIsF (load 4 (amem s) (userSpace s + total 4 l0)) = 0 ->
  size + 4 <= z < size + 8 + PAGESIZE -> 0 < free_disk s ->
  myallocate PAGESIZE stack region size THREADREQ s = Fault OutOfBounds.
Proof.
  intros Hh Hsz En Hw Hz Hfd. pose proof Hh as [Hpk Hn Hd Hf _ _ _].
  pose proof (free_pages_room PAGESIZE s id _ Hpk) as Hfree. destruct (free_counts s).
  destruct (thread_request PAGESIZE stack s id _ region size Hpk Hn Hd Hf) as (p & Hp & ->).
  assert (free_open s) as Hfo.
  { intros k e Ek Hfk. pose proof (aget_range _ _ _ Ek) as Hk.
    pose proof (geo_table _ _ (po_geometry _ _ _ _ Hpk)) as Ht. unfold table_ok in Ht.
    by rewrite (own_not_free PAGESIZE s id _ k e Hpk) in Hfk by (done || lia). }
  apply (seg_alloc_none 4 hdr4_pos) in En.
  destruct (last_block PAGESIZE Hps s id _ l0 _ Hh) as (_ & _ & _ & _ & Hend & _ & Hl & _).
  cbn [hv_len word_view seg_size] in Hl, Hend. unfold w_len in Hl.
  destruct (user_bounds PAGESIZE Hps s id _ Hpk) as (_ & _ & Hmax).
  destruct (start_state PAGESIZE stack s id _ p Hpk Hfo Hp) as (Hk1 & _ & _).
  destruct (start_fields s p) as (_ & _ & Fp & Fd & _).
  destruct (search_asks PAGESIZE stack Hps s id _ l0 _ size p Hh Hfo Hp Hsz En) as [-> _]; [lia|].
  assert (granted s (pages_needed PAGESIZE (load 4 (amem s) (userSpace s + total 4 l0)) size) = 1) as ->.
  { unfold granted, pages_needed. rewrite Hw, Hl. cbn [Z.eqb].
    assert (Z.quot (4 + (size + 4) - z) PAGESIZE = 0) as ->.
    { destruct (Z.le_ge_cases 0 (4 + (size + 4) - z)).
      - apply Z.quot_small. lia.
      - rewrite <- (Z.opp_involutive (4 + (size + 4) - z)), Z.quot_opp_l by lia.
        by rewrite Z.quot_small by lia. }
    unfold free_disk in *. by rewrite Zleb_t by lia. }
  rewrite Hw. cbn [Z.ltb Z.compare Z.eqb]. unfold extend_new.
  mstep by (by eapply next_page_ok, Hk1). apply bind_fault_l.
  apply (makeRoom_overruns _ (id, NPAGES PAGESIZE)).
  - apply Hk1.
  - apply Hk1.
  - unfold free_pages. rewrite Fp. unfold free_pages in *. lia.
  - unfold free_disk. by rewrite Fd.
Qed.
End spill.

(** ** Concrete instances *)

(** Thread 2 has page 0, which is one free block; the pages 1 to 54 are pages of
    thread 3, and only the last page of memory is free.  The timer runs. *)
Definition packed : astate :=
  AState (demo_block 32764 1) 65536 false 65536 0 demo_user 0
    (demo_entry 2 0 :: map (demo_entry 3) (seqZ 0 54) ++ [1]) (replicate 512 1)
    (fun _ => 0) (fun _ => true) (Some (2, 1)) true (Timers (Itimerval 0 0 0 1000) no_timer) [].

Lemma packed_heap : thread_heap demo_size packed 2 1 [Seg 32764 true].
Proof.
  destruct demo_free_heap as [[[] ? ? ? ? Hm] ? ? ? ? ? ?]. split; try done. split; try done.
  intros k Hk. assert (k = 0) as -> by lia.
  exists (demo_entry 2 0). split; [reflexivity|]. by apply (entry_of_spec 0 2 0).
Qed.

Lemma packed_others : others_only packed 2 1.
Proof.
  intros j e Ej Hu Hj. pose proof (aget_range _ _ _ Ej). rewrite aget_lookup in Ej by lia.
  cbn [pages packed] in Ej. destruct (Z.to_nat j) as [|i] eqn:Ei; [lia|]. cbn in Ej.
  apply lookup_app_Some in Ej as [Ej|[_ Ej]].
  - rewrite (list_lookup_fmap (demo_entry 3)) in Ej. apply fmap_Some in Ej as (k & Ek & ->).
    apply lookup_seqZ in Ek as [-> Hk]. destruct (entry_of_spec 0 3 (0 + Z.of_nat i)) as [Ho _]; [lia..|].
    apply owned_by_spec in Ho as [Ho _]. change (getPageThID (entry_of 0 3 (0 + Z.of_nat i)) <> 2).
    by rewrite Ho.
  - by apply list_lookup_singleton_Some in Ej as [_ <-].
Qed.

(** Page 1 goes to the free page, page 2 to the swap file. *)
Lemma thread_malloc_spills_witness :
  exists s', myallocate demo_size no_timer 0 80000 THREADREQ packed = Ok (demo_user + 4, s') /\
    thread_heap demo_size s' 2 3 [Seg 80000 false; Seg 18296 true] /\ free_pages packed = 1 /\
    tim s' = Timers no_timer no_timer.
Proof.
  destruct (thread_malloc_spills demo_size no_timer demo_size_ok packed 2 1 [] (Seg 32764 true)
    80000 0 packed_heap (fun _ _ _ _ => eq_refl) packed_others ltac:(lia) eq_refl (or_introl eq_refl)
    ltac:(vm_compute; reflexivity) ltac:(vm_compute; discriminate) ltac:(vm_compute; discriminate))
    as (q & l' & s' & Ea & E & Hsv).
  vm_compute in Ea. injection Ea as <- <-. exists s'. split; [exact E|].
  split; [exact (sw_heap _ _ _ _ _ _ _ _ _ Hsv)|]. split; [vm_compute; reflexivity|].
  rewrite (sw_timer _ _ _ _ _ _ _ _ _ Hsv). vm_compute. reflexivity.
Defined.

(** Thread 2 has all pages, and they hold one block. *)
Lemma memory_end_overruns_witness :
  myallocate demo_size no_timer 0 1835000 THREADREQ (demo_thread 56 (demo_block 1835004 0))
  = Fault OutOfBounds.
Proof.
  assert (thread_heap demo_size (demo_thread 56 (demo_block 1835004 0)) 2 56 [Seg 1835004 false]) as Hh
    by (apply (demo_heap 56 1835004 0); [lia|lia|done|vm_compute; done|split_and!; vm_compute; done]).
  apply (memory_end_overruns demo_size no_timer demo_size_ok _ 2 [] 1835004 1835000 0 Hh
    ltac:(lia) eq_refl ltac:(vm_compute; reflexivity) ltac:(unfold demo_size; lia)
    ltac:(vm_compute; reflexivity)).
Defined.
