(* ===== verification/Frame.v ===== *)
(** * What a call leaves alone

    [Keeps R m] says that the computation [m], when it returns, relates its two
    states by the preorder [R].  The instances follow the monad, so that the
    type class search walks through the text of a function.  They show that
    [schedule] and what it calls create no node, lose none, and never touch the
    library's heap. *)

From S2P Require Import Prelude CMem BlockWord Timer MyAlloc Queue Sched.

Class Keeps {S A : Type} (R : S -> S -> Prop) (m : M S A) : Prop :=
  keeps : forall s a s', m s = Ok (a, s') -> R s s'.

Section keeps.
Context {S : Type} (R : S -> S -> Prop) `{!PreOrder R}.

#[export] Instance keeps_ret {A} (a : A) : Keeps R (mret a).
Proof. by intros s b s' [= _ <-]. Qed.
#[export] Instance keeps_get : Keeps R get.
Proof. by intros s b s' [= _ <-]. Qed.
#[export] Instance keeps_gets {A} (f : S -> A) : Keeps R (gets f).
Proof. by intros s b s' [= _ <-]. Qed.
#[export] Instance keeps_raise {A} e : Keeps R (raise (A := A) e).
Proof. done. Qed.
#[export] Instance keeps_lift {A} (r : S -> result A) : Keeps R (fun s => lift (r s) s).
Proof. intros s b s'. unfold lift. destruct (r s); [|done..]. by intros [= _ <-]. Qed.
Lemma keeps_modify f : (forall s, R s (f s)) -> Keeps R (modify f).
Proof. by intros H s b s' [= _ <-]. Qed.

#[export] Instance keeps_bind {A B} (m : M S A) (f : A -> M S B) :
  Keeps R m -> (forall a, Keeps R (f a)) -> Keeps R (m ≫= f).
Proof.
  intros Hm Hf s b s' (a & s1 & E1 & E2)%bind_ok_inv.
  transitivity s1; [by eapply Hm|by eapply Hf].
Qed.

#[export] Instance keeps_if {A} (b : bool) (m1 m2 : M S A) :
  Keeps R m1 -> Keeps R m2 -> Keeps R (if b then m1 else m2).
Proof. by destruct b. Qed.
#[export] Instance keeps_option {A B} (o : option A) (f : A -> M S B) m :
  (forall a, Keeps R (f a)) -> Keeps R m ->
  Keeps R (match o with Some a => f a | None => m end).
Proof. by destruct o. Qed.
#[export] Instance keeps_opt {A} (o : option A) : Keeps R (opt o).
Proof. destruct o; [apply keeps_ret|apply keeps_raise]. Qed.

#[export] Instance keeps_for n lo body :
  (forall i, Keeps R (body i)) -> Keeps R (for_loop n lo body).
Proof.
  intros Hb. revert lo. induction n as [|n IH]; intros lo; cbn [for_loop]; apply _.
Qed.
End keeps.

#[export] Hint Extern 5 (Keeps _ (modify _)) => apply keeps_modify; done : typeclass_instances.
#[export] Hint Extern 5 (Keeps _ (when _ _)) => unfold when : typeclass_instances.

(** ** The allocator's state *)

(** The library heap and the setting of the timer. *)
Definition heap_same (a b : astate) : Prop :=
  amem b = amem a /\ memory b = memory a /\ userSpace b = userSpace a /\
  rootBlock b = rootBlock a /\ firstMalloc b = firstMalloc a /\ timerSet b = timerSet a.

#[export] Instance heap_same_preorder : PreOrder heap_same.
Proof. split; [done|]. unfold heap_same. intros a b c. naive_solver congruence. Qed.

Section alloc.
Context (PAGESIZE : Z).

#[export] Instance mprotect_keeps i rw : Keeps heap_same (mprotect i rw).
Proof. unfold mprotect. apply _. Qed.
#[export] Instance put_page_keeps i v : Keeps heap_same (put_page i v).
Proof. unfold put_page. apply _. Qed.
#[export] Instance get_page_keeps i : Keeps heap_same (get_page i).
Proof. unfold get_page. apply _. Qed.
#[export] Instance protectAllPages_keeps id : Keeps heap_same (protectAllPages PAGESIZE id).
Proof. unfold protectAllPages. apply _. Qed.
#[export] Instance freePages_keeps : Keeps heap_same (freePages PAGESIZE).
Proof.
  unfold freePages. apply keeps_bind; [apply _..|]. intros [[id n]|]; apply _.
Qed.
End alloc.

(** ** The scheduler's state *)

(** The same nodes, though they may be linked anew, the same numbers of threads
    and the same library heap. *)
Definition sys_same (s s' : sched) : Prop :=
  dom (nodes s') = dom (nodes s) /\ threadNum s' = threadNum s /\ heap_same (al s) (al s').

#[export] Instance sys_same_preorder : PreOrder sys_same.
Proof.
  split; [done|]. intros a b c (H1 & H2 & H3) (K1 & K2 & K3).
  split; [congruence|]. split; [congruence|by transitivity (al b)].
Qed.

#[export] Instance rd_node_keeps a : Keeps sys_same (rd_node a).
Proof. apply keeps_lift, _. Qed.
#[export] Instance rd_thr_keeps a : Keeps sys_same (rd_thr a).
Proof. apply keeps_lift, _. Qed.
#[export] Instance rd_queue_keeps q : Keeps sys_same (rd_queue q).
Proof. destruct q; apply keeps_lift, _. Qed.
#[export] Instance wr_queue_keeps q v : Keeps sys_same (wr_queue q v).
Proof. by destruct q; apply keeps_modify. Qed.

#[export] Instance upd_node_keeps a f : Keeps sys_same (upd_node a f).
Proof.
  intros s u s' (n & s1 & E & [= _ <-])%bind_ok_inv. unfold rd_node, lift, cell in E.
  destruct (a =? 0); [done|]. destruct (nodes s !! a) as [m|] eqn:Em; [|done].
  injection E as <- <-. split; [|done]. cbn. apply dom_insert_lookup_L. eauto.
Qed.
#[export] Instance upd_thr_keeps a f : Keeps sys_same (upd_thr a f).
Proof. unfold upd_thr. apply _. Qed.

#[export] Instance node_tid_keeps a : Keeps sys_same (node_tid a).
Proof. unfold node_tid. apply _. Qed.
#[export] Instance on_timer_keeps f : Keeps sys_same (on_timer f).
Proof. by apply keeps_modify. Qed.

#[export] Instance enQ_keeps q x : Keeps sys_same (enQ q x).
Proof. unfold enQ. apply _. Qed.
#[export] Instance deQ_keeps q : Keeps sys_same (deQ q).
Proof. unfold deQ. apply _. Qed.
#[export] Instance insertToList_keeps x : Keeps sys_same (insertToList x).
Proof. unfold insertToList. apply _. Qed.

#[export] Instance getNextNode_keeps : Keeps sys_same getNextNode.
Proof.
  unfold getNextNode. generalize 0, (Z.to_nat RUN_QUEUE_SIZE). intros i n. revert i.
  induction n as [|n IH]; intros i; cbn [getNextNode_loop]; apply _.
Qed.

#[export] Instance removeFromList_keeps x : Keeps sys_same (removeFromList x).
Proof.
  assert (forall fuel id prev ptr, Keeps sys_same (removeFromList_loop fuel id prev ptr)).
  { induction fuel as [|fuel IH]; intros; cbn [removeFromList_loop]; apply _. }
  unfold removeFromList. apply _.
Qed.

#[export] Instance threadDied_keeps x : Keeps sys_same (threadDied x).
Proof.
  assert (forall fuel id ptr, Keeps sys_same (find_thread fuel id ptr)).
  { induction fuel as [|fuel IH]; intros; cbn [find_thread]; apply _. }
  unfold threadDied, search_threads. apply _.
Qed.

#[export] Instance wake_loop_keeps fuel id ptr : Keeps sys_same (wake_loop fuel id ptr).
Proof. revert ptr. induction fuel as [|fuel IH]; intros; cbn [wake_loop]; apply _. Qed.

Section schedule.
Context (PAGESIZE : Z).

Lemma store_pageNum_same t s : sys_same s (store_pageNum t s).
Proof. unfold store_pageNum. by destruct t as [[? ?]|], (nodes s !! current s). Qed.

#[export] Instance alloc_call_keeps {A} (m : M astate A) :
  Keeps heap_same m -> Keeps sys_same (alloc_call m).
Proof.
  intros Hm s a s'. unfold alloc_call.
  destruct (m _) as [[b x]|?|?] eqn:E; [|done..]. intros [= _ <-].
  apply Hm in E. transitivity (set_al x s); [|apply store_pageNum_same].
  split; [done|]. split; [done|exact E].
Qed.

#[export] Instance requeue_keeps : Keeps sys_same (requeue PAGESIZE).
Proof.
  unfold requeue. apply keeps_bind; [apply _..|intros c].
  apply keeps_bind; [apply _..|intros n]. destruct (status n); apply _.
Qed.

#[export] Instance dispatch_keeps : Keeps sys_same (dispatch PAGESIZE).
Proof. unfold dispatch. apply _. Qed.
End schedule.
