(* ===== verification/PagesKept.v ===== *)
(** * No page is lost or duplicated

    Every page a thread was given has one entry in the page tables, in memory or
    in the swap file.  Requests, releases, accesses and page faults exchange and
    move entries; they neither lose nor copy one, and the entries they add are
    those of the pages handed out.  [conserves] says so of two states, and the
    type class [Keeps] carries it through the text of the allocator; the
    operations that write entries are proved one by one. *)

From S2P Require Import Prelude CMem BlockWord Timer MyAlloc LibHeapSpec PageSpec PagingSpec ThreadHeap ThreadAlloc FullMemory SpillSpec Queue Sched Frame.

(** An entry in use for page [pgid] of thread [t]. *)
Definition holds_page (t pgid e : Z) : bool := (getPageIsF e =? 0) && owned_by t pgid e.

(** How many entries page [pgid] of thread [t] has in the two tables. *)
Definition copies (s : astate) (t pgid : Z) : Z :=
  count_if (holds_page t pgid) (pages s) + count_if (holds_page t pgid) (diskPages s).

(** Page [pgid] of thread [t] is one of the pages [n] to [n' - 1] of [id]. *)
Definition handed_out (id n n' t pgid : Z) : Z :=
  if (t =? id) && (n <=? pgid) && (pgid <? n') then 1 else 0.

(** The region exists and thread [id], which was given [n] pages, runs. *)
Definition runs_thread (id n : Z) (s : astate) : Prop :=
  firstMalloc s = false /\ memory s <= userSpace s /\ thr s = Some (id, n).

(** The region, the library heap and the size of the page table. *)
Definition same_region (a b : astate) : Prop :=
  memory b = memory a /\ userSpace b = userSpace a /\ rootBlock b = rootBlock a /\
  timerSet b = timerSet a /\ length (pages b) = length (pages a).

(** From [a] to [b] every page keeps its entries, and the thread that runs
    has one more for every page it was given.  The counter of a thread's pages
    has 16 bits in an entry. *)
Definition conserves (a b : astate) : Prop :=
  forall id n, runs_thread id n a -> 0 <= id < 256 -> 0 <= n ->
  exists n', runs_thread id n' b /\ n <= n' /\ same_region a b /\
    (n' <= 2 ^ 16 -> forall t pgid, copies b t pgid = copies a t pgid + handed_out id n n' t pgid).

Lemma handed_none id n t pgid : handed_out id n n t pgid = 0.
Proof. unfold handed_out. destruct (t =? id); cbn [andb]; [|done]. bcase; [|done]. bprop. lia. Qed.

Lemma handed_trans id n n1 n2 t pgid :
  n <= n1 <= n2 -> handed_out id n n1 t pgid + handed_out id n1 n2 t pgid = handed_out id n n2 t pgid.
Proof.
  intros Hn. unfold handed_out. destruct (t =? id); cbn [andb]; [|done].
  destruct (Z.leb_spec n pgid), (Z.ltb_spec pgid n1), (Z.leb_spec n1 pgid), (Z.ltb_spec pgid n2);
    cbn [andb]; lia.
Qed.

#[export] Instance conserves_preorder : PreOrder conserves.
Proof.
  split.
  - intros a id n Ha _ _. exists n. split; [done|]. split; [lia|]. split; [done|]. intros _ t p. rewrite handed_none. lia.
  - intros a b c Hab Hbc id n Ha Hid Hn. destruct (Hab id n Ha Hid Hn) as (n1 & Hb & Hn1 & R1 & H1).
    destruct (Hbc id n1 Hb Hid ltac:(lia)) as (n2 & Hc & Hn2 & R2 & H2).
    exists n2. split; [done|]. split; [lia|].
    split; [unfold same_region in *; naive_solver congruence|]. intros Hmax t p.
    rewrite H2, H1, <- (handed_trans id n n1 n2) by lia. lia.
Qed.

(** ** Entries *)

Definition one (b : bool) : Z := if b then 1 else 0.

(** An entry replaced. *)
Lemma aset_inv l i v l' :
  aset l i v = Some l' ->
  exists e, aget l i = Some e /\ length l' = length l /\
    (forall P, count_if P l' = count_if P l - one (P e) + one (P v)) /\
    (forall j, aget l' j = if j =? i then Some v else aget l j).
Proof.
  unfold aset. destruct (_ && _) eqn:E; [|done]. bprop. intros [= <-].
  destruct (lookup_lt_is_Some_2 l (Z.to_nat i) ltac:(lia)) as [e Ee]. exists e.
  split; [unfold aget; by rewrite Zltb_f by lia|]. split; [by rewrite length_insert|]. split.
  - intros P. by apply count_if_insert.
  - intros j. unfold aget. destruct (Z.eqb_spec j i) as [->|Hne].
    + rewrite Zltb_f by lia. by rewrite list_lookup_insert_eq by lia.
    + destruct (Z.ltb_spec j 0); [done|]. by rewrite list_lookup_insert_ne by lia.
Qed.

(** Two entries of a table exchanged. *)
Lemma exchange_inv l i j ei ej l1 l2 :
  aget l i = Some ei -> aget l j = Some ej -> aset l j ei = Some l1 -> aset l1 i ej = Some l2 ->
  (forall P, count_if P l2 = count_if P l) /\ length l2 = length l /\
  (forall x, aget l2 x = if x =? i then Some ej else if x =? j then Some ei else aget l x).
Proof.
  intros Ei Ej (e1 & G1 & L1 & C1 & A1)%aset_inv (e2 & G2 & L2 & C2 & A2)%aset_inv.
  rewrite Ej in G1. injection G1 as <-. rewrite A1, Ei in G2. split; [|split; [congruence|]].
  - intros P. rewrite C2, C1. destruct (i =? j) eqn:E; injection G2 as <-; [bprop; subst|lia].
    rewrite Ei in Ej. injection Ej as ->. lia.
  - intros x. rewrite A2, A1. done.
Qed.

(** ** Operations that write no entry *)

Definition same_entries (a b : astate) : Prop :=
  pages b = pages a /\ diskPages b = diskPages a /\ thr b = thr a /\
  firstMalloc b = firstMalloc a /\ memory b = memory a /\ userSpace b = userSpace a /\
  rootBlock b = rootBlock a /\ timerSet b = timerSet a.

#[export] Instance same_entries_preorder : PreOrder same_entries.
Proof. split; [done|]. unfold same_entries. intros a b c. naive_solver congruence. Qed.

(** What the relation needs of a state beside the counts. *)
Lemma conserves_counts a b :
  thr b = thr a -> firstMalloc b = firstMalloc a -> same_region a b ->
  (forall t p, copies b t p = copies a t p) -> conserves a b.
Proof.
  intros Et Ef Hr Hc id n (H1 & H2 & H3) _ _. exists n. pose proof Hr as (Em & Eu & _).
  split; [split_and!; congruence|]. split; [lia|]. split; [done|]. intros _ t p. rewrite Hc, handed_none. lia.
Qed.

Lemma same_conserves a b : same_entries a b -> conserves a b.
Proof.
  intros (Ep & Ed & Et & Ef & Em & Eu & Er & Es). apply conserves_counts; try done.
  { split_and!; try done. by rewrite Ep. }
  intros t p. unfold copies. congruence.
Qed.

Lemma keeps_same {A} (m : M astate A) : Keeps same_entries m -> Keeps conserves m.
Proof. intros H s a s' E. by eapply same_conserves, H. Qed.

(** The results of the accesses to the tables. *)
Lemma get_page_inv i s e s' : get_page i s = Ok (e, s') -> s' = s /\ aget (pages s) i = Some e.
Proof.
  intros (l & s1 & [= <- <-] & E)%bind_ok_inv. destruct (aget (pages s) i); [|done].
  by injection E as <- <-.
Qed.
Lemma get_disk_inv i s e s' : get_disk i s = Ok (e, s') -> s' = s /\ aget (diskPages s) i = Some e.
Proof.
  intros (l & s1 & [= <- <-] & E)%bind_ok_inv. destruct (aget (diskPages s) i); [|done].
  by injection E as <- <-.
Qed.
Lemma put_page_inv i v s u s' :
  put_page i v s = Ok (u, s') -> exists l, aset (pages s) i v = Some l /\ s' = set_pages l s.
Proof.
  intros (l & s1 & [= <- <-] & E)%bind_ok_inv. destruct (aset (pages s) i v) as [l'|]; [|done].
  injection E as _ <-. by exists l'.
Qed.
Lemma put_disk_inv i v s u s' :
  put_disk i v s = Ok (u, s') -> exists l, aset (diskPages s) i v = Some l /\ s' = set_diskPages l s.
Proof.
  intros (l & s1 & [= <- <-] & E)%bind_ok_inv. destruct (aset (diskPages s) i v) as [l'|]; [|done].
  injection E as _ <-. by exists l'.
Qed.

(** The first step of a computation that returned. *)
Tactic Notation "first_step" hyp(H) "as" simple_intropattern(p) := apply bind_ok_inv in H as p.

Section kept.
Context (PAGESIZE : Z) (stack : itimerval) (Hps : 4 <= PAGESIZE).

#[local] Hint Extern 4 (Keeps same_entries (modify _)) =>
  apply keeps_modify; intros; split_and!; done : typeclass_instances.

#[local] Instance pause_same : Keeps same_entries (pause stack).
Proof. intros s a s'. unfold pause. destruct (thr s); [|done]. by intros [= _ <-]. Qed.
#[local] Instance unpause_same : Keeps same_entries unpause.
Proof. intros s a s'. unfold unpause. destruct (thr s); [|done]. by intros [= _ <-]. Qed.
#[local] Instance pause_if_same : Keeps same_entries (pause_if_set stack).
Proof. unfold pause_if_set. apply _. Qed.
#[local] Instance unpause_if_same : Keeps same_entries unpause_if_set.
Proof. unfold unpause_if_set. apply _. Qed.
#[local] Instance puts_same m : Keeps same_entries (puts m).
Proof. unfold puts. apply _. Qed.
#[local] Instance mprotect_same i rw : Keeps same_entries (mprotect i rw).
Proof. unfold mprotect. apply _. Qed.
#[local] Instance exit_same {A} c : Keeps same_entries (exit_with (A := A) c).
Proof. done. Qed.
#[local] Instance read_page_same i : Keeps same_entries (read_page PAGESIZE i).
Proof. unfold read_page, in_user. apply _. Qed.
#[local] Instance write_page_same i b : Keeps same_entries (write_page PAGESIZE i b).
Proof. unfold write_page, in_user. apply _. Qed.
#[local] Instance read_swp_same i : Keeps same_entries (read_swp PAGESIZE i).
Proof. unfold read_swp. apply _. Qed.
#[local] Instance write_swp_same i b : Keeps same_entries (write_swp PAGESIZE i b).
Proof. unfold write_swp. apply _. Qed.
#[local] Instance current_thread_same : Keeps same_entries current_thread.
Proof. unfold current_thread. apply _. Qed.
#[local] Instance get_page_same i : Keeps same_entries (get_page i).
Proof. unfold get_page. apply _. Qed.
#[local] Instance get_disk_same i : Keeps same_entries (get_disk i).
Proof. unfold get_disk. apply _. Qed.

(** [skip H] passes a first step that writes no entry, [last H] the end of a
    computation that writes none. *)
Lemma skip_step {A B} (m : M astate A) (f : A -> M astate B) s b s' :
  Keeps same_entries m -> (m ≫= f) s = Ok (b, s') ->
  exists a s1, same_entries s s1 /\ f a s1 = Ok (b, s').
Proof. intros Hm (a & s1 & E1 & E2)%bind_ok_inv. exists a, s1. split; [by eapply Hm|done]. Qed.

Lemma last_step {A} (m : M astate A) s b s' :
  Keeps same_entries m -> m s = Ok (b, s') -> same_entries s s'.
Proof. intros Hm E. by eapply Hm. Qed.

Ltac skip H :=
  let a := fresh "a" in let s := fresh "z" in let E := fresh "Hz" in
  apply (skip_step _ _ _ _ _ _) in H; destruct H as (a & s & E & H).
Ltac last H := apply (last_step _ _ _ _ _) in H.

(** ** Exchanges *)

(** Nothing but two entries of memory is exchanged. *)
Definition exchanged (i j : Z) (s s' : astate) : Prop :=
  exists ei ej, aget (pages s) i = Some ei /\ aget (pages s) j = Some ej /\
    (forall P, count_if P (pages s') = count_if P (pages s)) /\
    length (pages s') = length (pages s) /\
    (forall x, aget (pages s') x = if x =? i then Some ej else if x =? j then Some ei else aget (pages s) x) /\
    diskPages s' = diskPages s.

(** An entry of memory and one of the swap file. *)
Definition exchanged_disk (i d : Z) (s s' : astate) : Prop :=
  (forall P, count_if P (pages s') + count_if P (diskPages s')
             = count_if P (pages s) + count_if P (diskPages s)) /\
  length (pages s') = length (pages s) /\
  (forall x, x <> i -> aget (pages s') x = aget (pages s) x).

Definition same_owner (a b : astate) : Prop :=
  thr b = thr a /\ firstMalloc b = firstMalloc a /\ memory b = memory a /\ userSpace b = userSpace a /\
  rootBlock b = rootBlock a /\ timerSet b = timerSet a.

Lemma pageSwap_inv i j s u s' :
  pageSwap PAGESIZE i j s = Ok (u, s') -> same_owner s s' /\ (s' = s \/ exchanged i j s s').
Proof.
  unfold pageSwap. destruct (i =? j); [intros [= _ <-]; by split; [|left]|]. intros H.
  skip H. skip H. skip H. skip H. skip H. skip H.
  first_step H as (ej & sj & (-> & Ej)%get_page_inv & H).
  first_step H as (ei & si & (-> & Ei)%get_page_inv & H).
  first_step H as ([] & t1 & (l1 & E1 & ->)%put_page_inv & H).
  first_step H as ([] & t2 & (l2 & E2 & ->)%put_page_inv & H).
  skip H. last H.
  cbn [pages set_pages] in E2.
  destruct (exchange_inv _ _ _ _ _ _ _ Ei Ej E1 E2) as (Hc & Hlen & Ha).
  unfold same_entries in *. cbn [pages diskPages thr firstMalloc memory userSpace rootBlock timerSet set_pages] in *.
  destruct_and!. split; [unfold same_owner; split_and!; congruence|]. right. exists ei, ej.
  assert (pages s' = l2) as P1 by congruence. assert (pages z4 = pages s) as P2 by congruence.
  rewrite P1. rewrite P2 in *. split_and!; try done. congruence.
Qed.

Lemma swapToMem_inv i d s u s' :
  swapToMemFromDisk PAGESIZE stack i d s = Ok (u, s') -> same_owner s s' /\ exchanged_disk i d s s'.
Proof.
  unfold swapToMemFromDisk. intros H. skip H. skip H. skip H. skip H. skip H. skip H.
  first_step H as (ed & sj & (-> & Ed)%get_disk_inv & H).
  first_step H as (ei & si & (-> & Ei)%get_page_inv & H).
  first_step H as ([] & t1 & (l1 & E1 & ->)%put_disk_inv & H).
  first_step H as ([] & t2 & (l2 & E2 & ->)%put_page_inv & H).
  skip H. last H.
  cbn [pages diskPages set_pages set_diskPages] in *.
  apply aset_inv in E1 as (e1 & G1 & _ & C1 & _), E2 as (e2 & G2 & L2 & C2 & A2).
  rewrite Ed in G1. injection G1 as <-. rewrite Ei in G2. injection G2 as <-.
  unfold same_entries in *. cbn [pages diskPages thr firstMalloc memory userSpace rootBlock timerSet set_pages set_diskPages] in *.
  destruct_and!. split; [unfold same_owner; split_and!; congruence|]. split.
  - intros P. replace (pages s') with l2 by congruence. replace (diskPages s') with l1 by congruence.
    rewrite C1, C2. replace (pages z4) with (pages s) by congruence.
    replace (diskPages z4) with (diskPages s) by congruence. lia.
  - split; [congruence|]. intros x Hx. replace (pages s') with l2 by congruence. rewrite A2, (Zeqb_f x i) by done. congruence.
Qed.

Lemma exchanged_conserves i j s s' : same_owner s s' -> exchanged i j s s' -> conserves s s'.
Proof.
  intros (? & ? & ? & ? & ? & ?) (ei & ej & _ & _ & Hc & Hl & _ & Hd).
  apply conserves_counts; try done.
  intros t p. unfold copies. by rewrite Hc, Hd.
Qed.

Lemma exchanged_disk_conserves i d s s' : same_owner s s' -> exchanged_disk i d s s' -> conserves s s'.
Proof.
  intros (? & ? & ? & ? & ? & ?) (Hc & Hl & _). apply conserves_counts; try done. intros t p. apply Hc.
Qed.

#[local] Instance pageSwap_conserves i j : Keeps conserves (pageSwap PAGESIZE i j).
Proof.
  intros s u s' [Ho [->|Hx]]%pageSwap_inv; [done|]. by eapply exchanged_conserves.
Qed.
#[local] Instance swapToMem_conserves i d : Keeps conserves (swapToMemFromDisk PAGESIZE stack i d).
Proof. intros s u s' [Ho Hx]%swapToMem_inv. by eapply exchanged_disk_conserves. Qed.

(** ** Page faults *)

(** The place a fault at [a] is about. *)
Definition fault_index (s : astate) (a : Z) : Z := Z.quot (swrap 32 (a - userSpace s)) PAGESIZE.

(** A fault exchanges that place with the one that has the page. *)
Lemma sigHandler_inv a s u s' :
  sigHandler PAGESIZE stack a s = Ok (u, s') ->
  let ix := fault_index s a in
  same_owner s s' /\
  (same_entries s s' \/ (exists j, exchanged ix j s s') \/ exists d, exchanged_disk ix d s s').
Proof.
  unfold sigHandler. intros H. skip H. first_step H as (t & t1 & [= <- <-] & H). cbv zeta.
  assert (forall x (t : astate), same_entries s t -> fault_index t x = fault_index s x) as Hix
    by (intros x t (_ & _ & _ & _ & _ & Eu & _); unfold fault_index; by rewrite Eu).
  set (ix := fault_index s a).
  assert (forall t t' : astate, same_entries s t -> same_owner t t' ->
    t' = t \/ (exists j, exchanged ix j t t') \/ (exists d, exchanged_disk ix d t t') ->
    forall t'', same_entries t' t'' -> same_owner s t'' /\
     (same_entries s t'' \/ (exists j, exchanged ix j s t'') \/ exists d, exchanged_disk ix d s t'')) as Hend.
  { intros t t' Hst Ho Hx t'' Ht. unfold same_owner, same_entries, exchanged, exchanged_disk in *.
    destruct_and!. split; [split_and!; congruence|].
    destruct Hx as [->|[(j & ei & ej & Gi & Gj & Hc & Hl & Ha & Hd)|(d & Hc & Hl & Ha)]].
    - left. split_and!; congruence.
    - right. left. exists j, ei, ej. replace (pages t'') with (pages t') by congruence.
      replace (pages s) with (pages t) by congruence. split_and!; try done. congruence.
    - right. right. exists d. replace (pages t'') with (pages t') by congruence.
      replace (pages s) with (pages t) by congruence. replace (diskPages t'') with (diskPages t') by congruence.
      replace (diskPages s) with (diskPages t) by congruence. done. }
  destruct (_ || _); [by skip H|]. destruct (_ && _); [by skip H|].
  change (Z.quot (swrap 32 (a - userSpace z)) PAGESIZE) with (fault_index z a) in H.
  rewrite Hix in H by done. fold ix in H.
  destruct (thr z) as [[id n]|]; [|done].
  destruct (find_index _ (pages z) 0) as [i|].
  - first_step H as ([] & t2 & E1 & H).
    assert (same_owner z t2 /\ (t2 = z \/ exchanged ix i z t2)) as [Ho Hx].
    { destruct (i =? ix); [injection E1 as <-; by split; [|left]|]. by apply pageSwap_inv in E1. }
    skip H. last H.
    eapply Hend; [done|exact Ho| |by etransitivity].
    destruct Hx as [?|?]; [by left|right; left; eauto].
  - destruct (find_index _ (diskPages z) 0) as [i|].
    + first_step H as ([] & t2 & [Ho Hx]%swapToMem_inv & H). skip H.
      last H.
      eapply Hend; [done|exact Ho| |by etransitivity]. right. right. eauto.
    + by skip H.
Qed.

#[local] Instance sigHandler_conserves a : Keeps conserves (sigHandler PAGESIZE stack a).
Proof.
  intros s u s' [Ho [Hs|[[j Hx]|[d Hx]]]]%sigHandler_inv.
  - by apply same_conserves.
  - by eapply exchanged_conserves.
  - by eapply exchanged_disk_conserves.
Qed.

#[local] Instance touch_conserves a : Keeps conserves (touch PAGESIZE stack a).
Proof.
  unfold touch. intros s u s' (t & t1 & [= <- <-] & H)%bind_ok_inv.
  destruct (a =? 0); [done|]. destruct (_ && _); [by injection H as _ <-|].
  destruct (_ && _); [|done]. cbv zeta in H.
  destruct (prot s _); [by injection H as _ <-|].
  first_step H as ([] & t & E & H). apply sigHandler_conserves in E.
  first_step H as (ok & t1 & [= _ <-] & H). destruct ok; [|done]. by injection H as _ <-.
Qed.

(** A fault at page [i] leaves a copy of its entry where it is. *)
Lemma touch_copy i k s u s' :
  memory s <= userSpace s ->
  touch PAGESIZE stack (userSpace s + PAGESIZE * i) s = Ok (u, s') ->
  k <> i -> aget (pages s) k = aget (pages s) i -> aget (pages s') k = aget (pages s) k.
Proof.
  intros Hreg H Hk Ek. unfold touch in H. first_step H as (t & t1 & [= <- <-] & H).
  destruct (_ =? 0); [done|]. destruct (_ && _); [by injection H as _ <-|].
  destruct ((userSpace s <=? _) && _) eqn:Er; [|done]. bprop. cbv zeta in H.
  destruct (prot s _); [by injection H as _ <-|].
  first_step H as ([] & t & E & H). first_step H as (ok & t1 & [= _ <-] & H).
  destruct ok; [|done]. injection H as _ <-.
  assert (fault_index s (userSpace s + PAGESIZE * i) = i) as Eix.
  { unfold fault_index. replace (userSpace s + PAGESIZE * i - userSpace s) with (i * PAGESIZE) by lia.
    unfold MAX_MEMORY in *. rewrite swrap_small by lia. by rewrite Z.quot_mul by lia. }
  apply sigHandler_inv in E. rewrite Eix in E. destruct E as [_ [(-> & _)|[[j Hx]|[d (_ & _ & Hx)]]]].
  - done.
  - destruct Hx as (ei & ej & Gi & Gj & _ & _ & Ha & _). rewrite Ha, (Zeqb_f k i) by done.
    destruct (Z.eqb_spec k j); [congruence|done].
  - by apply Hx.
Qed.

(** ** Room for a page *)

Lemma free_holds t p e : is_free_entry e = true -> holds_page t p e = false.
Proof. unfold is_free_entry, holds_page. intros E. bprop. by rewrite E. Qed.

Lemma freed_entry e : is_free_entry (setPageIsF e 1) = true.
Proof. unfold is_free_entry. destruct (setPageIsF_spec e 1 ltac:(lia)) as (_ & _ & ->). done. Qed.

(** The entry at [i] is free. *)
Definition free_at (s : astate) (i : Z) : Prop :=
  exists e, aget (pages s) i = Some e /\ is_free_entry e = true.

Lemma find_index_at P l i :
  find_index (fun _ e => P e) l 0 = Some i -> exists e, aget l i = Some e /\ P e = true.
Proof.
  intros (Hi & e & Ee & HP)%find_index_some. exists e. split; [|done].
  rewrite Z.sub_0_r in Ee. unfold aget. by rewrite Zltb_f by lia.
Qed.

(** The entry is copied to another place, then freed. *)
Lemma moveToFreeSpace_inv index s b s' :
  moveToFreeSpace PAGESIZE stack index s = Ok (b, s') ->
  conserves s s' /\ (b = true -> memory s <= userSpace s -> free_at s' index).
Proof.
  unfold moveToFreeSpace. intros (l & s1 & [= <- <-] & H)%bind_ok_inv.
  destruct (find_index _ (pages s) 0) as [i|] eqn:Ei; [|injection H as <- <-; by split].
  apply find_index_at in Ei as (e0 & E0 & F0).
  destruct (Z.eqb_spec i index) as [->|Hne]; [injection H as <- <-; split; [done|by exists e0]|].
  skip H. first_step H as (e & s1 & (-> & Ee)%get_page_inv & H).
  first_step H as ([] & s1 & (l1 & E1 & ->)%put_page_inv & H). skip H.
  first_step H as (v & s2 & [= <- <-] & H).
  first_step H as ([] & s3 & Et & H). skip H.
  first_step H as (e' & s4 & (-> & Ee')%get_page_inv & H).
  first_step H as ([] & s4 & (l2 & E2 & ->)%put_page_inv & H). skip H. injection H as <- <-.
  apply aset_inv in E1 as (e1 & G1 & L1 & C1 & A1), E2 as (e2 & G2 & L2 & C2 & A2).
  unfold same_entries in *. cbn [pages diskPages thr firstMalloc memory userSpace rootBlock timerSet set_pages] in *.
  destruct_and!. assert (pages z = pages s) as Pz by congruence. rewrite Pz in *.
  rewrite E0 in G1. injection G1 as <-. assert (pages z0 = l1) as Pz0 by congruence.
  assert (aget l1 index = Some e) as Hx by (rewrite A1, (Zeqb_f index i) by done; done).
  assert (pages z1 = pages s3) as Pz1 by congruence. rewrite Pz1 in *.
  assert (pages z2 = l2) as Pz2 by congruence.
  assert (memory s <= userSpace s -> e' = e) as He.
  { intros Hreg. assert (memory z0 <= userSpace z0) as Hr0 by congruence.
    assert (aget (pages s3) index = aget (pages z0) index) as Hk.
    { apply (touch_copy i index z0 tt s3 Hr0); [|congruence|].
      - replace (userSpace z0 + PAGESIZE * i) with (userSpace z0 + PAGESIZE * i) by lia. exact Et.
      - by rewrite Pz0, Hx, A1, Z.eqb_refl. }
    rewrite Pz0, Hx in Hk. congruence. }
  split; [|intros _ _; exists (setPageIsF e' 1); split; [by rewrite Pz2, A2, Z.eqb_refl|apply freed_entry]].
  intros id n (R1 & R2 & R3) Hid Hn. specialize (He R2). subst e'. rewrite Ee' in G2. injection G2 as <-.
  apply touch_conserves in Et.
  destruct (Et id n ltac:(split_and!; congruence) Hid Hn) as (n' & (Q1 & Q2 & Q3) & Hn' & Hsr & Hc).
  unfold same_region in Hsr. destruct_and!.
  exists n'. split; [split_and!; congruence|]. split; [done|].
  split; [unfold same_region; split_and!; congruence|]. intros Hmax t p. specialize (Hc Hmax t p).
  unfold copies in *. replace (diskPages z2) with (diskPages s3) by congruence.
  rewrite Pz2, C2, (free_holds t p _ (freed_entry e)).
  rewrite Pz0, C1, (free_holds t p e0 F0) in Hc.
  replace (diskPages z0) with (diskPages s) in Hc by congruence. cbn [one] in *. lia.
Qed.

Lemma moveToDiskSpace_inv index s b s' :
  moveToDiskSpace PAGESIZE stack index s = Ok (b, s') ->
  conserves s s' /\ (b = true -> free_at s' index).
Proof.
  unfold moveToDiskSpace. intros H. skip H. first_step H as (l & s1 & [= <- <-] & H).
  assert (pages z = pages s /\ diskPages z = diskPages s) as [Pz Dz] by (unfold same_entries in *; naive_solver).
  destruct (find_index _ (diskPages z) 0) as [i|] eqn:Ei.
  2: { skip H. injection H as <- <-. split; [|done]. apply same_conserves. by transitivity z. }
  apply find_index_at in Ei as (e0 & E0 & F0). rewrite Dz in E0.
  skip H. first_step H as (e & s1 & (-> & Ee)%get_page_inv & H).
  first_step H as ([] & s1 & (l1 & E1 & ->)%put_disk_inv & H). skip H. skip H.
  first_step H as (e' & s4 & (-> & Ee')%get_page_inv & H).
  first_step H as ([] & s4 & (l2 & E2 & ->)%put_page_inv & H). skip H. injection H as <- <-.
  apply aset_inv in E1 as (e1 & G1 & L1 & C1 & A1), E2 as (e2 & G2 & L2 & C2 & A2).
  unfold same_entries in *. cbn [pages diskPages thr firstMalloc memory userSpace rootBlock timerSet set_pages set_diskPages] in *.
  destruct_and!. assert (pages z2 = pages s) as P2 by congruence. rewrite P2 in *.
  assert (pages z0 = pages s) as P0 by congruence. rewrite P0 in *.
  assert (diskPages z0 = diskPages s) as D0 by congruence. rewrite D0 in *.
  assert (pages z3 = l2) as P3 by congruence.
  rewrite Ee in Ee'. injection Ee' as <-. rewrite Ee in G2. injection G2 as <-.
  rewrite E0 in G1. injection G1 as <-.
  split; [|intros _; exists (setPageIsF e 1); split; [by rewrite P3, A2, Z.eqb_refl|apply freed_entry]].
  apply conserves_counts; [congruence|congruence|unfold same_region; split_and!; congruence|]. intros t p. unfold copies.
  replace (diskPages z3) with l1 by congruence.
  rewrite P3, C2, C1, (free_holds t p _ (freed_entry e)), (free_holds t p e0 F0). cbn [one]. lia.
Qed.

Lemma makeRoom_inv index s b s' :
  makeRoom PAGESIZE stack index s = Ok (b, s') ->
  conserves s s' /\ (b = true -> memory s <= userSpace s -> free_at s' index).
Proof.
  unfold makeRoom. intros (ok & s1 & [Hc Hf]%moveToFreeSpace_inv & H)%bind_ok_inv. destruct ok.
  - by injection H as <- <-.
  - apply moveToDiskSpace_inv in H as [Hc' Hf']. split; [by transitivity s1|auto].
Qed.

(** ** A new page *)

Lemma touch_access k s u s' :
  prot s 0 = true -> 0 <= k < PAGESIZE -> touch PAGESIZE stack (userSpace s + k) s = Ok (u, s') -> s' = s.
Proof.
  intros Hp Hk. unfold touch. intros (t & t1 & [= <- <-] & H)%bind_ok_inv.
  destruct (_ =? 0); [done|]. destruct (_ && _); [by injection H|]. destruct (_ && _); [|done].
  replace (userSpace s + k - userSpace s) with k in H by lia.
  rewrite Z.div_small, Hp in H by done. by injection H.
Qed.

(** The header at the start of user space, whose page is open. *)
Lemma upd_open r f s u s' :
  userSpace s = r -> prot s 0 = true -> upd PAGESIZE stack r f s = Ok (u, s') ->
  same_entries s s' /\ prot s' 0 = true.
Proof.
  intros <- Hp H. unfold upd, ld, st in H.
  first_step H as (w & s1 & E & H). first_step E as ([] & s2 & E1 & E).
  rewrite <- (Z.add_0_r (userSpace s)) in E1 at 1.
  apply touch_access in E1 as ->; [|done|lia]. first_step E as ([] & s2 & E2 & E).
  apply touch_access in E2 as ->; [|done|lia]. injection E as _ <-.
  first_step H as ([] & s2 & E1 & H). rewrite <- (Z.add_0_r (userSpace s)) in E1 at 1.
  apply touch_access in E1 as ->; [|done|lia]. first_step H as ([] & s2 & E2 & H).
  apply touch_access in E2 as ->; [|done|lia]. injection H as _ <-. by split.
Qed.

(** The entry of a new page. *)
Lemma new_page_entry e id n t p :
  0 <= id < 256 -> 0 <= n < 2 ^ 16 ->
  holds_page t p (entry_of e id n) = (t =? id) && (n <=? p) && (p <? n + 1).
Proof.
  intros Hid Hn. unfold holds_page, owned_by, entry_of.
  destruct (setPagePgID_spec e n Hn) as (P1 & _ & _).
  destruct (setPageThID_spec (setPagePgID e n) id Hid) as (T1 & T2 & _).
  destruct (setPageIsF_spec (setPageThID (setPagePgID e n) id) 0 ltac:(lia)) as (F1 & F2 & F3).
  rewrite F1, F2, F3, T1, T2, P1. cbn [Z.eqb andb]. rewrite (Z.eqb_sym id).
  destruct (t =? id); cbn [andb]; [|done]. destruct (Z.eqb_spec n p).
  - by rewrite Zleb_t, Zltb_t by lia.
  - destruct (Z.leb_spec n p); cbn [andb]; [|done]. by rewrite Zltb_f by lia.
Qed.

Lemma initializePage_inv index s u s' :
  free_at s index -> initializePage PAGESIZE stack index s = Ok (u, s') -> conserves s s'.
Proof.
  intros (e0 & E0 & F0) H id n (R1 & R2 & R3) Hid Hn. unfold initializePage in H.
  first_step H as (pg & s1 & (-> & Ee)%get_page_inv & H). rewrite E0 in Ee. injection Ee as <-.
  first_step H as (m & s1 & E1 & H). unfold next_page_id in E1. rewrite R3 in E1. injection E1 as <- <-.
  first_step H as (id' & s2 & E2 & H). unfold current_thread, gets, mret in E2. cbn in E2. injection E2 as <- <-.
  cbv zeta in H. rewrite (wrap_small 32 id) in H by lia.
  set (e := setPageIsF _ 0) in H. first_step H as ([] & s2 & E & H).
  apply put_page_inv in H as (l & El & ->).
  assert (same_entries (set_thr (Some (id, n + 1)) s) s2) as Hs.
  { destruct (getPagePgID e =? 0); [|by injection E as <-].
    first_step E as ([] & t & [= <-] & E). first_step E as (r & t1 & [= <- <-] & E).
    first_step E as ([] & t1 & E1 & E). apply upd_open in E1 as [H1 P1]; [|done..].
    assert (userSpace t1 = userSpace s) as U1 by (unfold same_entries in H1; naive_solver).
    first_step E as ([] & t2 & E2 & E). apply upd_open in E2 as [H2 P2]; [|done..].
    assert (userSpace t2 = userSpace s) as U2 by (rewrite <- U1; unfold same_entries in H2; naive_solver).
    apply upd_open in E as [H3 _]; [|done..].
    transitivity t2; [|done]. transitivity t1; [|done]. exact H1. }
  unfold same_entries in Hs. cbn [pages diskPages thr firstMalloc memory userSpace rootBlock timerSet set_thr] in Hs.
  destruct_and!. apply aset_inv in El as (e1 & G1 & L1 & C1 & _).
  exists (n + 1). split; [split_and!; cbn; congruence|]. split; [lia|].
  split; [unfold same_region; cbn; split_and!; congruence|]. intros Hmax t p. replace (pages s2) with (pages s) in * by congruence.
  rewrite E0 in G1. injection G1 as <-. unfold copies. cbn [pages diskPages set_pages].
  rewrite C1, (free_holds t p e0 F0). replace (diskPages s2) with (diskPages s) by congruence.
  assert (e = entry_of e0 id n) as -> by (unfold e; rewrite wrap_small by lia; done).
  rewrite new_page_entry by lia. unfold one, handed_out. lia.
Qed.

(** ** The other operations, from the accesses upwards *)

#[local] Instance keeps_pair {A B C} (p : A * B) (f : A -> B -> M astate C) :
  (forall a b, Keeps conserves (f a b)) -> Keeps conserves (let '(a, b) := p in f a b).
Proof. by destruct p. Qed.

#[local] Hint Extern 4 (Keeps conserves (modify _)) =>
  apply keeps_modify; intros; apply same_conserves; split_and!; done : typeclass_instances.

(** The search must not look into the operations it has instances for. *)
#[local] Hint Opaque get_page get_disk put_page put_disk pause unpause pause_if_set
  unpause_if_set puts mprotect in_user read_page write_page read_swp write_swp pageSwap
  swapToMemFromDisk current_thread sigHandler touch ld st upd getNextBlock alignPages
  isEnoughPages next_page_id initializePage findPage moveToFreeSpace moveToDiskSpace makeRoom
  next_page gatherPages split_at find_fit walk_fuel merge_at freeAndMerge_loop freeAndMerge
  heap_allocate lib_allocate initializeRoot init_region extend_new extend_last extend_heap
  thread_search first_page_room thread_allocate myallocate inMemSpace lib_deallocate
  mydeallocate protectAllPages freePages : typeclass_instances.

#[local] Instance pause_if_kept : Keeps conserves (pause_if_set stack).
Proof. apply keeps_same, _. Qed.
#[local] Instance pause_kept : Keeps conserves (pause stack).
Proof. apply keeps_same, _. Qed.
#[local] Instance unpause_kept : Keeps conserves unpause.
Proof. apply keeps_same, _. Qed.
#[local] Instance unpause_if_kept : Keeps conserves unpause_if_set.
Proof. apply keeps_same, _. Qed.
#[local] Instance puts_kept m : Keeps conserves (puts m).
Proof. apply keeps_same, _. Qed.
#[local] Instance mprotect_kept i rw : Keeps conserves (mprotect i rw).
Proof. apply keeps_same, _. Qed.
#[local] Instance current_thread_kept : Keeps conserves current_thread.
Proof. apply keeps_same, _. Qed.
#[local] Instance get_page_kept i : Keeps conserves (get_page i).
Proof. apply keeps_same, _. Qed.
#[local] Instance get_disk_kept i : Keeps conserves (get_disk i).
Proof. apply keeps_same, _. Qed.

#[local] Instance ld_kept a : Keeps conserves (ld PAGESIZE stack a).
Proof. unfold ld. apply _. Qed.
#[local] Instance st_kept a v : Keeps conserves (st PAGESIZE stack a v).
Proof. unfold st. apply _. Qed.
#[local] Instance upd_kept a f : Keeps conserves (upd PAGESIZE stack a f).
Proof. unfold upd. apply _. Qed.
#[local] Instance getNextBlock_kept a : Keeps conserves (getNextBlock PAGESIZE stack a).
Proof. unfold getNextBlock. cbv zeta. apply _. Qed.
#[local] Instance alignPages_kept : Keeps conserves (alignPages PAGESIZE stack).
Proof. unfold alignPages. cbv zeta. apply _. Qed.
#[local] Instance isEnoughPages_kept n : Keeps conserves (isEnoughPages PAGESIZE n).
Proof. unfold isEnoughPages. cbv zeta. apply _. Qed.
#[local] Instance findPage_kept i : Keeps conserves (findPage i).
Proof. unfold findPage. apply _. Qed.
#[local] Instance next_page_kept : Keeps conserves next_page.
Proof. unfold next_page. apply _. Qed.

(** A new page is entered at once where room was made for it. *)
#[local] Instance room_kept {A} i (m : M astate A) (f : unit -> M astate A) :
  Keeps conserves m -> (forall u, Keeps conserves (f u)) ->
  Keeps conserves (makeRoom PAGESIZE stack i ≫= fun ok =>
    if negb ok then m else initializePage PAGESIZE stack i ≫= f) | 0.
Proof.
  intros Hm Hf s a s' (ok & s1 & [Hc Hfree]%makeRoom_inv & H)%bind_ok_inv.
  destruct ok; cbn [negb] in H; [|transitivity s1; [done|by eapply Hm]].
  apply bind_ok_inv in H as ([] & s2 & E & H). intros id n Hr Hid Hn.
  assert (conserves s s') as Hcs; [|by apply Hcs].
  transitivity s1; [done|]. transitivity s2; [|by eapply Hf].
  eapply initializePage_inv; [|exact E]. apply Hfree; [done|apply Hr].
Qed.

#[local] Instance gatherPages_kept n b : Keeps conserves (gatherPages PAGESIZE stack n b).
Proof. revert b. induction n as [|n IH]; intros b; cbn [gatherPages]; apply _. Qed.
#[local] Instance split_at_kept c n w : Keeps conserves (split_at PAGESIZE stack c n w).
Proof. unfold split_at. cbv zeta. apply _. Qed.
#[local] Instance find_fit_kept fuel n w c : Keeps conserves (find_fit PAGESIZE stack fuel n w c).
Proof. revert c. induction fuel as [|fuel IH]; intros c; cbn [find_fit]; cbv zeta; apply _. Qed.
#[local] Instance merge_at_kept b nb : Keeps conserves (merge_at PAGESIZE stack b nb).
Proof. unfold merge_at. apply _. Qed.
#[local] Instance merge_loop_kept fuel t p c :
  Keeps conserves (freeAndMerge_loop PAGESIZE stack fuel t p c).
Proof. revert p c. induction fuel as [|fuel IH]; intros p c; cbn [freeAndMerge_loop]; apply _. Qed.
#[local] Instance freeAndMerge_kept t p c : Keeps conserves (freeAndMerge PAGESIZE stack t p c).
Proof. unfold freeAndMerge. cbv zeta. apply _. Qed.
#[local] Instance heap_allocate_kept n r : Keeps conserves (heap_allocate PAGESIZE stack n r).
Proof. unfold heap_allocate. cbv zeta. apply _. Qed.
#[local] Instance lib_allocate_kept n : Keeps conserves (lib_allocate PAGESIZE stack n).
Proof. unfold lib_allocate. apply _. Qed.
#[local] Instance extend_new_kept n w p k : Keeps conserves (extend_new PAGESIZE stack n w p k).
Proof. unfold extend_new. cbv zeta. apply _. Qed.
#[local] Instance extend_last_kept n w p k : Keeps conserves (extend_last PAGESIZE stack n w p k).
Proof. unfold extend_last. apply _. Qed.
#[local] Instance extend_heap_kept n w p : Keeps conserves (extend_heap PAGESIZE stack n w p).
Proof. unfold extend_heap. cbv zeta. apply _. Qed.
#[local] Instance thread_search_kept n : Keeps conserves (thread_search PAGESIZE stack n).
Proof. unfold thread_search. cbv zeta. apply _. Qed.
#[local] Instance first_page_room_kept t : Keeps conserves (first_page_room PAGESIZE stack t).
Proof. unfold first_page_room. apply _. Qed.
#[local] Instance thread_allocate_kept n : Keeps conserves (thread_allocate PAGESIZE stack n).
Proof. unfold thread_allocate. apply _. Qed.

(** The region exists already. *)
#[local] Instance first_kept {A} r (f : unit -> M astate A) :
  (forall u, Keeps conserves (f u)) ->
  Keeps conserves (gets firstMalloc ≫= fun first => when first (init_region PAGESIZE stack r) ≫= f) | 0.
Proof.
  intros Hf s a s' (b & s1 & [= <- <-] & H)%bind_ok_inv id n Hr Hid Hn. pose proof Hr as (E & _).
  rewrite E in H. apply bind_ok_inv in H as ([] & s1 & [= <-] & H). eapply Hf; eauto.
Qed.

#[local] Instance myallocate_kept r n c : Keeps conserves (myallocate PAGESIZE stack r n c).
Proof. unfold myallocate. destruct c; apply _. Qed.
#[local] Instance inMemSpace_kept p : Keeps conserves (inMemSpace p).
Proof. unfold inMemSpace. apply _. Qed.
#[local] Instance lib_deallocate_kept p : Keeps conserves (lib_deallocate PAGESIZE stack p).
Proof. unfold lib_deallocate. cbv zeta. apply _. Qed.
#[local] Instance mydeallocate_kept p c : Keeps conserves (mydeallocate PAGESIZE stack p c).
Proof. unfold mydeallocate. destruct c; cbv zeta; apply _. Qed.
#[local] Instance protectAllPages_kept t : Keeps conserves (protectAllPages PAGESIZE t).
Proof. unfold protectAllPages. apply _. Qed.

(** The region of a request is the one before it. *)
Lemma request_region region size caller s p s' id n :
  firstMalloc s = false -> memory s <= userSpace s -> thr s = Some (id, n) -> 0 <= id < 256 -> 0 <= n ->
  myallocate PAGESIZE stack region size caller s = Ok (p, s') ->
  same_region s s' /\ firstMalloc s' = false.
Proof.
  intros Hf Hm Ht Hid Hn E.
  destruct (myallocate_kept region size caller s p s' E id n) as (n' & (Hf' & _) & _ & Hr & _);
    [by split_and!|done..].
Qed.

(** ** Runs of a thread *)

(** What the running thread, the library on its behalf and the hardware ask of
    the allocator. *)
Inductive alloc_op :=
  | Malloc (region size : Z) (caller : request)
  | Free (ptr : Z) (caller : request)
  | Load (a : Z)
  | Store (a v : Z)
  | PageFault (a : Z)
  | Protect (id : Z).

Definition perform_op (o : alloc_op) : M astate unit :=
  match o with
  | Malloc region size caller => _ ← myallocate PAGESIZE stack region size caller; mret tt
  | Free ptr caller => mydeallocate PAGESIZE stack ptr caller
  | Load a => _ ← ld PAGESIZE stack a; mret tt
  | Store a v => st PAGESIZE stack a v
  | PageFault a => sigHandler PAGESIZE stack a
  | Protect id => protectAllPages PAGESIZE id
  end.

Fixpoint perform_all (l : list alloc_op) : M astate unit :=
  match l with
  | [] => mret tt
  | o :: l => _ ← perform_op o; perform_all l
  end.

#[local] Instance perform_op_kept o : Keeps conserves (perform_op o).
Proof. destruct o; cbn [perform_op]; apply _. Qed.

#[local] Instance perform_all_kept l : Keeps conserves (perform_all l).
Proof. induction l as [|o l IH]; cbn [perform_all]; apply _. Qed.

(** C19: no page is lost or duplicated.  After any run of requests, releases,
    accesses and page faults of a thread, whatever heaps and tables it starts
    from, every page of every thread has as many entries in the page table and
    the swap table together as before; each page the run handed to the thread,
    and only these, has one more. *)
Theorem pages_conserved l s s' id n u :
  firstMalloc s = false -> memory s <= userSpace s -> thr s = Some (id, n) ->
  0 <= id < 256 -> 0 <= n -> perform_all l s = Ok (u, s') ->
  exists n', thr s' = Some (id, n') /\ n <= n' /\
    (n' <= 2 ^ 16 -> forall t pgid,
       copies s' t pgid
       = copies s t pgid + (if (t =? id) && (n <=? pgid) && (pgid <? n') then 1 else 0)).
Proof.
  intros Hf Hm Ht Hid Hn E.
  destruct (perform_all_kept l s u s' E id n) as (n' & (_ & _ & Ht') & Hn' & _ & H); [by split_and!|done..|].
  by exists n'.
Qed.
End kept.

(** Thread 2 gets two more pages: one page of thread 3 goes to the last free page
    of memory, another to the swap file, and each still has one entry. *)
Lemma pages_conserved_witness :
  exists s' u, perform_all demo_size no_timer [Malloc 0 80000 THREADREQ; Store (demo_user + 40000) 7] packed
      = Ok (u, s') /\
    thr s' = Some (2, 3) /\ copies s' 3 0 = 1 /\ copies s' 3 1 = 1 /\ copies s' 2 1 = 1 /\ copies s' 2 3 = 0.
Proof.
  set (l := [Malloc 0 80000 THREADREQ; Store (demo_user + 40000) 7]).
  assert (match perform_all demo_size no_timer l packed with Ok (_, s') => thr s' | _ => None end = Some (2, 3))
    as Ht by (vm_compute; reflexivity).
  destruct (perform_all demo_size no_timer l packed) as [[u s']|e|c] eqn:E; [|discriminate Ht..].
  destruct (pages_conserved demo_size no_timer ltac:(unfold demo_size; lia) l packed s' 2 1 u eq_refl
    ltac:(vm_compute; discriminate) eq_refl ltac:(lia) ltac:(lia) E) as (n' & Ht' & Hn' & Hc).
  rewrite Ht in Ht'. injection Ht' as <-. exists s', u. split; [done|]. split; [done|].
  rewrite !Hc by lia. repeat split; vm_compute; reflexivity.
Defined.
