(* ===== verification/SystemInv.v ===== *)
(** * The invariant of the running library

    The scheduler, its threads and the library heap together: [sys] is what
    holds between two calls of the library.  The nodes of the scheduler live in
    blocks of the library heap, so that an allocation never returns the address
    of a node in use. *)

From Stdlib Require Import Floats.SpecFloat.
From S2P Require Import Prelude Chain CMem SegHeap FirstFit BlockWord Timer MyAlloc WordHeap LibHeapSpec Queue Sched QueueSpec PageSpec SchedSpec SchedStep ScheduleSpec MaintSpec Frame.

(** What [createNode] writes. *)
Definition new_node (x ctx clock : Z) : node := Node x ctx 0 clock (S754_zero false) NEUTRAL 0 0.

Section system.
Context (PAGESIZE : Z) (stack : itimerval).
Notation lib_heap := (lib_heap PAGESIZE).

(** The allocator, once it serves the library. *)
Record serves (a : astate) (l : list seg) : Prop := Serves {
  serves_heap : lib_heap a l;
  serves_first : firstMalloc a = false;
  serves_timer : timerSet a = true
}.

(** Every node is the payload of a live block. *)
Definition nodes_live (ns : gmap Z node) (base : Z) (l : list seg) : Prop :=
  forall y, is_Some (ns !! y) -> exists x, live 4 base l (y - 4) x.

Record sys (s : sched) (v : view) (l : list seg) : Prop := Sys {
  sys_abs : abs s v;
  sys_wf : wf v;
  sys_ready : ready PAGESIZE s;
  sys_cycles : 0 <= cycles s <= 100;
  sys_promotion k : v_lists v (PProm k) = [];
  sys_listed p y : y ∈ v_lists v p -> is_Some (v_data v !! y);
  sys_yield k : no_yield (v_data v) (v_lists v (PRun k));
  sys_ids y i : vtid v y = Some i -> i < threadNum s;
  sys_serves : serves (al s) l;
  sys_nodes : nodes_live (nodes s) (memory (al s)) l
}.

Lemma lib_heap_same a b l : heap_same a b -> lib_heap a l -> lib_heap b l.
Proof.
  intros (Ea & Em & Eu & Er & _) (H1 & H2 & H3 & H4 & H5 & H6).
  unfold LibHeapSpec.lib_heap. rewrite Ea, Em, Eu, Er. done.
Qed.

Lemma serves_same a b l : heap_same a b -> serves a l -> serves b l.
Proof.
  intros Hs [H1 H2 H3]. split; [by apply (lib_heap_same a)|..];
    destruct Hs as (_ & _ & _ & _ & Ef & Et); congruence.
Qed.

(** Another state of the allocator that serves the library. *)
Lemma sys_set_al s v l a l' :
  sys s v l -> serves a l' -> length (pages a) = length (pages (al s)) ->
  nodes_live (nodes s) (memory a) l' -> sys (set_al a s) v l'.
Proof.
  intros [H1 H2 [Hst Htab Hpg] H4 H5 H6 H7 H8 H9 H10] Hs Hp Hn.
  split; try done; [by apply abs_set_al|].
  split; [done| |done]. unfold PageSpec.table_ok in *. cbn. by rewrite Hp.
Qed.

(** ** Requests of the library *)

(** The bytes of the library pages determine the segments. *)
Lemma lib_heap_unique a l1 l2 :
  1024 <= PAGESIZE <= 32768 -> lib_heap a l1 -> lib_heap a l2 -> l1 = l2.
Proof.
  intros Hps H1 H2. destruct (lib_heap_sizes PAGESIZE Hps _ _ H1) as (Hs1 & Ht1 & _).
  destruct (lib_heap_sizes PAGESIZE Hps _ _ H2) as (Hs2 & Ht2 & _).
  apply (chain_unique hdr4_pos (amem a) (memory a)); [done|done|lia|apply H1|apply H2].
Qed.

Context (Hps : 1024 <= PAGESIZE <= 32768).

(** The state after a request of the scheduler: only the allocator's state
    changes. *)
Definition answered (T : option (Z * Z)) (m : mem) (msgs : list alloc_msg) (s : sched) : sched :=
  set_al (after (set_thr T (al s)) m msgs) s.

Lemma answered_abs T m msgs s v : abs s v -> abs (answered T m msgs s) v.
Proof. apply abs_set_al. Qed.

Lemma answered_ready T m msgs s : ready PAGESIZE s -> ready PAGESIZE (answered T m msgs s).
Proof. by intros [H1 H2 H3]. Qed.

Lemma current_record s v :
  abs s v -> nodes_ok v ->
  exists n t, nodes s !! current s = Some n /\ thrs s !! threadID n = Some t.
Proof.
  intros Ha Hok. rewrite (abs_current _ _ Ha). destruct (wf_current _ Hok) as [_ [d Ed]].
  destruct (abs_node s v _ d Ha Ed) as (n & En & _).
  destruct (wf_tid _ Hok _ d Ed) as [i Ei].
  destruct (vtid_some s v _ i n Ha Ei En) as (t & Et & _). eauto.
Qed.

Lemma request_spec s v l size region :
  abs s v -> nodes_ok v -> started s = true -> serves (al s) l -> 0 <= size ->
  exists T,
  match seg_alloc 4 size (memory (al s)) l with
  | Some (p, l') => exists m,
      alloc_call (myallocate PAGESIZE stack region size LIBRARYREQ) s
        = Ok (p + 4, answered T m [] s) /\
      serves (al (answered T m [] s)) l'
  | None =>
      alloc_call (myallocate PAGESIZE stack region size LIBRARYREQ) s
        = Ok (0, answered T (amem (al s)) [NotEnoughSpace] s)
  end.
Proof.
  intros Ha Hok Hst [Hh Hf Ht] Hsz.
  destruct (current_record s v Ha Hok) as (n & t & En & Et).
  set (T := Some (tid t, pageNum t)). exists T. set (a := set_thr T (al s)).
  assert (timer_ok a) as Hto by done.
  pose proof (heap_allocate_spec PAGESIZE stack Hps a l size Hh Hto Hsz) as H.
  rewrite <- (myallocate_lib PAGESIZE stack a region size Hto Hf) in H.
  change (memory a) with (memory (al s)) in H.
  destruct (seg_alloc 4 size (memory (al s)) l) as [[p l']|] eqn:E.
  - destruct H as (m & Em & Hh' & _). exists m.
    split; [by apply (alloc_call_keep _ s n t)|by split].
  - by apply (alloc_call_keep _ s n t).
Qed.

(** A new block is none of the live ones, and no allocation moves those. *)
Lemma request_nodes ns base l size p l' :
  0 <= size -> sizes_ok l -> seg_alloc 4 size base l = Some (p, l') ->
  nodes_live ns base l -> ns !! (p + 4) = None /\ nodes_live ns base l' /\ base <= p.
Proof.
  intros Hsz Hs E Hn. split; [|split].
  - destruct (ns !! (p + 4)) as [n|] eqn:En; [|done]. destruct (Hn (p + 4)) as [x Hx]; [eauto|].
    rewrite Z.add_simpl_r in Hx.
    by destruct (seg_alloc_fresh 4 hdr4_pos _ _ _ _ _ _ _ Hsz Hs E Hx).
  - intros y Hy. destruct (Hn y Hy) as [x Hx]. exists x.
    apply (seg_alloc_live 4 _ _ _ _ _ E). by left.
  - by apply (seg_alloc_bounds 4 hdr4_pos _ _ _ _ _ Hsz Hs E).
Qed.

(** The release of a block no node lives in. *)
Lemma release_spec s v l q x :
  abs s v -> nodes_ok v -> started s = true -> serves (al s) l ->
  live 4 (memory (al s)) l q x -> nodes_live (nodes s) (memory (al s)) l ->
  nodes s !! (q + 4) = None ->
  exists T m l', alloc_call (mydeallocate PAGESIZE stack (q + 4) LIBRARYREQ) s
      = Ok (tt, answered T m [] s) /\
    serves (al (answered T m [] s)) l' /\ nodes_live (nodes s) (memory (al s)) l'.
Proof.
  intros Ha Hok Hst [Hh Hf Ht] Hl Hn Hq.
  destruct (current_record s v Ha Hok) as (n & t & En & Et).
  set (T := Some (tid t, pageNum t)). set (a := set_thr T (al s)).
  destruct (lib_deallocate_spec PAGESIZE stack Hps a l q x Hh ltac:(done) Hl)
    as (m & l' & E & Ef & Hh' & _).
  destruct (lib_heap_sizes PAGESIZE Hps _ _ Hh) as (Hs & _).
  destruct (seg_free_spec 4 hdr4_pos _ _ _ _ Hs Ef) as (_ & _ & _ & Hlv).
  exists T, m, l'. split; [by apply (alloc_call_keep _ s n t)|]. split; [by split|].
  intros y Hy. destruct (Hn y Hy) as [z Hz]. exists z. apply Hlv. split; [done|].
  intros <-. rewrite Z.sub_add in Hq. destruct Hy. congruence.
Qed.
End system.

Arguments serves_heap {PAGESIZE a l}.
Arguments serves_first {PAGESIZE a l}.
Arguments serves_timer {PAGESIZE a l}.
Arguments sys_abs {PAGESIZE s v l}.
Arguments sys_wf {PAGESIZE s v l}.
Arguments sys_ready {PAGESIZE s v l}.
Arguments sys_cycles {PAGESIZE s v l}.
Arguments sys_promotion {PAGESIZE s v l}.
Arguments sys_listed {PAGESIZE s v l}.
Arguments sys_yield {PAGESIZE s v l}.
Arguments sys_ids {PAGESIZE s v l}.
Arguments sys_serves {PAGESIZE s v l}.
Arguments sys_nodes {PAGESIZE s v l}.
