(* ===== verification/InitSpec.v ===== *)
(** * The start of the library

    The first [my_pthread_create] of a program calls [initialize], whose first
    request builds the heap.  Afterwards the invariant [sys] holds: the main
    thread runs, and all lists are empty. *)

From Stdlib Require Import Floats.SpecFloat.
From S2P Require Import Prelude Chain CMem SegHeap FirstFit BlockWord Timer MyAlloc WordHeap LibHeapSpec Queue Sched QueueSpec PageSpec SchedSpec SchedStep ScheduleSpec MaintSpec Frame SystemInv.

(** First fit at the free end of a heap. *)
Lemma seg_alloc_end k a used n :
  0 <= k -> k + 4 <= n -> Forall (fun x => seg_isfree x = false) used ->
  seg_alloc 4 k a (used ++ [Seg n true])
    = Some (a + total 4 used, used ++ [Seg k false; Seg (n - (k + 4)) true]).
Proof.
  intros Hk Hn Hu. revert a. induction Hu as [|x used Hx _ IH]; intros a; cbn [app seg_alloc].
  - cbn [seg_isfree seg_size negb orb total]. btests. by rewrite Z.add_0_r.
  - rewrite Hx. cbn [negb orb]. rewrite IH. cbn. f_equal. f_equal. lia.
Qed.

Section init.
Context (PAGESIZE : Z) (stack : itimerval) (sizeof_ucontext : Z).
Context (Hps : 1024 <= PAGESIZE <= 32768) (Huc : 0 <= sizeof_ucontext <= 40000).

(** A heap whose free block at the end has [n] bytes, or at least [n]. *)
Definition pool_of (a : astate) (used : list seg) (n : Z) : Prop :=
  lib_heap PAGESIZE a (used ++ [Seg n true]) /\ Forall (fun x => seg_isfree x = false) used /\
  firstMalloc a = false /\ timerSet a = false /\
  Z.of_nat (length (pages a)) = NPAGES PAGESIZE.
Definition pool (a : astate) (n : Z) : Prop := exists used N, pool_of a used N /\ n <= N.

Lemma pool_le a n n' : n' <= n -> pool a n -> pool a n'.
Proof. intros Hn (used & N & Hp & HN). exists used, N. split; [done|lia]. Qed.

Lemma need_end s region used n k :
  pool_of (al s) used n -> nodes s !! current s = None -> 0 <= k -> k + 4 <= n ->
  exists a, need PAGESIZE stack region k s = Ok (memory (al s) + total 4 used + 4, set_al a s) /\
    pool_of a (used ++ [Seg k false]) (n - (k + 4)) /\ memory a = memory (al s).
Proof.
  intros (Hh & Hu & Hf & Ht & Hpg) Hc Hk Hn. set (b := set_thr (running s) (al s)).
  pose proof (seg_alloc_end k (memory b) used n Hk Hn Hu) as E.
  destruct (lib_allocate_some PAGESIZE stack Hps b _ _ _ _ Hh Ht Hk E) as (m & Em & Hh' & _).
  rewrite <- (myallocate_lib PAGESIZE stack b region k ltac:(by unfold timer_ok; cbn; rewrite Ht) Hf) in Em.
  exists (set_amem m b). split; [|split; [split|done]].
  - unfold need.
    assert (alloc_call (myallocate PAGESIZE stack region k LIBRARYREQ) s
      = Ok (memory (al s) + total 4 used + 4, set_al (set_amem m b) s)) as Ea.
    { unfold alloc_call. fold b. rewrite Em. unfold store_pageNum. cbn. rewrite Hc.
      by destruct (running s) as [[??]|]. }
    mstep by exact Ea.
    assert (0 < memory (al s)) by apply Hh.
    destruct (lib_heap_sizes PAGESIZE Hps _ _ Hh) as (Hs & _).
    apply Forall_app in Hs as [Hs _]. pose proof (total_nonneg 4 hdr4_pos used Hs).
    by rewrite (Zeqb_f _ 0) by lia.
  - rewrite <- app_assoc. exact Hh'.
  - split; [|done]. apply Forall_app. split; [done|by repeat constructor].
Qed.

Lemma need_pool s region n k :
  pool (al s) n -> nodes s !! current s = None -> 0 <= k -> k + 4 <= n ->
  exists p a, need PAGESIZE stack region k s = Ok (p, set_al a s) /\ pool a (n - (k + 4)) /\
    0 < p.
Proof.
  intros (used & N & Hu & HN) Hc Hk Hn.
  destruct (need_end s region used N k Hu Hc Hk ltac:(lia)) as (a & E & Hp & _).
  do 2 eexists. split; [exact E|]. split; [do 2 eexists; split; [exact Hp|lia]|].
  destruct Hu as (Hh & _). destruct (lib_heap_sizes PAGESIZE Hps _ _ Hh) as (Hs & _).
  apply Forall_app in Hs as [Hs _]. pose proof (total_nonneg 4 hdr4_pos used Hs).
  assert (0 < memory (al s)) by apply Hh. lia.
Qed.

(** Before the library starts: nothing was allocated. *)
Record unstarted (s : sched) : Prop := Unstarted {
  un_started : started s = false;
  un_nodes : nodes s = ∅;
  un_first : firstMalloc (al s) = true;
  un_timer : timerSet (al s) = false
}.

Notation left_over := (left_over PAGESIZE).

Lemma left_over_room : 100000 <= left_over.
Proof.
  unfold LibHeapSpec.left_over, LIBPAGES, NDISK, NPAGES, DISK_MEMORY, MAX_MEMORY, LIBPAGES.
  assert (16777216 / PAGESIZE <= 16384) by (apply Z.div_le_upper_bound; lia).
  assert (8388608 / PAGESIZE <= 8192) by (apply Z.div_le_upper_bound; lia).
  lia.
Qed.

(** The request for the scheduler's record builds the heap. *)
Lemma need_first s region :
  unstarted s -> 0 < region ->
  exists p a, need PAGESIZE stack region sizeof_scheduler s = Ok (p, set_al a s) /\
    pool a (left_over - 140).
Proof.
  intros [Hst Hn Hf Ht] H0. pose proof left_over_room. pose proof (page_counts PAGESIZE Hps) as (Hd & Hnp & _).
  set (b := set_thr (running s) (al s)).
  destruct (first_request PAGESIZE stack Hps b sizeof_scheduler region Hf Ht H0 ltac:(done))
    as (m & E & Hh); [unfold sizeof_scheduler; lia|].
  do 2 eexists. split.
  - unfold need.
    assert (alloc_call (myallocate PAGESIZE stack region sizeof_scheduler LIBRARYREQ) s
      = Ok (region + 4 * NDISK PAGESIZE + 4 + 4 * NPAGES PAGESIZE + 4 + 4,
            set_al (built PAGESIZE m region b) s)) as Ea.
    { unfold alloc_call. fold b. rewrite E. unfold store_pageNum, b. cbn.
      unfold running. by rewrite Hst. }
    mstep by exact Ea.
    by rewrite (Zeqb_f _ 0) by lia.
  - exists [Seg (4 * NDISK PAGESIZE) false; Seg (4 * NPAGES PAGESIZE) false; Seg sizeof_scheduler false].
    eexists. split; [split; [exact Hh|split; [by repeat constructor|split; [done|split; [done|]]]]|unfold sizeof_scheduler; lia].
    cbn. rewrite length_replicate. lia.
Qed.

(** Empty queues for [n] levels from [i] on, those below [top]. *)
Fixpoint levels (n : nat) (i top : Z) : list queue :=
  match n with
  | O => []
  | S n => (if i <? top then [Queue 0 0 i] else []) ++ levels n (i + 1) top
  end.

Definition with_queues (a : astate) (Q P : list queue) (s : sched) : sched :=
  set_al a (set_promotionQ (promotionQ s ++ P) (set_runQ (runQ s ++ Q) s)).

Lemma with_queues_nil s : with_queues (al s) [] [] s = s.
Proof. unfold with_queues, set_al, set_promotionQ, set_runQ. destruct s; cbn. by rewrite !app_nil_r. Qed.

Lemma with_queues_app a b Q Q' P P' s :
  with_queues b Q' P' (with_queues a Q P s) = with_queues b (Q ++ Q') (P ++ P') s.
Proof. unfold with_queues, set_al, set_promotionQ, set_runQ; cbn. by rewrite !app_assoc. Qed.

Lemma alloc_queues_spec n i s m region :
  0 <= i -> i + Z.of_nat n <= 5 -> nodes s !! current s = None ->
  pool (al s) m -> 56 * Z.of_nat n <= m ->
  exists a, alloc_queues PAGESIZE stack n i region s
      = Ok (tt, with_queues a (levels n i 5) (levels n i 4) s) /\
    pool a (m - 56 * Z.of_nat n).
Proof.
  revert i s m. induction n as [|n IH]; intros i s m Hi Hin Hc Hp Hm; cbn [alloc_queues levels].
  { exists (al s). rewrite with_queues_nil. split; [done|].
    apply (pool_le _ m); [lia|done]. }
  unfold sizeof_queue, RUN_QUEUE_SIZE. rewrite (Zltb_t i 5) by lia.
  destruct (need_pool s region m 24 Hp Hc) as (p1 & a1 & E1 & Hp1 & _); [lia..|].
  mstep by exact E1. mstep by done.
  set (s1 := set_runQ _ (set_al a1 s)).
  assert (exists a2, (if i <? 5 - 1 then _ ← need PAGESIZE stack region 24;
        modify (fun s => set_promotionQ (promotionQ s ++ [Queue 0 0 i]) s) else mret tt) s1
      = Ok (tt, with_queues a2 [Queue 0 0 i] (if i <? 4 then [Queue 0 0 i] else []) s) /\
      pool a2 (m - 56)) as (a2 & E2 & Hp2).
  { destruct (i <? 4) eqn:E4; bprop.
    - destruct (need_pool s1 region (m - 28) 24 Hp1 Hc) as (p2 & a2 & E2 & Hp2 & _); [lia..|].
      exists a2. rewrite (Zltb_t i) by lia. split; [by mstep by exact E2|].
      apply (pool_le _ (m - 28 - 28)); [lia|done].
    - exists a1. rewrite (Zltb_f i) by lia. split.
      + unfold with_queues, s1, set_al, set_runQ, set_promotionQ. cbn. by rewrite app_nil_r.
      + apply (pool_le _ (m - 28)); [lia|done]. }
  mstep by exact E2.
  destruct (IH (i + 1) (with_queues a2 [Queue 0 0 i] (if i <? 4 then [Queue 0 0 i] else []) s) (m - 56))
    as (a3 & E3 & Hp3); [lia|lia|done|done|lia|].
  exists a3. rewrite E3, with_queues_app. split; [done|].
  apply (pool_le _ (m - 56 - 56 * Z.of_nat n)); [lia|done].
Qed.

(** What [initialize] builds. *)
Record initialized (clock : Z) (s s' : sched) (x y : Z) : Prop := Initialized {
  in_started : started s' = true;
  in_nodes : exists ctx, nodes s' = {[y := new_node x ctx clock]};
  in_thrs : exists pg, thrs s' = <[x := Thread 1 0 0 pg 0]> (thrs s);
  in_queues : runQ s' = levels 5 0 5 /\ promotionQ s' = levels 5 0 4;
  in_lists : joinList s' = 0 /\ threads s' = 0 /\ current s' = y;
  in_numbers : threadNum s' = 2 /\ cycles s' = 0;
  in_timer : it_value_usec (itimer (tim (al s'))) = QUANTA_TIME * 1000;
  in_nonnull : x <> 0 /\ y <> 0;
  in_pages : Z.of_nat (length (pages (al s'))) = NPAGES PAGESIZE;
  in_heap : exists used n, serves PAGESIZE (al s') (used ++ [Seg n true]) /\
    Forall (fun z => seg_isfree z = false) used /\ left_over - (18800 + 2 * sizeof_ucontext) <= n /\
    nodes_live (nodes s') (memory (al s')) (used ++ [Seg n true])
}.

(** A request, then the rest. *)
Lemma grab {B} s region n k (f : Z -> M sched B) Q :
  pool (al s) n -> nodes s = ∅ -> 0 <= k -> k + 4 <= n ->
  (forall p a, p <> 0 -> pool a (n - (k + 4)) -> returns (f p) (set_al a s) Q) ->
  returns (need PAGESIZE stack region k ≫= f) s Q.
Proof.
  intros Hp Hn Hk Hkn Hf.
  destruct (need_pool s region n k Hp) as (p & a & E & Hp' & H0); [by rewrite Hn|lia|lia|].
  eapply returns_step; [exact E|]. apply Hf; [lia|done].
Qed.

Lemma run_modify {B} s f (g : unit -> M sched B) Q :
  returns (g tt) (f s) Q -> returns (modify f ≫= g) s Q.
Proof. by apply returns_step. Qed.

Ltac next_block Hp Hn s :=
  eapply grab; [exact Hp|exact Hn|first [done|lia]|
    unfold sizeof_itimerval, sizeof_list, sizeof_thread, STACK_SIZE; lia|];
  clear Hp; intros ? ? ? Hp; try apply run_modify;
  lazymatch goal with |- returns _ ?t _ => set (s := t) end.

Lemma initialize_run s region clock :
  unstarted s -> 0 < region ->
  returns (initialize PAGESIZE stack sizeof_ucontext region clock) s
    (fun _ s' => exists x y, initialized clock s s' x y).
Proof.
  intros Hun H0. pose proof left_over_room as Hroom. pose proof (un_nodes _ Hun) as Hn.
  destruct (need_first s region Hun H0) as (p0 & a0 & E0 & Hp).
  unfold initialize. eapply returns_step; [exact E0|]. apply run_modify.
  set (s1 := Sched true _ _ _ _ _ _ _ _ _ _). change (pool (al s1) (left_over - 140)) in Hp.
  destruct (alloc_queues_spec 5 0 s1 (left_over - 140) region) as (a1 & E1 & Hp1);
    [lia|lia|cbn; by rewrite Hn|exact Hp|lia|]. clear Hp. rename Hp1 into Hp.
  eapply returns_step; [exact E1|]. set (s2 := with_queues a1 _ _ s1).
  next_block Hp Hn s3. next_block Hp Hn s4. next_block Hp Hn s5. apply run_modify.
  next_block Hp Hn s6. next_block Hp Hn s7. next_block Hp Hn s8. next_block Hp Hn s9.
  destruct Hp as (used & N & Hu & HN).
  assert (left_over - (18800 + 2 * sizeof_ucontext) <= N - (sizeof_node + 4)) as HN'
    by (unfold sizeof_itimerval, sizeof_list, sizeof_thread, sizeof_node, STACK_SIZE in *; lia).
  assert (sizeof_node + 4 <= N) as Hfit by (unfold sizeof_node in *; lia).
  destruct (need_end s9 0 used N sizeof_node Hu) as (a8 & E8 & (Hh & Hu' & Hf & _ & Hpg) & Em);
    [change (nodes s9) with (nodes s); by rewrite Hn|done|done|].
  set (y := memory (al s9) + total 4 used + 4) in *.
  eapply returns_step; [unfold createNode, lib_need; mstep by exact E8; done|].
  apply run_modify. eexists _, _. split; [reflexivity|].
  destruct (lib_heap_sizes PAGESIZE Hps _ _ (proj1 Hu)) as (Hsz & _).
  destruct (lib_heap_sizes PAGESIZE Hps _ _ Hh) as (Hsz' & _).
  apply Forall_app in Hsz as [Hsz _]. pose proof (total_nonneg 4 hdr4_pos used Hsz) as Htot.
  assert (0 < memory (al s9)) as Hm0 by apply Hu.
  lazymatch goal with H : ?x <> 0 |- _ => exists x, y; rename H into Hx end.
  split; try done.
  - eexists. cbn. by rewrite Hn.
  - eexists. done.
  - split; [done|lia].
  - exists (used ++ [Seg sizeof_node false]), (N - (sizeof_node + 4)). split_and!.
    + split; [exact Hh|done|done].
    + exact Hu'.
    + exact HN'.
    + cbn. rewrite Hn, Em. intros z [d Ez]. apply lookup_insert_Some in Ez as [[<- _]|[_ Ez]]; [|done].
      exists (Seg sizeof_node false). rewrite <- app_assoc. apply (seg_alloc_live 4 sizeof_node _ _ _ _
        (seg_alloc_end sizeof_node _ used N ltac:(done) Hfit (proj1 (proj2 Hu)))).
      right. split; [unfold y; lia|done].
Qed.

(** ** The invariant holds at the start *)

Definition v_initial (x y : Z) (s : sched) : view :=
  View (data s) (fun _ => []) (thrs s) [] y.

Lemma levels_lookup n i top k :
  i + Z.of_nat n <= top \/ i <= top -> (k < n)%nat -> i + Z.of_nat k < top ->
  levels n i top !! k = Some (Queue 0 0 (i + Z.of_nat k)).
Proof.
  revert i k. induction n as [|n IH]; intros i k Ht Hk Hik; [lia|]. cbn [levels].
  rewrite (Zltb_t i top) by lia. destruct k as [|k]; cbn.
  - by rewrite Z.add_0_r.
  - rewrite IH by lia. do 2 f_equal. lia.
Qed.

Lemma initialized_main clock s s' x y :
  initialized clock s s' x y -> vtid (v_initial x y s') y = Some 1.
Proof.
  intros [_ [ctx Hn] [pg Ht] _ _ _ _ [Hx _] _ _]. unfold vtid, tid_of. cbn.
  unfold data. rewrite Hn, map_fmap_singleton, lookup_singleton_eq. cbn.
  by rewrite (Zeqb_f x 0), Ht, lookup_insert_eq by done.
Qed.

Lemma initialized_sys clock s s' x y :
  initialized clock s s' x y -> 0 <= NPAGES PAGESIZE ->
  exists used n, sys PAGESIZE s' (v_initial x y s') (used ++ [Seg n true]) /\
    Forall (fun z => seg_isfree z = false) used /\
    left_over - (18800 + 2 * sizeof_ucontext) <= n.
Proof.
  intros Hi. pose proof (initialized_main clock s s' x y Hi) as Hv. revert Hi.
  intros [Hst [ctx Hn] [pg Ht] [Hq Hp] (Hj & Hth & Hc) [Hnum Hcy] Htm [Hx Hy] Hpg (used & n & Hs & Hu & Hn' & Hl)] Hnp.
  assert (data s' = {[y := new_node x ctx clock]}) as HD by (unfold data; by rewrite Hn, map_fmap_singleton).
  assert (forall z d, data s' !! z = Some d -> z = y /\ d = new_node x ctx clock) as Hd.
  { rewrite HD. intros z d [-> ->]%lookup_singleton_Some. done. }
  exists used, n. split; [|done]. split; try done.
  - split; try done; [|split; [exact Hth|constructor]]. split; try done.
    + assert (forall j, is_queue (nodes s') (Queue 0 0 j) []) as He by (intros; split; [done|by left]).
      intros [i|i] Hi; cbn in Hi; cbn [queue_of]; rewrite ?Hq, ?Hp; eexists;
        (split; [apply levels_lookup; lia|]); (split; [apply He|cbn; lia]).
    + intros. apply NoDup_nil_2.
    + intros p p' z Hz. by apply elem_of_nil in Hz.
  - split; [|intros p Hin; by apply elem_of_nil in Hin]. split; cbn [v_data v_current v_initial].
    + split; [done|]. rewrite HD, lookup_singleton_eq. eauto.
    + intros z d [-> _]%Hd. eauto.
    + intros z z' i Hz Hz'.
      assert (forall w, vtid (v_initial x y s') w = Some i -> w = y) as Hw.
      { intros w (d & E & _)%bind_Some. by apply Hd in E as [-> _]. }
      by rewrite (Hw z Hz), (Hw z' Hz').
    + intros z d [_ ->]%Hd. cbn. lia.
    + intros z d Hin. by apply elem_of_nil in Hin.
    + intros z d [_ ->]%Hd. done.
  - rewrite Hcy. lia.
  - intros p z Hz. by apply elem_of_nil in Hz.
  - intros k z d Hz. by apply elem_of_nil in Hz.
  - intros z i Hz. assert (z = y) as ->.
    { apply bind_Some in Hz as (d & E & _). by apply Hd in E as [-> _]. }
    rewrite Hv in Hz. injection Hz as <-. lia.
Qed.
End init.

(** ** The property *)

(** The first call of the library builds the scheduler: the main thread,
    with identifier 1, runs and no list holds a node; identifiers continue with
    2, the timer runs for 100 ms, and the invariant of the library holds.  The
    blocks it takes leave the rest of the library pages in one free block. *)
Theorem initialize_establishes PAGESIZE stack sizeof_ucontext s region clock :
  1024 <= PAGESIZE <= 32768 -> 0 <= sizeof_ucontext <= 40000 -> unstarted s -> 0 < region ->
  exists s' x y used n,
    initialize PAGESIZE stack sizeof_ucontext region clock s = Ok (tt, s') /\
    sys PAGESIZE s' (v_initial x y s') (used ++ [Seg n true]) /\
    vtid (v_initial x y s') y = Some 1 /\ threadNum s' = 2 /\
    it_value_usec (itimer (tim (al s'))) = 100000 /\
    Forall (fun z => seg_isfree z = false) used /\
    left_over PAGESIZE - (18800 + 2 * sizeof_ucontext) <= n.
Proof.
  intros Hps Huc Hun H0. pose proof (page_counts PAGESIZE Hps) as (_ & Hn & _).
  destruct (initialize_run PAGESIZE stack sizeof_ucontext Hps Huc s region clock Hun H0)
    as ([] & s' & E & x & y & Hi).
  destruct (initialized_sys PAGESIZE sizeof_ucontext clock s s' x y Hi Hn) as (used & m & Hs & Hu & Hm).
  exists s', x, y, used, m. split; [done|]. split; [done|].
  split; [by apply (initialized_main PAGESIZE sizeof_ucontext clock s)|].
  split; [apply Hi|]. split; [by rewrite (in_timer _ _ _ _ _ _ _ Hi)|done].
Qed.

(** ** An instance *)

Definition blank : sched := Sched false ∅ ∅ [] [] 0 0 0 0 0 before_init.

Lemma blank_unstarted : unstarted blank.
Proof. done. Qed.

Lemma initialize_establishes_witness :
  exists s' x y used n, initialize 4096 no_timer 936 4096 5 blank = Ok (tt, s') /\
    sys 4096 s' (v_initial x y s') (used ++ [Seg n true]).
Proof.
  destruct (initialize_establishes 4096 no_timer 936 blank 4096 5 page_4096 ltac:(lia)
    blank_unstarted ltac:(lia)) as (s' & x & y & used & n & E & Hs & _).
  exists s', x, y, used, n. split; [exact E|exact Hs].
Defined.
