(* ===== verification/CreateSpec.v ===== *)
(** * Creation of threads

    [my_pthread_create] takes three blocks of the library heap, for the
    context, the stack and the node, enters the caller's record in the list of
    threads and puts the node behind the others of the first run queue. *)

From Stdlib Require Import Floats.SpecFloat.
From S2P Require Import Prelude Chain CMem SegHeap FirstFit BlockWord Timer MyAlloc WordHeap LibHeapSpec Queue Sched QueueSpec PageSpec SchedSpec SchedStep ScheduleSpec MaintSpec Frame SystemInv InitSpec.

(** ** The abstract operation *)

Definition front (l : list Z) : Z := match l with [] => 0 | x :: _ => x end.

(** The record at [x] becomes the first of the list of threads. *)
Definition v_thread (x id : Z) (v : view) : view :=
  View (v_data v) (v_lists v) (<[x := Thread id 0 0 0 (front (v_threads v))]> (v_thrs v))
    (x :: v_threads v) (v_current v).

(** A node for it at address [a]. *)
Definition v_node (a x ctx clock : Z) (v : view) : view :=
  View (<[a := new_node x ctx clock]> (v_data v)) (v_lists v) (v_thrs v) (v_threads v) (v_current v).

Definition v_create (x id a ctx clock : Z) (v : view) : view :=
  v_enQ 0 a (v_node a x ctx clock (v_thread x id v)).

(** The caller's record can serve a new thread: it is not in the list, and no
    node belongs to it. *)
Record unused (x : Z) (v : view) : Prop := Unused {
  unused_nonnull : x <> 0;
  unused_listed : x ∉ v_threads v;
  unused_node y n : v_data v !! y = Some n -> threadID n <> x
}.

(** ** A new node *)

Lemma rep_new s L a n :
  nodes s !! a = None -> rep s L -> rep (set_nodes (<[a := n]>) s) L.
Proof.
  intros Ea [H1 H2 H3 H4].
  assert (forall b l, linked (nodes s) b l -> linked (<[a := n]> (nodes s)) b l) as Hf.
  { intros b l. apply chain_frame. intros y m _ Em. exists m.
    by rewrite lookup_insert_ne by congruence. }
  split; [|by apply Hf|done..].
  intros q Hv. destruct (H1 q Hv) as (w & Ew & [Hl Hr] & Hp). exists w.
  rewrite queue_of_nodes. split; [done|]. split; [|done]. split; [by apply Hf|done].
Qed.

Lemma abs_new s v a x ctx clock :
  nodes s !! a = None -> abs s v ->
  abs (set_nodes (<[a := new_node x ctx clock]>) s) (v_node a x ctx clock v).
Proof.
  intros Ea [Hr HD HT Hl Hc]. split; try done; [by apply rep_new|].
  unfold data, v_node. cbn. by rewrite fmap_insert, <- HD.
Qed.

(** The threads the nodes belong to are as before. *)
Lemma vtid_thread x id v y :
  (forall y n, v_data v !! y = Some n -> threadID n <> x) -> vtid (v_thread x id v) y = vtid v y.
Proof.
  intros Hx. unfold vtid, tid_of. cbn. destruct (v_data v !! y) as [d|] eqn:Ed; [|done].
  cbn. by rewrite lookup_insert_ne by (intros E; by apply (Hx y d)).
Qed.

Lemma nodes_ok_thread x id v : unused x v -> nodes_ok v -> nodes_ok (v_thread x id v).
Proof.
  intros [Hx0 _ Hx] [H2 H3 H4 H5 H6 H7].
  assert (forall y, vtid (v_thread x id v) y = vtid v y) as Ht by (intros; by apply vtid_thread).
  split; try done.
  - intros y n En. rewrite Ht. eauto.
  - intros y y' i. rewrite !Ht. eauto.
  - intros y n En Es. destruct (H7 y n En Es) as [Hj Hs]. split; [done|].
    cbn. rewrite lookup_insert_is_Some'. by right.
Qed.

Lemma vtid_node a x ctx clock v y :
  v_data v !! a = None ->
  vtid (v_node a x ctx clock v) y =
    if decide (y = a) then (if x =? 0 then None else tid <$> v_thrs v !! x) else vtid v y.
Proof.
  intros Ea. unfold vtid, tid_of, v_node. cbn. destruct (decide (y = a)) as [->|Hne].
  - by rewrite lookup_insert_eq.
  - by rewrite lookup_insert_ne.
Qed.

Lemma nodes_ok_node a x ctx clock v id :
  v_data v !! a = None -> x <> 0 -> tid <$> v_thrs v !! x = Some id ->
  (forall y, vtid v y <> Some id) -> a ∉ v_lists v PJoin ->
  nodes_ok v -> nodes_ok (v_node a x ctx clock v).
Proof.
  intros Ea Hx Eid Hid Hj [H2 H3 H4 H5 H6 H7].
  pose proof (vtid_node a x ctx clock v) as Ht. rewrite (Zeqb_f x 0), Eid in Ht by done.
  assert (forall y n, v_data (v_node a x ctx clock v) !! y = Some n ->
    (y = a /\ n = new_node x ctx clock) \/ (y <> a /\ v_data v !! y = Some n)) as Hd.
  { cbn. intros y n [[-> <-]|[? ?]]%lookup_insert_Some; [by left|right; naive_solver]. }
  split.
  - destruct H2 as [Hc Hs]. split; [done|]. cbn. rewrite lookup_insert_is_Some'. by right.
  - intros y n Hy%Hd. rewrite Ht by done.
    destruct Hy as [[-> _]|[Hne En]]; [rewrite decide_True by done; eauto|].
    rewrite decide_False by done. eauto.
  - intros y y' i. rewrite !Ht by done.
    destruct (decide (y = a)) as [->|], (decide (y' = a)) as [->|]; try done; [| |by eauto].
    + intros [= <-] E. by destruct (Hid y').
    + intros E [= <-]. by destruct (Hid y).
  - intros y n [[-> ->]|[_ En]]%Hd; [cbn; lia|eauto].
  - intros y n Hy [[-> ->]|[_ En]]%Hd; [done|eauto].
  - intros y n [[-> ->]|[_ En]]%Hd; [done|eauto].
Qed.

(** ** The call *)

(** The record of the caller, entered in the list. *)
Definition entered (x : Z) (s : sched) : sched :=
  set_threads x (set_thrs (<[x := Thread (threadNum s) 0 0 0 (threads s)]>)
    (set_threadNum (threadNum s + 1) s)).

Lemma addThread_run x s :
  x <> 0 ->
  addThread x (set_thrs (<[x := Thread (threadNum s) 0 0 0 0]>) (set_threadNum (threadNum s + 1) s))
    = Ok (tt, entered x s).
Proof.
  intros Hx. unfold addThread. mstep by done. unfold upd_thr.
  mstep by (mstep by (unfold rd_thr, cell; cbn; rewrite (Zeqb_f x 0), lookup_insert_eq by done; done); done).
  unfold entered, set_threads, set_thrs, set_threadNum, modify. cbn. by rewrite insert_insert_eq.
Qed.

Lemma threads_front s v : abs s v -> threads s = front (v_threads v).
Proof. intros [_ _ _ [Hl _] _]. destruct (v_threads v); [done|]. by destruct Hl. Qed.

Lemma entered_abs x s v :
  unused x v -> abs s v -> abs (entered x s) (v_thread x (threadNum s) v).
Proof.
  intros [Hx Hl _] Ha. pose proof (threads_front s v Ha) as Ef. destruct Ha as [Hr HD HT [Ht Hnd] Hc].
  split; try done.
  - by apply (rep_same s).
  - cbn. by rewrite HT, Ef.
  - cbn. split; [|by constructor]. split; [done|]. split; [done|].
    exists (Thread (threadNum s) 0 0 0 (threads s)). rewrite Ef, lookup_insert_eq. split; [done|].
    cbn. rewrite <- Ef. eapply chain_frame; [|exact Ht]. intros y t Hy Et. exists t.
    by rewrite lookup_insert_ne by (intros ->; contradiction).
Qed.

Section create.
Context (PAGESIZE : Z) (stack : itimerval) (sizeof_ucontext : Z).
Context (Hps : 1024 <= PAGESIZE <= 32768) (Huc : 0 <= sizeof_ucontext).
Notation create := (my_pthread_create PAGESIZE stack sizeof_ucontext).

(** The kernel's timer, stopped, and stopped once more. *)
Lemma answered_timer T m msgs s :
  timerSet (al s) = true -> itimer (tim (al (answered T m msgs s))) = itimer (tim (al s)) /\
    scd_timer (tim (al (answered T m msgs s))) = itimer (tim (al s)) /\
    timerSet (al (answered T m msgs s)) = true.
Proof. intros E. cbn. by rewrite E. Qed.

Lemma paused_sched s v l :
  abs s v -> serves PAGESIZE (al s) l ->
  exists s1, pause_s stack s = Ok (tt, s1) /\ abs s1 v /\ serves PAGESIZE (al s1) l /\
    s1 = set_al (set_tim (pause_timer stack (tim (al s))) (al s)) s.
Proof.
  intros Ha Hs. eexists. split; [reflexivity|]. split; [by apply abs_set_al|]. split; [|done].
  by destruct Hs.
Qed.

(** A block for a node, and the node in it. *)
Lemma createNode_spec s v l x ctx clock p l' :
  abs s v -> nodes_ok v -> started s = true -> serves PAGESIZE (al s) l ->
  nodes_live (nodes s) (memory (al s)) l ->
  seg_alloc 4 sizeof_node (memory (al s)) l = Some (p, l') ->
  exists T m, createNode PAGESIZE stack ctx x clock s
      = Ok (p + 4, set_nodes (<[p + 4 := new_node x ctx clock]>) (answered T m [] s)) /\
    serves PAGESIZE (al (answered T m [] s)) l' /\ nodes s !! (p + 4) = None /\ 0 < p + 4 /\
    nodes_live (<[p + 4 := new_node x ctx clock]> (nodes s)) (memory (al s)) l'.
Proof.
  intros Ha Hok Hst Hs Hn E.
  destruct (request_spec PAGESIZE stack Hps s v l sizeof_node 0 Ha Hok Hst Hs ltac:(done)) as [T H].
  rewrite E in H. destruct H as (m & Em & Hs'). exists T, m.
  destruct (lib_heap_sizes PAGESIZE Hps _ _ (serves_heap Hs)) as (Hsz & _).
  assert (0 < memory (al s)) as Hm0 by (apply (serves_heap Hs)).
  destruct (request_nodes (nodes s) _ l sizeof_node p l' ltac:(done) Hsz E Hn) as (Hf & Hn' & Hp).
  split; [|split; [done|split; [done|split; [lia|]]]].
  - unfold createNode, lib_need, need.
    mstep by (mstep by exact Em; rewrite (Zeqb_f (p + 4) 0) by lia; done). done.
  - intros y [n Ey]. apply lookup_insert_Some in Ey as [[<- _]|[_ Ey]]; [|apply Hn'; eauto].
    exists (Seg sizeof_node false). rewrite Z.add_simpl_r.
    apply (seg_alloc_live 4 _ _ _ _ _ E). by right.
Qed.

(** The second half of the call, once the context and the stack exist. *)
Definition publish (x ctx clock : Z) : M sched Z :=
  newNode ← createNode PAGESIZE stack ctx x clock;
  _ ← enQ (RunQ 0) newNode;
  _ ← unpause_s;
  mret 0.

Lemma enQ_new s v a :
  abs s v -> a <> 0 -> is_Some (v_data v !! a) -> loose (v_lists v) a ->
  exists s', enQ (RunQ 0) a s = Ok (tt, s') /\ abs s' (v_enQ 0 a v) /\ same_rest s s'.
Proof.
  intros Ha Ha0 [d Ed] Hlo. destruct (abs_node s v a d Ha Ed) as (n & En & _).
  destruct (enQ_spec s (v_lists v) (RunQ 0) a n (abs_rep _ _ Ha) ltac:(cbn; lia) Hlo En Ha0)
    as (s' & E & Hr' & HD' & Hs).
  exists s'. split; [done|]. split; [|done]. eapply abs_lists; [exact Ha|exact Hr'| |exact Hs].
  by rewrite HD', (abs_data _ _ Ha).
Qed.

Lemma data_fresh s v a : abs s v -> nodes s !! a = None -> v_data v !! a = None.
Proof. intros Ha E. rewrite <- (abs_data _ _ Ha). unfold data. by rewrite lookup_fmap, E. Qed.

(** A node that the view does not have is free. *)
Lemma data_none s v a : abs s v -> v_data v !! a = None -> nodes s !! a = None.
Proof.
  intros Ha E. rewrite <- (abs_data _ _ Ha) in E. unfold data in E. rewrite lookup_fmap in E.
  by destruct (nodes s !! a).
Qed.

Lemma publish_spec s v l x ctx clock p l' id :
  abs s v -> nodes_ok v -> ready PAGESIZE s -> serves PAGESIZE (al s) l ->
  nodes_live (nodes s) (memory (al s)) l ->
  (forall q y, y ∈ v_lists v q -> is_Some (v_data v !! y)) ->
  x <> 0 -> tid <$> v_thrs v !! x = Some id -> (forall y, vtid v y <> Some id) ->
  seg_alloc 4 sizeof_node (memory (al s)) l = Some (p, l') ->
  exists s', publish x ctx clock s = Ok (0, s') /\
    let v' := v_enQ 0 (p + 4) (v_node (p + 4) x ctx clock v) in
    abs s' v' /\ nodes_ok v' /\ ready PAGESIZE s' /\ serves PAGESIZE (al s') l' /\
    nodes_live (nodes s') (memory (al s)) l' /\ v_data v !! (p + 4) = None /\
    cycles s' = cycles s /\ threadNum s' = threadNum s /\ memory (al s') = memory (al s) /\
    itimer (tim (al s')) = itimer (tim (al s)).
Proof.
  intros Ha Hok Hrdy Hs Hn Hli Hx Eid Hid E. pose proof Hrdy as [Hst Htab Hpg].
  destruct (createNode_spec s v l x ctx clock p l' Ha Hok Hst Hs Hn E)
    as (T & m & E1 & Hs1 & Hf & Hp0 & Hn1).
  set (a := p + 4) in *. pose proof (data_fresh s v a Ha Hf) as Hfd.
  assert (forall q, a ∉ v_lists v q) as Hlo.
  { intros q Hq. destruct (Hli q a Hq). congruence. }
  set (s1 := answered T m [] s) in *.
  pose proof (abs_new s1 v a x ctx clock Hf (answered_abs T m [] s v Ha)) as Ha2.
  set (s2 := set_nodes _ s1) in *.
  pose proof (nodes_ok_node a x ctx clock v id Hfd Hx Eid Hid (Hlo PJoin) Hok) as Hok2.
  destruct (enQ_new s2 _ a Ha2 ltac:(lia)) as (s3 & E3 & Ha3 & Hs3).
  { cbn. rewrite lookup_insert_eq. eauto. }
  { exact Hlo. }
  pose proof (enQ_keeps (RunQ 0) a s2 tt s3 E3) as (Ed3 & _ & _).
  pose proof Hs3 as (Est3 & _ & _ & _ & Eth3 & Ecy3 & Eal3).
  destruct (answered_timer T m [] s (serves_timer Hs)) as (Et1 & Et2 & _). fold s1 in Et1, Et2.
  change (al s2) with (al s1) in Eal3.
  exists (set_al (set_tim (unpause_timer (tim (al s3))) (al s3)) s3). split.
  - unfold publish. mstep by exact E1. mstep by exact E3. done.
  - cbv zeta. split_and!; try done.
    + by apply abs_set_al.
    + by apply nodes_ok_enQ.
    + split; [cbn; by rewrite Est3|unfold PageSpec.table_ok; cbn; by rewrite Eal3|done].
    + cbn [al set_al]. rewrite Eal3. by destruct Hs1.
    + intros y Hy. apply Hn1. cbn in Hy. rewrite <- elem_of_dom, Ed3, elem_of_dom in Hy. exact Hy.
    + cbn. by rewrite Eal3.
    + cbn. by rewrite Eal3, Et2.
Qed.

(** ** The invariant after the call *)

Lemma vtid_enQ i x v y : vtid (v_enQ i x v) y = vtid v y.
Proof.
  unfold vtid, tid_of, v_enQ. cbn. destruct (decide (y = x)) as [->|Hne].
  - rewrite lookup_alter_eq. destruct (v_data v !! x) as [d|]; [|done]. cbn. by rewrite enq_thread.
  - by rewrite lookup_alter_ne.
Qed.

Lemma create_data x id a ctx clock v y d :
  v_data (v_create x id a ctx clock v) !! y = Some d ->
  (y = a /\ status d = NEUTRAL /\ threadID d = x) \/ (y <> a /\ v_data v !! y = Some d).
Proof.
  unfold v_create, v_enQ. cbn. destruct (decide (y = a)) as [->|Hne].
  - rewrite lookup_alter_eq, lookup_insert_eq. intros [= <-]. left. rewrite enq_status, enq_thread. done.
  - rewrite lookup_alter_ne, lookup_insert_ne by done. auto.
Qed.

Lemma create_dom x id a ctx clock v y :
  is_Some (v_data (v_create x id a ctx clock v) !! y) <-> y = a \/ is_Some (v_data v !! y).
Proof.
  unfold v_create, v_enQ. cbn. destruct (decide (y = a)) as [->|Hne].
  - rewrite lookup_alter_eq, lookup_insert_eq. cbn. split; [by left|eauto].
  - rewrite lookup_alter_ne, lookup_insert_ne by done. naive_solver.
Qed.

Lemma create_lists x id a ctx clock v :
  v_lists (v_create x id a ctx clock v) = upd (v_lists v) (PRun 0) (v_lists v (PRun 0) ++ [a]).
Proof. done. Qed.

Lemma create_vtid x id a ctx clock v y :
  unused x v -> v_data v !! a = None ->
  vtid (v_create x id a ctx clock v) y = if decide (y = a) then Some id else vtid v y.
Proof.
  intros Hx Ea. unfold v_create. rewrite vtid_enQ, vtid_node by done. cbn [v_thrs v_thread].
  rewrite (Zeqb_f x 0), lookup_insert_eq by apply Hx. case_decide; [done|].
  apply vtid_thread, Hx.
Qed.

(** What is left to show of [sys] once the state is known to be a good one. *)
Lemma create_sys s v l s' l' x a ctx clock :
  sys PAGESIZE s v l -> unused x v -> v_data v !! a = None ->
  let v' := v_create x (threadNum s) a ctx clock v in
  abs s' v' -> nodes_ok v' -> ready PAGESIZE s' -> serves PAGESIZE (al s') l' ->
  nodes_live (nodes s') (memory (al s')) l' -> cycles s' = cycles s ->
  threadNum s' = threadNum s + 1 -> sys PAGESIZE s' v' l'.
Proof.
  intros Hsys Hx Ea v' Ha Hok Hrdy Hs Hn Ecy Eth.
  pose proof (sys_wf Hsys) as Hwf. destruct (wf_current _ Hwf) as [_ [dc Edc]].
  assert (forall p y, y ∈ v_lists v' p -> y = a \/ y ∈ v_lists v p) as Hl.
  { intros p y. unfold v'. rewrite create_lists, elem_upd, elem_of_app, list_elem_of_singleton.
    naive_solver. }
  split; try done.
  - split; [done|]. intros p [Hy|Hy]%Hl; [cbn in Hy; congruence|by apply (wf_loose _ Hwf p)].
  - rewrite Ecy. apply (sys_cycles Hsys).
  - intros k. unfold v'. rewrite create_lists, upd_other by done. apply (sys_promotion Hsys).
  - intros p y Hy%Hl. apply create_dom. destruct Hy as [->|Hy]; [by left|right].
    by apply (sys_listed Hsys p).
  - intros k y d Hy%Hl [(-> & -> & _)|[Hne Ed]]%create_data; [done|].
    destruct Hy as [->|Hy]; [done|]. by apply (sys_yield Hsys k y).
  - intros y i. unfold v'. rewrite create_vtid by done. rewrite Eth. case_decide.
    + intros [= <-]. lia.
    + intros Ei%(sys_ids Hsys). lia.
Qed.

(** The state in which the node is made. *)
Lemma create_prefix s v l region x clock p1 l1 p2 l2 :
  sys PAGESIZE s v l -> unused x v ->
  seg_alloc 4 sizeof_ucontext (memory (al s)) l = Some (p1, l1) ->
  seg_alloc 4 STACK_SIZE (memory (al s)) l1 = Some (p2, l2) ->
  exists s6, create region x clock s = publish x (p1 + 4) clock s6 /\
    abs s6 (v_thread x (threadNum s) v) /\ ready PAGESIZE s6 /\ serves PAGESIZE (al s6) l2 /\
    nodes s6 = nodes s /\ memory (al s6) = memory (al s) /\ cycles s6 = cycles s /\
    threadNum s6 = threadNum s + 1 /\ itimer (tim (al s6)) = set_usec stack 0.
Proof.
  intros Hsys Hx A1 A2. pose proof (sys_abs Hsys) as Ha. pose proof (wf_nodes _ (sys_wf Hsys)) as Hok.
  pose proof (sys_ready Hsys) as Hrdy. pose proof (ready_started _ _ Hrdy) as Hst.
  destruct (lib_heap_sizes PAGESIZE Hps _ _ (serves_heap (sys_serves Hsys))) as (Hsz & _).
  assert (0 < memory (al s)) as Hm0 by (apply (serves_heap (sys_serves Hsys))).
  destruct (paused_sched s v l Ha (sys_serves Hsys)) as (s1 & E1 & Ha1 & Hs1 & Es1).
  assert (memory (al s1) = memory (al s) /\ started s1 = true /\ ready PAGESIZE s1) as (Em1 & Hst1 & Hr1)
    by (subst s1; by destruct Hrdy).
  destruct (request_spec PAGESIZE stack Hps s1 v l _ region Ha1 Hok Hst1 Hs1 Huc) as [T1 H].
  rewrite Em1, A1 in H. destruct H as (m1 & E2 & Hs2).
  set (s2 := answered T1 m1 [] s1) in *.
  pose proof (answered_abs T1 m1 [] s1 v Ha1) as Ha2.
  destruct (request_spec PAGESIZE stack Hps s2 v l1 STACK_SIZE region Ha2 Hok Hst1 Hs2 ltac:(done))
    as [T2 H].
  change (memory (al s2)) with (memory (al s1)) in H. rewrite Em1, A2 in H.
  destruct H as (m2 & E3 & Hs3). set (s3 := answered T2 m2 [] s2) in *.
  destruct (seg_alloc_bounds 4 hdr4_pos _ _ _ _ _ Huc Hsz A1) as [Hp1 _].
  pose proof (seg_alloc_sizes 4 _ _ _ _ _ Huc Hsz A1) as Hsz1.
  destruct (seg_alloc_bounds 4 hdr4_pos STACK_SIZE _ _ _ _ ltac:(done) Hsz1 A2) as [Hp2 _].
  destruct (answered_timer T1 m1 [] s1 (serves_timer Hs1)) as (Et2 & _ & Eb2).
  destruct (answered_timer T2 m2 [] s2 Eb2) as (Et3 & _ & _).
  assert (threadNum s3 = threadNum s /\ nodes s3 = nodes s /\ cycles s3 = cycles s /\
    itimer (tim (al s1)) = set_usec stack 0) as (Eth3 & En3 & Ec3 & Et1) by (by subst s1).
  exists (entered x s3). split_and!; try done.
  - unfold my_pthread_create. mstep by done. rewrite Hst. cbn [negb when]. mstep by done.
    mstep by exact E1. mstep by exact E2. rewrite (Zeqb_f (p1 + 4) 0) by lia.
    mstep by exact E3. rewrite (Zeqb_f (p2 + 4) 0), (Zeqb_f x 0) by (apply Hx || lia).
    mstep by done. mstep by done. mstep by done.
    mstep by (apply addThread_run, Hx). done.
  - rewrite <- Eth3. apply entered_abs; [done|]. by apply answered_abs.
  - destruct Hr1 as [H1 H2 H3]. split; [exact Hst1|exact H2|done].
  - exact (f_equal (fun n => n + 1) Eth3).
  - cbn [al entered set_threads set_thrs set_threadNum]. fold s3 in Et3. fold s2 in Et2. congruence.
Qed.

Lemma create_done s v l region x clock p1 l1 p2 l2 p3 l3 :
  sys PAGESIZE s v l -> unused x v ->
  seg_alloc 4 sizeof_ucontext (memory (al s)) l = Some (p1, l1) ->
  seg_alloc 4 STACK_SIZE (memory (al s)) l1 = Some (p2, l2) ->
  seg_alloc 4 sizeof_node (memory (al s)) l2 = Some (p3, l3) ->
  exists s', create region x clock s = Ok (0, s') /\
    sys PAGESIZE s' (v_create x (threadNum s) (p3 + 4) (p1 + 4) clock v) l3 /\
    itimer (tim (al s')) = set_usec stack 0 /\ threadNum s' = threadNum s + 1 /\
    nodes s !! (p3 + 4) = None.
Proof.
  intros Hsys Hx A1 A2 A3.
  destruct (lib_heap_sizes PAGESIZE Hps _ _ (serves_heap (sys_serves Hsys))) as (Hsz & _).
  destruct (request_nodes _ _ _ _ _ _ Huc Hsz A1 (sys_nodes Hsys)) as (_ & Hn1 & _).
  pose proof (seg_alloc_sizes 4 _ _ _ _ _ Huc Hsz A1) as Hsz1.
  destruct (request_nodes _ _ _ STACK_SIZE _ _ ltac:(done) Hsz1 A2 Hn1) as (_ & Hn2 & _).
  destruct (create_prefix s v l region x clock p1 l1 p2 l2 Hsys Hx A1 A2)
    as (s6 & E6 & Ha6 & Hr6 & Hs6 & En6 & Em6 & Ec6 & Eth6 & Et6).
  pose proof (wf_nodes _ (sys_wf Hsys)) as Hok.
  destruct (publish_spec s6 (v_thread x (threadNum s) v) l2 x (p1 + 4) clock p3 l3 (threadNum s))
    as (s' & E' & Ha' & Hok' & Hr' & Hs' & Hn' & Hf & Ec' & Eth' & Em' & Et'); try done.
  - by apply nodes_ok_thread.
  - by rewrite En6, Em6.
  - apply (sys_listed Hsys).
  - apply Hx.
  - cbn. by rewrite lookup_insert_eq.
  - intros y. rewrite vtid_thread by apply Hx. intros Ei%(sys_ids Hsys). lia.
  - by rewrite Em6.
  - exists s'. rewrite E6. split; [done|]. split; [|split; [congruence|split; [congruence|]]].
    2: { apply (data_none s v); [apply (sys_abs Hsys)|exact Hf]. }
    apply (create_sys s v l); try done; [by rewrite Em'|congruence|congruence].
Qed.

(** *** Without room *)

(** The end of the failing branches. *)
Lemma unpause_sys s v l T m msgs s0 l' :
  sys PAGESIZE s0 v l -> s = set_al (al s) s0 -> serves PAGESIZE (al (answered T m msgs s)) l' ->
  pages (al s) = pages (al s0) -> memory (al s) = memory (al s0) ->
  nodes_live (nodes s0) (memory (al s0)) l' ->
  itimer (tim (al s)) = set_usec stack 0 -> timerSet (al s) = true ->
  exists s', (_ ← unpause_s; mret 1) (answered T m msgs s) = Ok (1, s') /\
    sys PAGESIZE s' v l' /\ itimer (tim (al s')) = set_usec stack 0 /\ threadNum s' = threadNum s0.
Proof.
  intros Hsys Es Hs Ep Em Hn Et Eb. eexists. split; [reflexivity|]. split.
  - unfold answered. cbn. rewrite Es. apply (sys_set_al PAGESIZE s0 v l); [done| | |].
    + by destruct Hs.
    + cbn. by rewrite Ep.
    + cbn. by rewrite Em.
  - cbn. rewrite Eb. split; [done|]. by rewrite Es.
Qed.

Lemma create_no_context s v l region x clock :
  sys PAGESIZE s v l -> seg_alloc 4 sizeof_ucontext (memory (al s)) l = None ->
  exists s', create region x clock s = Ok (1, s') /\ sys PAGESIZE s' v l /\
    itimer (tim (al s')) = set_usec stack 0 /\ threadNum s' = threadNum s.
Proof.
  intros Hsys A1. pose proof (wf_nodes _ (sys_wf Hsys)) as Hok.
  pose proof (ready_started _ _ (sys_ready Hsys)) as Hst.
  destruct (paused_sched s v l (sys_abs Hsys) (sys_serves Hsys)) as (s1 & E1 & Ha1 & Hs1 & Es1).
  destruct (request_spec PAGESIZE stack Hps s1 v l _ region Ha1 Hok ltac:(by subst s1) Hs1 Huc) as [T H].
  assert (memory (al s1) = memory (al s)) as Em1 by (by subst s1). rewrite Em1, A1 in H.
  destruct (unpause_sys s1 v l T (amem (al s1)) [NotEnoughSpace] s l Hsys) as (s' & E' & H').
  - by subst s1.
  - destruct Hs1 as [H1 H2 H3]. split; [by destruct H1|done..].
  - by subst s1.
  - by subst s1.
  - apply (sys_nodes Hsys).
  - by subst s1.
  - apply (serves_timer Hs1).
  - exists s'. split; [|done]. unfold my_pthread_create. mstep by done. rewrite Hst. cbn [negb when].
    mstep by done. mstep by exact E1. mstep by exact H. exact E'.
Qed.

(** The block of the context is not given back. *)
Lemma create_no_stack s v l region x clock p1 l1 :
  sys PAGESIZE s v l -> seg_alloc 4 sizeof_ucontext (memory (al s)) l = Some (p1, l1) ->
  seg_alloc 4 STACK_SIZE (memory (al s)) l1 = None ->
  exists s', create region x clock s = Ok (1, s') /\ sys PAGESIZE s' v l1 /\
    itimer (tim (al s')) = set_usec stack 0 /\ threadNum s' = threadNum s.
Proof.
  intros Hsys A1 A2. pose proof (wf_nodes _ (sys_wf Hsys)) as Hok.
  pose proof (ready_started _ _ (sys_ready Hsys)) as Hst.
  destruct (lib_heap_sizes PAGESIZE Hps _ _ (serves_heap (sys_serves Hsys))) as (Hsz & _).
  assert (0 < memory (al s)) as Hm0 by (apply (serves_heap (sys_serves Hsys))).
  destruct (request_nodes _ _ _ _ _ _ Huc Hsz A1 (sys_nodes Hsys)) as (_ & Hn1 & Hp1).
  destruct (paused_sched s v l (sys_abs Hsys) (sys_serves Hsys)) as (s1 & E1 & Ha1 & Hs1 & Es1).
  assert (memory (al s1) = memory (al s) /\ started s1 = true) as (Em1 & Hst1) by (by subst s1).
  destruct (request_spec PAGESIZE stack Hps s1 v l _ region Ha1 Hok Hst1 Hs1 Huc) as [T1 H].
  rewrite Em1, A1 in H. destruct H as (m1 & E2 & Hs2). set (s2 := answered T1 m1 [] s1) in *.
  destruct (request_spec PAGESIZE stack Hps s2 v l1 STACK_SIZE region (answered_abs T1 m1 [] s1 v Ha1)
    Hok Hst1 Hs2 ltac:(done)) as [T2 H].
  change (memory (al s2)) with (memory (al s1)) in H. rewrite Em1, A2 in H.
  destruct (answered_timer T1 m1 [] s1 (serves_timer Hs1)) as (Et2 & _ & Eb2).
  destruct (unpause_sys s2 v l T2 (amem (al s2)) [NotEnoughSpace] s l1 Hsys) as (s' & E' & H').
  - by subst s2 s1.
  - destruct Hs2 as [H1 H2 H3]. split; [by destruct H1|done..].
  - by subst s2 s1.
  - by subst s2 s1.
  - done.
  - fold s2 in Et2. rewrite Et2. by subst s1.
  - done.
  - exists s'. split; [|done]. unfold my_pthread_create. mstep by done. rewrite Hst. cbn [negb when].
    mstep by done. mstep by exact E1. mstep by exact E2. rewrite (Zeqb_f (p1 + 4) 0) by lia.
    mstep by exact H. exact E'.
Qed.

Lemma create_no_node s v l region x clock p1 l1 p2 l2 :
  sys PAGESIZE s v l -> unused x v ->
  seg_alloc 4 sizeof_ucontext (memory (al s)) l = Some (p1, l1) ->
  seg_alloc 4 STACK_SIZE (memory (al s)) l1 = Some (p2, l2) ->
  seg_alloc 4 sizeof_node (memory (al s)) l2 = None ->
  create region x clock s = Fault NullDeref.
Proof.
  intros Hsys Hx A1 A2 A3.
  destruct (create_prefix s v l region x clock p1 l1 p2 l2 Hsys Hx A1 A2)
    as (s6 & E6 & Ha6 & Hr6 & Hs6 & En6 & Em6 & _).
  pose proof (nodes_ok_thread x (threadNum s) v Hx (wf_nodes _ (sys_wf Hsys))) as Hok6.
  destruct (request_spec PAGESIZE stack Hps s6 _ l2 sizeof_node 0 Ha6 Hok6 (ready_started _ _ Hr6)
    Hs6 ltac:(done)) as [T H].
  rewrite Em6, A3 in H. rewrite E6. unfold publish. apply bind_fault_l. unfold createNode.
  apply bind_fault_l. unfold lib_need, need. by mstep by exact H.
Qed.
End create.

(** ** The properties of the call *)

Section theorems.
Context (PAGESIZE : Z) (stack : itimerval) (sizeof_ucontext : Z).
Context (Hps : 1024 <= PAGESIZE <= 32768) (Huc : 0 <= sizeof_ucontext).
Notation create := (my_pthread_create PAGESIZE stack sizeof_ucontext).

(** C13: [my_pthread_create] in a library that runs, with room for its three
    blocks, does what [v_create] says: the caller's record gets the next
    identifier and becomes the first of the list of threads, a new node with
    the new context is the last of the first run queue, and nothing else moves.
    The blocks come from free memory of the library heap, and the invariant of
    the library holds again. *)
Theorem create_refines s v l region x clock p1 l1 p2 l2 p3 l3 :
  sys PAGESIZE s v l -> unused x v ->
  seg_alloc 4 sizeof_ucontext (memory (al s)) l = Some (p1, l1) ->
  seg_alloc 4 STACK_SIZE (memory (al s)) l1 = Some (p2, l2) ->
  seg_alloc 4 sizeof_node (memory (al s)) l2 = Some (p3, l3) ->
  exists s', create region x clock s = Ok (0, s') /\
    sys PAGESIZE s' (v_create x (threadNum s) (p3 + 4) (p1 + 4) clock v) l3.
Proof.
  intros Hs Hx A1 A2 A3.
  destruct (create_done PAGESIZE stack sizeof_ucontext Hps Huc s v l region x clock
    _ _ _ _ _ _ Hs Hx A1 A2 A3) as (s' & E & Hs' & _).
  by exists s'.
Qed.

(** C39: Without room for the context or for the stack [my_pthread_create]
    returns 1 and no thread is added; in the second case the block of the
    context stays allocated.  Without room for the node, whose request is not
    checked, it dereferences NULL. *)
Theorem create_fails s v l region x clock :
  sys PAGESIZE s v l -> unused x v ->
  match seg_alloc 4 sizeof_ucontext (memory (al s)) l with
  | None => exists s', create region x clock s = Ok (1, s') /\ sys PAGESIZE s' v l
  | Some (p1, l1) =>
      match seg_alloc 4 STACK_SIZE (memory (al s)) l1 with
      | None => exists s', create region x clock s = Ok (1, s') /\ sys PAGESIZE s' v l1
      | Some (p2, l2) =>
          seg_alloc 4 sizeof_node (memory (al s)) l2 = None ->
          create region x clock s = Fault NullDeref
      end
  end.
Proof.
  intros Hs Hx. destruct (seg_alloc 4 sizeof_ucontext _ l) as [[p1 l1]|] eqn:A1.
  2:{ destruct (create_no_context PAGESIZE stack sizeof_ucontext Hps Huc s v l region x clock Hs A1)
        as (s' & E & Hs' & _). by exists s'. }
  destruct (seg_alloc 4 STACK_SIZE _ l1) as [[p2 l2]|] eqn:A2.
  2:{ destruct (create_no_stack PAGESIZE stack sizeof_ucontext Hps Huc s v l region x clock p1 l1 Hs A1 A2)
        as (s' & E & Hs' & _). by exists s'. }
  intros A3. by eapply (create_no_node PAGESIZE stack sizeof_ucontext Hps Huc s v l).
Qed.

(** A call of [my_pthread_create] stops preemption: it pauses the timer and
    then calls the allocator, which pauses it once more and so saves a stopped
    timer over the saved one.  Whatever the outcome, the timer is stopped when
    the call returns, and stays so until the running thread gives up the
    processor itself. *)
Theorem create_stops_timer s v l region x clock r s' :
  sys PAGESIZE s v l -> unused x v -> it_value_sec stack = 0 ->
  create region x clock s = Ok (r, s') -> armed (itimer (tim (al s'))) = false.
Proof.
  intros Hs Hx H0 E.
  assert (itimer (tim (al s')) = set_usec stack 0) as ->.
  { destruct (seg_alloc 4 sizeof_ucontext (memory (al s)) l) as [[p1 l1]|] eqn:A1.
    2:{ destruct (create_no_context PAGESIZE stack sizeof_ucontext Hps Huc s v l region x clock Hs A1)
          as (s1 & E1 & _ & Et & _). rewrite E in E1. by injection E1 as _ <-. }
    destruct (seg_alloc 4 STACK_SIZE (memory (al s)) l1) as [[p2 l2]|] eqn:A2.
    2:{ destruct (create_no_stack PAGESIZE stack sizeof_ucontext Hps Huc s v l region x clock p1 l1 Hs A1 A2)
          as (s1 & E1 & _ & Et & _). rewrite E in E1. by injection E1 as _ <-. }
    destruct (seg_alloc 4 sizeof_node (memory (al s)) l2) as [[p3 l3]|] eqn:A3.
    - destruct (create_done PAGESIZE stack sizeof_ucontext Hps Huc s v l region x clock
        _ _ _ _ _ _ Hs Hx A1 A2 A3) as (s1 & E1 & _ & Et & _). rewrite E in E1. by injection E1 as _ <-.
    - by rewrite (create_no_node PAGESIZE stack sizeof_ucontext Hps Huc s v l region x clock
        p1 l1 p2 l2 Hs Hx A1 A2 A3) in E. }
  unfold armed. cbn. by rewrite H0.
Qed.
End theorems.

(** ** An instance: a library that just started *)

Lemma demo_started :
  exists s v used n x, sys 4096 s v (used ++ [Seg n true]) /\ unused x v /\
    Forall (fun z => seg_isfree z = false) used /\ 79328 <= n <= 819200.
Proof.
  destruct (initialize_run 4096 no_timer 936 page_4096 ltac:(lia) blank 4096 5 blank_unstarted ltac:(lia))
    as ([] & s & _ & x & y & Hi).
  destruct (initialized_sys 4096 936 5 blank s x y Hi ltac:(by vm_compute)) as (used & n & Hs & Hu & Hn).
  pose proof (left_over_room 4096 page_4096) as Hroom.
  pose proof (serves_heap (sys_serves Hs)) as Hh.
  destruct (lib_heap_sizes 4096 page_4096 _ _ Hh) as (Hsz & Htot & _).
  destruct Hh as (_ & Hus & _). rewrite Hus in Htot. rewrite total_app in Htot. cbn in Htot.
  apply Forall_app in Hsz as [Hsz _]. pose proof (total_nonneg 4 hdr4_pos used Hsz).
  exists s, (v_initial x y s), used, n, (if x =? 1 then 2 else 1). split; [done|].
  split; [|split; [done|unfold span, LIBPAGES in *; cbn in *; lia]].
  destruct (in_nodes _ _ _ _ _ _ _ Hi) as [ctx Hnd]. split.
  - by destruct (x =? 1).
  - intros Hx. by apply elem_of_nil in Hx.
  - intros z d. cbn. unfold data. rewrite Hnd, map_fmap_singleton. intros [_ <-]%lookup_singleton_Some.
    cbn. destruct (Z.eqb_spec x 1); lia.
Qed.

Lemma demo_blocks base used n :
  79328 <= n -> Forall (fun z => seg_isfree z = false) used ->
  exists p1 l1 p2 l2 p3 l3,
    seg_alloc 4 936 base (used ++ [Seg n true]) = Some (p1, l1) /\
    seg_alloc 4 STACK_SIZE base l1 = Some (p2, l2) /\
    seg_alloc 4 sizeof_node base l2 = Some (p3, l3).
Proof.
  intros Hn Hu.
  assert (forall k m l, Forall (fun z => seg_isfree z = false) l ->
    Forall (fun z => seg_isfree z = false) (l ++ [Seg k false]) /\
    l ++ [Seg k false; Seg m true] = (l ++ [Seg k false]) ++ [Seg m true]) as Hl.
  { intros k m l H. split; [apply Forall_app; split; [done|by repeat constructor]|by rewrite <- app_assoc]. }
  destruct (Hl 936 (n - (936 + 4)) used Hu) as [Hu1 E1].
  destruct (Hl STACK_SIZE (n - (936 + 4) - (STACK_SIZE + 4)) _ Hu1) as [Hu2 E2].
  unfold STACK_SIZE, sizeof_node in *.
  do 6 eexists. split; [apply seg_alloc_end; [lia|lia|done]|]. rewrite E1.
  split; [apply seg_alloc_end; [lia|lia|done]|]. rewrite E2. apply seg_alloc_end; [lia|lia|done].
Qed.

Lemma create_refines_witness :
  exists s x ctx a s' v l, my_pthread_create 4096 no_timer 936 0 x 7 s = Ok (0, s') /\
    sys 4096 s' (v_create x (threadNum s) a ctx 7 v) l.
Proof.
  destruct demo_started as (s & v & used & n & x & Hs & Hx & Hu & Hn).
  destruct (demo_blocks (memory (al s)) used n ltac:(lia) Hu) as (p1 & l1 & p2 & l2 & p3 & l3 & A1 & A2 & A3).
  destruct (create_refines 4096 no_timer 936 page_4096 ltac:(lia) s v _ 0 x 7 _ _ _ _ _ _ Hs Hx A1 A2 A3)
    as (s' & E & Hs').
  exists s, x, (p1 + 4), (p3 + 4), s', v, l3. split; [exact E|exact Hs'].
Defined.

(** A context that is larger than the library pages. *)
Lemma create_fails_witness :
  exists s v l x s', my_pthread_create 4096 no_timer 1000000 0 x 7 s = Ok (1, s') /\ sys 4096 s' v l.
Proof.
  destruct demo_started as (s & v & used & n & x & Hs & Hx & Hu & Hn).
  pose proof (create_fails 4096 no_timer 1000000 page_4096 ltac:(lia) s v _ 0 x 7 Hs Hx) as H.
  assert (seg_alloc 4 1000000 (memory (al s)) (used ++ [Seg n true]) = None) as E.
  { apply (seg_alloc_none 4 hdr4_pos). apply Forall_app. split.
    - eapply Forall_impl; [exact Hu|]. intros z Hz Hf. cbv beta in Hz. congruence.
    - constructor; [|constructor]. intros _. cbn. lia. }
  rewrite E in H. destruct H as (s' & Ec & Hs').
  exists s, v, (used ++ [Seg n true]), x, s'. split; [exact Ec|exact Hs'].
Defined.

Lemma create_stops_timer_witness :
  exists s x s', my_pthread_create 4096 no_timer 936 0 x 7 s = Ok (0, s') /\
    armed (itimer (tim (al s'))) = false.
Proof.
  destruct demo_started as (s & v & used & n & x & Hs & Hx & Hu & Hn).
  destruct (demo_blocks (memory (al s)) used n ltac:(lia) Hu) as (p1 & l1 & p2 & l2 & p3 & l3 & A1 & A2 & A3).
  destruct (create_done 4096 no_timer 936 page_4096 ltac:(lia) s v _ 0 x 7 _ _ _ _ _ _ Hs Hx A1 A2 A3)
    as (s' & E & _).
  exists s, x, s'. split; [exact E|].
  exact (create_stops_timer 4096 no_timer 936 page_4096 ltac:(lia) s v _ 0 x 7 0 s' Hs Hx eq_refl E).
Defined.
