(* ===== verification/MaintInv.v ===== *)
(** * Maintenance and the invariant of the library

    A round of maintenance takes a block of the library heap for its counters,
    deals the threads of the lower run queues out anew and gives the block
    back.  The invariant holds afterwards, for the same threads. *)

From Stdlib Require Import Floats.SpecFloat.
From S2P Require Import Prelude Chain CMem SegHeap FirstFit BlockWord Timer MyAlloc WordHeap LibHeapSpec Queue Sched QueueSpec PageSpec SchedSpec SchedStep ScheduleSpec MaintSpec Frame SystemInv.

(** ** Nodes that differ in level and run time only *)

Definition same_thread (d d' : node) : Prop :=
  threadID d' = threadID d /\ status d' = status d /\ joinee d' = joinee d /\
  (0 <= priority d < 5 -> 0 <= priority d' < 5).

#[export] Instance same_thread_preorder : PreOrder same_thread.
Proof. split; [done|]. unfold same_thread. intros a b c. naive_solver congruence. Qed.

Definition same_threads (D D' : gmap Z node) : Prop :=
  forall y, option_Forall2 same_thread (D !! y) (D' !! y).

#[export] Instance same_threads_preorder : PreOrder same_threads.
Proof. split; [by intros D y|]. intros D1 D2 D3 H1 H2 y. by transitivity (D2 !! y). Qed.

Lemma same_threads_alter f x D : (forall d, same_thread d (f d)) -> same_threads D (alter f x D).
Proof.
  intros Hf y. destruct (decide (y = x)) as [->|Hne]; [|by rewrite lookup_alter_ne].
  rewrite lookup_alter_eq. destruct (D !! x); constructor. apply Hf.
Qed.

Lemma same_threads_aged t D l : same_threads D (aged t D l).
Proof.
  revert D. induction l as [|x l IH]; intros D; [done|]. cbn.
  etransitivity; [|apply IH]. by apply same_threads_alter.
Qed.

Lemma same_threads_reprio dst D l : 0 <= dst < 5 -> same_threads D (reprio dst D l).
Proof.
  intros Hd. revert D. induction l as [|x l IH]; intros D; [done|]. cbn.
  etransitivity; [|apply IH]. by apply same_threads_alter.
Qed.

Lemma same_threads_reparts j share l D : (j <= 5)%nat -> same_threads D (reparts j share l D).
Proof.
  revert l D. induction j as [|j IH]; intros l D Hj; [done|]. cbn [reparts].
  etransitivity; [|apply IH; lia]. apply same_threads_reprio. lia.
Qed.

Lemma same_threads_reshared n i L D :
  0 <= i -> i + Z.of_nat n <= 4 -> same_threads D (reshared n i L D).
Proof.
  revert i D. induction n as [|n IH]; intros i D Hi Hn; [done|]. cbn [reshared].
  etransitivity; [|apply IH; lia]. apply same_threads_reparts. lia.
Qed.

(** ** The nodes of the lists *)

Lemma collected_incl D L p y :
  (forall k, L (PProm k) = []) -> y ∈ collected 4 0 D L p -> exists p', y ∈ L p'.
Proof.
  intros Hp Hy. unfold collected in Hy. destruct p as [k|k|]; [| |by exists PJoin].
  - destruct (in_range (0 + 1) 4 k); [by apply elem_of_nil in Hy|by exists (PRun k)].
  - rewrite Hp in Hy. destruct (in_range 0 4 k); [|by apply elem_of_nil in Hy].
    rewrite by_time_perm in Hy. by exists (PRun (S k)).
Qed.

Lemma shared_incl n i L k y : y ∈ shared n i L k -> exists p, y ∈ L p.
Proof.
  revert i. induction n as [|n IH]; intros i Hy; [by apply elem_of_nil in Hy|].
  cbn [shared] in Hy. apply elem_of_app in Hy as [Hy%parts_incl|Hy]; eauto.
Qed.

Lemma maintained_incl D L p y :
  (forall k, L (PProm k) = []) -> y ∈ maintained D L p -> exists p', y ∈ L p'.
Proof.
  intros Hp Hy. assert (exists p', y ∈ collected 4 0 D L p') as [p' Hc].
  { unfold maintained, promoted in Hy. destruct p as [k|k|]; [|destruct (in_range _ _ _)|]; eauto.
    - apply elem_of_app in Hy as [Hy|Hy%shared_incl]; eauto.
    - by apply elem_of_nil in Hy. }
  by eapply collected_incl.
Qed.

Lemma maintained_promotion D L k : (forall k, L (PProm k) = []) -> maintained D L (PProm k) = [].
Proof.
  intros Hp. unfold maintained, promoted, collected.
  destruct (in_range 0 4 k); [done|apply Hp].
Qed.

(** ** The view afterwards *)

Lemma vtid_same_threads v D L y :
  same_threads (v_data v) D ->
  vtid (View D L (v_thrs v) (v_threads v) (v_current v)) y = vtid v y.
Proof.
  intros H. unfold vtid, tid_of. cbn. destruct (H y) as [d d' (Ht & _)|]; [|done]. cbn. by rewrite Ht.
Qed.

Lemma nodes_ok_same_threads v D L :
  same_threads (v_data v) D -> (forall y, y ∈ L PJoin -> y ∈ v_lists v PJoin) ->
  nodes_ok v -> nodes_ok (View D L (v_thrs v) (v_threads v) (v_current v)).
Proof.
  intros H HL [H2 H3 H4 H5 H6 H7].
  pose proof (vtid_same_threads v D L) as Ht.
  assert (forall y d', D !! y = Some d' -> exists d, v_data v !! y = Some d /\ same_thread d d') as Hd.
  { intros y d' E. pose proof (H y) as Hy. rewrite E in Hy. inversion Hy; eauto. }
  split; cbn [v_data v_lists v_thrs v_current].
  - destruct H2 as [Hc [d Ed]]. split; [done|]. pose proof (H (v_current v)) as Hy.
    rewrite Ed in Hy. inversion Hy; eauto.
  - intros y d' (d & Ed & _)%Hd. rewrite Ht by done. eauto.
  - intros y y' i. rewrite !Ht by done. apply H4.
  - intros y d' (d & Ed & (_ & _ & _ & Hp))%Hd. eauto.
  - intros y d' Hy (d & Ed & (_ & -> & _))%Hd. eauto.
  - intros y d' (d & Ed & (_ & -> & -> & _))%Hd. eauto.
Qed.

Section maintenance.
Context (PAGESIZE : Z) (stack : itimerval).
Context (Hps : 1024 <= PAGESIZE <= 32768).
Notation sys := (sys PAGESIZE).

(** A thread waits in a run queue. *)
Definition waiting_run (v : view) : Prop := exists k y, (k < 5)%nat /\ y ∈ v_lists v (PRun k).

(** What a round does to the view: the same threads in the same states, the
    same join list, and the others dealt out anew. *)
Record redealt (v v' : view) : Prop := Redealt {
  deal_current : v_current v' = v_current v;
  deal_thrs : v_thrs v' = v_thrs v;
  deal_threads : v_threads v' = v_threads v;
  deal_data : same_threads (v_data v) (v_data v');
  deal_join : v_lists v' PJoin = v_lists v PJoin;
  deal_listed p y : y ∈ v_lists v' p -> exists p', y ∈ v_lists v p';
  deal_waiting : waiting_run v -> waiting_run v'
}.

Lemma redealt_refl v : redealt v v.
Proof. split; eauto. done. Qed.

Lemma sys_idle s v l : sys s v l -> idle s (v_lists v).
Proof.
  intros Hs. split.
  - apply (sys_abs Hs).
  - intros k _. apply (sys_promotion Hs).
  - intros k. rewrite (abs_data _ _ (sys_abs Hs)). split; [apply (sys_yield Hs)|].
    rewrite (sys_promotion Hs). intros y d Hy. by apply elem_of_nil in Hy.
Qed.

(** Maintenance leaves a waiting thread waiting. *)
Lemma maintained_waiting t s L k y :
  idle s L -> (k < 5)%nat -> y ∈ L (PRun k) ->
  exists k', (k' < 5)%nat /\ y ∈ maintained (aged t (data s) (lower 4 0 L)) L (PRun k').
Proof.
  intros Hid Hk Hy.
  assert (y ∈ flat_map (fun k => maintained (aged t (data s) (lower 4 0 L)) L (PRun k)) (seq 0 5))
    as Hyf.
  { rewrite (maintained_perm t s L Hid), list_elem_of_In, in_flat_map.
    exists k. split; [apply in_seq; lia|by apply list_elem_of_In]. }
  rewrite list_elem_of_In, in_flat_map in Hyf. destruct Hyf as (k' & Hk'%in_seq & Hy'%list_elem_of_In).
  exists k'. split; [lia|done].
Qed.

Lemma dom_same_threads s s' D :
  same_threads (data s) D -> data s' = D -> dom (nodes s') = dom (nodes s).
Proof.
  intros HT Hd. rewrite <- (dom_fmap_L (with_next 0) (nodes s')), <- (dom_fmap_L (with_next 0) (nodes s)).
  fold (data s') (data s). rewrite Hd. apply set_eq. intros y. rewrite !elem_of_dom.
  pose proof (HT y) as Hy. inversion Hy; split; intros [? ?]; eauto; congruence.
Qed.

(** The loops of a round. *)
Lemma maintenance_body_sys t s v l :
  sys s v l ->
  exists s' v', maintenance_body t s = Ok (tt, s') /\ sys s' v' l /\ redealt v v' /\
    sys_same s s' /\ started s' = started s.
Proof.
  intros Hs. pose proof (sys_idle s v l Hs) as Hid. pose proof Hid as [Hr Hp Hny].
  pose proof (sys_promotion Hs) as Hpr. pose proof (abs_data _ _ (sys_abs Hs)) as HD.
  destruct (maintenance_loops t s (v_lists v) Hr Hp Hny) as (s' & E & Hr' & Hd' & Hsame).
  set (D0 := aged t (data s) (lower 4 0 (v_lists v))) in *.
  set (D := reshared 4 0 (collected 4 0 D0 (v_lists v)) D0) in *.
  set (L := maintained D0 (v_lists v)) in *.
  assert (same_threads (v_data v) D) as HT.
  { rewrite <- HD. etransitivity; [apply same_threads_aged|apply same_threads_reshared; lia]. }
  set (v' := View D L (v_thrs v) (v_threads v) (v_current v)).
  assert (forall p y, y ∈ L p -> exists p', y ∈ v_lists v p') as Hin
    by (intros p y; by apply maintained_incl).
  exists s', v'.
  pose proof (abs_lists s s' v D L (sys_abs Hs) Hr' Hd' Hsame) as Ha'.
  pose proof Hsame as (Est & _ & _ & _ & Eth & Ecy & Eal).
  assert (L PJoin = v_lists v PJoin) as HJ by done.
  clearbody D. assert (dom (nodes s') = dom (nodes s)) as Edom
    by (apply (dom_same_threads s s' D); [by rewrite HD|done]).
  split; [exact E|]. split; [|split; [split; try done|split; [|done]]].
  - split; try done.
    + split; [by apply nodes_ok_same_threads; [..|apply (sys_wf Hs)]|].
      intros p [p' Hy]%Hin. by apply (wf_loose _ (sys_wf Hs) p').
    + apply (ready_same _ s); [done|done|apply (sys_ready Hs)].
    + rewrite Ecy. apply (sys_cycles Hs).
    + intros k. by apply maintained_promotion.
    + intros p y [p' Hy]%Hin. pose proof (sys_listed Hs p' y Hy) as [d Ed].
      pose proof (HT y) as Hyy. rewrite Ed in Hyy. cbn [v_data v']. inversion Hyy; eauto.
    + intros k y d' [p' Hy]%Hin Ed'. pose proof (HT y) as Hyy. cbn [v_data v'] in Ed'. rewrite Ed' in Hyy.
      inversion Hyy as [d ? (_ & Est' & _) Ed E2|]; subst. rewrite Est'.
      destruct p' as [k'|k'|].
      * by apply (sys_yield Hs k' y).
      * rewrite Hpr in Hy. by apply elem_of_nil in Hy.
      * by rewrite (wf_join _ (sys_wf Hs) y d Hy).
    + intros y i. unfold v'. rewrite vtid_same_threads by done. rewrite Eth. apply (sys_ids Hs).
    + rewrite Eal. apply (sys_serves Hs).
    + intros y Hy. rewrite Eal. apply (sys_nodes Hs).
      rewrite <- elem_of_dom, Edom, elem_of_dom in Hy. exact Hy.
  - intros (k & y & Hk & Hy).
    destruct (maintained_waiting t s (v_lists v) k y Hid Hk Hy) as (k' & Hk' & Hy').
    by exists k', y.
  - split; [done|]. split; [done|]. by rewrite Eal.
Qed.

Lemma sys_cycles_set s v l n : 0 <= n <= 100 -> sys s v l -> sys (set_cycles n s) v l.
Proof.
  intros Hn [[K1 K2 K3 K4 K5] H2 [R1 R2 R3] H4 H5 H6 H7 H8 H9 H10].
  split; try done. split; try done. by apply (rep_same s).
Qed.

Definition sizeof_counters : Z := (RUN_QUEUE_SIZE - 1) * 4.

Lemma maintenance_sys t s v l :
  sys s v l -> seg_alloc 4 sizeof_counters (memory (al s)) l <> None ->
  exists s' v' l', maintenance PAGESIZE stack t s = Ok (tt, s') /\ sys s' v' l' /\
    redealt v v' /\ threadNum s' = threadNum s.
Proof.
  intros Hs Hroom. pose proof (wf_nodes _ (sys_wf Hs)) as Hok.
  destruct (lib_heap_sizes PAGESIZE Hps _ _ (serves_heap (sys_serves Hs))) as (Hsz & _).
  assert (0 < memory (al s)) as Hm0 by (apply (serves_heap (sys_serves Hs))).
  destruct (request_spec PAGESIZE stack Hps s v l sizeof_counters 0 (sys_abs Hs) Hok
    (ready_started _ _ (sys_ready Hs)) (sys_serves Hs) ltac:(done)) as [T H].
  destruct (seg_alloc 4 sizeof_counters (memory (al s)) l) as [[p l1]|] eqn:E; [|done].
  destruct H as (m & Em & Hs1).
  destruct (request_nodes (nodes s) _ l sizeof_counters p l1 ltac:(done) Hsz E (sys_nodes Hs)) as (Hf & Hn1 & Hp).
  pose proof (sys_set_al PAGESIZE s v l (al (answered T m [] s)) l1 Hs Hs1 eq_refl Hn1) as Hsys1.
  destruct (maintenance_body_sys t _ v l1 Hsys1)
    as (s2 & v2 & E2 & Hsys2 & Hrd & (Ed2 & Eth2 & Hh2) & Est2).
  change (set_al (al (answered T m [] s)) s) with (answered T m [] s) in *.
  assert (memory (al s2) = memory (al s)) as Em2 by apply Hh2.
  destruct (release_spec PAGESIZE stack Hps s2 v2 l1 p (Seg sizeof_counters false))
    as (T3 & m3 & l3 & E3 & Hs3 & Hn3).
  - apply (sys_abs Hsys2).
  - apply (sys_wf Hsys2).
  - apply (ready_started _ _ (sys_ready Hsys2)).
  - apply (sys_serves Hsys2).
  - rewrite Em2. apply (seg_alloc_live 4 _ _ _ _ _ E). by right.
  - apply (sys_nodes Hsys2).
  - apply not_elem_of_dom. rewrite Ed2. by apply not_elem_of_dom.
  - exists (answered T3 m3 [] s2), v2, l3. split; [|split; [|done]].
    + unfold maintenance. mstep by (unfold lib_need, need; mstep by exact Em;
        rewrite (Zeqb_f (p + 4) 0) by lia; done).
      mstep by exact E2. exact E3.
    + by apply (sys_set_al PAGESIZE s2 v2 l1).
Qed.

(** The count of the calls of [schedule]; every hundred and first one is a
    round of maintenance. *)
Lemma count_cycle_sys t s v l :
  sys s v l -> (cycles s = 100 -> seg_alloc 4 sizeof_counters (memory (al s)) l <> None) ->
  exists s' v' l', count_cycle PAGESIZE stack t s = Ok (tt, s') /\ sys s' v' l' /\
    redealt v v' /\ threadNum s' = threadNum s.
Proof.
  intros Hs Hroom. pose proof (sys_cycles Hs) as Hc. unfold count_cycle.
  destruct (decide (cycles s = 100)) as [E|Hne].
  - set (s1 := set_cycles 0 (set_cycles (cycles s + 1) s)).
    assert (sys s1 v l) as Hs1 by (apply (sys_cycles_set s v l 0); [lia|done]).
    destruct (maintenance_sys t s1 v l Hs1 (Hroom E)) as (s' & v' & l' & Em & H).
    exists s', v', l'. split; [|done]. mstep by done. mstep by done. cbn [cycles set_cycles].
    rewrite (Zltb_t 100) by lia. mstep by done. exact Em.
  - exists (set_cycles (cycles s + 1) s), v, l. split; [|split; [by apply sys_cycles_set; [lia|]|split; [apply redealt_refl|done]]].
    mstep by done. mstep by done. cbn [cycles set_cycles]. by rewrite (Zltb_f 100) by lia.
Qed.
End maintenance.
