(* ===== verification/JoinInv.v ===== *)
(** * Threads that joined

    Nothing resets the status JOINING of a thread that returned from
    [my_pthread_join].  [joins] is what holds of such threads between two calls
    of the library: whoever is not on the join list waits, by its node, for a
    thread that is gone.  [lost] says that a thread is on the join list and
    waits for a thread that is gone: no step brings it back. *)

From Stdlib Require Import Floats.SpecFloat.
From S2P Require Import Prelude Chain CMem SegHeap FirstFit BlockWord Timer MyAlloc WordHeap LibHeapSpec Queue Sched QueueSpec PageSpec SchedSpec SchedStep ScheduleSpec MaintSpec Frame SystemInv InitSpec CreateSpec MaintInv.

(** Nobody who runs or waits in a list has the identifier [i]. *)
Definition gone (v : view) (i : Z) : Prop := forall z, scheduled v z -> vtid v z <> Some i.

(** Node [y] waits, by what it holds, for the thread with identifier [i]. *)
Definition targets (v : view) (y i : Z) : Prop :=
  exists d, v_data v !! y = Some d /\ status d = JOINING /\ joinee d ∈ v_threads v /\
    tid <$> v_thrs v !! joinee d = Some i.

(** The threads that wait, and those that can run; [n] is the next identifier. *)
Record waits_ok (n : Z) (v : view) : Prop := WaitsOk {
  wo_run k y d : y ∈ v_lists v (PRun k) -> v_data v !! y = Some d -> status d = JOINING ->
    exists i, targets v y i /\ gone v i;
  wo_join y : y ∈ v_lists v PJoin -> exists i, targets v y i;
  wo_ids x i : x ∈ v_threads v -> tid <$> v_thrs v !! x = Some i -> i < n
}.

(** The same for the thread that runs. *)
Definition current_done (v : view) : Prop :=
  forall d, v_data v !! v_current v = Some d -> status d = JOINING ->
    exists i, targets v (v_current v) i /\ gone v i.

Record joins (n : Z) (v : view) : Prop := Joins {
  jo_waits : waits_ok n v;
  jo_current : current_done v
}.

(** While it waits for the processor to be taken, the running thread may wait
    for a thread that lives. *)
Definition current_targets (v : view) : Prop :=
  forall d, v_data v !! v_current v = Some d -> status d = JOINING -> exists i, targets v (v_current v) i.

Lemma current_done_targets v : current_done v -> current_targets v.
Proof. intros H d Ed Es. destruct (H d Ed Es) as (i & ? & _). by exists i. Qed.

(** Never to run again. *)
Definition lost (v : view) (y : Z) : Prop :=
  y ∈ v_lists v PJoin /\ exists i, targets v y i /\ gone v i.

(** About to be. *)
Definition losing (v : view) (y : Z) : Prop :=
  lost v y \/ (y = v_current v /\ exists i, targets v y i /\ gone v i).

Lemma targets_inj v y i j : targets v y i -> targets v y j -> i = j.
Proof. intros (d & Ed & _ & _ & Ei) (d' & Ed' & _ & _ & Ej). congruence. Qed.

Lemma lost_apart v y : wf v -> lost v y -> y <> v_current v.
Proof. intros Hwf [Hy _] ->. by apply (wf_loose _ Hwf PJoin). Qed.

(** ** Views that agree on what matters *)

(** What [targets] and [gone] read. *)
Lemma targets_mono v v' y i :
  v_data v' !! y = v_data v !! y -> v_threads v' = v_threads v ->
  (forall x, x ∈ v_threads v -> tid <$> v_thrs v' !! x = tid <$> v_thrs v !! x) ->
  targets v y i -> targets v' y i.
Proof. intros Ed Et Ex (d & H1 & H2 & H3 & H4). exists d. rewrite Ed, Et, Ex by done. done. Qed.

Lemma gone_mono v v' i :
  (forall z, scheduled v' z -> scheduled v z /\ vtid v' z = vtid v z) -> gone v i -> gone v' i.
Proof. intros H Hg z [Hz Et]%H. rewrite Et. by apply Hg. Qed.

(** The same lists and the same running thread, whose node or record may have
    changed. *)
Record alike (v v' : view) : Prop := Alike {
  al_lists : v_lists v' = v_lists v;
  al_current : v_current v' = v_current v;
  al_threads : v_threads v' = v_threads v;
  al_data y : y <> v_current v -> v_data v' !! y = v_data v !! y;
  al_tid x : tid <$> v_thrs v' !! x = tid <$> v_thrs v !! x;
  al_vtid y : vtid v' y = vtid v y
}.

Lemma alike_gone v v' i : alike v v' -> gone v i -> gone v' i.
Proof.
  intros Ha. apply gone_mono. intros z. unfold scheduled, held.
  by rewrite (al_lists _ _ Ha), (al_current _ _ Ha), (al_vtid _ _ Ha).
Qed.

Lemma alike_targets v v' y i : alike v v' -> y <> v_current v -> targets v y i -> targets v' y i.
Proof.
  intros Ha Hy. apply targets_mono; [by apply (al_data _ _ Ha)|apply Ha|intros x _; apply Ha].
Qed.

Lemma alike_waits n v v' : wf v -> alike v v' -> waits_ok n v -> waits_ok n v'.
Proof.
  intros Hwf Ha [H1 H2 H3]. pose proof (wf_loose _ Hwf) as Hl.
  assert (forall p y, y ∈ v_lists v p -> y <> v_current v) as Hne by (intros p y Hy ->; by apply (Hl p)).
  split.
  - intros k y d. rewrite (al_lists _ _ Ha). intros Hy. rewrite (al_data _ _ Ha) by (by eapply Hne).
    intros Ed Es. destruct (H1 k y d Hy Ed Es) as (i & Ht & Hg). exists i.
    split; [apply (alike_targets v); [done|by eapply Hne|done]|by eapply alike_gone].
  - intros y. rewrite (al_lists _ _ Ha). intros Hy. destruct (H2 y Hy) as (i & Ht). exists i.
    apply (alike_targets v); [done|by eapply Hne|done].
  - intros x i. rewrite (al_threads _ _ Ha), (al_tid _ _ Ha). apply H3.
Qed.

Lemma alike_lost v v' y : wf v -> alike v v' -> lost v y -> lost v' y.
Proof.
  intros Hwf Ha Hy. pose proof (lost_apart v y Hwf Hy) as Hne. destruct Hy as (Hy & i & Ht & Hg).
  split; [by rewrite (al_lists _ _ Ha)|]. exists i.
  split; [by apply (alike_targets v)|by apply (alike_gone v)].
Qed.

(** Only a record changed. *)
Lemma alike_joins n v v' : wf v -> alike v v' -> v_data v' = v_data v -> joins n v -> joins n v'.
Proof.
  intros Hwf Ha Hd [Hw Hc]. split; [by apply (alike_waits n v)|]. intros d.
  rewrite (al_current _ _ Ha), Hd. intros Ed Es. destruct (Hc d Ed Es) as (i & Ht & Hg). exists i.
  split; [|by apply (alike_gone v)]. revert Ht.
  apply targets_mono; [by rewrite Hd|apply Ha|intros x _; apply Ha].
Qed.

(** ** Rounds of maintenance *)

Lemma redealt_vtid v v' y : redealt v v' -> vtid v' y = vtid v y.
Proof.
  intros Hr. unfold vtid, tid_of. rewrite (deal_thrs _ _ Hr).
  destruct (deal_data _ _ Hr y) as [d d' (Et & _)|]; [|done]. cbn. by rewrite Et.
Qed.

Lemma redealt_gone v v' i : redealt v v' -> gone v i -> gone v' i.
Proof.
  intros Hr. apply gone_mono. intros z Hz. split; [|by apply redealt_vtid]. destruct Hz as [->|[p Hz]].
  - left. apply Hr.
  - right. by apply (deal_listed _ _ Hr p).
Qed.

Lemma redealt_targets v v' y i : redealt v v' -> targets v y i -> targets v' y i.
Proof.
  intros Hr (d & Ed & Es & Hj & Ei). pose proof (deal_data _ _ Hr y) as Hd. rewrite Ed in Hd.
  inversion Hd as [? d' (_ & Es' & Ej' & _) H1 H2|]; subst. exists d'.
  rewrite Es', Ej', (deal_threads _ _ Hr), (deal_thrs _ _ Hr). done.
Qed.

(** What a node held before. *)
Lemma redealt_data v v' y d' :
  redealt v v' -> v_data v' !! y = Some d' -> exists d, v_data v !! y = Some d /\ status d' = status d.
Proof.
  intros Hr Ed. pose proof (deal_data _ _ Hr y) as Hd. rewrite Ed in Hd.
  inversion Hd as [d ? (_ & Es & _) H1 H2|]; subst. eauto.
Qed.

Lemma redealt_waits n v v' :
  redealt v v' -> (forall k, v_lists v (PProm k) = []) ->
  (forall k y, y ∈ v_lists v' PJoin -> y ∉ v_lists v' (PRun k)) ->
  waits_ok n v -> waits_ok n v'.
Proof.
  intros Hr Hp Hdis [H1 H2 H3]. split.
  - intros k y d' Hy Ed'. destruct (redealt_data _ _ _ _ Hr Ed') as (d & Ed & ->). intros Es.
    destruct (deal_listed _ _ Hr _ _ Hy) as [[k'|k'|] Hy'].
    + destruct (H1 k' y d Hy' Ed Es) as (i & Ht & Hg). exists i.
      split; [by apply (redealt_targets v)|by apply (redealt_gone v)].
    + rewrite Hp in Hy'. by apply elem_of_nil in Hy'.
    + rewrite <- (deal_join _ _ Hr) in Hy'. by destruct (Hdis k y Hy').
  - intros y. rewrite (deal_join _ _ Hr). intros Hy. destruct (H2 y Hy) as (i & Ht). exists i.
    by apply (redealt_targets v).
  - intros x i. rewrite (deal_threads _ _ Hr), (deal_thrs _ _ Hr). apply H3.
Qed.

Lemma redealt_current v v' : redealt v v' -> current_targets v -> current_targets v'.
Proof.
  intros Hr H d'. rewrite (deal_current _ _ Hr). intros Ed'.
  destruct (redealt_data _ _ _ _ Hr Ed') as (d & Ed & ->). intros Es.
  destruct (H d Ed Es) as (i & Ht). exists i. by apply (redealt_targets v).
Qed.

Lemma redealt_losing v v' y : redealt v v' -> losing v y -> losing v' y.
Proof.
  intros Hr [[Hy (i & Ht & Hg)]|[-> (i & Ht & Hg)]].
  - left. split; [by rewrite (deal_join _ _ Hr)|]. exists i.
    split; [by apply (redealt_targets v)|by apply (redealt_gone v)].
  - right. split; [symmetry; apply Hr|]. exists i.
    split; [by apply (redealt_targets v)|by apply (redealt_gone v)].
Qed.

(** ** The abstract call of [schedule] *)

Lemma requeue_threads v : v_threads (v_requeue v) = v_threads v.
Proof.
  unfold v_requeue. destruct (v_data v !! v_current v) as [n|], (vtid v (v_current v)); try done.
  destruct (status n); try done. cbn. unfold v_dead. by destruct (v_find _ v).
Qed.

Lemma requeue_tid v x : tid <$> v_thrs (v_requeue v) !! x = tid <$> v_thrs v !! x.
Proof.
  unfold v_requeue. destruct (v_data v !! v_current v) as [n|], (vtid v (v_current v)); try done.
  destruct (status n); try done. apply v_dead_thrs.
Qed.

Lemma requeue_other v y : y <> v_current v -> v_data (v_requeue v) !! y = v_data v !! y.
Proof.
  intros Hy. unfold v_requeue. destruct (v_data v !! v_current v) as [n|], (vtid v (v_current v)); try done.
  destruct (status n); cbn [v_enQ v_status v_join v_wake v_data]; rewrite ?v_dead_data;
    by rewrite ?lookup_alter_ne.
Qed.

Lemma requeue_targets v y i : y <> v_current v -> targets v y i -> targets (v_requeue v) y i.
Proof.
  intros Hy. apply targets_mono; [by apply requeue_other|apply requeue_threads|].
  intros x _. apply requeue_tid.
Qed.

(** The node of a thread that waits is kept as it is. *)
Lemma requeue_targets_current v i :
  wf v -> targets v (v_current v) i -> targets (v_requeue v) (v_current v) i.
Proof.
  intros Hwf Ht. pose proof Ht as (d & Ed & Es & _). revert Ht.
  apply targets_mono; [|apply requeue_threads|intros x _; apply requeue_tid].
  destruct (wf_tid _ Hwf _ d Ed) as [j Ej]. unfold v_requeue. by rewrite Ed, Ej, Es.
Qed.

(** Nobody in the lists has the identifier [i]. *)
Definition gone_lists (v : view) (i : Z) : Prop := forall z, held v z -> vtid v z <> Some i.

Lemma requeue_gone v i : wf v -> gone v i -> gone_lists (v_requeue v) i.
Proof.
  intros Hwf Hg z [Hz|[-> _]]%held_requeue; [..|done]; rewrite vtid_requeue; apply Hg;
    [by right|by left].
Qed.

(** A thread that exits is gone. *)
Lemma requeue_exited v d i :
  wf v -> v_data v !! v_current v = Some d -> status d = EXITING -> vtid v (v_current v) = Some i ->
  gone_lists (v_requeue v) i.
Proof.
  intros Hwf Ed Es Ei z Hz Hv. rewrite vtid_requeue in Hv.
  pose proof (wf_inj _ Hwf _ _ _ Hv Ei) as ->. apply held_requeue in Hz as [[p Hz]|[_ Hx]]; [..|done].
  - by apply (wf_loose _ Hwf p).
  - unfold exiting in Hx. by rewrite Ed, Es in Hx.
Qed.

(** Who is in a run queue afterwards was there, is the thread that ran, or was
    woken by its exit. *)
Lemma requeue_run v k y :
  wf v -> y ∈ v_lists (v_requeue v) (PRun k) ->
  y ∈ v_lists v (PRun k) \/
  (y = v_current v /\ forall d, v_data (v_requeue v) !! y = Some d -> status d <> JOINING) \/
  (y ∈ v_lists v PJoin /\ exists d i, v_data v !! v_current v = Some d /\ status d = EXITING /\
     vtid v (v_current v) = Some i /\ waits (v_data v) (v_thrs (v_dead i v)) i y = true).
Proof.
  intros Hwf. destruct (wf_current _ Hwf) as [_ [d Ed]]. destruct (wf_tid _ Hwf _ d Ed) as [i Ei].
  assert (forall q, y ∈ upd (v_lists v) q (v_lists v q ++ [v_current v]) (PRun k) ->
    y ∈ v_lists v (PRun k) \/ y = v_current v) as Hq.
  { intros q [[<- Hy]|[_ Hy]]%elem_upd; [|by left]. apply elem_of_app in Hy as [Hy|Hy]; [by left|right].
    by apply list_elem_of_singleton in Hy. }
  unfold v_requeue. rewrite Ed, Ei. destruct (status d) eqn:Es.
  - intros [Hy| ->]%Hq; [by left|]. right. left. split; [done|]. intros d'. cbn [v_enQ v_data].
    rewrite lookup_alter_eq, Ed. intros [= <-]. by rewrite enq_status, Es.
  - intros [Hy| ->]%Hq; [by left|]. right. left. split; [done|]. intros d'. cbn [v_status v_data].
    rewrite lookup_alter_eq. by intros (d1 & _ & ->)%fmap_Some.
  - cbn [v_wake v_lists woken]. rewrite v_dead_lists, v_dead_data.
    intros [Hy|[Hy Hw]%elem_filter]%elem_of_app; [by left|]. right. right. split; [done|].
    exists d, i. apply andb_true_iff in Hw as [Hw _]. done.
  - cbn [v_join v_lists]. rewrite upd_other by done. by left.
Qed.

Lemma waits_targets v D' T i j y :
  D' = v_data v -> (forall x, tid <$> T !! x = tid <$> v_thrs v !! x) ->
  targets v y j -> waits D' T i y = (j =? i).
Proof.
  intros -> HT (d & Ed & _ & _ & Ej). unfold waits. rewrite Ed. specialize (HT (joinee d)).
  rewrite Ej in HT. destruct (T !! joinee d) as [t|]; [|done]. by injection HT as ->.
Qed.

(** Who is on the join list was there, or is the thread that ran. *)
Lemma requeue_join v y :
  wf v -> y ∈ v_lists (v_requeue v) PJoin ->
  y ∈ v_lists v PJoin \/ (y = v_current v /\ exists d, v_data v !! y = Some d /\ status d = JOINING).
Proof.
  intros Hwf. destruct (wf_current _ Hwf) as [_ [d Ed]]. destruct (wf_tid _ Hwf _ d Ed) as [i Ei].
  unfold v_requeue. rewrite Ed, Ei. destruct (status d) eqn:Es.
  - cbn [v_enQ v_lists]. rewrite upd_other by done. by left.
  - cbn [v_status v_enQ v_lists]. rewrite upd_other by done. by left.
  - intros Hy%woken_join. rewrite v_dead_lists in Hy. by left.
  - cbn [v_join v_lists]. rewrite upd_same. intros [->|Hy]%elem_of_cons; [right; eauto|by left].
Qed.

(** Who is about to be lost is on the join list then. *)
Lemma requeue_losing v y :
  wf v -> losing v y ->
  y ∈ v_lists (v_requeue v) PJoin /\ exists i, targets (v_requeue v) y i /\ gone_lists (v_requeue v) i.
Proof.
  intros Hwf [Hl|[-> (i & Ht & Hg)]].
  - pose proof (lost_apart v y Hwf Hl) as Hne. destruct Hl as (Hy & i & Ht & Hg).
    split; [|exists i; split; [by apply requeue_targets|by apply requeue_gone]].
    unfold v_requeue. destruct (v_data v !! v_current v) as [d|] eqn:Ed; [|done].
    destruct (vtid v (v_current v)) as [j|] eqn:Ej; [|done].
    destruct (status d); cbn [v_enQ v_status v_join v_wake v_lists woken].
    + by rewrite upd_other.
    + by rewrite upd_other.
    + rewrite v_dead_lists. apply elem_filter. split; [done|].
      rewrite (waits_targets v _ _ j i y (v_dead_data j v) (v_dead_thrs j v) Ht).
      rewrite Zeqb_f; [done|]. intros ->. by apply (Hg (v_current v)); [left|].
    + rewrite upd_same. by apply elem_of_cons; right.
  - split; [|exists i; split; [by apply requeue_targets_current|by apply requeue_gone]].
    pose proof Ht as (d & Ed & Es & _). destruct (wf_tid _ Hwf _ d Ed) as [j Ej].
    unfold v_requeue. rewrite Ed, Ej, Es. cbn [v_join v_lists]. rewrite upd_same. apply elem_of_cons. by left.
Qed.

(** *** The next thread *)

Lemma dispatch_vtid v y : vtid (fst (v_dispatch v)) y = vtid v y.
Proof. unfold v_dispatch. by destruct (next_run _ _ _) as [[[j x] l]|]. Qed.

Lemma dispatch_records v :
  v_thrs (fst (v_dispatch v)) = v_thrs v /\ v_threads (fst (v_dispatch v)) = v_threads v.
Proof. unfold v_dispatch. by destruct (next_run _ _ _) as [[[j x] l]|]. Qed.

Lemma dispatch_run v k y :
  next_run 5 0 (v_lists v) <> None ->
  (y = v_current (fst (v_dispatch v)) \/ y ∈ v_lists (fst (v_dispatch v)) (PRun k)) ->
  exists k, y ∈ v_lists v (PRun k).
Proof.
  unfold v_dispatch. destruct (next_run 5 0 (v_lists v)) as [[[j x] l]|] eqn:E; [|done]. intros _.
  apply next_run_head in E as [El _]. cbn [fst v_current v_lists].
  intros [->|[[_ Hy]|[_ Hy]]%elem_upd]; [exists (Z.to_nat j); rewrite El; by apply elem_of_cons; left| |eauto].
  exists (Z.to_nat j). rewrite El. by apply elem_of_cons; right.
Qed.

Lemma dispatch_join v : v_lists (fst (v_dispatch v)) PJoin = v_lists v PJoin.
Proof. unfold v_dispatch. by destruct (next_run _ _ _) as [[[j x] l]|]; [apply upd_other|]. Qed.

Lemma dispatch_targets v y i : targets v y i -> targets (fst (v_dispatch v)) y i.
Proof.
  destruct (dispatch_records v) as [E1 E2].
  apply targets_mono; [by rewrite dispatch_data|done|intros x _; by rewrite E1].
Qed.

Lemma dispatch_gone v i : (forall y, scheduled (fst (v_dispatch v)) y <-> held v y) ->
  gone_lists v i -> gone (fst (v_dispatch v)) i.
Proof. intros Hsch Hg z Hz%Hsch. rewrite dispatch_vtid. by apply Hg. Qed.

Lemma schedule_joins n s v :
  wf v -> abs s (v_requeue v) -> next_run 5 0 (v_lists (v_requeue v)) <> None ->
  waits_ok n v -> current_targets v ->
  joins n (fst (v_schedule v)) /\ forall y, losing v y -> lost (fst (v_schedule v)) y.
Proof.
  intros Hwf Ha Hne [H1 H2 H3] Hc. unfold v_schedule. set (w := v_requeue v) in *.
  destruct (dispatch_ok s w Ha (v_requeue_ok v Hwf) Hne) as [_ Hsch].
  assert (forall k y d, y ∈ v_lists w (PRun k) -> v_data w !! y = Some d -> status d = JOINING ->
    exists i, targets w y i /\ gone_lists w i) as Hrun.
  { intros k y d Hy Ed Es. destruct (requeue_run v k y Hwf Hy) as [Ho|[[-> Hn]|[Hj (dc & i & Edc & Ex & Ei & Hw)]]].
    - assert (y <> v_current v) as Hyc by (intros ->; by apply (wf_loose _ Hwf (PRun k))).
      unfold w in Ed. rewrite requeue_other in Ed by done. destruct (H1 k y d Ho Ed Es) as (i & Ht & Hg).
      exists i. split; [by apply requeue_targets|by apply requeue_gone].
    - by destruct (Hn d Ed).
    - assert (y <> v_current v) as Hyc by (intros ->; by apply (wf_loose _ Hwf PJoin)).
      destruct (H2 y Hj) as (j & Ht). exists i.
      rewrite (waits_targets v _ _ i j y eq_refl (v_dead_thrs i v) Ht) in Hw. bprop. subst j.
      split; [by apply requeue_targets|by eapply requeue_exited]. }
  split; [split; [split|]|].
  - intros k y d Hy. rewrite dispatch_data. intros Ed Es.
    destruct (dispatch_run w k y Hne (or_intror Hy)) as [k' Hy'].
    destruct (Hrun k' y d Hy' Ed Es) as (i & Ht & Hg). exists i.
    split; [by apply dispatch_targets|by apply dispatch_gone].
  - intros y. rewrite dispatch_join. intros [Hy|[-> (d & Ed & Es)]]%requeue_join; [..|done].
    + assert (y <> v_current v) as Hyc by (intros ->; by apply (wf_loose _ Hwf PJoin)).
      destruct (H2 y Hy) as (i & Ht). exists i. by apply dispatch_targets, requeue_targets.
    + destruct (Hc d Ed Es) as (i & Ht). exists i. by apply dispatch_targets, requeue_targets_current.
  - intros x i. destruct (dispatch_records w) as [-> ->]. unfold w.
    rewrite requeue_threads, requeue_tid. apply H3.
  - intros d. rewrite dispatch_data. intros Ed Es.
    destruct (dispatch_run w 0 _ Hne (or_introl eq_refl)) as [k' Hy'].
    destruct (Hrun k' _ d Hy' Ed Es) as (i & Ht & Hg). exists i.
    split; [by apply dispatch_targets|by apply dispatch_gone].
  - intros y (Hy & i & Ht & Hg)%requeue_losing; [|done]. split; [by rewrite dispatch_join|].
    exists i. split; [by apply dispatch_targets|by apply dispatch_gone].
Qed.

(** ** A new thread *)

Section create.
Context (s : sched) (v : view) (x a ctx clock : Z).
Context (Hx : unused x v) (Ha : v_data v !! a = None).
Notation v' := (v_create x (threadNum s) a ctx clock v).

Lemma create_targets y i : targets v y i -> targets v' y i.
Proof.
  intros (d & Ed & Es & Hj & Ei). exists d.
  assert (y <> a) as Hy by congruence.
  assert (joinee d <> x) as Hd by (intros E; rewrite E in Hj; by apply (unused_listed _ _ Hx)).
  unfold v_create, v_enQ. cbn. rewrite lookup_alter_ne, !lookup_insert_ne by done.
  split_and!; try done. by apply elem_of_cons; right.
Qed.

Lemma create_scheduled z : scheduled v' z -> scheduled v z \/ z = a.
Proof.
  intros [->|[p Hz]]; [by left; left|]. rewrite create_lists in Hz.
  apply elem_upd in Hz as [[_ Hz]|[_ Hz]]; [|left; right; by exists p].
  apply elem_of_app in Hz as [Hz|Hz%list_elem_of_singleton]; [left; right; by exists (PRun 0)|by right].
Qed.

Lemma create_gone i : i < threadNum s -> gone v i -> gone v' i.
Proof.
  intros Hi Hg z Hz. rewrite create_vtid by done. case_decide as E; [intros [= H]; lia|].
  apply create_scheduled in Hz as [Hz| ->]; [by apply Hg|done].
Qed.

Lemma targets_bound n y i : waits_ok n v -> targets v y i -> i < n.
Proof. intros Hw (d & _ & _ & Hj & Ei). by eapply (wo_ids _ _ Hw). Qed.

Lemma create_joins :
  joins (threadNum s) v ->
  joins (threadNum s + 1) v' /\ forall y, lost v y -> lost v' y.
Proof.
  intros [Hw Hc]. pose proof Hw as [H1 H2 H3].
  assert (forall y d, v_data v' !! y = Some d -> status d = JOINING -> v_data v !! y = Some d) as Hd.
  { intros y d [(-> & -> & _)|[_ Ed]]%create_data; [done|done]. }
  assert (forall y, (exists i, targets v y i /\ gone v i) -> exists i, targets v' y i /\ gone v' i) as Hm.
  { intros y (i & Ht & Hg). exists i. split; [by apply create_targets|].
    apply create_gone; [by eapply targets_bound|done]. }
  assert (forall p y, y ∈ v_lists v' p -> y = a \/ y ∈ v_lists v p) as Hl.
  { intros p y. rewrite create_lists, elem_upd, elem_of_app, list_elem_of_singleton. naive_solver. }
  split; [split; [split|]|].
  - intros k y d [->|Hy]%Hl Ed Es; pose proof (Hd _ _ Ed Es) as Ed'; [congruence|].
    apply Hm. by apply (H1 k y d).
  - intros y. rewrite create_lists, upd_other by done. intros Hy. destruct (H2 y Hy) as (i & Ht).
    exists i. by apply create_targets.
  - intros z i [->|Hz]%elem_of_cons; cbn [v_create v_enQ v_node v_thread v_thrs].
    + rewrite lookup_insert_eq. intros [= <-]. cbn. lia.
    + rewrite lookup_insert_ne by (intros ->; by apply (unused_listed _ _ Hx)).
      intros Ei. specialize (H3 z i Hz Ei). lia.
  - intros d Ed Es. pose proof (Hd _ _ Ed Es) as Ed'. apply Hm. by apply (Hc d).
  - intros y [Hy Hg]. split; [by rewrite create_lists, upd_other by done|by apply Hm].
Qed.
End create.
