(* ===== verification/SystemStep.v ===== *)
(** * The steps of the running library

    Every entry point of the library keeps the invariant [sys] and what [joins]
    says of threads that joined, and leaves a lost thread lost. *)

From Stdlib Require Import Floats.SpecFloat.
From S2P Require Import Prelude Chain CMem SegHeap FirstFit BlockWord Timer MyAlloc WordHeap LibHeapSpec Queue Sched QueueSpec PageSpec SchedSpec SchedStep ScheduleSpec MaintSpec PagingSpec ThreadHeap ThreadHeapSpec HeapGrowth Evict SpillSpec Frame PagesKept SystemInv InitSpec CreateSpec MaintInv JoinInv.

(** ** The abstract call of [schedule] *)

Lemma requeue_dom v y : is_Some (v_data (v_requeue v) !! y) <-> is_Some (v_data v !! y).
Proof.
  unfold v_requeue. destruct (v_data v !! v_current v) as [n|] eqn:En; [|done].
  destruct (vtid v (v_current v)) as [i|]; [|done].
  destruct (status n); cbn [v_enQ v_status v_join v_wake v_data]; rewrite ?v_dead_data; try done;
    by rewrite !lookup_alter_is_Some.
Qed.

Lemma requeue_promotion v k : v_lists (v_requeue v) (PProm k) = v_lists v (PProm k).
Proof.
  unfold v_requeue. destruct (v_data v !! v_current v) as [n|]; [|done].
  destruct (vtid v (v_current v)) as [i|]; [|done].
  destruct (status n); cbn [v_enQ v_status v_join v_wake v_lists woken qplace];
    rewrite ?v_dead_lists, ?upd_other by done; done.
Qed.

Lemma dispatch_lists v p y : y ∈ v_lists (fst (v_dispatch v)) p -> y ∈ v_lists v p.
Proof.
  unfold v_dispatch. destruct (next_run 5 0 (v_lists v)) as [[[j x] l]|] eqn:E; [|done].
  cbn [fst v_lists]. apply next_run_head in E as [El _].
  intros [[-> Hy]|[_ Hy]]%elem_upd; [|done]. rewrite El. by apply elem_of_cons; right.
Qed.

(** Nobody in a run queue has the state of a thread that yields. *)
Lemma requeue_no_yield v k :
  wf v -> (forall k, no_yield (v_data v) (v_lists v (PRun k))) ->
  no_yield (v_data (v_requeue v)) (v_lists (v_requeue v) (PRun k)).
Proof.
  intros Hwf Hny. unfold v_requeue.
  destruct (v_data v !! v_current v) as [n|] eqn:En; [|apply Hny].
  destruct (vtid v (v_current v)) as [i|]; [|apply Hny].
  assert (forall f y d, status (f n) <> YIELDING ->
    (y = v_current v \/ y ∈ v_lists v (PRun k)) ->
    alter f (v_current v) (v_data v) !! y = Some d -> status d <> YIELDING) as Hf.
  { intros f y d Hs Hy. destruct (decide (y = v_current v)) as [->|Hne].
    - rewrite lookup_alter_eq, En. by intros [= <-].
    - rewrite lookup_alter_ne by done. destruct Hy as [->|Hy]; [done|]. by apply (Hny k). }
  assert (forall i y, y ∈ upd (v_lists v) (PRun i) (v_lists v (PRun i) ++ [v_current v]) (PRun k) ->
    y = v_current v \/ y ∈ v_lists v (PRun k)) as Hl.
  { intros j y [[-> Hy]|[_ Hy]]%elem_upd; [|by right].
    apply elem_of_app in Hy as [Hy|Hy%list_elem_of_singleton]; [by right|by left]. }
  destruct (status n) eqn:Est.
  - intros y d Hy%Hl. apply Hf; [by rewrite enq_status, Est|done].
  - intros y d Hy%Hl. cbn [v_status v_enQ v_data]. intros Ed.
    apply (Hf (fun d => with_status NEUTRAL (enq_node (RunQ (priority n))
      (v_lists v (qplace (RunQ (priority n)))) d)) y d); [done|done|].
    destruct (decide (y = v_current v)) as [->|Hne].
    + rewrite lookup_alter_eq, lookup_alter_eq, En in Ed. by rewrite lookup_alter_eq, En.
    + rewrite lookup_alter_ne, lookup_alter_ne in Ed by done. by rewrite lookup_alter_ne.
  - cbn [v_wake v_data v_lists woken]. rewrite v_dead_data, v_dead_lists.
    intros y d [Hy|[Hy _]%elem_filter]%elem_of_app Ed; [by apply (Hny k y)|].
    by rewrite (wf_join _ Hwf y d Hy Ed).
  - intros y d Hy. cbn [v_join v_lists] in Hy. rewrite upd_other in Hy by done. by apply (Hny k).
Qed.

(** A thread that waits in a run queue waits after [v_requeue]. *)
Lemma requeue_waiting v k y : y ∈ v_lists v (PRun k) -> y ∈ v_lists (v_requeue v) (PRun k).
Proof.
  intros Hy. unfold v_requeue. destruct (v_data v !! v_current v) as [n|]; [|done].
  destruct (vtid v (v_current v)) as [i|]; [|done].
  assert (forall q, y ∈ upd (v_lists v) q (v_lists v q ++ [v_current v]) (PRun k)) as Hq.
  { intros q. apply elem_upd. destruct (decide (PRun k = q)) as [<-|?]; [left|by right].
    split; [done|]. apply elem_of_app. by left. }
  destruct (status n).
  - apply Hq.
  - apply Hq.
  - cbn [v_wake v_lists woken]. rewrite v_dead_lists. apply elem_of_app. by left.
  - cbn [v_join v_lists]. by rewrite upd_other by done.
Qed.

Lemma next_run_some n i L k y :
  0 <= i -> y ∈ L (PRun k) -> i <= Z.of_nat k < i + Z.of_nat n -> next_run n i L <> None.
Proof.
  revert i. induction n as [|n IH]; intros i Hi Hy Hk; [lia|]. cbn [next_run].
  destruct (L (qplace (RunQ i))) as [|z l] eqn:E; [|done].
  destruct (decide (Z.of_nat k = i)) as [<-|Hne].
  - cbn [qplace] in E. rewrite Nat2Z.id in E. rewrite E in Hy. by apply elem_of_nil in Hy.
  - apply IH; [lia|done|lia].
Qed.

Lemma waiting_next v : waiting_run v -> next_run 5 0 (v_lists (v_requeue v)) <> None.
Proof.
  intros (k & y & Hk & Hy). apply (next_run_some 5 0 _ k y); [lia|by apply requeue_waiting|lia].
Qed.

(** Somebody can take the processor: a thread waits in a run queue, the running
    one goes to a run queue itself, or its exit wakes one. *)
Definition can_pass (v : view) : Prop :=
  waiting_run v \/
  exists d, v_data v !! v_current v = Some d /\
    (status d = NEUTRAL \/ status d = YIELDING \/
     (status d = EXITING /\ exists i y, vtid v (v_current v) = Some i /\ y ∈ v_lists v PJoin /\
        waits (v_data v) (v_thrs v) i y = true)).

(** Views that agree on the data of node [y] and on identifiers. *)
Lemma waits_same v v' i y :
  (exists d d', v_data v !! y = Some d /\ v_data v' !! y = Some d' /\ joinee d' = joinee d) ->
  (forall x, tid <$> v_thrs v' !! x = tid <$> v_thrs v !! x) ->
  waits (v_data v') (v_thrs v') i y = waits (v_data v) (v_thrs v) i y.
Proof.
  intros (d & d' & Ed & Ed' & Ej) Ht. unfold waits. rewrite Ed, Ed', Ej. specialize (Ht (joinee d)).
  destruct (v_thrs v !! joinee d), (v_thrs v' !! joinee d); try done. by injection Ht as ->.
Qed.

Lemma waits_some v i y : waits (v_data v) (v_thrs v) i y = true -> is_Some (v_data v !! y).
Proof. unfold waits. destruct (v_data v !! y); [eauto|done]. Qed.

Lemma can_pass_next v : wf v -> can_pass v -> next_run 5 0 (v_lists (v_requeue v)) <> None.
Proof.
  intros Hwf [Hw|(d & Ed & Hd)]; [by apply waiting_next|].
  pose proof (wf_priority _ Hwf _ _ Ed) as Hp. destruct (wf_tid _ Hwf _ _ Ed) as [i Ei].
  assert (forall p L, 0 <= p < 5 -> L = upd (v_lists v) (qplace (RunQ p)) (v_lists v (qplace (RunQ p)) ++ [v_current v]) ->
    next_run 5 0 L <> None) as Hq.
  { intros p L Hr ->. apply (next_run_some 5 0 _ (Z.to_nat p) (v_current v)); [lia| |lia].
    cbn [qplace]. rewrite upd_same. set_solver. }
  unfold v_requeue. rewrite Ed, Ei. destruct Hd as [Es|[Es|[Es (j & y & Ej & Hy & Hw)]]]; rewrite Es.
  - by apply (Hq (demoted (priority d))); [apply demoted_level|].
  - by apply (Hq (priority d)).
  - rewrite Ei in Ej. injection Ej as <-. destruct (waits_some _ _ _ Hw) as [dy Edy].
    pose proof (wf_priority _ Hwf _ _ Edy) as Hpy.
    apply (next_run_some 5 0 _ (Z.to_nat (priority dy)) y); [lia| |lia].
    cbn [v_wake v_lists woken]. rewrite v_dead_lists. apply elem_of_app. right.
    apply elem_filter. split; [done|].
    rewrite (waits_same v (v_dead i v)), Hw; [|exists dy, dy; by rewrite v_dead_data|apply v_dead_thrs].
    unfold level_is. rewrite v_dead_data, Edy, Z2Nat.id by lia. cbn. apply Z.eqb_refl.
Qed.

Lemma redealt_pass v v' : redealt v v' -> can_pass v -> can_pass v'.
Proof.
  intros Hr [Hw|(d & Ed & Hd)]; [left; by apply (deal_waiting _ _ Hr)|right].
  pose proof (deal_data _ _ Hr (v_current v)) as Hc. rewrite Ed in Hc.
  inversion Hc as [? d' (_ & Es & _) H1 H2|]; subst. exists d'.
  rewrite (deal_current _ _ Hr). split; [done|]. rewrite Es, (redealt_vtid v v' _ Hr).
  destruct Hd as [?|[?|[? (j & y & Ej & Hy & Hw)]]]; auto. right. right. split; [done|]. exists j, y.
  split; [done|]. split; [by rewrite (deal_join _ _ Hr)|]. rewrite <- Hw. apply waits_same.
  - destruct (waits_some _ _ _ Hw) as [dy Edy]. pose proof (deal_data _ _ Hr y) as Hdy.
    rewrite Edy in Hdy. inversion Hdy as [? dy' (_ & _ & Ej' & _) H3 H4|]; subst. by exists dy, dy'.
  - intros x. by rewrite (deal_thrs _ _ Hr).
Qed.

(** A chain to NULL is determined by its first link. *)
Lemma chain_same {A} (nx : A -> Z) m a l l' : Chain.chain nx m a l 0 -> Chain.chain nx m a l' 0 -> l = l'.
Proof.
  revert a l'. induction l as [|x l IH]; intros a [|x' l']; cbn.
  - done.
  - intros -> (<- & ? & _). done.
  - intros (-> & ? & _) ->. done.
  - intros (-> & _ & n & En & H) (<- & _ & n' & En' & H'). rewrite En in En'. injection En' as <-.
    f_equal. by eapply IH.
Qed.

Section system.
Context (PAGESIZE : Z) (stack : itimerval).
Context (Hps : 1024 <= PAGESIZE <= 32768).
Notation sys := (sys PAGESIZE).

(** What a step leaves: the invariant, and the threads in [keep] lost. *)
Definition after_step (keep : Z -> Prop) (s : sched) : Prop :=
  exists v l, sys s v l /\ joins (threadNum s) v /\ forall y, keep y -> lost v y.

(** ** [schedule] keeps the invariant *)

Lemma tail_sys s v l :
  sys s v l -> can_pass v ->
  exists sw s' s1, (_ ← requeue PAGESIZE; dispatch PAGESIZE) s = Ok (sw, s') /\
    sys s' (fst (v_schedule v)) l /\ threadNum s' = threadNum s /\ abs s1 (v_requeue v).
Proof.
  intros Hs Hw. pose proof (sys_wf Hs) as Hwf. pose proof (can_pass_next v Hwf Hw) as Hne.
  destruct (requeue_spec PAGESIZE s v (sys_abs Hs) Hwf (sys_ready Hs)) as (s1 & E1 & Ha1 & Hr1 & Ec1).
  destruct (dispatch_spec PAGESIZE s1 _ Ha1 (v_requeue_ok v Hwf) Hr1) as (s' & E' & Ha' & Hr' & Ec' & _).
  destruct (dispatch_ok s1 _ Ha1 (v_requeue_ok v Hwf) Hne) as [Hwf' Hsch].
  assert (sys_same s s') as (Edom & Eth & Hheap).
  { transitivity s1; [by eapply requeue_keeps|by eapply dispatch_keeps]. }
  exists (snd (v_schedule v)), s', s1. split; [by mstep by exact E1|]. split; [|by split].
  unfold v_schedule. split; try done.
  - rewrite Ec', Ec1. apply (sys_cycles Hs).
  - intros k. destruct (v_lists (fst (v_dispatch (v_requeue v))) (PProm k)) as [|y l'] eqn:E; [done|].
    assert (y ∈ v_lists (v_requeue v) (PProm k)) as Hy by (apply dispatch_lists; rewrite E; set_solver).
    rewrite requeue_promotion, (sys_promotion Hs) in Hy. by apply elem_of_nil in Hy.
  - intros p y Hy%dispatch_lists. rewrite dispatch_data, requeue_dom.
    destruct (proj1 (held_requeue v y Hwf) (ex_intro _ p Hy)) as [[p' Hp']|[-> _]].
    + by apply (sys_listed Hs p').
    + apply (wf_current _ Hwf).
  - intros k y d Hy%dispatch_lists. rewrite dispatch_data.
    by apply (requeue_no_yield v k Hwf (sys_yield Hs)).
  - intros y i. rewrite dispatch_vtid, vtid_requeue, Eth. apply (sys_ids Hs).
  - by apply (serves_same PAGESIZE (al s)); [|apply (sys_serves Hs)].
  - intros y Hy. destruct Hheap as (_ & -> & _). apply (sys_nodes Hs).
    rewrite <- elem_of_dom, Edom, elem_of_dom in Hy. exact Hy.
Qed.

(** Room for the counters of [maintenance], when its round comes. *)
Definition counters_fit (s : sched) (l : list seg) : Prop :=
  cycles s = 100 -> seg_alloc 4 sizeof_counters (memory (al s)) l <> None.

Lemma timer_sys s v l f : sys s v l -> sys (set_al (set_tim (f (tim (al s))) (al s)) s) v l.
Proof.
  intros Hs. apply (sys_set_al PAGESIZE s v l); [done| |done|apply (sys_nodes Hs)].
  by destruct (sys_serves Hs).
Qed.

Lemma schedule_sys t s v l :
  sys s v l -> waits_ok (threadNum s) v -> current_targets v -> can_pass v -> counters_fit s l ->
  exists sw s', schedule PAGESIZE stack t s = Ok (sw, s') /\ after_step (losing v) s'.
Proof.
  intros Hs Hw Hc Hp Hroom.
  pose proof (timer_sys s v l (pause_timer stack) Hs) as Hs1. set (s1 := set_al _ s) in Hs1.
  destruct (count_cycle_sys PAGESIZE stack Hps t s1 v l Hs1 Hroom) as (s2 & v2 & l2 & E2 & Hs2 & Hr & En2).
  change (threadNum s1) with (threadNum s) in En2.
  destruct (tail_sys s2 v2 l2 Hs2 (redealt_pass v v2 Hr Hp)) as (sw & s' & s3 & E' & Hs' & En' & Ha3).
  pose proof (sys_wf Hs2) as Hwf2. pose proof (abs_rep _ _ (sys_abs Hs2)) as Hrep.
  destruct (schedule_joins (threadNum s') s3 v2 Hwf2 Ha3) as [Hj Hl].
  - by apply can_pass_next, (redealt_pass v).
  - rewrite En', En2. apply (redealt_waits _ v); [done|apply (sys_promotion Hs)| |done].
    intros k y H1 H2. by pose proof (rep_disj _ _ Hrep _ _ _ H1 H2).
  - by apply (redealt_current v).
  - exists sw, s'. split.
    + unfold schedule. mstep by done. fold s1. mstep by exact E2. exact E'.
    + exists (fst (v_schedule v2)), l2. split; [done|]. split; [done|].
      intros y Hy. apply Hl. by apply (redealt_losing v).
Qed.

(** ** The steps before the call of [schedule] *)

(** The running thread's node gets another state. *)
Lemma current_sys s v l f n :
  sys s v l -> nodes s !! current s = Some n ->
  (forall m, with_next 0 (f m) = f (with_next 0 m)) -> next (f n) = next n ->
  (forall m, threadID (f m) = threadID m /\ priority (f m) = priority m) ->
  (forall m, status (f m) = JOINING -> joinee (f m) <> 0 /\ is_Some (v_thrs v !! joinee (f m))) ->
  let s' := set_nodes (<[current s := f n]>) s in
  upd_node (current s) f s = Ok (tt, s') /\
  exists v', sys s' v' l /\ alike v v' /\ v_thrs v' = v_thrs v /\
    v_data v' !! v_current v' = Some (with_next 0 (f n)).
Proof.
  intros Hs En Hfn Hnx Hft Hj s'. pose proof (sys_wf Hs) as Hwf. pose proof (sys_abs Hs) as Ha.
  pose proof (abs_current _ _ Ha) as Ec. destruct (wf_current _ Hwf) as [Hc0 _].
  assert (upd_node (current s) f s = Ok (tt, s')) as Eu by (apply upd_node_ok; [done|congruence]).
  split; [done|].
  set (v' := View (alter f (v_current v) (v_data v)) (v_lists v) (v_thrs v) (v_threads v) (v_current v)).
  assert (forall y, vtid v' y = vtid v y) as Ht.
  { intros y. unfold vtid, tid_of, v'. cbn. destruct (decide (y = v_current v)) as [->|Hne].
    - rewrite lookup_alter_eq. destruct (v_data v !! v_current v); [|done]. cbn. by rewrite (proj1 (Hft _)).
    - by rewrite lookup_alter_ne. }
  assert (nodes_ok v') as Hok.
  { apply nodes_ok_alter; [apply Hft| | |apply Hwf].
    - intros m Em. rewrite (proj2 (Hft m)). by apply (wf_priority _ Hwf _ m Em).
    - intros m Em. right. split; [apply (wf_loose _ Hwf)|apply Hj]. }
  exists v'. split; [|split; [split; try done|split; [done|]]].
  2: { intros y Hy. cbn. by rewrite lookup_alter_ne. }
  2: { cbn. rewrite <- Ec, lookup_alter_eq, <- (abs_data _ _ Ha). unfold data.
       by rewrite lookup_fmap, En, Hfn. }
  destruct Hs as [_ _ [R1 R2 R3] H4 H5 H6 H7 H8 H9 H10]. split; try done.
  - destruct Ha as [K1 K2 K3 K4 K5]. split; try done.
    + by apply (rep_upd s _ _ n).
    + unfold s'. rewrite (data_alter s _ n) by done. rewrite K2, Ec. done.
  - by split; [|apply (wf_loose _ Hwf)].
  - intros p y Hy. cbn. rewrite lookup_alter_is_Some. by apply (H6 p).
  - intros k y d Hy. cbn. rewrite lookup_alter_ne; [by apply (H7 k)|].
    intros <-. by apply (wf_loose _ Hwf (PRun k)).
  - intros y i. rewrite Ht. apply H8.
  - intros y Hy. apply H10. destruct (upd_node_keeps (current s) f s tt s' Eu) as (Edom & _).
    rewrite <- elem_of_dom, Edom, elem_of_dom in Hy. exact Hy.
Qed.

(** A record changes, but for its identifier and its link. *)
Lemma record_sys s v l f x t :
  sys s v l -> thrs s !! x = Some t -> (forall t, tid (f t) = tid t /\ tnext (f t) = tnext t) ->
  exists v', sys (set_thrs (<[x := f t]>) s) v' l /\ alike v v' /\ v_data v' = v_data v.
Proof.
  intros Hs Et Hf. pose proof (sys_abs Hs) as [K1 K2 K3 [K4 K4'] K5].
  assert (<[x := f t]> (thrs s) = alter f x (v_thrs v)) as Em.
  { rewrite <- K3. apply map_eq. intros j. destruct (decide (j = x)) as [->|Hne].
    - by rewrite lookup_insert_eq, lookup_alter_eq, Et.
    - by rewrite lookup_insert_ne, lookup_alter_ne. }
  set (v' := View (v_data v) (v_lists v) (alter f x (v_thrs v)) (v_threads v) (v_current v)).
  assert (forall z, tid <$> v_thrs v' !! z = tid <$> v_thrs v !! z) as Hz.
  { intros z. cbn. destruct (decide (z = x)) as [->|Hne]; [|by rewrite lookup_alter_ne].
    rewrite lookup_alter_eq. destruct (v_thrs v !! x); [|done]. cbn. by rewrite (proj1 (Hf _)). }
  assert (forall y, vtid v' y = vtid v y) as Ht.
  { intros y. unfold vtid, tid_of. destruct (v_data v !! y) as [d|] eqn:Ed; cbn [v_data v'];
      rewrite Ed; [|done]. cbn [mbind option_bind]. by rewrite Hz. }
  exists v'. split; [|by split]. destruct Hs as [_ Hwf [R1 R2 R3] H4 H5 H6 H7 H8 H9 H10].
  destruct Hwf as [[W1 W2 W3 W4 W5 W6] W7]. split; try done.
  - split; try done; [by apply (rep_same s)|split; [|done]]. cbn.
    apply tlinked_alter; [apply Hf|done].
  - split; [|done]. split; try done.
    + intros y n En. rewrite Ht. eauto.
    + intros y y' i. rewrite !Ht. eauto.
    + intros y n En Est. destruct (W6 y n En Est) as [Hj Hsm]. split; [done|].
      cbn. by rewrite lookup_alter_is_Some.
  - intros y i. rewrite Ht. apply H8.
Qed.

End system.
