(* ===== verification/SystemCalls.v ===== *)
(** * The entry points of the library

    What [my_pthread_create], [my_pthread_yield], [my_pthread_exit],
    [my_pthread_join], the signal handler and the return of a thread do to the
    running library, under the conditions they need: room in the library heap,
    and a thread that takes the processor. *)

From Stdlib Require Import Floats.SpecFloat.
From S2P Require Import Prelude Chain CMem SegHeap FirstFit BlockWord Timer MyAlloc WordHeap LibHeapSpec Queue Sched QueueSpec PageSpec SchedSpec SchedStep ScheduleSpec MaintSpec PagingSpec ThreadHeap ThreadHeapSpec HeapGrowth Evict SpillSpec Frame PagesKept SystemInv InitSpec CreateSpec MaintInv JoinInv SystemStep.

Section system.
Context (PAGESIZE : Z) (stack : itimerval) (sizeof_ucontext : Z).
Context (Hps : 1024 <= PAGESIZE <= 32768) (Huc : 0 <= sizeof_ucontext <= 40000).
Notation sys := (sys PAGESIZE).
Notation after_step := (after_step PAGESIZE).

(** The state between two calls. *)
Definition good (s : sched) : Prop := exists v l, sys s v l /\ joins (threadNum s) v.

(** The view in which a call finds the library. *)
Definition stands (s : sched) (v : view) (l : list seg) : Prop := sys s v l /\ joins (threadNum s) v.

Lemma after_good keep s : after_step keep s -> good s.
Proof. intros (v & l & Hs & Hj & _). by exists v, l. Qed.

(** ** Conditions on states *)

(** Another thread can run: a run queue is not empty. *)
Definition runnable (s : sched) : Prop :=
  exists k q, (k < 5)%nat /\ runQ s !! k = Some q /\ head q <> 0.

(** The running thread keeps a place in a run queue. *)
Definition stays_runnable (s : sched) : Prop :=
  exists n, nodes s !! current s = Some n /\ status n = NEUTRAL.

(** A thread on the join list waits for the running one. *)
Definition awaited (s : sched) : Prop :=
  exists L y n j c t, linked (nodes s) (joinList s) L /\ y ∈ L /\
    nodes s !! y = Some n /\ thrs s !! joinee n = Some j /\
    nodes s !! current s = Some c /\ thrs s !! threadID c = Some t /\ tid j = tid t.

(** There is nobody to wait for: no thread has this identifier, or it has died. *)
Definition finished (s : sched) (id : Z) : Prop :=
  exists x, search_threads id s = Ok (x, s) /\
    (x = 0 \/ exists t, thrs s !! x = Some t /\ isDead t = 1).

(** The caller's record is free for a new thread. *)
Definition fresh_record (x : Z) (s : sched) : Prop :=
  x <> 0 /\ (forall T, tlinked (thrs s) (threads s) T -> x ∉ T) /\
  (forall y n, nodes s !! y = Some n -> threadID n <> x).

(** Where there is room for a context and a stack, there is room for a node. *)
Definition node_fits (s : sched) (l : list seg) : Prop :=
  forall p1 l1 p2 l2,
    seg_alloc 4 sizeof_ucontext (memory (al s)) l = Some (p1, l1) ->
    seg_alloc 4 STACK_SIZE (memory (al s)) l1 = Some (p2, l2) ->
    seg_alloc 4 sizeof_node (memory (al s)) l2 <> None.

Lemma runnable_waiting s v l : sys s v l -> runnable s -> waiting_run v.
Proof.
  intros Hs (k & q & Hk & Eq & Hh).
  destruct (rep_q _ _ (abs_rep _ _ (sys_abs Hs)) (RunQ (Z.of_nat k))) as (q' & Eq' & [Hl _] & _);
    [cbn; lia|].
  cbn [queue_of qplace] in Eq', Hl. rewrite Nat2Z.id in Eq', Hl. rewrite Eq in Eq'.
  injection Eq' as <-. destruct (v_lists v (PRun k)) as [|y l'] eqn:E; [done|].
  exists k, y. split; [done|]. rewrite E. set_solver.
Qed.

Lemma fresh_unused s v l x : sys s v l -> fresh_record x s -> unused x v.
Proof.
  intros Hs (Hx & Hl & Hn). pose proof (sys_abs Hs) as [_ K2 K3 [K4 _] _]. split; [done| |].
  - apply Hl. by rewrite K3.
  - intros y d. rewrite <- K2. intros (n & En & ->)%data_lookup. cbn. eauto.
Qed.

(** The running thread is awaited, in the view. *)
Definition v_awaited (v : view) : Prop :=
  exists i y, vtid v (v_current v) = Some i /\ y ∈ v_lists v PJoin /\
    waits (v_data v) (v_thrs v) i y = true.

Lemma awaited_view s v l : sys s v l -> awaited s -> v_awaited v.
Proof.
  intros Hs (L & y & n & j & c & t & HL & Hy & En & Ej & Ec & Et & Eid).
  pose proof (sys_abs Hs) as [K1 K2 K3 _ K5].
  pose proof (chain_same _ _ _ _ _ HL (rep_join _ _ K1)) as ->.
  assert (v_data v !! v_current v = Some (with_next 0 c)) as Edc
    by (rewrite <- K2, <- K5; unfold data; by rewrite lookup_fmap, Ec).
  destruct (wf_tid _ (sys_wf Hs) _ _ Edc) as [i Ei]. exists i, y. split; [done|]. split; [done|].
  unfold vtid, tid_of in Ei. rewrite Edc in Ei. cbn [mbind option_bind threadID with_next] in Ei.
  destruct (threadID c =? 0); [done|]. rewrite <- K3, Et in Ei. injection Ei as <-.
  unfold waits. rewrite <- K2. unfold data. rewrite lookup_fmap, En. cbn [fmap option_fmap option_map joinee with_next].
  rewrite <- K3, Ej. by apply Z.eqb_eq.
Qed.

(** ** The end of every call that gives up the processor *)

Lemma schedule_good t s s1 v v1 l :
  stands s v l -> sys s1 v1 l -> alike v v1 -> current_targets v1 -> can_pass v1 -> counters_fit s l ->
  cycles s1 = cycles s -> memory (al s1) = memory (al s) -> threadNum s1 = threadNum s ->
  exists o s', schedule PAGESIZE stack t s1 = Ok (o, s') /\ after_step (lost v) s'.
Proof.
  intros [Hs Hj] Hs1 Ha Hct Hp Hc Ec Em En.
  destruct (schedule_sys PAGESIZE stack Hps t s1 v1 l Hs1) as (o & s' & E' & v' & l' & Hs' & Hj' & Hl).
  - rewrite En. apply (alike_waits _ v); [apply (sys_wf Hs)|done|apply Hj].
  - done.
  - done.
  - unfold counters_fit. by rewrite Ec, Em.
  - exists o, s'. split; [done|]. exists v', l'. split; [done|]. split; [done|].
    intros y Hy. apply Hl. left. by apply (alike_lost v); [apply (sys_wf Hs)|..].
Qed.

Lemma current_node s v l : sys s v l -> exists n, nodes s !! current s = Some n.
Proof.
  intros Hs. destruct (current_record s v (sys_abs Hs) (sys_wf Hs)) as (n & _ & En & _). eauto.
Qed.

Lemma alike_trans v v1 v2 : alike v v1 -> alike v1 v2 -> alike v v2.
Proof.
  intros [A1 A2 A3 A4 A5 A6] [B1 B2 B3 B4 B5 B6]. split; try congruence.
  intros y Hy. rewrite B4, A4; congruence.
Qed.

(** A thread that exits passes the processor on. *)
Lemma exiting_pass v v1 d :
  wf v -> alike v v1 -> v_data v1 !! v_current v1 = Some d -> status d = EXITING ->
  waiting_run v \/ v_awaited v -> can_pass v1.
Proof.
  intros Hwf Ha Ed Es [(k & y & Hk & Hy)|(i & y & Ei & Hy & Hw)].
  - left. exists k, y. by rewrite (al_lists _ _ Ha).
  - right. exists d. split; [done|]. right. right. split; [done|]. exists i, y.
    rewrite (al_lists _ _ Ha), (al_vtid _ _ Ha), (al_current _ _ Ha). split; [done|]. split; [done|].
    rewrite <- Hw. apply waits_same; [|apply Ha]. destruct (waits_some _ _ _ Hw) as [dy Edy].
    exists dy, dy. split; [done|]. split; [|done]. rewrite (al_data _ _ Ha); [done|].
    intros ->. by apply (wf_loose _ Hwf PJoin).
Qed.

(** The running thread, marked while the timer is stopped. *)
Lemma mark_sys s v l st :
  sys s v l -> st <> JOINING ->
  let s1 := set_al (set_tim (pause_timer stack (tim (al s))) (al s)) s in
  exists n s2 v2, nodes s1 !! current s1 = Some n /\
    upd_node (current s1) (with_status st) s1 = Ok (tt, s2) /\
    s2 = set_nodes (<[current s := with_status st n]>) s1 /\ sys s2 v2 l /\ alike v v2 /\
    exists d, v_data v2 !! v_current v2 = Some d /\ status d = st.
Proof.
  intros Hs Hst s1. pose proof (timer_sys PAGESIZE s v l (pause_timer stack) Hs) as Hs1.
  destruct (current_node s1 v l Hs1) as [n En].
  destruct (current_sys PAGESIZE s1 v l (with_status st) n Hs1 En) as (E & v2 & Hs2 & Ha & _ & Ed); try done.
  exists n. eexists. exists v2. split; [done|]. split; [exact E|]. split; [done|]. split; [done|].
  split; [done|]. eexists. by split.
Qed.

Lemma not_joining v d : v_data v !! v_current v = Some d -> status d <> JOINING -> current_targets v.
Proof. intros Ed Hs d'. rewrite Ed. by intros [= <-]. Qed.

Lemma yield_good s v l t :
  stands s v l -> counters_fit s l ->
  exists o s', my_pthread_yield PAGESIZE stack t s = Ok (o, s') /\ after_step (lost v) s'.
Proof.
  intros Hst Hc. pose proof Hst as [Hs _].
  destruct (mark_sys s v l YIELDING Hs) as (n & s2 & v2 & En & E2 & Es2 & Hs2 & Ha & d & Ed & Esd); [done|].
  destruct (schedule_good t s _ v v2 l Hst (timer_sys PAGESIZE s2 v2 l unpause_timer Hs2) Ha)
    as (o & s' & E' & Hg); try (by rewrite Es2); [by eapply not_joining; [|rewrite Esd]| |done|].
  { right. exists d. split; [done|]. by right; left. }
  exists o, s'. split; [|done]. unfold my_pthread_yield. mstep by done.
  rewrite (ready_started _ _ (sys_ready Hs)). cbn [negb]. mstep by done. mstep by done.
  mstep by exact E2. mstep by done. exact E'.
Qed.

Lemma termination_good s v l t :
  stands s v l -> waiting_run v \/ v_awaited v -> counters_fit s l ->
  exists o s', terminationHandler PAGESIZE stack t s = Ok (o, s') /\ after_step (lost v) s'.
Proof.
  intros Hst Hw Hc. pose proof Hst as [Hs _].
  destruct (mark_sys s v l EXITING Hs) as (n & s2 & v2 & En & E2 & Es2 & Hs2 & Ha & d & Ed & Esd); [done|].
  destruct (schedule_good t s _ v v2 l Hst (timer_sys PAGESIZE s2 v2 l unpause_timer Hs2) Ha)
    as (o & s' & E' & Hg); try (by rewrite Es2); [by eapply not_joining; [|rewrite Esd]| |done|].
  { by apply (exiting_pass v v2 d); [apply (sys_wf Hs)|..]. }
  exists o, s'. split; [|done]. unfold terminationHandler. mstep by done. mstep by done.
  mstep by exact E2. mstep by done. exact E'.
Qed.

(** The signal also loses the thread that runs with the status of a join. *)
Lemma timer_good s v l t :
  stands s v l -> can_pass v -> counters_fit s l ->
  exists o s', timerHandler PAGESIZE stack t s = Ok (o, s') /\ after_step (losing v) s'.
Proof.
  intros [Hs Hj] Hp Hc.
  destruct (schedule_sys PAGESIZE stack Hps t _ v l (timer_sys PAGESIZE s v l handler_reset Hs))
    as (o & s' & E' & Hg); [apply Hj|by apply current_done_targets, Hj|done|done|].
  exists o, s'. split; [|done]. unfold timerHandler. mstep by done. exact E'.
Qed.

Lemma exit_good s v l value t :
  stands s v l -> waiting_run v \/ v_awaited v -> counters_fit s l ->
  exists o s', my_pthread_exit PAGESIZE stack value t s = Ok (o, s') /\ after_step (lost v) s'.
Proof.
  intros Hst Hw Hc. pose proof Hst as [Hs _].
  destruct (mark_sys s v l EXITING Hs) as (n & s2 & v2 & En & E2 & Es2 & Hs2 & Ha & d & Ed & Esd); [done|].
  assert (current s2 = current s /\ nodes s2 !! current s = Some (with_status EXITING n)) as [Ec2 En2]
    by (rewrite Es2; cbn; by rewrite lookup_insert_eq).
  destruct (current_record s2 v2 (sys_abs Hs2) (sys_wf Hs2)) as (n' & tr & En' & Et).
  rewrite Ec2, En2 in En'. injection En' as <-. cbn [threadID with_status] in Et.
  destruct (record_sys PAGESIZE s2 v2 l (with_exitArg value) (threadID n) tr Hs2 Et)
    as (v3 & Hs3 & Ha3 & Ed3); [done|].
  set (s3 := set_thrs _ s2) in Hs3.
  assert (current s <> 0) as Hc0.
  { rewrite (abs_current _ _ (sys_abs Hs)). apply (wf_current _ (sys_wf Hs)). }
  destruct (wf_tid _ (sys_wf Hs2) (current s) (with_next 0 (with_status EXITING n))) as [i Ei].
  { rewrite <- (abs_data _ _ (sys_abs Hs2)). by apply data_some. }
  destruct (vtid_some s2 v2 _ i _ (sys_abs Hs2) Ei En2) as (_ & _ & Hth & _).
  assert (upd_thr (threadID (with_status EXITING n)) (with_exitArg value) s2 = Ok (tt, s3)) as E3.
  { unfold upd_thr. cbn [threadID with_status] in *.
    mstep by (unfold rd_thr, cell; rewrite (Zeqb_f (threadID n) 0), Et by done; done). done. }
  pose proof (alike_trans _ _ _ Ha Ha3) as Hav. rewrite <- (al_current _ _ Ha3), <- Ed3 in Ed.
  destruct (schedule_good t s _ v v3 l Hst (timer_sys PAGESIZE s3 v3 l unpause_timer Hs3) Hav)
    as (o & s' & E' & Hg); try (by unfold s3; rewrite Es2); [by eapply not_joining; [|rewrite Esd]| |done|].
  { by apply (exiting_pass v v3 d); [apply (sys_wf Hs)|..]. }
  exists o, s'. split; [|done]. unfold my_pthread_exit. mstep by done.
  rewrite (ready_started _ _ (sys_ready Hs)). cbn [negb]. mstep by done. mstep by done.
  mstep by exact E2. mstep by (apply rd_node_ok; [exact En2|done]).
  mstep by exact E3. mstep by done. exact E'.
Qed.

(** The running thread waits for the thread of record [x]. *)
Definition join_node (x : Z) (n : node) : node := with_joinee x (with_status JOINING n).

Lemma join_marks s n x :
  current s <> 0 -> nodes s !! current s = Some n ->
  (_ ← upd_node (current s) (with_status JOINING); upd_node (current s) (with_joinee x)) s
    = upd_node (current s) (join_node x) s.
Proof.
  intros Hc En. rewrite (upd_node_ok s _ n (join_node x)) by done. mstep by (by apply upd_node_ok).
  rewrite (upd_node_ok _ _ (with_status JOINING n)) by (done || (cbn; by rewrite lookup_insert_eq)).
  unfold set_nodes. cbn. by rewrite insert_insert_eq.
Qed.

(** The start of the call, up to the search. *)
Lemma join_start s v l id t :
  stands s v l ->
  let s1 := set_al (set_tim (pause_timer stack (tim (al s))) (al s)) s in
  sys s1 v l /\
  my_pthread_join PAGESIZE stack id t s =
    (if default 0 (v_find id v) =? 0 then _ ← unpause_s; mret NoThread
     else
       tr ← rd_thr (default 0 (v_find id v));
       if isDead tr =? 1 then _ ← unpause_s; mret (WasDead (exitArg tr))
       else
         c ← gets current;
         _ ← upd_node c (with_status JOINING);
         _ ← upd_node c (with_joinee (default 0 (v_find id v)));
         _ ← unpause_s;
         sw ← schedule PAGESIZE stack t;
         mret (MustWait (default 0 (v_find id v)) sw)) s1.
Proof.
  intros [Hs _] s1. pose proof (timer_sys PAGESIZE s v l (pause_timer stack) Hs) as Hs1. fold s1 in Hs1.
  split; [done|]. unfold my_pthread_join. mstep by done.
  rewrite (ready_started _ _ (sys_ready Hs)). cbn [negb]. mstep by done. fold s1.
  mstep by (by apply (search_threads_spec id s1 v), (sys_abs Hs1)). done.
Qed.

Lemma unpaused_good s v l :
  sys s v l -> joins (threadNum s) v ->
  after_step (lost v) (set_al (set_tim (unpause_timer (tim (al s))) (al s)) s).
Proof. intros Hs Hj. exists v, l. split; [by apply timer_sys|]. by split. Qed.

(** Nobody to wait for. *)
Lemma join_finished s v l id t :
  stands s v l -> finished s id ->
  exists j s', my_pthread_join PAGESIZE stack id t s = Ok (j, s') /\ after_step (lost v) s'.
Proof.
  intros Hst (x & Ex & Hx). pose proof Hst as [Hs Hj].
  destruct (join_start s v l id t Hst) as [Hs1 ->]. set (s1 := set_al _ s) in *.
  rewrite (search_threads_spec id s v (sys_abs Hs)) in Ex. injection Ex as Ex. rewrite Ex.
  pose proof (unpaused_good s1 v l Hs1 Hj) as Hg.
  destruct Hx as [->|(tr & Et & Ed)]; [by exists NoThread; eexists|].
  destruct (Z.eqb_spec x 0) as [->|Hx0]; [by exists NoThread; eexists|].
  exists (WasDead (exitArg tr)). eexists. split; [|exact Hg].
  change (thrs s) with (thrs s1) in Et.
  mstep by (unfold rd_thr, cell; by rewrite (Zeqb_f x 0), Et by done). by rewrite Ed.
Qed.

Lemma find_listed id v x i :
  v_find id v = Some x -> tid <$> v_thrs v !! x = Some i -> x ∈ v_threads v /\ i = id.
Proof.
  intros E%List.find_some Ei. destruct E as [Hx%list_elem_of_In Hi]. split; [done|].
  unfold has_id in Hi. destruct (v_thrs v !! x); [|done]. injection Ei as <-. by bprop.
Qed.

Lemma join_good s v l id t :
  stands s v l -> waiting_run v -> counters_fit s l ->
  exists j s', my_pthread_join PAGESIZE stack id t s = Ok (j, s') /\ after_step (lost v) s'.
Proof.
  intros Hst Hw Hc. pose proof Hst as [Hs Hj].
  destruct (v_find id v) as [x|] eqn:Ex.
  2:{ apply (join_finished s v l id t Hst). exists 0. split; [|by left].
      by rewrite (search_threads_spec id s v (sys_abs Hs)), Ex. }
  pose proof (sys_abs Hs) as [_ _ HT [Hl _] _].
  destruct (find_nonzero _ _ _ _ _ Hl Ex) as (Hx & tr & Et). rewrite <- HT in Et.
  destruct (Z.eqb_spec (isDead tr) 1) as [Ed|Ed].
  { apply (join_finished s v l id t Hst). exists x.
    split; [by rewrite (search_threads_spec id s v (sys_abs Hs)), Ex|right; by exists tr]. }
  destruct (join_start s v l id t Hst) as [Hs1 ->]. set (s1 := set_al _ s) in *.
  rewrite Ex. cbn [default from_option Datatypes.id].
  assert (rd_thr x s1 = Ok (tr, s1)) as Er
    by (unfold rd_thr, cell; change (thrs s1) with (thrs s); by rewrite (Zeqb_f x 0), Et by done).
  destruct (current_node s1 v l Hs1) as [n En].
  assert (current s1 <> 0) as Hc0.
  { rewrite (abs_current _ _ (sys_abs Hs1)). apply (wf_current _ (sys_wf Hs1)). }
  destruct (current_sys PAGESIZE s1 v l (join_node x) n Hs1 En) as (E2 & v2 & Hs2 & Ha & Eth & Ed2); try done.
  { intros m _. split; [done|]. rewrite <- HT. by exists tr. }
  set (s2 := set_nodes _ s1) in E2, Hs2.
  destruct (find_listed id v x (tid tr) Ex) as [Hlx _]; [by rewrite <- HT, Et|].
  destruct (schedule_good t s _ v v2 l Hst (timer_sys PAGESIZE s2 v2 l unpause_timer Hs2) Ha)
    as (o & s' & E' & Hgd); try done.
  { intros d. rewrite Ed2. intros [= <-] _. exists (tid tr). eexists. split; [exact Ed2|].
    cbn [status joinee join_node with_joinee with_status with_next].
    by rewrite (al_threads _ _ Ha), Eth, <- HT, Et. }
  { left. destruct Hw as (k & y & Hk & Hy). exists k, y. by rewrite (al_lists _ _ Ha). }
  exists (MustWait x o), s'. split; [|done].
  rewrite (Zeqb_f x 0) by done. mstep by exact Er. rewrite (Zeqb_f (isDead tr)) by done. mstep by done.
  rewrite <- (join_marks s1 n x Hc0 En) in E2.
  apply bind_ok_inv in E2 as ([] & sm & Em & E2). mstep by exact Em. mstep by exact E2.
  mstep by done. mstep by exact E'. done.
Qed.

(** ** Creation *)

Lemma create_good s v l region x t :
  stands s v l -> unused x v -> node_fits s l ->
  exists r s', my_pthread_create PAGESIZE stack sizeof_ucontext region x t s = Ok (r, s') /\
    after_step (lost v) s'.
Proof.
  intros [Hs Hj] Hx Hn. assert (0 <= sizeof_ucontext) as Hu by lia.
  destruct (seg_alloc 4 sizeof_ucontext (memory (al s)) l) as [[p1 l1]|] eqn:A1.
  2:{ destruct (create_no_context PAGESIZE stack sizeof_ucontext Hps Hu s v l region x t Hs A1)
        as (s' & E & Hs' & _ & En). exists 1, s'. split; [done|]. exists v, l. rewrite En. done. }
  destruct (seg_alloc 4 STACK_SIZE (memory (al s)) l1) as [[p2 l2]|] eqn:A2.
  2:{ destruct (create_no_stack PAGESIZE stack sizeof_ucontext Hps Hu s v l region x t p1 l1 Hs A1 A2)
        as (s' & E & Hs' & _ & En). exists 1, s'. split; [done|]. exists v, l1. rewrite En. done. }
  specialize (Hn _ _ _ _ A1 A2).
  destruct (seg_alloc 4 sizeof_node (memory (al s)) l2) as [[p3 l3]|] eqn:A3; [|done].
  destruct (create_done PAGESIZE stack sizeof_ucontext Hps Hu s v l region x t _ _ _ _ _ _ Hs Hx A1 A2 A3)
    as (s' & E & Hs' & _ & En & Hf).
  destruct (create_joins s v x (p3 + 4) (p1 + 4) t Hx (data_fresh s v _ (sys_abs Hs) Hf) Hj)
    as [Hj' Hl].
  exists 0, s'. split; [done|]. do 2 eexists. split; [exact Hs'|]. rewrite En. by split.
Qed.
End system.
