(* ===== verification/SystemSpec.v ===== *)
(** * The library as a transition system

    The states a program can bring the library to: it starts with [initialize];
    then every call of the library, every request of a thread for memory of its
    own, every preemption and every write of the program to its own pages is a
    step.  In all these states the invariant [sys] holds, and every call that is
    [allowed] returns, to such a state again. *)

From Stdlib Require Import Floats.SpecFloat.
From S2P Require Import Prelude Chain CMem SegHeap FirstFit BlockWord Timer MyAlloc WordHeap LibHeapSpec Queue Sched QueueSpec PageSpec SchedSpec SchedStep ScheduleSpec MaintSpec PagingSpec ThreadHeap ThreadHeapSpec HeapGrowth ThreadAlloc Evict SpillSpec Frame PagesKept SystemInv InitSpec CreateSpec MaintInv JoinInv SystemStep SystemCalls.

Section system.
Context (PAGESIZE : Z) (stack : itimerval) (sizeof_ucontext : Z).
Context (Hps : 1024 <= PAGESIZE <= 32768) (Huc : 0 <= sizeof_ucontext <= 40000).
Notation sys := (sys PAGESIZE).
Notation good := (good PAGESIZE).
Notation stands := (stands PAGESIZE).
Notation after_step := (after_step PAGESIZE).

(** ** What the program does with its own memory *)

(** The allocator as the running thread finds it. *)
Definition own_state (s : sched) : astate := set_thr (running s) (al s).

(** The library after the allocator came to [a]: the number of pages of the
    running thread is stored in its record. *)
Definition resumed (a : astate) (s : sched) : sched := store_pageNum (thr a) (set_al a s).

(** The program writes to its own pages and gets memory of its own: the
    library pages stay as they are. *)
Record own_work (a b : astate) : Prop := OwnWork {
  own_memory : memory b = memory a;
  own_user : userSpace b = userSpace a;
  own_root : rootBlock b = rootBlock a;
  own_first : firstMalloc b = firstMalloc a;
  own_timer : timerSet b = timerSet a;
  own_table : length (pages b) = length (pages a);
  own_bytes : agree (fun x => memory a <= x < userSpace a) (amem a) (amem b)
}.

Lemma own_work_serves a b l : own_work a b -> serves PAGESIZE a l -> serves PAGESIZE b l.
Proof.
  intros [Em Eu Er Ef Et Ep Hb] [Hh H2 H3].
  destruct (lib_heap_sizes PAGESIZE Hps _ _ Hh) as (Hsz & Htot & _).
  destruct Hh as (K1 & K2 & K3 & K4 & K5 & K6).
  split; [|congruence|congruence]. unfold LibHeapSpec.lib_heap. rewrite Em, Eu, Er.
  split_and!; try done. eapply (chain_agree_range hdr4_pos); [done| |exact K6].
  by rewrite Htot.
Qed.

Lemma resumed_good s v l a :
  stands s v l -> own_work (al s) a -> after_step (lost v) (resumed a s).
Proof.
  intros [Hs Hj] Hw.
  assert (sys (set_al a s) v l) as Hs1.
  { apply (sys_set_al PAGESIZE s v l); [done|by apply (own_work_serves (al s)), (sys_serves Hs)|apply Hw|].
    rewrite (own_memory _ _ Hw). apply (sys_nodes Hs). }
  assert (after_step (lost v) (set_al a s)) as H0 by (exists v, l; by split).
  unfold resumed, store_pageNum. destruct (thr a) as [[id n]|]; [|done].
  destruct (current_record _ v (sys_abs Hs1) (sys_wf Hs1)) as (nd & t & En & Et). rewrite En.
  destruct (record_sys PAGESIZE _ v l (with_pageNum n) (threadID nd) t Hs1 Et) as (v' & Hs' & Ha & Hd); [done|].
  assert (set_thrs (alter (with_pageNum n) (threadID nd)) (set_al a s)
    = set_thrs (<[threadID nd := with_pageNum n t]>) (set_al a s)) as ->.
  { unfold set_thrs. f_equal. apply map_eq. intros j. destruct (decide (j = threadID nd)) as [->|Hne].
    - by rewrite lookup_insert_eq, lookup_alter_eq, Et.
    - by rewrite lookup_insert_ne, lookup_alter_ne. }
  exists v', l. split; [done|].
  split; [by apply (alike_joins _ v); [apply (sys_wf Hs)|..]|]. intros y. by apply alike_lost; [apply (sys_wf Hs)|].
Qed.

(** *** Requests *)

(** When a request of the running thread gets its block: one of its blocks
    fits; or it has no page yet, and page 0 can be made free for it; or its heap
    can grow, by free pages of memory or of both memory and the swap file. *)
Inductive request_ok (a : astate) (size : Z) : Prop :=
  | RequestFits id n l q l' :
      thread_heap PAGESIZE a id n l -> seg_alloc 4 size (userSpace a) l = Some (q, l') ->
      request_ok a size
  | RequestFirst id e0 :
      pages_ok PAGESIZE a id 0 -> free_open a -> 0 < free_pages a -> settled (diskPages a) id ->
      firstMalloc a = false -> aget (pages a) 0 = Some e0 -> getPageThID e0 <> id ->
      size + 8 <= PAGESIZE -> request_ok a size
  | RequestGrows id n l0 x (k := pages_needed PAGESIZE (load 4 (amem a) (userSpace a + total 4 l0)) size) :
      thread_heap PAGESIZE a id n (l0 ++ [x]) -> free_open a ->
      seg_alloc 4 size (userSpace a) (l0 ++ [x]) = None ->
      (seg_isfree x = true \/
        (getBlockIsF (load 4 (amem a) (userSpace a + total 4 l0)) = 0 /\ size + 8 <= PAGESIZE * k)) ->
      0 < k <= free_pages a \/
      (others_only a id n /\ 0 < k /\ n + k <= NPAGES PAGESIZE /\ k <= free_pages a + free_disk a) ->
      request_ok a size.

(** When a release finds its block: the pages of the running thread are in
    their places and open, and the block is one of theirs. *)
Definition release_ok (a : astate) (ptr : Z) : Prop :=
  exists id n l x, thread_heap PAGESIZE a id n l /\ own_open a n /\
    live 4 (userSpace a) l (ptr - 4) x /\ ptr < memory a + MAX_MEMORY.

Lemma fit_own_work a o m l :
  agree (protected 4 (userSpace a) l) (amem a) m -> own_work a (after (set_prot o a) m []).
Proof. intros Hm. split; try done. intros x Hx. apply Hm. left. lia. Qed.

Lemma region_own_work a a' region size p id n :
  pages_ok PAGESIZE a id n -> firstMalloc a = false ->
  myallocate PAGESIZE stack region size THREADREQ a = Ok (p, a') ->
  (forall x, x < userSpace a -> amem a' x = amem a x) -> own_work a a'.
Proof.
  intros Hk Hf E Hb. pose proof Hk as [[] ? ? ? ? ?].
  destruct (request_region PAGESIZE stack ltac:(lia) region size THREADREQ a p a' id n Hf)
    as [(E1 & E2 & E3 & E4 & E5) E6]; [unfold LIBPAGES in *; nia|done|lia|lia|exact E|].
  split; try done; [congruence|]. intros x Hx. apply Hb. lia.
Qed.

Lemma request_work a region size :
  0 <= size -> request_ok a size ->
  exists p a', myallocate PAGESIZE stack region size THREADREQ a = Ok (p, a') /\ own_work a a'.
Proof.
  intros Hsz [id n l q l' Hh Ea|id e0 Hk Hfo Hfr Hd Hf E0 Hne Hfit|id n l0 x k Hh Hfo En Hx [Hp|(Ho & Hp & Hr & Hp')]].
  - pose proof Hh as [Hk Hn Hd Hf _ _ _].
    destruct (thread_request PAGESIZE stack a id n region size Hk Hn Hd Hf) as (o & Ho & E).
    destruct (thread_search_some PAGESIZE stack Hps a id n l size o q l' Hh Ho Hsz Ea)
      as (m' & E' & Hh' & Hag).
    exists (q + 4), (after (set_prot o a) m' []). rewrite E. split; [done|by apply (fit_own_work a o m' l)].
  - destruct (first_thread_request PAGESIZE stack Hps a id e0 region size Hk Hfo Hfr Hd Hf E0 Hne Hsz Hfit)
      as (a' & E & Hsv).
    do 2 eexists. split; [exact E|]. eapply region_own_work; [done|done|exact E|].
    intros y Hy. apply (sv_bytes _ _ _ _ _ _ _ _ Hsv). by left.
  - destruct (growing_request PAGESIZE stack Hps a id n l0 x size region Hh Hfo Hsz En Hx Hp)
      as (q & l' & a' & _ & E & Hsv).
    do 2 eexists. split; [exact E|]. eapply region_own_work; [apply Hh|apply Hh|exact E|].
    intros y Hy. apply (sv_bytes _ _ _ _ _ _ _ _ Hsv). by left.
  - destruct (spilling_request PAGESIZE stack Hps a id n l0 x size region Hh Hfo Ho Hsz En Hx Hp Hr Hp')
      as (q & l' & a' & _ & E & Hsv).
    do 2 eexists. split; [exact E|]. eapply region_own_work; [apply Hh|apply Hh|exact E|].
    intros y Hy. apply (sw_bytes _ _ _ _ _ _ _ _ _ Hsv). by left.
Qed.

Lemma release_work a ptr :
  release_ok a ptr ->
  exists a', mydeallocate PAGESIZE stack ptr THREADREQ a = Ok (tt, a') /\ own_work a a'.
Proof.
  intros (id & n & l & x & Hh & Ho & Hl & Hp).
  destruct (thread_deallocate_spec PAGESIZE stack Hps a id n l (ptr - 4) x Hh Ho Hl ltac:(lia))
    as (m' & l' & E & _ & _ & Hag).
  rewrite Z.sub_add in E. eexists. split; [exact E|]. split; try done.
  intros y Hy. apply Hag. left. lia.
Qed.

(** A call of the allocator by the running thread. *)
Lemma own_call {A} (m : M astate A) s v l r a :
  stands s v l -> m (own_state s) = Ok (r, a) -> own_work (own_state s) a ->
  exists s', alloc_call m s = Ok (r, s') /\ after_step (lost v) s'.
Proof.
  intros Hst E [H1 H2 H3 H4 H5 H6 H7]. exists (resumed a s). split.
  - unfold alloc_call. unfold own_state in E. by rewrite E.
  - apply (resumed_good s v l); [done|by split].
Qed.

(** ** The calls *)

Inductive call :=
  | CallCreate (region thread clock : Z)
  | CallYield (clock : Z)
  | CallExit (value_ptr clock : Z)
  | CallJoin (id clock : Z)
  | TimerSignal (clock : Z)
  | ThreadReturns (clock : Z)
  | CallMalloc (region size : Z)
  | CallFree (ptr : Z).

Definition perform (c : call) : M sched unit :=
  match c with
  | CallCreate region thread clock =>
      _ ← my_pthread_create PAGESIZE stack sizeof_ucontext region thread clock; mret tt
  | CallYield clock => _ ← my_pthread_yield PAGESIZE stack clock; mret tt
  | CallExit value_ptr clock => _ ← my_pthread_exit PAGESIZE stack value_ptr clock; mret tt
  | CallJoin id clock => _ ← my_pthread_join PAGESIZE stack id clock; mret tt
  | TimerSignal clock => _ ← timerHandler PAGESIZE stack clock; mret tt
  | ThreadReturns clock => _ ← terminationHandler PAGESIZE stack clock; mret tt
  | CallMalloc region size => _ ← alloc_call (myallocate PAGESIZE stack region size THREADREQ); mret tt
  | CallFree ptr => alloc_call (mydeallocate PAGESIZE stack ptr THREADREQ)
  end.

(** The library heap has room for the counters of the round of maintenance,
    when it comes. *)
Definition room_for_round (s : sched) : Prop :=
  forall l, lib_heap PAGESIZE (al s) l -> counters_fit s l.

(** When a call may be made.  A new thread needs a record of its own, and a node
    where there is room for its context and stack; who gives up the processor for
    good needs somebody to take it; who yields, or is preempted while it can run,
    takes it again if nobody else does; requests are as above. *)
Definition allowed (s : sched) (c : call) : Prop :=
  match c with
  | CallCreate _ x _ =>
      fresh_record x s /\ forall l, lib_heap PAGESIZE (al s) l -> node_fits sizeof_ucontext s l
  | CallYield _ => room_for_round s
  | CallExit _ _ | ThreadReturns _ => (runnable s \/ awaited s) /\ room_for_round s
  | CallJoin id _ => finished s id \/ (runnable s /\ room_for_round s)
  | TimerSignal _ => (runnable s \/ stays_runnable s) /\ room_for_round s
  | CallMalloc _ size => 0 <= size /\ request_ok (own_state s) size
  | CallFree ptr => release_ok (own_state s) ptr
  end.

(** The threads a call leaves lost. *)
Definition leaves (c : call) (v : view) (y : Z) : Prop :=
  match c with TimerSignal _ => losing v y | _ => lost v y end.

Lemma stays_pass s v l : sys s v l -> stays_runnable s -> can_pass v.
Proof.
  intros Hs (n & En & Es). right. exists (with_next 0 n).
  rewrite <- (abs_current _ _ (sys_abs Hs)), <- (abs_data _ _ (sys_abs Hs)).
  split; [by apply data_some|by left].
Qed.

(** Every call that may be made returns, and leaves the invariant. *)
Lemma perform_after s v l c :
  stands s v l -> allowed s c -> exists s', perform c s = Ok (tt, s') /\ after_step (leaves c v) s'.
Proof.
  intros Hst Hc. pose proof Hst as [Hs Hj]. pose proof (serves_heap (sys_serves Hs)) as Hh.
  assert (forall {A} (m : M sched A) keep, (exists a s', m s = Ok (a, s') /\ after_step keep s') ->
    exists s', (_ ← m; mret tt) s = Ok (tt, s') /\ after_step keep s') as Hm.
  { intros A m keep (a & s' & E & Hg). exists s'. split; [by mstep by exact E|done]. }
  destruct c; cbn [allowed perform leaves] in *.
  - apply Hm. destruct Hc as [Hf Hn]. eapply create_good; [done|done|exact Hst| |by apply Hn].
    by eapply fresh_unused.
  - apply Hm. eapply yield_good; [done|exact Hst|by apply Hc].
  - apply Hm. destruct Hc as [Hw Hc]. eapply exit_good; [done|exact Hst| |by apply Hc].
    destruct Hw; [left; by eapply runnable_waiting|right; by eapply awaited_view].
  - apply Hm. destruct Hc as [Hf|[Hw Hc]]; [by eapply join_finished|].
    eapply join_good; [done|exact Hst|by eapply runnable_waiting|by apply Hc].
  - apply Hm. destruct Hc as [Hw Hc]. eapply timer_good; [done|exact Hst| |by apply Hc].
    destruct Hw; [left; by eapply runnable_waiting|by eapply stays_pass].
  - apply Hm. destruct Hc as [Hw Hc]. eapply termination_good; [done|exact Hst| |by apply Hc].
    destruct Hw; [left; by eapply runnable_waiting|right; by eapply awaited_view].
  - apply Hm. destruct Hc as [Hsz Hc]. destruct (request_work _ region size Hsz Hc) as (p & a & E & Hw).
    exists p. by eapply own_call.
  - destruct (release_work _ ptr Hc) as (a & E & Hw). by eapply own_call.
Qed.

(** ** Steps and reachable states *)

Inductive step (s : sched) : sched -> Prop :=
  | step_call c s' : allowed s c -> perform c s = Ok (tt, s') -> step s s'
  | step_own a : own_work (al s) a -> step s (resumed a s).

Inductive reachable : sched -> Prop :=
  | reach_start s0 region clock s :
      unstarted s0 -> 0 < region ->
      initialize PAGESIZE stack sizeof_ucontext region clock s0 = Ok (tt, s) -> reachable s
  | reach_step s s' : reachable s -> step s s' -> reachable s'.

Lemma step_after s v l s' : stands s v l -> step s s' -> after_step (lost v) s'.
Proof.
  intros Hst [c s1 Hc E|a Ha]; [|by eapply resumed_good].
  destruct (perform_after s v l c Hst Hc) as (s2 & E2 & v' & l' & Hs' & Hj' & Hl).
  rewrite E in E2. injection E2 as <-. exists v', l'. split; [done|]. split; [done|].
  intros y Hy. apply Hl. destruct c; try done. by left.
Qed.

Lemma initial_joins s x y ctx clock :
  nodes s = {[y := new_node x ctx clock]} -> joins (threadNum s) (v_initial x y s).
Proof.
  intros En. split; [split|].
  - intros k z d Hz. by apply elem_of_nil in Hz.
  - intros z Hz. by apply elem_of_nil in Hz.
  - intros z i Hz. by apply elem_of_nil in Hz.
  - intros d. cbn [v_initial v_data v_current]. unfold data. rewrite lookup_fmap, En, lookup_singleton_eq.
    by intros [= <-].
Qed.

Lemma reachable_good s : reachable s -> good s.
Proof.
  induction 1 as [s0 region clock s Hun H0 E|s s' _ (v & l & Hst) Hstep].
  - destruct (initialize_run PAGESIZE stack sizeof_ucontext Hps Huc s0 region clock Hun H0)
      as ([] & s' & E' & x & y & Hi).
    rewrite E in E'. injection E' as <-. pose proof (page_counts PAGESIZE Hps) as (_ & Hn & _).
    destruct (initialized_sys PAGESIZE sizeof_ucontext clock s0 s x y Hi Hn) as (used & n & Hs & _).
    destruct (in_nodes _ _ _ _ _ _ _ Hi) as [ctx Hnd]. do 2 eexists. split; [exact Hs|].
    by eapply initial_joins.
  - by eapply after_good, step_after.
Qed.

Lemma steps_lost s s' v l y :
  stands s v l -> lost v y -> rtc step s s' -> exists v' l', stands s' v' l' /\ lost v' y.
Proof.
  intros Hst Hy Hs. revert v l Hst Hy. induction Hs as [s|s s1 s2 Hstep _ IH]; intros v l Hst Hy; [eauto|].
  destruct (step_after s v l s1 Hst Hstep) as (v1 & l1 & Hs1 & Hj1 & Hl). apply (IH v1 l1); [by split|auto].
Qed.
End system.

(** ** The properties *)

(** C2: In every state the library can reach by [allowed] calls of its threads,
    preemptions, requests and releases of memory and writes of the program to its
    own pages, the invariant holds: the run queues, the join list and the list of
    threads are well formed, no node is in two of them, the running thread is in
    none, and every node lives in a block of the library heap.  And every
    [allowed] call returns, without a fault, to such a state.  Not allowed are:
    a creation whose node has no room (it dereferences NULL) or whose record is
    in use, giving up the processor for good when nobody can take it, a round of
    maintenance without room for its counters, and requests and releases outside
    the cases of [request_ok] and [release_ok]; calls on mutexes are not among
    the calls. *)
Theorem library_safety PAGESIZE stack sizeof_ucontext s :
  1024 <= PAGESIZE <= 32768 -> 0 <= sizeof_ucontext <= 40000 ->
  reachable PAGESIZE stack sizeof_ucontext s ->
  (exists v l, sys PAGESIZE s v l) /\
  forall c, allowed PAGESIZE sizeof_ucontext s c ->
    exists s', perform PAGESIZE stack sizeof_ucontext c s = Ok (tt, s') /\
      reachable PAGESIZE stack sizeof_ucontext s'.
Proof.
  intros Hps Huc Hr. destruct (reachable_good PAGESIZE stack sizeof_ucontext Hps Huc s Hr) as (v & l & Hst).
  split; [exists v, l; apply Hst|]. intros c Hc.
  destruct (perform_after PAGESIZE stack sizeof_ucontext Hps Huc s v l c Hst Hc) as (s' & E & _).
  exists s'. split; [done|]. by eapply reach_step; [|eapply step_call].
Qed.


(** *** Runs of concrete programs *)

Definition runnable_now (s : sched) : bool := existsb (fun q => negb (head q =? 0)) (firstn 5 (runQ s)).

(** Sufficient for [allowed], on states that can be computed; a creation is tried
    first. *)
Definition can_call (c : call) (s : sched) : bool :=
  match c with
  | CallCreate _ x _ =>
      negb (x =? 0) && bool_decide (thrs s !! x = None) &&
      forallb (fun p => negb (threadID (snd p) =? x)) (map_to_list (nodes s))
  | CallYield _ => negb (cycles s =? 100)
  | CallMalloc _ _ | CallFree _ => false
  | _ => runnable_now s && negb (cycles s =? 100)
  end.

Section runs.
Context (PAGESIZE : Z) (stack : itimerval) (sizeof_ucontext : Z).
Context (Hps : 1024 <= PAGESIZE <= 32768) (Huc : 0 <= sizeof_ucontext <= 40000).

Fixpoint runs (l : list call) (s : sched) : option sched :=
  match l with
  | [] => Some s
  | c :: l =>
      if can_call c s then
        match perform PAGESIZE stack sizeof_ucontext c s with
        | Ok (_, s') => runs l s'
        | _ => None
        end
      else None
  end.

Lemma runnable_now_spec s : runnable_now s = true -> runnable s.
Proof.
  unfold runnable_now. intros (q & Hq & Hh)%existsb_exists. apply list_elem_of_In in Hq.
  apply list_elem_of_lookup in Hq as [k Ek]. exists k, q. apply lookup_take_Some in Ek as [Ek Hk].
  bprop. done.
Qed.

Lemma fresh_now_spec s v l x :
  sys PAGESIZE s v l -> can_call (CallCreate 0 x 0) s = true -> fresh_record x s.
Proof.
  intros Hs H. cbn [can_call] in H. bprop. rename H0 into Hn. apply bool_decide_eq_true in H1 as Ht.
  split; [done|]. split.
  - intros T HT Hx. destruct (Chain.chain_lookup _ _ _ _ _ HT Hx) as (_ & t & Et). congruence.
  - intros y n En Ex. rewrite forallb_forall in Hn. specialize (Hn (y, n)). cbn [snd] in Hn.
    rewrite Ex, Z.eqb_refl in Hn. cbn in Hn. discriminate Hn.
    apply list_elem_of_In. by apply elem_of_map_to_list.
Qed.

Lemma can_call_allowed s v l c s' :
  sys PAGESIZE s v l -> can_call c s = true ->
  perform PAGESIZE stack sizeof_ucontext c s = Ok (tt, s') -> allowed PAGESIZE sizeof_ucontext s c.
Proof.
  intros Hs Hc E.
  assert (negb (cycles s =? 100) = true -> room_for_round PAGESIZE s) as Hr
    by (intros H l' _ H'; bprop; congruence).
  destruct c; cbn [can_call allowed] in *; try done.
  - assert (fresh_record thread s) as Hf by (by eapply (fresh_now_spec s v l)).
    split; [done|]. intros l' Hl'.
    rewrite (lib_heap_unique PAGESIZE _ _ _ Hps Hl' (serves_heap (sys_serves Hs))).
    intros p1 l1 p2 l2 A1 A2 A3. unfold perform in E.
    rewrite (bind_fault_l _ _ _ _ (create_no_node PAGESIZE stack sizeof_ucontext Hps ltac:(lia) s v l
      region thread clock p1 l1 p2 l2 Hs (fresh_unused PAGESIZE s v l thread Hs Hf) A1 A2 A3)) in E. done.
  - by apply Hr.
  - apply andb_true_iff in Hc as [H1 H2]. split; [left; by apply runnable_now_spec|by apply Hr].
  - apply andb_true_iff in Hc as [H1 H2]. right. split; [by apply runnable_now_spec|by apply Hr].
  - apply andb_true_iff in Hc as [H1 H2]. split; [left; by apply runnable_now_spec|by apply Hr].
  - apply andb_true_iff in Hc as [H1 H2]. split; [left; by apply runnable_now_spec|by apply Hr].
Qed.

Lemma runs_steps l s s' :
  good PAGESIZE s -> runs l s = Some s' -> rtc (step PAGESIZE stack sizeof_ucontext) s s'.
Proof.
  revert s. induction l as [|c l IH]; intros s (v & h & Hst) E; cbn [runs] in E.
  - injection E as <-. apply rtc_refl.
  - destruct (can_call c s) eqn:Ec; [|done].
    destruct (perform PAGESIZE stack sizeof_ucontext c s) as [[[] s1]|e|e] eqn:E1; [|done..].
    assert (step PAGESIZE stack sizeof_ucontext s s1) as Hs1
      by (eapply step_call; [eapply can_call_allowed; [apply Hst|done|exact E1]|exact E1]).
    eapply rtc_l; [exact Hs1|]. apply IH; [|done].
    eapply after_good, (step_after PAGESIZE stack sizeof_ucontext Hps Huc s v h); done.
Qed.
End runs.

Notation demo_runs := (runs 32768 no_timer 936).
Notation demo_perform := (perform 32768 no_timer 936).

Definition demo_start : option sched :=
  match initialize 32768 no_timer 936 65536 5 blank with Ok (_, s) => Some s | _ => None end.

(** The main thread creates the threads 2 and 3 and joins 2; 2 exits, 3 yields,
    and the main thread runs again. *)
Definition joining_run : list call :=
  [CallCreate 0 1 1; CallCreate 0 2 2; CallJoin 2 3; CallExit 7 4; CallYield 5].

Definition joining_now (s : sched) : bool :=
  match nodes s !! current s with Some n => bool_decide (status n = JOINING) | None => false end.

(** Then the signal comes, and the other thread yields twice. *)
Definition lost_run (s : sched) : bool :=
  joining_now s && can_call (TimerSignal 6) s &&
  match demo_perform (TimerSignal 6) s with
  | Ok (_, s1) => match demo_runs [CallYield 7; CallYield 8] s1 with Some _ => true | None => false end
  | _ => false
  end.

Definition joining_then (f : sched -> bool) : bool :=
  match demo_start with
  | Some s0 => match demo_runs joining_run s0 with Some s => f s | None => false end
  | None => false
  end.

Lemma joining_reachable f :
  joining_then f = true -> exists s, reachable 32768 no_timer 936 s /\ f s = true.
Proof.
  unfold joining_then, demo_start.
  destruct (initialize 32768 no_timer 936 65536 5 blank) as [[[] s0]|e|e] eqn:E0; [|done..].
  destruct (demo_runs joining_run s0) as [s|] eqn:E; [|done]. intros Hf. exists s. split; [|done].
  pose proof (reach_start 32768 no_timer 936 blank 65536 5 s0 blank_unstarted ltac:(lia) E0) as Hr.
  pose proof (runs_steps 32768 no_timer 936 ltac:(lia) ltac:(lia) joining_run s0 s
    (reachable_good 32768 no_timer 936 ltac:(lia) ltac:(lia) s0 Hr) E) as Hs.
  clear E E0. induction Hs as [s|s0 s1 s2 H1 _ IH]; [done|]. apply IH; [done|]. by eapply reach_step.
Qed.


(** *** A first request *)

(** The tables right after the start, when the main thread has no page. *)
Definition first_tables (s : sched) : bool :=
  let a := own_state s in
  bool_decide (pages a = replicate 56 1) && bool_decide (diskPages a = replicate 512 1) &&
  bool_decide (thr a = Some (1, 0)) && bool_decide (memory a = 65536) &&
  bool_decide (userSpace a = 65536 + LIBPAGES * 32768) && negb (firstMalloc a) &&
  forallb (prot a) (seqZ 0 56).

Lemma first_tables_request s size :
  first_tables s = true -> 0 <= size -> size + 8 <= 32768 -> request_ok 32768 (own_state s) size.
Proof.
  unfold first_tables. set (a := own_state s). clearbody a. intros H Hsz Hfit. bprop.
  repeat match goal with H : bool_decide _ = true |- _ => apply bool_decide_eq_true_1 in H end.
  rename H into Hp, H5 into Hd, H4 into Ht, H3 into Hm, H2 into Hu, H1 into Hf, H0 into Ho.
  apply (RequestFirst 32768 a size 1 1); try done.
  - split; [|lia|done|lia|vm_compute; split; congruence|intros k Hk; lia].
    split; [lia|done|by rewrite Hu, Hm|unfold table_ok; by rewrite Hp|by rewrite Hd].
  - intros k e Ek _. pose proof (aget_range _ _ _ Ek) as Hk. rewrite Hp, length_replicate in Hk.
    rewrite forallb_forall in Ho. apply Ho, list_elem_of_In, elem_of_seqZ. lia.
  - unfold free_pages. by rewrite Hp.
  - intros d e Ed Hfree. exfalso. rewrite Hd in Ed. unfold aget in Ed. destruct (d <? 0); [done|].
    apply lookup_replicate in Ed as [-> _]. vm_compute in Hfree. discriminate Hfree.
  - by rewrite Hp.
Qed.

Definition first_run (s : sched) : bool :=
  first_tables s &&
  match demo_perform (CallMalloc 0 100) s with
  | Ok (_, s1) => can_call (CallCreate 0 1 7) s1 &&
      match demo_perform (CallCreate 0 1 7) s1 with Ok _ => true | _ => false end
  | _ => false
  end.

Definition starting_then (f : sched -> bool) : bool :=
  match demo_start with Some s => f s | None => false end.

Lemma starting_reachable f :
  starting_then f = true -> exists s, reachable 32768 no_timer 936 s /\ f s = true.
Proof.
  unfold starting_then, demo_start.
  destruct (initialize 32768 no_timer 936 65536 5 blank) as [[[] s]|e|e] eqn:E0; [|done..].
  intros Hf. exists s. split; [|done].
  exact (reach_start 32768 no_timer 936 blank 65536 5 s blank_unstarted ltac:(lia) E0).
Qed.

(** A program that starts, gets a first block for the main thread and creates
    another thread. *)
Lemma library_safety_witness :
  exists s s1 s2, reachable 32768 no_timer 936 s /\
    demo_perform (CallMalloc 0 100) s = Ok (tt, s1) /\ reachable 32768 no_timer 936 s1 /\
    demo_perform (CallCreate 0 1 7) s1 = Ok (tt, s2) /\ reachable 32768 no_timer 936 s2.
Proof.
  destruct (starting_reachable first_run) as (s & Hr & H); [vm_compute; reflexivity|].
  unfold first_run in H. apply andb_true_iff in H as [H1 H].
  destruct (library_safety 32768 no_timer 936 s ltac:(lia) ltac:(lia) Hr) as [_ Hc].
  destruct (Hc (CallMalloc 0 100)) as (s1 & E1 & Hr1).
  { split; [lia|]. apply (first_tables_request s 100 H1); lia. }
  rewrite E1 in H. apply andb_true_iff in H as [H2 H].
  destruct (demo_perform (CallCreate 0 1 7) s1) as [[[] s2]|e|e] eqn:E2; [|discriminate H..].
  destruct (library_safety 32768 no_timer 936 s1 ltac:(lia) ltac:(lia) Hr1) as [(v & l & Hs1) Hc1].
  destruct (Hc1 (CallCreate 0 1 7)) as (s2' & E2' & Hr2).
  { exact (can_call_allowed 32768 no_timer 936 ltac:(lia) ltac:(lia) s1 v l _ s2 Hs1 H2 E2). }
  exists s, s1, s2'. split; [exact Hr|]. split; [exact E1|]. split; [exact Hr1|].
  split; [exact E2'|exact Hr2].
Defined.
